(* ===== verification/_CoqProject ===== *)
-Q . S2P
Prelude.v
GoStrings.v
GoCrypto.v
Utf8.v
Json.v
JsonFields.v
Config.v
Schema.v
Crl.v
Store.v
AuditLog.v
Rows.v
StoreSpec.v
Bolt.v
Redis.v
AuditStore.v
Policy.v
Dedup.v
Core.v
Transit.v
Delivery.v
Gateway.v
Conformance.v
Background.v
Builders.v
GoText.v
GoFlag.v
Tls.v
Session.v
Token.v
Identity.v
Terminal.v
Connect.v
PeerDiscovery.v
Discovery.v
RateLimit.v
Metrics.v
Exposition.v
ConnPool.v
Webhook.v
Adapter.v
Handshake.v
Codec.v
Service.v
Messages.v
AdapterDiscovery.v
DiscoveryNet.v
Registry.v
Inbox.v
Callbacks.v
Forwarding.v
HttpStores.v
HttpAuth.v
ConfigJson.v
Http.v
AuditFile.v
CliAudit.v
CliNode.v
Cli.v
HttpAdmin.v
HttpServer.v
HttpSafety.v
HttpFlows.v
CliServer.v
HttpDemo.v
CliDemo.v
App.v
Node.v
Startup.v
Run.v
Corridor.v
