(* ===== verification/Prelude.v ===== *)
(** * MRMI Gateway: a verification library

    MRMI Gateway is a federated message gateway written in Go.  A node receives
    envelopes over gRPC or HTTP, drops duplicates, evaluates its policy, records
    every decision in a hash-chained audit log, tells local subscribers, and
    forwards allowed envelopes to peer nodes, with retries, a transit cache and a
    dead-letter queue.  Nodes find each other by discovery requests, connect with
    one-time tokens, and gossip revocations, peers and audit root hashes.

    This library models the Go code as executable definitions and proves what
    makes each component correct.  Every file names the Go package it models, and
    definitions keep the names of the Go functions, with a distinguishing word
    where two packages use the same name ([NewCache] for [transit.New],
    [VerifySig] for [identity.Verify], [ResolveConnect] for [connect.Resolve]).

    ** Layout

    Foundations:
    - [Prelude] (this file): machine integers with their wrap-around, time, the
      result type [outcome] with the notation [let! x := m in k], slices and
      strings, and the tactics [go_bool], [case_guards], [str_compute], [go_solve]
      with the hint databases [mrmi] and [gobool].
    - [GoStrings], [GoCrypto], [Utf8]: what the code uses of the standard library:
      UTF-8, [TrimSpace], [ToUpper], [ToLower], [EqualFold], decimal printing;
      SHA-256, FNV-1a, hexadecimal, base64.  The case tables of package [unicode]
      beyond ASCII are the class [UnicodeTables].
    - [Json], [JsonFields]: the texts [encoding/json] writes and reads, and how it
      assigns members to the fields of a struct.
    - [GoText], [GoFlag]: what the programs use beyond that: fields of a text,
      durations, dates, quoting, [text/tabwriter]; the package [flag].

    Configuration and policy:
    - [Config] (internal/config): the configuration types, presets, the overlay of
      a TOML file ([apply]), [Load] and [Validate]; [ConfigJson]: a configuration
      from the body of a request; [Schema] (internal/schema): schema types, "HH:MM"
      parsing, cutoff windows; [Crl] (internal/crl): the revocation list;
      [Policy] (internal/policy): [Evaluate], [EvaluateDiscovery], [Reload], and the
      declarative specification [Permitted].

    Persistence:
    - [Store] (internal/store): the interface [NodeStore], a type class; [Rows]: the
      JSON text of its rows; [StoreSpec]: abstract tables, the contract
      [StoreContract] and the tables as an automaton; [Bolt], [Redis]
      (internal/store/bbolt, redis): the two backends, which discharge the contract;
      [AuditLog] (internal/audit): the hash-chained log; [AuditStore]: the log on a
      backend, proved against the contract.

    The gateway:
    - [Core] (internal/core, data), [Dedup] (internal/dedup), [Transit]
      (internal/transit), [Delivery] (internal/delivery): retries, peer selection,
      [Forward], with its environment as the class [Runtime]; [Gateway]
      (internal/core, operations): [SendEnvelope] over the objects it shares with
      the other components; the forwarder is the class [CoreForwarder], which the
      forwarder of [Delivery] implements; [Background] (internal/dummy, dnstxt):
      dummy traffic and published root hashes; [Builders] (internal/schema/builders).
    - [Conformance]: the order of rules and the hash chain of docs/PROTOCOL_SPEC.md,
      written down from the document, against the gateway and the audit log.

    Between nodes:
    - [Session], [Token], [Identity], [Connect], [PeerDiscovery] (internal/session,
      token, identity, connect, peerdiscovery, peercache, trustdecay), [Tls]
      (internal/tlsutil), [RateLimit], [Discovery], [Registry] (internal/ratelimit,
      discovery, registry).
    - internal/transport/grpc: [Adapter] the calls a node answers, [Handshake] calls
      of [Connect] interleaved at the lock of the token store,
      [AdapterDiscovery] the call [BroadcastDiscovery], [DiscoveryNet] its flood over
      a network of nodes, [Codec] the JSON text of an envelope, [Service] the
      table of methods and the client, [Messages] the JSON text of all messages and a
      call over the network, [ConnPool] [Dial] and the pool of connections.
    - [Forwarding]: the closure of app.go that sends an envelope to a peer.

    The node:
    - [Inbox], [Metrics], [Webhook] (internal/inbox, metrics, webhook), [Callbacks]:
      what happens on each decision; [Exposition] (internal/metrics, logger): the page
      of [/metrics].
    - [HttpStores], [HttpAuth], [Http], [HttpAdmin], [HttpServer] (internal/server):
      the runtime stores, authentication, the handlers, routing; [HttpSafety],
      [HttpFlows]: what arbitrary requests can and cannot do; [HttpDemo]: a concrete
      server on which their witnesses run.
    - [App] (internal/app, hotreload): reload, the watcher, gossip, flushes and
      purges; [Node]: server, gateway and watcher together, as a step relation.
    - [Startup] (internal/app, transport/grpc/server.go): [Run] from its first line
      to its end, with what it opens, starts and closes; [Run]: a started node under
      requests, remote calls, ticks and exchanges.
    - [Corridor]: the forwarding function of one node over connections that lose
      requests and answers to the started nodes behind its peers' addresses; it
      instantiates [Runtime], so the theorems of [Delivery] hold of it.

    The programs:
    - [Terminal]: the command line's world (output, files, requests sent, what the
      outside answers) and the monad [Cmd] of its commands; [CliAudit], [CliNode] (cmd/mrmi):
      the commands; [Cli] (cmd/mrmi, cmd/mrmi-gateway): [main] of both programs;
      [AuditFile] (internal/audit): log files; [CliServer]: the tool against the server of
      [HttpServer]; [CliDemo]: its witnesses.

    ** How the code is modelled

    A function that mutates an object takes the object and returns it changed.
    Objects several components point to (the audit log, the revocation list, the
    deduplication index, the forwarder, the token store) are fields of the state
    of the caller ([GwState], [AdapterState], [FwdState]).  A nil pointer is
    [None], or a flag where only its presence matters.  An [int64], [uint32] or
    [uint64] is a [Z] with [wrap_i64], [wrap_u32], [wrap_u64] applied where the
    code can overflow; a [float64] is a binary64 number of [SpecFloat]; a string
    is its bytes.  A [[]byte] is an option, [None] for nil, because JSON tells nil
    from empty.  Every call of [time.Now] is an argument, every random number, new
    identifier and file content too.  Where Go ranges over a map, the order is an
    argument and the theorems hold for every order that lists the map.  Locks make
    the operations atomic; [Dedup.reach] interleaves them, with the per-shard
    sweeps of a purge as separate steps, and [Gateway.gw_reach] lets the other
    components act between the calls of the gateway.  [Connect] takes a lock three
    times: it is one step in [Run], and [Handshake] interleaves its steps.  A single call of
    [SendEnvelope] is not interleaved with another one beyond that.

    Functions are total: loops are structural, and the retry loop recurses on the
    number of attempts left, [MaxAttempts], which is exactly the number of rounds
    of the Go loop.  Fuel is computed from the input: in [GoStrings.itoa] (the number
    of digits), the block loops of SHA-256 (the number of blocks), the JSON parser
    (the number of runes, which [Json.render_reads_back] shows to be enough for every
    rendered value) and the discovery flood (the hops of the request, which
    [flood_terminates] shows to be enough), the parts of a duration (the characters of
    its text, each part consuming one), and the columns of a table (its cells).

    A remote call that asks the peers lets other things happen to the node meanwhile:
    in [Run.runs] such calls nest, to any depth.

    ** What the theorems show

    - Gateway: a key is processed at most once per window ([gateway_at_most_once]);
      only permitted envelopes leave ([only_permitted_leave]); every call is
      audited and reports the final root ([SendEnvelope_audited]); an allowed
      envelope is delivered or kept ([allowed_not_lost]); padding
      ([applyPadding_bucket]).
    - Policy: the guards refine [Permitted] ([Evaluate_refines_Permitted]), with
      the fixed health-data floor, revocation first, and valid configurations only.
    - The protocol: the gateway decides by the specified rules in the specified order,
      up to two checks of its own ([gateway_conforms]); a verifier built from the
      specification accepts exactly the logs without settlement flags
      ([spec_verifier_exact], [payments_break_conformance]).
    - AuditLog: logs with one root are equal, entry by entry and field by field, as
      long as SHA-256 tells their texts apart ([hashes_apart], a test on the two logs);
      reachable logs verify, and offline verification agrees with the node.
    - Persistence: along sequences of operations with rows that fit and growing
      sequence numbers each backend answers as abstract tables do, and fails only where
      its database does ([bolt_refines], [redis_refines]); the log read from a store is
      the log in memory, less the fields a row leaves out ([Recent_reads_store]).
    - Dedup: sharding refines one map; the index remembers exactly the open
      windows, whatever the interleaving.
    - Delivery and Transit: peer selection, the retry outcome and its backoff,
      conservation of the envelope, bounds of the cache, nothing lost in a flush.
    - Config and Schema: exact validation and loading, cutoff windows as intervals
      of the dial, the next opening.
    - Between nodes: convergence of revocation gossip, single use of tokens
      by calls that do not overlap ([Connect_single_use]),
      authentication of wire envelopes, envelopes surviving the wire
      ([wire_roundtrip]), remote calls that are calls of the service
      ([remote_calls_faithful]), termination of
      discovery floods ([flood_terminates]), sharing of connections
      ([pool_shares_connections]), nothing left open by a failed [Dial]
      ([Dial_leaves_nothing]).  End to end: a permitted envelope reaches the log and the
      subscribers of the peer and its root comes back ([corridor_delivers]); however
      requests and answers are lost, a peer processes it at most once
      ([forwarded_once]), while two peers may both process it
      ([demo_processed_ex]).
    - The node: outsiders cannot administer it ([outsiders_cannot_administer]); when it
      starts and what it leaves open ([start_outcome]); from its start it keeps a
      valid configuration, a verifying log and well-formed stores ([node_stays_sound],
      [serve_wf]); its metrics page tells its log ([metrics_page_counts]); issued tokens
      open what they name.
    - The programs: what a successful check over HTTPS establishes, and that it
      succeeds against an honest node ([https_verdict_sound],
      [cli_confirms_published_root]); log files ([offline_verification]); tokens
      ([cli_token_lifetime]), tables ([dlq_table_exact], [status_shown]), records of the
      DNS ([dns_record_shown]), keys ([keygen_files]); exit status, output and
      requests of any command ([mrmi_discipline]); the configuration of a gateway
      ([gateway_process]).
    - Deviations of the code from its intent are theorems too:
      [signed_dummy_bypass], [denial_becomes_delivery], [forwarding_drops_schema],
      [replay_in_window_loses], [outsiders_can_revoke], [gossip_keeps_dead_peers],
      [schema_documents_rejected], [restart_hides_newest],
      [dummy_traffic_stays_home], [uppercase_strict_gets_balanced_preset],
      [NextOpen_clock_change], [iso_window_overflow], [empty_payload_rejected],
      [auto_mutual_needs_second_token], [token_used_twice], [custom_without_id], [close_misses_dialling_call],
      [signatures_not_checked], [only_publisher_panics], [runEnd_stops],
      [latest_answer_fails], [bic_hint_never_matches].

    ** Assumptions

    Parameters stand for code outside the repository and carry its documented
    behaviour: [Ed25519] (a signature made with a private key verifies under its
    public key and is 64 bytes long), [Jwt] (a valid token was verified with the key of
    the server; parsing gives back what was signed until it expires), [Runtime] (ranging over a map visits every entry
    once; transport, timers and clock are arbitrary), [BoltLaws] and [RedisLaws] (what
    a transaction or a command does to the data, whether it succeeds or fails, and that
    it succeeds while the database works),
    [GrpcConn] (a closed connection is shut down), [KeyFormat] (the PEM and PKIX text of
    a key is decoded to that key), [PrintTable] (which runes are printable),
    [CliServer.answersAt] (an HTTP request reaches the server with its method, path,
    headers and body, and its answer comes back), [UnicodeTables], the time-zone
    database, the file system, certificates, the TOML decoder and error texts
    (arbitrary).  Each has a concrete instance with which the witnesses are evaluated.

    ** Not modelled

    Listening and serving are calls into net/http and the gRPC library; the loops around
    tickers only wait, and their ticks are steps of [Run.run_step] or operations of
    [App], [Background] and [RateLimit]; the functions of internal/logger that write
    records have no effect but output; the dashboard files are data; internal/testcerts
    makes certificates for tests, by calls into crypto/x509 alone.  None of these has
    behaviour of its own to state.

    Calls of one gateway are not interleaved inside [SendEnvelope], and the retry loop of
    the forwarder runs inside one step of [Run.run_step].  [Corridor] joins one sender to
    its peers; what a peer forwards in turn goes to its own world, whose links may be
    those of another corridor but are not shared with the sender. *)

From Stdlib Require Export ZArith Lia Bool String Ascii.
From stdpp Require Export gmap strings list fin_maps.

#[global] Set Default Goal Selector "!".
Open Scope Z_scope.

(** ** Machine integers

    Go's fixed-width integers are [Z] with the wrap-around written out. *)

Definition wrap_u32 (z : Z) : Z := z mod 2 ^ 32.
Definition wrap_u64 (z : Z) : Z := z mod 2 ^ 64.
Definition wrap_i64 (z : Z) : Z := (z + 2 ^ 63) mod 2 ^ 64 - 2 ^ 63.

Definition in_u32 (z : Z) : Prop := 0 <= z < 2 ^ 32.
Definition in_u64 (z : Z) : Prop := 0 <= z < 2 ^ 64.
Definition in_i64 (z : Z) : Prop := - 2 ^ 63 <= z < 2 ^ 63.

Lemma wrap_u32_range z : in_u32 (wrap_u32 z).
Proof. apply Z.mod_pos_bound. lia. Qed.

Lemma wrap_u64_range z : in_u64 (wrap_u64 z).
Proof. apply Z.mod_pos_bound. lia. Qed.

Lemma wrap_i64_range z : in_i64 (wrap_i64 z).
Proof.
  unfold in_i64, wrap_i64. pose proof (Z.mod_pos_bound (z + 2 ^ 63) (2 ^ 64)). lia.
Qed.

Lemma wrap_u32_id z : in_u32 z -> wrap_u32 z = z.
Proof. apply Z.mod_small. Qed.

Lemma wrap_u64_id z : in_u64 z -> wrap_u64 z = z.
Proof. apply Z.mod_small. Qed.

Lemma wrap_i64_id z : in_i64 z -> wrap_i64 z = z.
Proof. unfold in_i64, wrap_i64. intros. rewrite Z.mod_small; lia. Qed.

(** ** Time

    A [time.Time] is the number of nanoseconds since the Unix epoch and a
    [time.Duration] a number of nanoseconds; each call of [time.Now()] in the
    Go code is an argument [now] of the definition that models the call. *)

Definition Nanosecond : Z := 1.
Definition Millisecond : Z := 1000000.
Definition Second : Z := 1000 * Millisecond.
Definition Minute : Z := 60 * Second.
Definition Hour : Z := 60 * Minute.

(** [t.Unix()] and [t.UnixMilli()] round towards minus infinity. *)
Definition Unix (t : Z) : Z := t / Second.
Definition UnixMilli (t : Z) : Z := t / Millisecond.

(** [time.Duration(n) * unit], an [int64] product. *)
Definition mul_duration (n unit_ : Z) : Z := wrap_i64 (n * unit_).

(** ** Results: a Go pair [(value, error)] *)

Inductive outcome (E A : Type) : Type :=
| Ok (a : A)
| Err (e : E).
Arguments Ok {E A} a.
Arguments Err {E A} e.

Definition obind {E A B} (m : outcome E A) (k : A -> outcome E B) : outcome E B :=
  match m with Ok a => k a | Err e => Err e end.

Declare Scope go_scope.
Delimit Scope go_scope with go.
Notation "'let!' x := m 'in' k" := (obind m (fun x => k))
  (at level 10, x name, m at level 100, k at level 200) : go_scope.

Lemma obind_Ok {E A B} (m : outcome E A) (k : A -> outcome E B) b :
  obind m k = Ok b <-> exists a, m = Ok a /\ k a = Ok b.
Proof. destruct m; cbn; naive_solver. Qed.

(** ** Slices and strings *)

(** [s == t] on Go strings. *)
Definition str_eqb (s t : string) : bool := bool_decide (s = t).

(** [slices.Contains(l, x)] for a slice of strings. *)
Definition Contains (l : list string) (x : string) : bool := bool_decide (x ∈ l).

Lemma str_eqb_eq s t : str_eqb s t = true <-> s = t.
Proof. apply bool_decide_eq_true. Qed.

Lemma str_eqb_neq s t : str_eqb s t = false <-> s <> t.
Proof. apply bool_decide_eq_false. Qed.

Lemma str_eqb_refl s : str_eqb s s = true.
Proof. by apply str_eqb_eq. Qed.

Lemma Contains_true l x : Contains l x = true <-> x ∈ l.
Proof. apply bool_decide_eq_true. Qed.

Lemma Contains_false l x : Contains l x = false <-> x ∉ l.
Proof. apply bool_decide_eq_false. Qed.

(** [len(s) > 0] *)
Definition nonempty {A} (l : list A) : bool := match l with [] => false | _ => true end.

Lemma nonempty_true {A} (l : list A) : nonempty l = true <-> l <> [].
Proof. destruct l; cbn; naive_solver. Qed.

Lemma nonempty_false {A} (l : list A) : nonempty l = false <-> l = [].
Proof. destruct l; cbn; naive_solver. Qed.

(** A decidable property of the integers below a bound, by enumeration. *)
Lemma forallb_below (f : Z -> bool) n :
  forallb f (seqZ 0 n) = true -> forall x, 0 <= x < n -> f x = true.
Proof.
  intros H x Hx. rewrite forallb_forall in H. apply H.
  apply list_elem_of_In, elem_of_seqZ. lia.
Qed.

(** ** Sizes of maps *)

Lemma map_size_insert_le {A} (m : gmap string A) k v : (size (<[k := v]> m) <= S (size m))%nat.
Proof. rewrite map_size_insert. destruct (m !! k); cbn; lia. Qed.

Lemma map_size_mono {A} (m1 m2 : gmap string A) : m1 ⊆ m2 -> (size m1 <= size m2)%nat.
Proof.
  intros Hsub. rewrite <- !(size_dom (D := gset string)). by apply subseteq_size, subseteq_dom.
Qed.

(** ** Automation *)

Create HintDb mrmi.
Create Rewrite HintDb gobool.
#[export] Hint Resolve wrap_u32_range wrap_u64_range wrap_i64_range : mrmi.
#[export] Hint Rewrite str_eqb_eq str_eqb_neq Contains_true Contains_false
  @nonempty_true @nonempty_false Bool.negb_true_iff Bool.negb_false_iff
  Bool.andb_true_iff Bool.andb_false_iff Bool.orb_true_iff Bool.orb_false_iff
  Z.ltb_lt Z.ltb_ge Z.leb_le Z.leb_gt Z.eqb_eq Z.eqb_neq : gobool.

(** Turns boolean guards in the hypotheses and the goal into propositions. *)
Ltac go_bool := autorewrite with gobool in *.

(** Case analysis on the guards of nested conditionals, keeping each equation. *)
Ltac case_guards :=
  repeat match goal with
  | |- context [if ?b then _ else _] =>
      lazymatch type of b with bool => destruct b eqn:? | _ => destruct b end
  | |- context [match ?x with Some _ => _ | None => _ end] => destruct x eqn:?
  end.

(** Evaluates the comparisons of closed strings in the goal. *)
Ltac str_compute :=
  repeat match goal with
  | |- context [str_eqb ?a ?b] =>
      let v := eval vm_compute in (str_eqb a b) in
      lazymatch v with true => idtac | false => idtac end;
      change (str_eqb a b) with v
  end; cbn [orb andb negb].

(** Closes a propositional goal about guards after [case_guards]. *)
Ltac go_solve := go_bool; intuition (congruence || auto).
