(* ===== verification/GoStrings.v ===== *)
(** * Go strings: UTF-8 and the functions of package [strings]

    A Go string is a sequence of bytes, here a [string] of 8-bit [ascii]
    characters.  This file models what the gateway uses of the packages
    [unicode/utf8], [strings] and [strconv]: decoding to runes (with Go's
    treatment of invalid bytes), [TrimSpace], [ToUpper], [ToLower],
    [EqualFold], [HasPrefix], [Contains], and decimal printing.  The Unicode
    case tables for runes outside ASCII are data of the Go distribution; they
    are the methods of the class [UnicodeTables], over which every definition
    and theorem is quantified. *)

From S2P Require Import Prelude.

Definition byteZ (a : ascii) : Z := Z.of_N (N_of_ascii a).
Definition chr (z : Z) : ascii := ascii_of_N (Z.to_N z).

Lemma byteZ_range a : 0 <= byteZ a < 256.
Proof. unfold byteZ. pose proof (N_ascii_bounded a). lia. Qed.

Lemma byteZ_chr z : 0 <= z < 256 -> byteZ (chr z) = z.
Proof. intros. unfold byteZ, chr. rewrite N_ascii_embedding; lia. Qed.

Lemma chr_byteZ a : chr (byteZ a) = a.
Proof. unfold byteZ, chr. rewrite N2Z.id. apply ascii_N_embedding. Qed.

(** ** UTF-8 *)

(** One step of [for _, c := range s]: a decoded rune, or a byte that does
    not start a valid encoding (Go yields U+FFFD with width 1 for it). *)
Inductive rune_item := Rune (r : Z) | BadByte.

Definition RuneError : Z := 0xFFFD.

Definition is_cont (b : Z) : bool := (0x80 <=? b) && (b <=? 0xBF).

(** The ranges of [unicode/utf8]'s [first] and [acceptRanges] tables. *)
Definition valid2 (x y : Z) : bool := (0xC2 <=? x) && (x <=? 0xDF) && is_cont y.

Definition valid3 (x y z : Z) : bool :=
  (0xE0 <=? x) && (x <=? 0xEF) && is_cont z &&
  (if x =? 0xE0 then (0xA0 <=? y) && (y <=? 0xBF)
   else if x =? 0xED then (0x80 <=? y) && (y <=? 0x9F)
   else is_cont y).

Definition valid4 (x y z w : Z) : bool :=
  (0xF0 <=? x) && (x <=? 0xF4) && is_cont z && is_cont w &&
  (if x =? 0xF0 then (0x90 <=? y) && (y <=? 0xBF)
   else if x =? 0xF4 then (0x80 <=? y) && (y <=? 0x8F)
   else is_cont y).

Definition bits6 (b : Z) : Z := Z.land b 0x3F.

Fixpoint decode (s : string) : list rune_item :=
  match s with
  | EmptyString => []
  | String a s1 =>
      let x := byteZ a in
      if x <? 0x80 then Rune x :: decode s1 else
      match s1 with
      | EmptyString => BadByte :: decode s1
      | String b s2 =>
          let y := byteZ b in
          if valid2 x y then Rune (Z.land x 0x1F * 64 + bits6 y) :: decode s2 else
          match s2 with
          | EmptyString => BadByte :: decode s1
          | String c s3 =>
              let z := byteZ c in
              if valid3 x y z
              then Rune (Z.land x 0x0F * 4096 + bits6 y * 64 + bits6 z) :: decode s3 else
              match s3 with
              | EmptyString => BadByte :: decode s1
              | String d s4 =>
                  let w := byteZ d in
                  if valid4 x y z w
                  then Rune (Z.land x 0x07 * 262144 + bits6 y * 4096 + bits6 z * 64 + bits6 w)
                         :: decode s4
                  else BadByte :: decode s1
              end
          end
      end
  end.

Definition item_rune (i : rune_item) : Z :=
  match i with Rune r => r | BadByte => RuneError end.

(** The runes [range s] yields. *)
Definition runes (s : string) : list Z := item_rune <$> decode s.

(** [utf8.EncodeRune] *)
Definition encode_rune (r : Z) : string :=
  let str l := string_of_list_ascii (chr <$> l) in
  let enc3 r := str [Z.lor 0xE0 (Z.shiftr r 12); Z.lor 0x80 (bits6 (Z.shiftr r 6)); Z.lor 0x80 (bits6 r)] in
  if r <? 0 then enc3 RuneError
  else if r <? 0x80 then str [r]
  else if r <? 0x800 then str [Z.lor 0xC0 (Z.shiftr r 6); Z.lor 0x80 (bits6 r)]
  else if (0xD800 <=? r) && (r <=? 0xDFFF) then enc3 RuneError
  else if r <? 0x10000 then enc3 r
  else if r <=? 0x10FFFF
  then str [Z.lor 0xF0 (Z.shiftr r 18); Z.lor 0x80 (bits6 (Z.shiftr r 12));
            Z.lor 0x80 (bits6 (Z.shiftr r 6)); Z.lor 0x80 (bits6 r)]
  else enc3 RuneError.

Definition encode (rs : list Z) : string :=
  foldr (fun r acc => append (encode_rune r) acc) EmptyString rs.

(** ** [strings.TrimSpace]

    The byte sequences of the runes for which [unicode.IsSpace] holds. *)

Definition space1 (a : ascii) : bool :=
  let x := byteZ a in ((0x09 <=? x) && (x <=? 0x0D)) || (x =? 0x20).

Definition space2 (a b : ascii) : bool :=
  (byteZ a =? 0xC2) && ((byteZ b =? 0x85) || (byteZ b =? 0xA0)).

Definition space3 (a b c : ascii) : bool :=
  let x := byteZ a in let y := byteZ b in let z := byteZ c in
  ((x =? 0xE1) && (y =? 0x9A) && (z =? 0x80)) ||
  ((x =? 0xE2) && (y =? 0x80) &&
     (((0x80 <=? z) && (z <=? 0x8A)) || (z =? 0xA8) || (z =? 0xA9) || (z =? 0xAF))) ||
  ((x =? 0xE2) && (y =? 0x81) && (z =? 0x9F)) ||
  ((x =? 0xE3) && (y =? 0x80) && (z =? 0x80)).

Fixpoint trim_left (l : list ascii) : list ascii :=
  match l with
  | [] => []
  | a :: l1 =>
      if space1 a then trim_left l1 else
      match l1 with
      | [] => l
      | b :: l2 =>
          if space2 a b then trim_left l2 else
          match l2 with
          | [] => l
          | c :: l3 => if space3 a b c then trim_left l3 else l
          end
      end
  end.

(** The same on a reversed string, for the right end. *)
Fixpoint trim_left_rev (l : list ascii) : list ascii :=
  match l with
  | [] => []
  | a :: l1 =>
      if space1 a then trim_left_rev l1 else
      match l1 with
      | [] => l
      | b :: l2 =>
          if space2 b a then trim_left_rev l2 else
          match l2 with
          | [] => l
          | c :: l3 => if space3 c b a then trim_left_rev l3 else l
          end
      end
  end.

Definition TrimSpace (s : string) : string :=
  string_of_list_ascii (rev (trim_left_rev (rev (trim_left (list_ascii_of_string s))))).

(** [strings.TrimSpace(s) == ""] *)
Definition blank (s : string) : bool := str_eqb (TrimSpace s) "".

(** ** Case mapping *)

Class UnicodeTables := {
  upper_hi : Z -> Z;   (** [unicode.ToUpper] on runes from 0x80 *)
  lower_hi : Z -> Z;   (** [unicode.ToLower] on runes from 0x80 *)
  fold_hi : Z -> Z -> bool; (** [fold_hi a b], for [a < b] and [0x80 <= b]:
     [b] is reached from [a] by iterating [unicode.SimpleFold] *)
}.

Definition upper_rune `{UnicodeTables} (r : Z) : Z :=
  if (97 <=? r) && (r <=? 122) then r - 32 else if r <? 0x80 then r else upper_hi r.

Definition lower_rune `{UnicodeTables} (r : Z) : Z :=
  if (65 <=? r) && (r <=? 90) then r + 32 else if r <? 0x80 then r else lower_hi r.

Definition ToUpper `{UnicodeTables} (s : string) : string := encode (upper_rune <$> runes s).
Definition ToLower `{UnicodeTables} (s : string) : string := encode (lower_rune <$> runes s).

(** The comparison of two runes in [strings.EqualFold]. *)
Definition fold_rune `{UnicodeTables} (sr tr : Z) : bool :=
  if sr =? tr then true else
  let lo := Z.min sr tr in
  let hi := Z.max sr tr in
  if hi <? 0x80 then (65 <=? lo) && (lo <=? 90) && (hi =? lo + 32)
  else fold_hi lo hi.

Fixpoint fold_runes `{UnicodeTables} (s t : list Z) : bool :=
  match s, t with
  | [], [] => true
  | a :: s', b :: t' => fold_rune a b && fold_runes s' t'
  | _, _ => false
  end.

Definition EqualFold `{UnicodeTables} (s t : string) : bool := fold_runes (runes s) (runes t).

Lemma fold_rune_refl `{UnicodeTables} r : fold_rune r r = true.
Proof. unfold fold_rune. by rewrite Z.eqb_refl. Qed.

Lemma EqualFold_refl `{UnicodeTables} s : EqualFold s s = true.
Proof.
  unfold EqualFold. induction (runes s) as [|r l IH]; cbn; [done|].
  by rewrite fold_rune_refl, IH.
Qed.

Lemma EqualFold_sym `{UnicodeTables} s t : EqualFold s t = EqualFold t s.
Proof.
  unfold EqualFold. generalize (runes s) (runes t). clear.
  intros l. induction l as [|a l IH]; intros [|b k]; cbn; try done.
  rewrite IH. f_equal. unfold fold_rune.
  by rewrite Z.eqb_sym, Z.min_comm, Z.max_comm.
Qed.

(** ** Substrings *)

Definition HasPrefix (s pre : string) : bool := String.prefix pre s.

Fixpoint Substring_at (s sub : string) : bool :=
  String.prefix sub s || match s with EmptyString => false | String _ s' => Substring_at s' sub end.

(** [strings.Contains(s, sub)] *)
Definition StringsContains (s sub : string) : bool := Substring_at s sub.

(** What has a prefix is the prefix and a rest. *)
Lemma prefix_append p s : HasPrefix (append p s) p = true.
Proof.
  unfold HasPrefix. induction p as [|a p IH]; [by destruct s|].
  change (append (String a p) s) with (String a (append p s)). cbn. by destruct (ascii_dec a a).
Qed.

Lemma prefix_split s p : HasPrefix s p = true -> exists t, s = append p t.
Proof.
  unfold HasPrefix. revert s. induction p as [|a p IH]; intros s Hp; [by exists s|].
  destruct s as [|b s]; [done|]. cbn in Hp. destruct (ascii_dec a b) as [->|]; [|done].
  destruct (IH s Hp) as [t ->]. by exists t.
Qed.

Lemma HasPrefix_iff s p : HasPrefix s p = true <-> exists t, s = append p t.
Proof. split; [apply prefix_split|]. intros [t ->]. apply prefix_append. Qed.

(** ** Decimal printing: [%d] and [strconv.Itoa] *)

Fixpoint digits_fuel (fuel : nat) (n : Z) (acc : string) : string :=
  match fuel with
  | O => acc
  | S f =>
      let acc' := String (chr (48 + n mod 10)) acc in
      if n <? 10 then acc' else digits_fuel f (n / 10) acc'
  end.

(** Twenty digits are enough for every 64-bit integer. *)
Definition itoa (n : Z) : string :=
  if n <? 0 then append "-" (digits_fuel 20 (- n) "") else digits_fuel 20 n "".

(** ** A concrete table

    The runes outside ASCII whose simple case mapping or folding leads into
    ASCII (U+0130, U+0131, U+017F, U+212A); all others map to themselves. *)
#[local] Instance ascii_neighbours : UnicodeTables := {|
  upper_hi r := if r =? 0x131 then 73 else if r =? 0x17F then 83 else r;
  lower_hi r := if r =? 0x130 then 105 else if r =? 0x212A then 107 else r;
  fold_hi a b := ((b =? 0x17F) && ((a =? 83) || (a =? 115))) || ((b =? 0x212A) && ((a =? 75) || (a =? 107)))
|}.

Example TrimSpace_ex :
  TrimSpace (append (encode [0x2003; 32; 9]) (append "a b" (encode [0x85; 10]))) = "a b"%string.
Proof. vm_compute. reflexivity. Qed.

Example EqualFold_ex : EqualFold "Strict" (append (encode [0x17F]) "TRICT") = true.
Proof. vm_compute. reflexivity. Qed.

Example ToUpper_ex : ToUpper "same_App_only" = "SAME_APP_ONLY"%string.
Proof. vm_compute. reflexivity. Qed.

Example decode_encode_ex :
  runes (encode [0x41; 0xE9; 0x20AC; 0x1F600]) = [0x41; 0xE9; 0x20AC; 0x1F600].
Proof. vm_compute. reflexivity. Qed.

(** Case tables that leave every rune outside ASCII alone. *)
#[export] Instance ascii_only : UnicodeTables :=
  {| upper_hi := id; lower_hi := id; fold_hi := fun _ _ => false |}.
