(* ===== verification/GoCrypto.v ===== *)
(** * Hashes and encodings of the Go standard library

    What the gateway uses of [crypto/sha256], [hash/fnv], [encoding/hex],
    [encoding/base64] and [encoding/json] (marshalling only), executable on
    byte strings.  The hash functions are the real ones (FIPS 180-4 and
    FNV-1a), so the audit chain of [AuditLog.v] computes the digests the Go
    program computes. *)

From S2P Require Import Prelude GoStrings.

(** ** Strings as lists of bytes *)

Definition bytes_of (s : string) : list Z := byteZ <$> list_ascii_of_string s.
Definition of_bytes (l : list Z) : string := string_of_list_ascii (chr <$> l).

Lemma append_cons a s t : append (String a s) t = String a (append s t).
Proof. reflexivity. Qed.

Lemma append_nil_l t : append EmptyString t = t.
Proof. reflexivity. Qed.

Create Rewrite HintDb gostr.
#[export] Hint Rewrite append_cons append_nil_l : gostr.

Ltac str_simpl := cbn; autorewrite with gostr; cbn.

Lemma list_ascii_app s t :
  list_ascii_of_string (append s t) = list_ascii_of_string s ++ list_ascii_of_string t.
Proof. induction s as [|a s IH]; str_simpl; [done|]. by rewrite IH. Qed.

Lemma length_list_ascii s : length (list_ascii_of_string s) = String.length s.
Proof. induction s as [|a s IH]; cbn; [done|]. by rewrite IH. Qed.

Lemma length_of_bytes l : String.length (of_bytes l) = length l.
Proof.
  unfold of_bytes. by rewrite <- length_list_ascii, list_ascii_of_string_of_list_ascii, length_fmap.
Qed.

Lemma append_inj_r_len p s q t :
  append p s = append q t -> String.length s = String.length t -> p = q /\ s = t.
Proof.
  intros Heq Hlen. apply (f_equal list_ascii_of_string) in Heq.
  rewrite !list_ascii_app in Heq. apply app_inj_2 in Heq; [|by rewrite !length_list_ascii].
  destruct Heq as [H1 H2].
  split; [rewrite <- (string_of_list_ascii_of_string p), H1
         |rewrite <- (string_of_list_ascii_of_string s), H2];
    apply string_of_list_ascii_of_string.
Qed.

Lemma append_inj_l p s t : append p s = append p t -> s = t.
Proof. induction p as [|a p IH]; str_simpl; [done|]. intros [= H]. by apply IH. Qed.

Lemma append_assoc_str s t u : append s (append t u) = append (append s t) u.
Proof. induction s as [|a s IH]; str_simpl; [done|]. by rewrite IH. Qed.

Lemma length_append_str s t : String.length (append s t) = (String.length s + String.length t)%nat.
Proof. induction s as [|a s IH]; str_simpl; [done|]. by rewrite IH. Qed.

(** ** SHA-256 (FIPS 180-4) *)

(** The words of SHA-256 are 32 bits wide: [low32 x = wrap_u32 x]. *)

Definition low32 (x : Z) : Z := Z.land x 0xFFFFFFFF.
Definition add32 (a b : Z) : Z := low32 (a + b).
Definition rotr (n x : Z) : Z := Z.lor (Z.shiftr x n) (low32 (Z.shiftl x (32 - n))).
Definition not32 (x : Z) : Z := Z.lxor x 0xFFFFFFFF.

Definition Ch (x y z : Z) : Z := Z.lxor (Z.land x y) (Z.land (not32 x) z).
Definition Maj (x y z : Z) : Z := Z.lxor (Z.lxor (Z.land x y) (Z.land x z)) (Z.land y z).
Definition Sigma0 (x : Z) : Z := Z.lxor (Z.lxor (rotr 2 x) (rotr 13 x)) (rotr 22 x).
Definition Sigma1 (x : Z) : Z := Z.lxor (Z.lxor (rotr 6 x) (rotr 11 x)) (rotr 25 x).
Definition sigma0 (x : Z) : Z := Z.lxor (Z.lxor (rotr 7 x) (rotr 18 x)) (Z.shiftr x 3).
Definition sigma1 (x : Z) : Z := Z.lxor (Z.lxor (rotr 17 x) (rotr 19 x)) (Z.shiftr x 10).

(** The round constants as FIPS 180-4 defines them: the first 32 bits of the
    fractional parts of the cube roots of the primes up to 311. *)
Definition prime_test (p : Z) : bool := forallb (fun d => negb (p mod d =? 0)) (seqZ 2 (p - 2)).

Definition cube_root (n : Z) : Z :=
  fold_left (fun r b => let r' := r + 2 ^ Z.of_nat b in if r' * r' * r' <=? n then r' else r) (rev (seq 0 36)) 0.

Definition sha_K : list Z :=
  Eval vm_compute in map (fun p => cube_root (p * 2 ^ 96) mod 2 ^ 32) (List.filter prime_test (seqZ 2 310)).

Record sha_state := ShaState { sA : Z; sB : Z; sC : Z; sD : Z; sE : Z; sF : Z; sG : Z; sH : Z }.

Definition sha_init : sha_state :=
  ShaState 0x6a09e667 0xbb67ae85 0x3c6ef372 0xa54ff53a 0x510e527f 0x9b05688c 0x1f83d9ab 0x5be0cd19.

Definition sha_round (st : sha_state) (kw : Z) : sha_state :=
  let t1 := low32 (sH st + Sigma1 (sE st) + Ch (sE st) (sF st) (sG st) + kw) in
  let t2 := low32 (Sigma0 (sA st) + Maj (sA st) (sB st) (sC st)) in
  ShaState (add32 t1 t2) (sA st) (sB st) (sC st) (add32 (sD st) t1) (sE st) (sF st) (sG st).

(** The sliding window holds the next sixteen words of the message schedule. *)
Fixpoint sha_rounds (ks win : list Z) (st : sha_state) : sha_state :=
  match ks, win with
  | k :: ks', w :: rest =>
      let wnew := low32 (sigma1 (nth 13 rest 0) + nth 8 rest 0 + sigma0 (nth 0 rest 0) + w) in
      sha_rounds ks' (rest ++ [wnew]) (sha_round st (k + w))
  | _, _ => st
  end.

Definition sha_block (st : sha_state) (win : list Z) : sha_state :=
  let r := sha_rounds sha_K win st in
  ShaState (add32 (sA st) (sA r)) (add32 (sB st) (sB r)) (add32 (sC st) (sC r)) (add32 (sD st) (sD r))
           (add32 (sE st) (sE r)) (add32 (sF st) (sF r)) (add32 (sG st) (sG r)) (add32 (sH st) (sH r)).

Fixpoint be_words (l : list Z) : list Z :=
  match l with
  | a :: b :: c :: d :: l' => (Z.shiftl a 24 + Z.shiftl b 16 + Z.shiftl c 8 + d) :: be_words l'
  | _ => []
  end.

Fixpoint be_bytes (n : nat) (z : Z) : list Z :=
  match n with
  | O => []
  | S m => Z.land (Z.shiftr z (8 * Z.of_nat m)) 0xFF :: be_bytes m z
  end.

Definition sha_pad (l : list Z) : list Z :=
  let n := Z.of_nat (length l) in
  l ++ [0x80] ++ replicate (Z.to_nat ((55 - n) mod 64)) 0 ++ be_bytes 8 (8 * n).

Fixpoint sha_blocks (fuel : nat) (ws : list Z) (st : sha_state) : sha_state :=
  match fuel with
  | O => st
  | S f => match ws with [] => st | _ => sha_blocks f (drop 16 ws) (sha_block st (take 16 ws)) end
  end.

(** Each block takes 64 bytes, so the number of bytes is more than enough fuel. *)
Definition sha256_bytes (l : list Z) : list Z :=
  let st := sha_blocks (S (length l)) (be_words (sha_pad l)) sha_init in
  be_bytes 4 (sA st) ++ be_bytes 4 (sB st) ++ be_bytes 4 (sC st) ++ be_bytes 4 (sD st) ++
  be_bytes 4 (sE st) ++ be_bytes 4 (sF st) ++ be_bytes 4 (sG st) ++ be_bytes 4 (sH st).

(** [sha256.Sum256] on the bytes of a string *)
Definition Sum256 (s : string) : string := of_bytes (sha256_bytes (bytes_of s)).

(** ** [hex.EncodeToString] *)

Definition hex_digit (n : Z) : ascii := if n <? 10 then chr (48 + n) else chr (87 + n).

Fixpoint hex_encode (s : string) : string :=
  match s with
  | EmptyString => EmptyString
  | String a s' => String (hex_digit (byteZ a / 16)) (String (hex_digit (byteZ a mod 16)) (hex_encode s'))
  end.

Lemma length_hex_encode s : String.length (hex_encode s) = (2 * String.length s)%nat.
Proof. induction s as [|a s IH]; simpl; [done|]. rewrite IH. lia. Qed.

Lemma length_be_bytes n z : length (be_bytes n z) = n.
Proof. induction n as [|n IH]; cbn; [done|]. by rewrite IH. Qed.

Lemma length_Sum256 s : String.length (Sum256 s) = 32%nat.
Proof. unfold Sum256, sha256_bytes. by rewrite length_of_bytes, !length_app, !length_be_bytes. Qed.

(** ** FNV-1a, 32 bits *)

Definition fnv32a (s : string) : Z :=
  foldl (fun h b => wrap_u32 (Z.lxor h b * 16777619)) 2166136261 (bytes_of s).

(** ** Base64, standard alphabet with padding *)

Definition b64_char (n : Z) : ascii :=
  if n <? 26 then chr (65 + n) else if n <? 52 then chr (71 + n)
  else if n <? 62 then chr (n - 4) else if n =? 62 then "+"%char else "/"%char.

Fixpoint b64_encode (l : list Z) : string :=
  match l with
  | [] => EmptyString
  | [a] => String (b64_char (a / 4)) (String (b64_char (a mod 4 * 16)) "==")
  | [a; b] =>
      String (b64_char (a / 4)) (String (b64_char (a mod 4 * 16 + b / 16))
        (String (b64_char (b mod 16 * 4)) "="))
  | a :: b :: c :: l' =>
      String (b64_char (a / 4)) (String (b64_char (a mod 4 * 16 + b / 16))
        (String (b64_char (b mod 16 * 4 + c / 64)) (String (b64_char (c mod 64)) (b64_encode l'))))
  end.

(** ** [json.Marshal] of flat structs *)

Definition quote_char : ascii := chr 34.
Definition backslash : ascii := chr 92.

Definition json_u00 (n : Z) : string :=
  String backslash (append "u00" (String (hex_digit (n / 16)) (String (hex_digit (n mod 16)) ""))).

(** An ASCII byte inside a JSON string, with the HTML escapes of [json.Marshal]. *)
Definition json_ascii (n : Z) : string :=
  if (n =? 34) || (n =? 92) then String backslash (String (chr n) "")
  else if n =? 8 then String backslash "b"
  else if n =? 9 then String backslash "t"
  else if n =? 10 then String backslash "n"
  else if n =? 12 then String backslash "f"
  else if n =? 13 then String backslash "r"
  else if (n <? 32) || (n =? 38) || (n =? 60) || (n =? 62) then json_u00 n
  else String (chr n) "".

Definition json_item (i : rune_item) : string :=
  match i with
  | BadByte => String backslash "ufffd"
  | Rune r =>
      if r <? 0x80 then json_ascii r
      else if r =? 0x2028 then String backslash "u2028"
      else if r =? 0x2029 then String backslash "u2029"
      else encode_rune r
  end.

Definition json_string (s : string) : string :=
  String quote_char
    (append (foldr (fun i acc => append (json_item i) acc) EmptyString (decode s))
            (String quote_char EmptyString)).

Definition json_bool (b : bool) : string := if b then "true" else "false".

(** A [[]byte] field: nil marshals to [null], a non-nil slice to base64. *)
Definition json_bytes (o : option string) : string :=
  match o with
  | None => "null"
  | Some s => String quote_char (append (b64_encode (bytes_of s)) (String quote_char EmptyString))
  end.

(** A struct field: name, marshalled value, and whether [omitempty] drops it. *)
Record json_field := JsonField { jf_name : string; jf_value : string; jf_omit : bool }.

Definition field (n v : string) : json_field := JsonField n v false.
Definition field_omit (n v : string) (empty : bool) : json_field := JsonField n v empty.

Definition json_member (f : json_field) : string :=
  append (json_string (jf_name f)) (String ":"%char (jf_value f)).

Fixpoint json_members (fs : list json_field) : string :=
  match fs with
  | [] => EmptyString
  | [f] => json_member f
  | f :: fs' => append (json_member f) (String ","%char (json_members fs'))
  end.

Definition json_object (fs : list json_field) : string :=
  String "{"%char
    (append (json_members (base.filter (fun f => jf_omit f = false) fs)) "}").

(** *** Strings whose JSON form is the string itself between quotes *)

Definition plain_char (a : ascii) : bool :=
  let n := byteZ a in
  (32 <=? n) && (n <? 0x80) && negb ((n =? 34) || (n =? 92) || (n =? 38) || (n =? 60) || (n =? 62)).

Fixpoint plain (s : string) : bool :=
  match s with EmptyString => true | String a s' => plain_char a && plain s' end.

Lemma plain_append s t : plain (append s t) = plain s && plain t.
Proof. induction s as [|a s IH]; str_simpl; [done|]. by rewrite IH, andb_assoc. Qed.

Lemma json_ascii_plain a : plain_char a = true -> json_ascii (byteZ a) = String a "".
Proof.
  unfold plain_char, json_ascii. intros H. go_bool. destruct H as [[H1 H2] H3].
  destruct H3 as [[[[H3 H4] H5] H6] H7].
  repeat (match goal with |- context [?x =? ?y] => replace (x =? y) with false by lia end).
  cbn. replace (byteZ a <? 32) with false by lia. cbn. by rewrite chr_byteZ.
Qed.

Lemma json_string_plain s :
  plain s = true -> json_string s = String quote_char (append s (String quote_char EmptyString)).
Proof.
  intros Hp. unfold json_string. do 2 f_equal.
  induction s as [|a s IH]; [done|]. cbn [plain] in Hp. apply andb_true_iff in Hp as [Ha Hs].
  assert ((byteZ a <? 0x80) = true) as Hlt by (unfold plain_char in Ha; go_bool; lia).
  cbn [decode]. rewrite Hlt. cbn [foldr]. rewrite (IH Hs). cbn [json_item].
  rewrite Hlt, json_ascii_plain by done. done.
Qed.

Lemma hex_digit_plain n : 0 <= n < 16 -> plain_char (hex_digit n) = true.
Proof. apply (forallb_below (fun n => plain_char (hex_digit n)) 16). vm_compute. reflexivity. Qed.

Lemma hex_encode_plain s : plain (hex_encode s) = true.
Proof.
  induction s as [|a s IH]; [done|]. cbn [hex_encode plain].
  pose proof (byteZ_range a).
  rewrite !hex_digit_plain, IH; [done| |].
  - apply Z.mod_pos_bound. lia.
  - split; [apply Z.div_pos; lia | apply Z.div_lt_upper_bound; lia].
Qed.

(** ** Test vectors *)

Example sha256_empty :
  hex_encode (Sum256 "") = "e3b0c44298fc1c149afbf4c8996fb92427ae41e4649b934ca495991b7852b855"%string.
Proof. vm_compute. reflexivity. Qed.

Example sha256_abc :
  hex_encode (Sum256 "abc") = "ba7816bf8f01cfea414140de5dae2223b00361a396177a9cb410ff61f20015ad"%string.
Proof. vm_compute. reflexivity. Qed.

Example sha256_two_blocks :
  hex_encode (Sum256 "abcdbcdecdefdefgefghfghighijhijkijkljklmklmnlmnomnopnopq")
  = "248d6a61d20638b8e5c026930c3e6039a33ce45964ff2167f6ecedd419db06c1"%string.
Proof. vm_compute. reflexivity. Qed.

Example fnv32a_foobar : fnv32a "foobar" = 0xbf9cf968.
Proof. vm_compute. reflexivity. Qed.

Example b64_ex : b64_encode (bytes_of "Man, a") = "TWFuLCBh"%string /\ b64_encode (bytes_of "a") = "YQ=="%string.
Proof. vm_compute. done. Qed.
