(* ===== verification/Utf8.v ===== *)
(** * UTF-8: decoding undoes encoding

    Lemmas on [decode] and [encode_rune] of [GoStrings]: a valid rune survives
    the way through its bytes, and decoding only produces valid runes. *)

From S2P Require Import Prelude GoStrings GoCrypto.

(** [utf8.ValidRune] *)
Definition valid_rune (r : Z) : Prop := 0 <= r < 0xD800 \/ 0xE000 <= r <= 0x10FFFF.

Lemma lor_0x80 n : 0 <= n < 64 -> Z.lor 0x80 n = 128 + n.
Proof.
  intros Hn. apply Z.eqb_eq. revert n Hn. apply (forallb_below (fun n => Z.lor 0x80 n =? 128 + n) 64).
  vm_compute. reflexivity.
Qed.

Lemma lor_0xC0 n : 0 <= n < 32 -> Z.lor 0xC0 n = 192 + n.
Proof.
  intros Hn. apply Z.eqb_eq. revert n Hn. apply (forallb_below (fun n => Z.lor 0xC0 n =? 192 + n) 32).
  vm_compute. reflexivity.
Qed.

Lemma lor_0xE0 n : 0 <= n < 16 -> Z.lor 0xE0 n = 224 + n.
Proof.
  intros Hn. apply Z.eqb_eq. revert n Hn. apply (forallb_below (fun n => Z.lor 0xE0 n =? 224 + n) 16).
  vm_compute. reflexivity.
Qed.

Lemma lor_0xF0 n : 0 <= n < 8 -> Z.lor 0xF0 n = 240 + n.
Proof.
  intros Hn. apply Z.eqb_eq. revert n Hn. apply (forallb_below (fun n => Z.lor 0xF0 n =? 240 + n) 8).
  vm_compute. reflexivity.
Qed.

Lemma bits6_mod n : bits6 n = n mod 64.
Proof. unfold bits6. change 0x3F with (Z.ones 6). by rewrite Z.land_ones. Qed.

Lemma land_0x1F n : Z.land n 0x1F = n mod 32.
Proof. change 0x1F with (Z.ones 5). by rewrite Z.land_ones. Qed.

Lemma land_0x0F n : Z.land n 0x0F = n mod 16.
Proof. change 0x0F with (Z.ones 4). by rewrite Z.land_ones. Qed.

Lemma land_0x07 n : Z.land n 0x07 = n mod 8.
Proof. change 0x07 with (Z.ones 3). by rewrite Z.land_ones. Qed.

#[local] Hint Rewrite bits6_mod land_0x1F land_0x0F land_0x07 : utf8.

(** Comparisons of bytes, decided by arithmetic. *)
Ltac byte_tests :=
  repeat match goal with
  | |- context [?x <? ?y] => first [ rewrite (proj2 (Z.ltb_lt x y)) by lia | rewrite (proj2 (Z.ltb_ge x y)) by lia ]
  | |- context [?x <=? ?y] => first [ rewrite (proj2 (Z.leb_le x y)) by lia | rewrite (proj2 (Z.leb_gt x y)) by lia ]
  | |- context [?x =? ?y] => first [ rewrite (proj2 (Z.eqb_eq x y)) by lia | rewrite (proj2 (Z.eqb_neq x y)) by lia ]
  end; cbn [andb orb].

Ltac div64 := Z.div_mod_to_equations; lia.

Lemma decode_1 r s : 0 <= r < 128 -> decode (String (chr r) s) = Rune r :: decode s.
Proof. intros Hr. cbn [decode]. rewrite byteZ_chr by lia. by byte_tests. Qed.

Lemma decode_2 x y s :
  2 <= x < 32 -> 0 <= y < 64 ->
  decode (String (chr (192 + x)) (String (chr (128 + y)) s)) = Rune (x * 64 + y) :: decode s.
Proof.
  intros Hx Hy. cbn [decode]. rewrite !byteZ_chr by lia. unfold valid2, is_cont. byte_tests.
  autorewrite with utf8. do 2 f_equal. div64.
Qed.

Lemma decode_3 x y z s :
  0 <= x < 16 -> 0 <= y < 64 -> 0 <= z < 64 -> (x = 0 -> 32 <= y) -> (x = 13 -> y < 32) ->
  decode (String (chr (224 + x)) (String (chr (128 + y)) (String (chr (128 + z)) s)))
  = Rune (x * 4096 + y * 64 + z) :: decode s.
Proof.
  intros Hx Hy Hz H0 H13. cbn [decode]. rewrite !byteZ_chr by lia. unfold valid2, valid3, is_cont.
  assert (((0xE0 <=? 224 + x) && (224 + x <=? 0xEF) && ((0x80 <=? 128 + z) && (128 + z <=? 0xBF)) &&
    (if 224 + x =? 0xE0 then (0xA0 <=? 128 + y) && (128 + y <=? 0xBF)
     else if 224 + x =? 0xED then (0x80 <=? 128 + y) && (128 + y <=? 0x9F)
     else (0x80 <=? 128 + y) && (128 + y <=? 0xBF))) = true) as ->.
  { destruct (Z.eq_dec x 0) as [->|]; [byte_tests; done|]. destruct (Z.eq_dec x 13) as [->|]; byte_tests; done. }
  byte_tests. autorewrite with utf8. do 2 f_equal. div64.
Qed.

Lemma decode_4 x y z w s :
  0 <= x < 5 -> 0 <= y < 64 -> 0 <= z < 64 -> 0 <= w < 64 -> (x = 0 -> 16 <= y) -> (x = 4 -> y < 16) ->
  decode (String (chr (240 + x)) (String (chr (128 + y)) (String (chr (128 + z)) (String (chr (128 + w)) s))))
  = Rune (x * 262144 + y * 4096 + z * 64 + w) :: decode s.
Proof.
  intros Hx Hy Hz Hw H0 H4. cbn [decode]. rewrite !byteZ_chr by lia. unfold valid2, valid3, valid4, is_cont.
  assert (((0xF0 <=? 240 + x) && (240 + x <=? 0xF4) && ((0x80 <=? 128 + z) && (128 + z <=? 0xBF)) &&
    ((0x80 <=? 128 + w) && (128 + w <=? 0xBF)) &&
    (if 240 + x =? 0xF0 then (0x90 <=? 128 + y) && (128 + y <=? 0xBF)
     else if 240 + x =? 0xF4 then (0x80 <=? 128 + y) && (128 + y <=? 0x8F)
     else (0x80 <=? 128 + y) && (128 + y <=? 0xBF))) = true) as ->.
  { destruct (Z.eq_dec x 0) as [->|]; [byte_tests; done|]. destruct (Z.eq_dec x 4) as [->|]; byte_tests; done. }
  byte_tests. autorewrite with utf8. do 2 f_equal. div64.
Qed.

(** A valid rune comes back from its bytes. *)
Lemma decode_encode_rune r s : valid_rune r -> decode (append (encode_rune r) s) = Rune r :: decode s.
Proof.
  intros Hr. unfold encode_rune. destruct (r <? 0) eqn:E0; go_bool; [unfold valid_rune in Hr; lia|].
  destruct (r <? 0x80) eqn:E1; go_bool; [by apply decode_1|].
  destruct (r <? 0x800) eqn:E2; go_bool.
  { rewrite bits6_mod, Z.shiftr_div_pow2 by lia. change (2 ^ 6) with 64.
    rewrite lor_0xC0, lor_0x80 by div64. change (append _ s) with
      (String (chr (192 + r / 64)) (String (chr (128 + r mod 64)) s)).
    rewrite decode_2 by div64. do 2 f_equal. div64. }
  destruct ((0xD800 <=? r) && (r <=? 0xDFFF)) eqn:E3; [unfold valid_rune in Hr; go_bool; lia|].
  assert (r < 0xD800 \/ 0xDFFF < r) as Hs by (apply andb_false_iff in E3 as [?|?]; go_bool; lia).
  destruct (r <? 0x10000) eqn:E4; go_bool.
  { rewrite !bits6_mod, !Z.shiftr_div_pow2 by lia. change (2 ^ 12) with 4096. change (2 ^ 6) with 64.
    rewrite lor_0xE0, !lor_0x80 by div64. change (append _ s) with
      (String (chr (224 + r / 4096)) (String (chr (128 + r / 64 mod 64)) (String (chr (128 + r mod 64)) s))).
    rewrite decode_3 by div64. do 2 f_equal. div64. }
  destruct (r <=? 0x10FFFF) eqn:E5; go_bool; [|unfold valid_rune in Hr; lia].
  rewrite !bits6_mod, !Z.shiftr_div_pow2 by lia. change (2 ^ 18) with 262144. change (2 ^ 12) with 4096.
  change (2 ^ 6) with 64. rewrite lor_0xF0, !lor_0x80 by div64. change (append _ s) with
    (String (chr (240 + r / 262144)) (String (chr (128 + r / 4096 mod 64))
       (String (chr (128 + r / 64 mod 64)) (String (chr (128 + r mod 64)) s)))).
  rewrite decode_4 by div64. do 2 f_equal. div64.
Qed.

Lemma append_empty_str (a : string) : append a "" = a.
Proof. induction a as [|x a IH]; str_simpl; [done|]. by rewrite IH. Qed.

Lemma encode_app l1 l2 : encode (l1 ++ l2) = append (encode l1) (encode l2).
Proof. unfold encode. induction l1 as [|r l1 IH]; cbn; [done|]. rewrite IH. by rewrite append_assoc_str. Qed.

Lemma runes_encode rs s : Forall valid_rune rs -> runes (append (encode rs) s) = rs ++ runes s.
Proof.
  unfold runes, encode. induction 1 as [|r rs Hr Hrs IH]; cbn; [done|].
  rewrite <- append_assoc_str, decode_encode_rune by done. cbn. by rewrite IH.
Qed.

Lemma runes_encode_nil rs : Forall valid_rune rs -> runes (encode rs) = rs.
Proof.
  intros Hrs. rewrite <- (append_empty_str (encode rs)), runes_encode by done. cbn. by rewrite app_nil_r.
Qed.

Lemma chr_lt a : 0 <= byteZ a < 256.
Proof. apply byteZ_range. Qed.

(** What decoding yields is valid: a bad byte counts as U+FFFD. *)
Lemma runes_valid s : Forall valid_rune (runes s).
Proof.
  assert (forall n s, (String.length s <= n)%nat -> Forall valid_rune (runes s)) as H; [|by apply (H (String.length s))].
  clear s. induction n as [|n IH]; intros s Hl; destruct s as [|a s1]; [constructor|cbn in Hl; lia|constructor|].
  cbn in Hl. unfold runes. cbn [decode]. pose proof (chr_lt a).
  assert (valid_rune RuneError) as Herr by (unfold valid_rune, RuneError; lia).
  destruct (byteZ a <? 0x80) eqn:E; go_bool.
  { cbn. constructor; [unfold valid_rune; cbn; lia|]. apply IH. lia. }
  destruct s1 as [|b s2]; [cbn; by repeat constructor|]. cbn in Hl. pose proof (chr_lt b).
  destruct (valid2 (byteZ a) (byteZ b)) eqn:E2.
  { cbn. constructor; [|apply IH; lia]. unfold valid2, is_cont in E2. go_bool. cbn. rewrite land_0x1F, bits6_mod.
    unfold valid_rune. left. div64. }
  destruct s2 as [|c s3]; [cbn [fmap list_fmap]; constructor; [done|apply IH; cbn; lia]|]. cbn in Hl. pose proof (chr_lt c).
  destruct (valid3 (byteZ a) (byteZ b) (byteZ c)) eqn:E3.
  { cbn. constructor; [|apply IH; lia]. unfold valid3, is_cont in E3. cbn. rewrite land_0x0F, !bits6_mod.
    destruct (byteZ a =? 0xE0) eqn:?; [|destruct (byteZ a =? 0xED) eqn:?]; go_bool; unfold valid_rune.
    - left. div64.
    - left. div64.
    - destruct (Z_lt_ge_dec (byteZ a) 237); [left|right]; div64. }
  destruct s3 as [|d s4]; [cbn [fmap list_fmap]; constructor; [done|apply IH; cbn; lia]|]. cbn in Hl. pose proof (chr_lt d).
  destruct (valid4 (byteZ a) (byteZ b) (byteZ c) (byteZ d)) eqn:E4.
  { cbn. constructor; [|apply IH; lia]. unfold valid4, is_cont in E4. cbn. rewrite land_0x07, !bits6_mod.
    destruct (byteZ a =? 0xF0) eqn:?; [|destruct (byteZ a =? 0xF4) eqn:?]; go_bool; unfold valid_rune; right; div64. }
  cbn [fmap list_fmap]. constructor; [done|]. apply IH. cbn. lia.
Qed.

(** A string that is valid UTF-8. *)
Definition utf8 (s : string) : Prop := encode (runes s) = s.

Lemma utf8_encode rs : Forall valid_rune rs -> utf8 (encode rs).
Proof. intros Hrs. unfold utf8. by rewrite runes_encode_nil. Qed.
