(* ===== verification/Json.v ===== *)
(** * JSON values (what the gateway uses of [encoding/json])

    The values a request body decodes to and a response is encoded from; the
    text of a value as [json.Marshal] writes it and the value of a text as the
    decoder reads it; the assignment of values to the fields of a struct.  The
    parser works on the runes of the text, and its fuel is the number of runes. *)

From S2P Require Import Prelude GoStrings GoCrypto Utf8.

(** [JInt z] is the number literal that [strconv] prints for [z]; any other
    number literal is [JReal].  The members of an object keep their order. *)
Inductive json :=
| JNull
| JBool (b : bool)
| JInt (z : Z)
| JReal (lit : string)
| JStr (s : string)
| JArr (l : list json)
| JObj (ms : list (string * json)).

(** ** Encoding *)

Fixpoint joined (l : list string) : string :=
  match l with
  | [] => ""
  | [x] => x
  | x :: l' => append x (String ","%char (joined l'))
  end.

Fixpoint render (v : json) : string :=
  match v with
  | JNull => "null"
  | JBool b => json_bool b
  | JInt z => itoa z
  | JReal lit => lit
  | JStr s => json_string s
  | JArr l => String "["%char (append (joined (render <$> l)) "]")
  | JObj ms => String "{"%char (append (joined ((fun m => append (json_string m.1) (String ":"%char (render m.2))) <$> ms)) "}")
  end.

(** ** Decoding *)

Definition hex_val (c : Z) : option Z :=
  if (48 <=? c) && (c <=? 57) then Some (c - 48)
  else if (97 <=? c) && (c <=? 102) then Some (c - 87)
  else if (65 <=? c) && (c <=? 70) then Some (c - 55)
  else None.

Definition hex4 (a b c d : Z) : option Z :=
  match hex_val a, hex_val b, hex_val c, hex_val d with
  | Some a, Some b, Some c, Some d => Some (((a * 16 + b) * 16 + c) * 16 + d)
  | _, _, _, _ => None
  end.

Definition surrogate (r : Z) : bool := (0xD800 <=? r) && (r <? 0xE000).

(** [utf16.DecodeRune]: [None] where it gives U+FFFD. *)
Definition surrogate_pair (r1 r2 : Z) : option Z :=
  if (0xD800 <=? r1) && (r1 <? 0xDC00) && (0xDC00 <=? r2) && (r2 <? 0xE000)
  then Some ((r1 - 0xD800) * 1024 + (r2 - 0xDC00) + 0x10000) else None.

Definition escape (c : Z) : option Z :=
  if (c =? 34) || (c =? 92) || (c =? 47) then Some c
  else if c =? 98 then Some 8 else if c =? 102 then Some 12 else if c =? 110 then Some 10
  else if c =? 114 then Some 13 else if c =? 116 then Some 9 else None.

(** The rest of a string literal: its runes and what follows it. *)
Fixpoint parse_string (l : list Z) : option (list Z * list Z) :=
  let add r x := match x with Some (rs, rest) => Some (r :: rs, rest) | None => None end in
  match l with
  | [] => None
  | c :: l1 =>
      if c =? 34 then Some ([], l1)
      else if c <? 32 then None
      else if negb (c =? 92) then add c (parse_string l1)
      else
        match l1 with
        | 117 :: a :: b :: c :: d :: l2 =>
            match hex4 a b c d with
            | None => None
            | Some r =>
                if surrogate r then
                  match l2 with
                  | 92 :: 117 :: a' :: b' :: c' :: d' :: l3 =>
                      match hex4 a' b' c' d' with
                      | Some r' =>
                          match surrogate_pair r r' with
                          | Some p => add p (parse_string l3)
                          | None => add RuneError (parse_string l2)
                          end
                      | None => add RuneError (parse_string l2)
                      end
                  | _ => add RuneError (parse_string l2)
                  end
                else add r (parse_string l2)
            end
        | e :: l2 => match escape e with Some r => add r (parse_string l2) | None => None end
        | [] => None
        end
  end.

Definition is_digit (c : Z) : bool := (48 <=? c) && (c <=? 57).

Fixpoint span_digits (l : list Z) : list Z * list Z :=
  match l with
  | c :: l' => if is_digit c then let (ds, rest) := span_digits l' in (c :: ds, rest) else ([], l)
  | [] => ([], [])
  end.

Definition digits_value (ds : list Z) : Z := foldl (fun n c => n * 10 + (c - 48)) 0 ds.

(** The integer part: no leading zeros. *)
Definition int_part (l : list Z) : option (list Z * list Z) :=
  match span_digits l with
  | ([], _) => None
  | (48 :: _ :: _, _) => None
  | (ds, rest) => Some (ds, rest)
  end.

Definition frac_part (l : list Z) : option (list Z * list Z) :=
  match l with
  | 46 :: l' => match span_digits l' with ([], _) => None | (ds, rest) => Some (46 :: ds, rest) end
  | _ => Some ([], l)
  end.

Definition exp_part (l : list Z) : option (list Z * list Z) :=
  match l with
  | e :: l' =>
      if (e =? 101) || (e =? 69) then
        let (sign, l2) := match l' with s :: l2 => if (s =? 43) || (s =? 45) then ([s], l2) else ([], l') | [] => ([], l') end in
        match span_digits l2 with ([], _) => None | (ds, rest) => Some (e :: sign ++ ds, rest) end
      else Some ([], l)
  | [] => Some ([], l)
  end.

Definition parse_number (l : list Z) : option (json * list Z) :=
  let (neg, l1) := match l with c :: l1 => if c =? 45 then (true, l1) else (false, l) | [] => (false, l) end in
  match int_part l1 with
  | None => None
  | Some (ds, l2) =>
      match frac_part l2 with
      | None => None
      | Some (fs, l3) =>
          match exp_part l3 with
          | None => None
          | Some (es, l4) =>
              let n := digits_value ds in
              if nonempty fs || nonempty es || (neg && (n =? 0))
              then Some (JReal (append (if neg then "-" else "") (encode (ds ++ fs ++ es))), l4)
              else Some (JInt (if neg then - n else n), l4)
          end
      end
  end.

Definition is_space (c : Z) : bool := (c =? 32) || (c =? 9) || (c =? 10) || (c =? 13).

Fixpoint skip_space (l : list Z) : list Z :=
  match l with c :: l' => if is_space c then skip_space l' else l | [] => [] end.

(** The first rune after white space. *)
Definition next (l : list Z) : option (Z * list Z) :=
  match skip_space l with c :: l' => Some (c, l') | [] => None end.

Fixpoint literal (word l : list Z) : option (list Z) :=
  match word, l with
  | [], _ => Some l
  | c :: w, d :: l' => if c =? d then literal w l' else None
  | _, [] => None
  end.

Definition codes (s : string) : list Z := byteZ <$> list_ascii_of_string s.

(** [true], [false], [null] or a number. *)
Definition parse_atom (l : list Z) : option (json * list Z) :=
  match literal (codes "true") l with
  | Some rest => Some (JBool true, rest)
  | None =>
      match literal (codes "false") l with
      | Some rest => Some (JBool false, rest)
      | None => match literal (codes "null") l with Some rest => Some (JNull, rest) | None => parse_number l end
      end
  end.

Fixpoint parse_value (fuel : nat) (l : list Z) : option (json * list Z) :=
  match fuel with
  | O => None
  | S f =>
      match next l with
      | None => None
      | Some (c, l1) =>
          if c =? 34 then
            match parse_string l1 with Some (rs, rest) => Some (JStr (encode rs), rest) | None => None end
          else if c =? 91 then
            match next l1 with
            | Some (d, l2) =>
                if d =? 93 then Some (JArr [], l2) else
                match parse_elems f (d :: l2) with Some (vs, rest) => Some (JArr vs, rest) | None => None end
            | None => None
            end
          else if c =? 123 then
            match next l1 with
            | Some (d, l2) =>
                if d =? 125 then Some (JObj [], l2) else
                match parse_members f (d :: l2) with Some (ms, rest) => Some (JObj ms, rest) | None => None end
            | None => None
            end
          else parse_atom (c :: l1)
      end
  end
with parse_elems (fuel : nat) (l : list Z) : option (list json * list Z) :=
  match fuel with
  | O => None
  | S f =>
      match parse_value f l with
      | None => None
      | Some (v, rest) =>
          match next rest with
          | None => None
          | Some (c, l1) =>
              if c =? 44 then
                match parse_elems f l1 with Some (vs, r) => Some (v :: vs, r) | None => None end
              else if c =? 93 then Some ([v], l1) else None
          end
      end
  end
with parse_members (fuel : nat) (l : list Z) : option (list (string * json) * list Z) :=
  match fuel with
  | O => None
  | S f =>
      match next l with
      | None => None
      | Some (c, l1) =>
          if negb (c =? 34) then None else
          match parse_string l1 with
          | None => None
          | Some (key, l2) =>
              match next l2 with
              | None => None
              | Some (d, l3) =>
                  if negb (d =? 58) then None else
                  match parse_value f l3 with
                  | None => None
                  | Some (v, rest) =>
                      match next rest with
                      | None => None
                      | Some (e, l4) =>
                          if e =? 44 then
                            match parse_members f l4 with
                            | Some (ms, r) => Some ((encode key, v) :: ms, r)
                            | None => None
                            end
                          else if e =? 125 then Some ([(encode key, v)], l4) else None
                      end
                  end
              end
          end
      end
  end.

(** [json.NewDecoder(body).Decode]: the first value of the body. *)
Definition decodeFirst (body : string) : option json :=
  let l := runes body in
  match parse_value (S (length l)) l with Some (v, _) => Some v | None => None end.

(** [json.Unmarshal]: the only value. *)
Definition unmarshal (data : string) : option json :=
  let l := runes data in
  match parse_value (S (length l)) l with
  | Some (v, rest) => match skip_space rest with [] => Some v | _ => None end
  | None => None
  end.

(** ** The way there and back *)

(** ASCII text is its own list of runes. *)
Fixpoint ascii_text (s : string) : bool :=
  match s with EmptyString => true | String a s' => (byteZ a <? 128) && ascii_text s' end.

Lemma runes_ascii_app s t : ascii_text s = true -> runes (append s t) = codes s ++ runes t.
Proof.
  unfold runes, codes. induction s as [|a s IH]; str_simpl; [done|]. intros Ha. go_bool. destruct Ha as [Ha Hs].
  rewrite (proj2 (Z.ltb_lt _ _)) by done. cbn. by rewrite IH.
Qed.

Lemma ascii_append s t : ascii_text (append s t) = ascii_text s && ascii_text t.
Proof. induction s as [|a s IH]; str_simpl; [done|]. by rewrite IH, andb_assoc. Qed.

Lemma hex_digit_facts n : 0 <= n < 16 ->
  byteZ (hex_digit n) <? 128 = true /\ hex_val (byteZ (hex_digit n)) = Some n.
Proof.
  intros Hn. assert ((byteZ (hex_digit n) <? 128) && bool_decide (hex_val (byteZ (hex_digit n)) = Some n) = true) as H.
  { revert n Hn. apply (forallb_below (fun n => (byteZ (hex_digit n) <? 128)
      && bool_decide (hex_val (byteZ (hex_digit n)) = Some n)) 16). vm_compute. reflexivity. }
  apply andb_true_iff in H as [H1 H2]. by apply bool_decide_eq_true in H2.
Qed.

Definition add_rune (r : Z) (x : option (list Z * list Z)) : option (list Z * list Z) :=
  match x with Some (rs, rest) => Some (r :: rs, rest) | None => None end.

Lemma parse_string_u a b c d r l :
  hex4 a b c d = Some r -> surrogate r = false ->
  parse_string (92 :: 117 :: a :: b :: c :: d :: l) = add_rune r (parse_string l).
Proof. intros Hr Hs. cbn -[hex4 surrogate]. by rewrite Hr, Hs. Qed.

Lemma parse_u00 n l : 0 <= n < 128 ->
  ascii_text (json_u00 n) = true /\ parse_string (codes (json_u00 n) ++ l) = add_rune n (parse_string l).
Proof.
  intros Hn. destruct (hex_digit_facts (n / 16) ltac:(Z.div_mod_to_equations; lia)) as [H1 H2].
  destruct (hex_digit_facts (n mod 16) ltac:(Z.div_mod_to_equations; lia)) as [H3 H4].
  split; [unfold json_u00; str_simpl; by rewrite H1, H3|].
  change (codes (json_u00 n) ++ l)
    with (92 :: 117 :: 48 :: 48 :: byteZ (hex_digit (n / 16)) :: byteZ (hex_digit (n mod 16)) :: l).
  rewrite (parse_string_u 48 48 _ _ n); [done| |unfold surrogate; by byte_tests].
  unfold hex4. rewrite H2, H4. cbn -[Z.mul Z.add Z.div Z.modulo]. f_equal. Z.div_mod_to_equations. lia.
Qed.

Lemma parse_ascii n l : 0 <= n < 128 ->
  ascii_text (json_ascii n) = true /\ parse_string (codes (json_ascii n) ++ l) = add_rune n (parse_string l).
Proof.
  intros Hn. unfold json_ascii.
  destruct ((n =? 34) || (n =? 92)) eqn:E0.
  { go_bool. destruct E0 as [->| ->]; done. }
  destruct (n =? 8) eqn:E1; go_bool; [by subst n|]. destruct (n =? 9) eqn:E2; go_bool; [by subst n|].
  destruct (n =? 10) eqn:E3; go_bool; [by subst n|]. destruct (n =? 12) eqn:E4; go_bool; [by subst n|].
  destruct (n =? 13) eqn:E5; go_bool; [by subst n|].
  destruct ((n <? 32) || (n =? 38) || (n =? 60) || (n =? 62)) eqn:E6; [by apply parse_u00|].
  go_bool. destruct E0 as [E0a E0b], E6 as [[[E6 _] _] _].
  unfold codes. cbn [ascii_text list_ascii_of_string fmap list_fmap app]. rewrite byteZ_chr by lia.
  cbn [parse_string]. byte_tests. cbn [negb]. done.
Qed.

(** The runes of an escaped rune, and how the parser reads them back. *)
Lemma parse_item i t l :
  valid_rune (item_rune i) ->
  exists es, runes (append (json_item i) t) = es ++ runes t
    /\ parse_string (es ++ l) = add_rune (item_rune i) (parse_string l).
Proof.
  intros Hi. destruct i as [r|]; cbn [json_item item_rune] in *.
  - destruct (r <? 0x80) eqn:E0; go_bool.
    { destruct (parse_ascii r l) as [Ha Hp]; [unfold valid_rune in Hi; lia|]. exists (codes (json_ascii r)).
      by rewrite runes_ascii_app. }
    destruct (r =? 0x2028) eqn:E1; go_bool; [subst r; by exists (codes (String backslash "u2028"))|].
    destruct (r =? 0x2029) eqn:E2; go_bool; [subst r; by exists (codes (String backslash "u2029"))|].
    exists [r]. split.
    { unfold runes. by rewrite decode_encode_rune. }
    cbn [app parse_string]. byte_tests. done.
  - by exists (codes (String backslash "ufffd")).
Qed.

Lemma parse_items items t l :
  Forall (fun i => valid_rune (item_rune i)) items ->
  exists es, runes (append (foldr (fun i acc => append (json_item i) acc) "" items) t)%string = es ++ runes t
    /\ parse_string (es ++ 34 :: l) = Some (item_rune <$> items, l).
Proof.
  induction 1 as [|i items Hi Hs IH]; cbn [foldr].
  { exists []. done. }
  destruct IH as (es & Hr & Hp).
  destruct (parse_item i (append (foldr (fun i acc => append (json_item i) acc) "" items) t)%string (es ++ 34 :: l) Hi)
    as (es0 & Hr0 & Hp0).
  exists (es0 ++ es). rewrite <- append_assoc_str, Hr0, Hr, <- app_assoc. split; [done|].
  by rewrite <- app_assoc, Hp0, Hp.
Qed.

(** A string literal reads back as the runes of the string. *)
Lemma parse_json_string s t :
  exists es, runes (append (json_string s) t) = 34 :: es
    /\ parse_string es = Some (runes s, runes t) /\ (length (runes t) < length es)%nat.
Proof.
  assert (Forall (fun i => valid_rune (item_rune i)) (GoStrings.decode s)) as Hv.
  { pose proof (runes_valid s) as Hr. unfold runes in Hr. rewrite Forall_fmap in Hr. exact Hr. }
  destruct (parse_items _ (String quote_char t) (runes t) Hv) as (es & Hr & Hp).
  exists (es ++ 34 :: runes t). split; [|split; [exact Hp|rewrite length_app; cbn; lia]]. unfold json_string. rewrite append_cons.
  unfold runes at 1. cbn [GoStrings.decode]. change (byteZ quote_char) with 34. cbn -[append foldr].
  f_equal. rewrite <- append_assoc_str. rewrite append_cons, append_nil_l. exact Hr.
Qed.

(** *** Numbers *)

Lemma digits_fuel_spec f n acc :
  0 <= n < 10 ^ Z.of_nat f -> (0 < f)%nat ->
  exists ds, list_ascii_of_string (digits_fuel f n acc) = (chr <$> ds) ++ list_ascii_of_string acc
    /\ Forall (fun c => 48 <= c <= 57) ds /\ digits_value ds = n
    /\ (n = 0 -> ds = [48]) /\ (0 < n -> exists c ds', ds = c :: ds' /\ 48 < c).
Proof.
  revert n acc. induction f as [|f IH]; intros n acc Hn Hf; [lia|]. cbn [digits_fuel].
  destruct (n <? 10) eqn:E; go_bool.
  - exists [48 + n mod 10]. rewrite (Z.mod_small n 10) by lia. split_and!; [done| | | |].
    + repeat constructor; lia.
    + unfold digits_value. cbn -[Z.mul]. lia.
    + by intros ->.
    + intros Hp. exists (48 + n), []. split; [done|lia].
  - assert (0 <= n / 10 < 10 ^ Z.of_nat f) as Hd.
    { rewrite Nat2Z.inj_succ, Z.pow_succ_r in Hn by lia. Z.div_mod_to_equations. lia. }
    assert (0 < f)%nat as Hf' by (destruct f; [cbn in Hd; Z.div_mod_to_equations; lia|lia]).
    destruct (IH (n / 10) (String (chr (48 + n mod 10)) acc) Hd Hf') as (ds & Hl & Hall & Hv & _ & Hpos).
    exists (ds ++ [48 + n mod 10]). split_and!.
    + rewrite Hl, fmap_app, <- app_assoc. done.
    + apply Forall_app. split; [done|]. repeat constructor; Z.div_mod_to_equations; lia.
    + unfold digits_value in *. rewrite foldl_app, Hv. cbn -[Z.mul]. Z.div_mod_to_equations. lia.
    + lia.
    + intros _. destruct Hpos as (c & ds' & -> & Hc); [Z.div_mod_to_equations; lia|]. by exists c, (ds' ++ [48 + n mod 10]).
Qed.

Lemma span_digits_app ds l :
  Forall (fun c => 48 <= c <= 57) ds -> (forall c l', l = c :: l' -> is_digit c = false) ->
  span_digits (ds ++ l) = (ds, l).
Proof.
  intros Hd Hl. induction Hd as [|c ds Hc Hd IH]; cbn.
  - destruct l as [|c l]; [done|]. cbn. by rewrite (Hl c l eq_refl).
  - unfold is_digit. byte_tests. by rewrite IH.
Qed.

(** What may follow a number: nothing that could belong to it. *)
Definition number_ends (l : list Z) : Prop :=
  match l with [] => True | c :: _ => is_digit c = false /\ c <> 46 /\ c <> 101 /\ c <> 69 end.

Lemma parse_digits (neg : bool) ds n l :
  Forall (fun c => 48 <= c <= 57) ds -> digits_value ds = n -> 0 <= n ->
  (n = 0 -> ds = [48] /\ neg = false) -> (0 < n -> exists c ds', ds = c :: ds' /\ 48 < c) -> number_ends l ->
  parse_number ((if neg then [45] else []) ++ ds ++ l) = Some (JInt (if neg then - n else n), l).
Proof.
  intros Hd Hv Hn Hz Hp Hl.
  assert (int_part (ds ++ l) = Some (ds, l)) as Hint.
  { unfold int_part. rewrite span_digits_app; [|done|intros c l' ->; apply Hl].
    destruct (Z.eq_dec n 0) as [H0|H0].
    - by destruct (Hz H0) as [-> _].
    - destruct Hp as (c & ds' & -> & Hc); [lia|]. destruct c as [|c|c]; [lia| |lia].
      do 6 (destruct c as [c|c|]; try done). }
  assert (frac_part l = Some ([], l) /\ exp_part l = Some ([], l)) as [Hf He].
  { destruct l as [|c l]; [done|]. destruct Hl as (_ & H46 & H101 & H69). split.
    - cbn. destruct c as [|c|c]; try done. do 6 (destruct c as [c|c|]; try done).
    - cbn. by byte_tests. }
  assert (exists c, head ds = Some c /\ 48 <= c <= 57) as (c0 & Hh & Hc0).
  { destruct (Z.eq_dec n 0) as [H0|H0].
    - destruct (Hz H0) as [-> _]. exists 48. split; [done|lia].
    - destruct Hp as (c & ds' & -> & Hc); [lia|]. exists c. split; [done|]. by apply Forall_cons in Hd as [? _]. }
  unfold parse_number. destruct neg; cbn [app].
  - cbn. rewrite Hint, Hf, He. cbn. rewrite Hv. destruct (n =? 0) eqn:E; [|done]. go_bool. by destruct (Hz E) as [_ ?].
  - destruct ds as [|c ds]; [done|]. cbn [app head] in *. injection Hh as ->. rewrite (proj2 (Z.eqb_neq c0 45)) by lia.
    rewrite Hint, Hf, He. cbn -[digits_value]. by rewrite Hv.
Qed.

Lemma parse_itoa z t l :
  - 10 ^ 20 < z < 10 ^ 20 -> number_ends l ->
  exists ds, runes (append (itoa z) t) = ds ++ runes t
    /\ parse_number (ds ++ l) = Some (JInt z, l)
    /\ exists c ds', ds = c :: ds' /\ (c = 45 \/ 48 <= c <= 57).
Proof.
  intros Hz Hl. unfold itoa.
  assert (forall s ds, list_ascii_of_string s = chr <$> ds -> Forall (fun c => 48 <= c <= 57) ds ->
    runes (append s t) = ds ++ runes t) as Hrunes.
  { intros s ds Hs Hd. rewrite runes_ascii_app.
    - unfold codes. rewrite Hs. f_equal. clear -Hd. induction Hd as [|c ds Hc Hd IH]; [done|]. cbn. rewrite IH.
      f_equal. apply byteZ_chr. lia.
    - revert s Hs. clear -Hd. induction Hd as [|c ds Hc Hd IH]; intros [|a s]; cbn; try done.
      intros [= -> Hs]. rewrite byteZ_chr by lia. rewrite (proj2 (Z.ltb_lt _ _)) by lia. by apply IH. }
  destruct (z <? 0) eqn:E; go_bool.
  - destruct (digits_fuel_spec 20 (- z) "") as (ds & Hs & Hd & Hv & H0 & Hp); [change (Z.of_nat 20) with 20; lia|lia|].
    cbn [list_ascii_of_string] in Hs. rewrite app_nil_r in Hs. exists (45 :: ds). split_and!.
    + rewrite append_cons, append_nil_l, append_cons. change (runes (String "-" ?s)) with (45 :: runes s).
      cbn [app]. rewrite <- (Hrunes _ _ Hs Hd). done.
    + pose proof (parse_digits true ds (- z) l Hd Hv ltac:(lia) ltac:(lia) Hp Hl) as Hn.
      rewrite Z.opp_involutive in Hn. exact Hn.
    + exists 45, ds. by split; [|left].
  - destruct (digits_fuel_spec 20 z "") as (ds & Hs & Hd & Hv & H0 & Hp); [change (Z.of_nat 20) with 20; lia|lia|].
    cbn [list_ascii_of_string] in Hs. rewrite app_nil_r in Hs. exists ds. split_and!.
    + by apply Hrunes.
    + apply (parse_digits false ds z l); try done. by intros ->%H0.
    + destruct (Z.eq_dec z 0) as [Hz0|Hz0].
      * rewrite (H0 Hz0). exists 48, []. split; [done|right; lia].
      * destruct Hp as (c & ds' & -> & Hc); [lia|]. exists c, ds'. split; [done|]. right. by apply Forall_cons in Hd as [? _].
Qed.

(** *** Values *)

Lemma joined_fmap2 {A} (f : A -> string) x y l :
  joined (f <$> x :: y :: l) = append (f x) (String ","%char (joined (f <$> y :: l))).
Proof. reflexivity. Qed.


Fixpoint jsize (v : json) : nat :=
  match v with
  | JArr l => S (foldr (fun v n => (S (jsize v) + n)%nat) O l)
  | JObj ms => S (foldr (fun m n => (S (jsize m.2) + n)%nat) O ms)
  | _ => 1
  end.

(** Values whose strings are valid UTF-8 and whose numbers are printed integers. *)
Fixpoint json_wf (v : json) : Prop :=
  match v with
  | JNull | JBool _ => True
  | JInt z => - 10 ^ 20 < z < 10 ^ 20
  | JReal _ => False
  | JStr s => utf8 s
  | JArr l => foldr (fun v P => json_wf v /\ P) True l
  | JObj ms => foldr (fun m P => utf8 m.1 /\ json_wf m.2 /\ P) True ms
  end.

Lemma next_nospace c l : is_space c = false -> next (c :: l) = Some (c, l).
Proof. intros Hc. unfold next. cbn. by rewrite Hc. Qed.

Lemma parse_atom_number c l : c = 45 \/ 48 <= c <= 57 -> parse_atom (c :: l) = parse_number (c :: l).
Proof.
  intros Hc. unfold parse_atom. change (codes "true") with [116; 114; 117; 101].
  change (codes "false") with [102; 97; 108; 115; 101]. change (codes "null") with [110; 117; 108; 108].
  cbn [literal]. by byte_tests.
Qed.

(** A rendered value starts with a rune that is neither space nor a closing
    bracket. *)
Lemma render_head v t : json_wf v ->
  exists c l, runes (append (render v) t) = c :: l /\ is_space c = false /\ c <> 93 /\ c <> 125.
Proof.
  intros Hv. destruct v as [|[]|z|lit|s|l|ms]; cbn [render] in *.
  - rewrite runes_ascii_app by done. by eexists _, _.
  - rewrite runes_ascii_app by done. by eexists _, _.
  - rewrite runes_ascii_app by done. by eexists _, _.
  - destruct (parse_itoa z t [] Hv I) as (ds & -> & _ & c & ds' & -> & Hc). exists c, (ds' ++ runes t).
    split; [done|]. unfold is_space. byte_tests. split_and!; [done|lia|lia].
  - done.
  - destruct (parse_json_string s t) as (es & -> & _ & _). by eexists _, _.
  - rewrite append_cons. by eexists _, _.
  - rewrite append_cons. by eexists _, _.
Qed.

(** The statement of the round trip for one value. *)
Definition reads_back (v : json) : Prop :=
  forall f t, (jsize v <= f)%nat -> number_ends (runes t) ->
    parse_value f (runes (append (render v) t)) = Some (v, runes t).

Lemma runes_punct a t : byteZ a <? 128 = true -> runes (String a t) = byteZ a :: runes t.
Proof. intros Ha. unfold runes. cbn [decode]. by rewrite Ha. Qed.

Lemma parse_elems_reads l : l <> [] -> Forall (fun v => json_wf v /\ reads_back v) l ->
  forall f t, (foldr (fun v n => (S (jsize v) + n)%nat) O l <= f)%nat ->
  parse_elems f (runes (append (joined (render <$> l)) (String "]"%char t))) = Some (l, runes t).
Proof.
  intros Hne Hl. induction Hl as [|v l [Hwf Hv] Hl IH]; [done|]. intros [|f] t Hf; cbn [foldr] in Hf; [lia|].
  destruct l as [|v' l].
  - cbn [fmap list_fmap joined parse_elems]. rewrite Hv by (done || lia). rewrite (runes_punct "]"%char) by done.
    rewrite next_nospace by done. done.
  - rewrite (joined_fmap2 render), <- append_assoc_str, append_cons. cbn [parse_elems]. rewrite Hv by (done || lia).
    rewrite (runes_punct ","%char) by done. rewrite next_nospace by done.
    change (byteZ ",") with 44. cbn -[parse_elems foldr joined fmap]. rewrite IH by (done || lia). done.
Qed.

Definition render_member (m : string * json) : string :=
  append (json_string m.1) (String ":"%char (render m.2)).

Lemma parse_members_reads ms :
  ms <> [] -> Forall (fun m => utf8 m.1 /\ json_wf m.2 /\ reads_back m.2) ms ->
  forall f t, (foldr (fun m n => (S (jsize m.2) + n)%nat) O ms <= f)%nat ->
  parse_members f (runes (append (joined (render_member <$> ms)) (String "}"%char t))) = Some (ms, runes t).
Proof.
  intros Hne Hl. induction Hl as [|[k v] ms (Hk & Hwf & Hv) Hl IH]; [done|]. cbn [fst snd] in *.
  intros [|f] t Hf; cbn [foldr snd] in Hf; [lia|].
  assert (forall u, number_ends (runes u) ->
    parse_members (S f) (runes (append (render_member (k, v)) u))
    = match next (runes u) with
      | None => None
      | Some (e, l4) =>
          if e =? 44 then
            match parse_members f l4 with Some (ms, r) => Some ((k, v) :: ms, r) | None => None end
          else if e =? 125 then Some ([(k, v)], l4) else None
      end) as Hstep.
  { intros u Hu. unfold render_member. cbn [fst snd]. rewrite <- append_assoc_str, append_cons.
    destruct (parse_json_string k (String ":" (append (render v) u))) as (es & -> & Hp & _). cbn [parse_members].
    rewrite next_nospace by done. cbn [negb Z.eqb Pos.eqb]. rewrite Hp. rewrite (runes_punct ":"%char) by done.
    rewrite next_nospace by done. change (byteZ ":") with 58. cbn [negb Z.eqb Pos.eqb].
    rewrite Hv by (done || lia). by rewrite Hk. }
  destruct ms as [|m' ms].
  - cbn [fmap list_fmap joined]. rewrite Hstep by done. rewrite (runes_punct "}"%char) by done.
    rewrite next_nospace by done. done.
  - rewrite (joined_fmap2 render_member), <- append_assoc_str, append_cons. rewrite Hstep by done.
    rewrite (runes_punct ","%char) by done. rewrite next_nospace by done.
    change (byteZ ",") with 44. cbn -[parse_members foldr joined fmap render_member]. rewrite IH by (done || lia). done.
Qed.

Lemma foldr_size_elem (l : list json) v n :
  v ∈ l -> (foldr (fun v n => (S (jsize v) + n)%nat) O l <= n)%nat -> (jsize v < n)%nat.
Proof. induction 1; cbn [foldr]; lia. Qed.

Lemma foldr_size_member (ms : list (string * json)) m n :
  m ∈ ms -> (foldr (fun m n => (S (jsize m.2) + n)%nat) O ms <= n)%nat -> (jsize m.2 < n)%nat.
Proof. induction 1; cbn [foldr]; lia. Qed.

Lemma foldr_wf (l : list json) : foldr (fun v P => json_wf v /\ P) True l <-> Forall json_wf l.
Proof. induction l as [|v l IH]; cbn; [split; constructor|]. by rewrite Forall_cons, IH. Qed.

Lemma foldr_wf_members (ms : list (string * json)) :
  foldr (fun m P => utf8 m.1 /\ json_wf m.2 /\ P) True ms <-> Forall (fun m => utf8 m.1 /\ json_wf m.2) ms.
Proof. induction ms as [|m ms IH]; cbn; [split; constructor|]. rewrite Forall_cons, IH. tauto. Qed.

Lemma jsize_pos v : (0 < jsize v)%nat.
Proof. destruct v; cbn [jsize]; apply Nat.lt_0_succ. Qed.

Lemma render_reads_back v : json_wf v -> reads_back v.
Proof.
  remember (jsize v) as n eqn:Hn. revert v Hn.
  induction n as [n IH] using lt_wf_ind. intros v -> Hwf [|f] t Hf Ht; [pose proof (jsize_pos v); lia|].
  destruct v as [|[]|z|lit|s|l|ms]; cbn [render] in *.
  - rewrite runes_ascii_app by done. done.
  - rewrite runes_ascii_app by done. done.
  - rewrite runes_ascii_app by done. done.
  - destruct (parse_itoa z t (runes t) Hwf Ht) as (ds & -> & Hp & c & ds' & -> & Hc). cbn [app parse_value].
    rewrite next_nospace by (unfold is_space; by byte_tests). cbn [app] in Hp. rewrite <- parse_atom_number in Hp by done.
    by byte_tests.
  - done.
  - destruct (parse_json_string s t) as (es & -> & Hp & _). cbn [parse_value]. rewrite next_nospace by done.
    cbn [Z.eqb Pos.eqb]. rewrite Hp. by rewrite Hwf.
  - rewrite append_cons, <- append_assoc_str, append_cons, append_nil_l, (runes_punct "["%char) by done.
    cbn [parse_value]. rewrite next_nospace by done. change (byteZ "[") with 91. cbn [Z.eqb Pos.eqb].
    cbn [json_wf] in Hwf. apply foldr_wf in Hwf. cbn [jsize] in Hf, IH. destruct l as [|v l].
    { cbn [fmap list_fmap joined]. rewrite append_nil_l, (runes_punct "]"%char) by done. by rewrite next_nospace. }
    assert (Forall (fun v => json_wf v /\ reads_back v) (v :: l)) as Hall.
    { apply Forall_forall. intros w Hw. assert (json_wf w) as Hww by (by eapply Forall_forall in Hwf).
      split; [done|]. eapply IH; [|done|done]. eapply foldr_size_elem; [done|lia]. }
    pose proof (parse_elems_reads (v :: l) ltac:(done) Hall f t ltac:(lia)) as Hp.
    assert (exists c r, runes (append (joined (render <$> v :: l)) (String "]" t)) = c :: r
      /\ is_space c = false /\ c <> 93) as (c & r & Hcr & Hsp & Hc).
    { apply Forall_cons in Hwf as [Hwv _]. destruct l as [|v' l]; cbn [fmap list_fmap joined].
      - destruct (render_head v (String "]" t) Hwv) as (c & r & ? & ? & ? & ?). eauto.
      - rewrite <- append_assoc_str. edestruct (render_head v) as (c & r & -> & ? & ? & ?); [exact Hwv|]. eauto. }
    rewrite Hcr in Hp |- *. rewrite next_nospace by done. rewrite (proj2 (Z.eqb_neq c 93)) by done. by rewrite Hp.
  - rewrite append_cons, <- append_assoc_str, append_cons, append_nil_l, (runes_punct "{"%char) by done.
    cbn [parse_value]. rewrite next_nospace by done. change (byteZ "{") with 123. cbn [Z.eqb Pos.eqb].
    cbn [json_wf] in Hwf. apply foldr_wf_members in Hwf. cbn [jsize] in Hf, IH.
    change (fun m => append (json_string m.1) (String ":" (render m.2))) with render_member.
    destruct ms as [|m ms].
    { cbn [fmap list_fmap joined]. rewrite append_nil_l, (runes_punct "}"%char) by done. by rewrite next_nospace. }
    assert (Forall (fun m => utf8 m.1 /\ json_wf m.2 /\ reads_back m.2) (m :: ms)) as Hall.
    { apply Forall_forall. intros w Hw. assert (utf8 w.1 /\ json_wf w.2) as [Hw1 Hw2] by (by eapply Forall_forall in Hwf).
      split_and!; [done|done|]. eapply IH; [|done|done]. eapply foldr_size_member; [done|lia]. }
    pose proof (parse_members_reads (m :: ms) ltac:(done) Hall f t ltac:(lia)) as Hp.
    assert (exists r, runes (append (joined (render_member <$> m :: ms)) (String "}" t)) = 34 :: r) as (r & Hr).
    { destruct ms as [|m' ms]; cbn [fmap list_fmap joined]; unfold render_member at 1; rewrite <- !append_assoc_str.
      - edestruct (parse_json_string m.1) as (es & -> & _ & _). eauto.
      - edestruct (parse_json_string m.1) as (es & -> & _ & _). eauto. }
    rewrite Hr in Hp |- *. rewrite next_nospace by done. cbn [Z.eqb Pos.eqb]. by rewrite Hp.
Qed.

(** A value is never larger than its text: the fuel of the decoder is enough. *)
(** A list of texts with commas and a closing bracket has a rune for every element more. *)
Lemma joined_size {A} (f : A -> string) (size : A -> nat) bracket t l :
  byteZ bracket <? 128 = true ->
  (forall x, x ∈ l -> forall u, (size x + length (runes u) <= length (runes (append (f x) u)))%nat) ->
  (foldr (fun x n => (S (size x) + n)%nat) O l + length (runes t)
   <= length (runes (append (joined (f <$> l)) (String bracket t))))%nat.
Proof.
  intros Hb. assert (runes (String bracket t) = byteZ bracket :: runes t) as Hend by (by apply runes_punct).
  induction l as [|x l IH]; intros Hall; cbn [foldr].
  { cbn [fmap list_fmap joined]. rewrite append_nil_l, Hend. cbn. lia. }
  destruct l as [|x' l].
  - cbn [fmap list_fmap joined foldr]. pose proof (Hall x ltac:(by left) (String bracket t)) as Hx.
    rewrite Hend in Hx at 1. cbn [length] in Hx. lia.
  - rewrite (joined_fmap2 f), <- append_assoc_str, append_cons.
    pose proof (Hall x ltac:(by left) (String "," (append (joined (f <$> x' :: l)) (String bracket t)))) as Hx.
    rewrite (runes_punct ","%char) in Hx at 1 by done. cbn [length] in Hx.
    pose proof (IH (fun w Hw => Hall w ltac:(by right))) as Hi. cbn [foldr] in *. lia.
Qed.

Lemma jsize_text v t : json_wf v -> (jsize v + length (runes t) <= length (runes (append (render v) t)))%nat.
Proof.
  remember (jsize v) as n eqn:Hn. revert v t Hn.
  induction n as [n IH] using lt_wf_ind. intros v t -> Hwf.
  destruct v as [|[]|z|lit|s|l|ms]; cbn [render] in *.
  - rewrite runes_ascii_app, length_app by done. cbn. lia.
  - rewrite runes_ascii_app, length_app by done. cbn. lia.
  - rewrite runes_ascii_app, length_app by done. cbn. lia.
  - destruct (parse_itoa z t [] Hwf I) as (ds & -> & _ & c & ds' & -> & _). rewrite length_app. cbn. lia.
  - done.
  - destruct (parse_json_string s t) as (es & Hr & _ & Hl). rewrite Hr. cbn. lia.
  - rewrite append_cons, <- append_assoc_str, append_cons, append_nil_l, (runes_punct "["%char) by done.
    cbn [json_wf] in Hwf. apply foldr_wf in Hwf. change (jsize (JArr l)) with (S (foldr (fun v n => (S (jsize v) + n)%nat) O l)) in *.
    rewrite length_cons, Nat.add_succ_l. apply le_n_S.
    assert (forall v, v ∈ l -> forall t, (jsize v + length (runes t) <= length (runes (append (render v) t)))%nat) as Hall.
    { intros v Hv u. eapply IH; [|done|by eapply Forall_forall in Hwf].
      by eapply foldr_size_elem; [done|]; apply Nat.le_succ_diag_r. }
    by apply (joined_size render jsize).
  - rewrite append_cons, <- append_assoc_str, append_cons, append_nil_l, (runes_punct "{"%char) by done.
    change (fun m => append (json_string m.1) (String ":" (render m.2))) with render_member.
    cbn [json_wf] in Hwf. apply foldr_wf_members in Hwf. change (jsize (JObj ms)) with (S (foldr (fun m n => (S (jsize m.2) + n)%nat) O ms)) in *.
    rewrite length_cons, Nat.add_succ_l. apply le_n_S.
    assert (forall m, m ∈ ms -> forall t,
      (jsize m.2 + S (length (runes t)) <= length (runes (append (render_member m) t)))%nat) as Hall.
    { intros m Hm u. unfold render_member. rewrite <- append_assoc_str, append_cons.
      assert (utf8 m.1 /\ json_wf m.2) as [_ Hmw] by (by eapply Forall_forall in Hwf).
      assert (jsize m.2 < S (foldr (fun m n => (S (jsize m.2) + n)%nat) O ms))%nat as Hlt.
      { by eapply foldr_size_member; [done|]; apply Nat.le_succ_diag_r. }
      pose proof (IH _ Hlt m.2 u eq_refl Hmw) as H1.
      destruct (parse_json_string m.1 (String ":" (append (render m.2) u))) as (es & Hr & _ & Hl). rewrite Hr.
      rewrite (runes_punct ":"%char) in Hl by done. cbn [length] in *. lia. }
    apply (joined_size render_member (fun m => jsize m.2)); [done|]. intros m Hm u. specialize (Hall m Hm u). lia.
Qed.

(** Decoding undoes encoding, whatever white space follows. *)
Lemma unmarshal_render_app v t :
  json_wf v -> number_ends (runes t) -> skip_space (runes t) = [] -> unmarshal (append (render v) t) = Some v.
Proof.
  intros Hv Hn Ht. unfold unmarshal. rewrite render_reads_back; [by rewrite Ht|done| |done].
  pose proof (jsize_text v t Hv) as Hs. lia.
Qed.

Lemma decodeFirst_render_app v t :
  json_wf v -> number_ends (runes t) -> decodeFirst (append (render v) t) = Some v.
Proof.
  intros Hv Hn. unfold decodeFirst. rewrite render_reads_back; [done|done| |done].
  pose proof (jsize_text v t Hv) as Hs. lia.
Qed.

Lemma unmarshal_render v : json_wf v -> unmarshal (render v) = Some v.
Proof. intros Hv. rewrite <- (append_empty_str (render v)). by apply unmarshal_render_app. Qed.

Lemma decodeFirst_render v : json_wf v -> decodeFirst (render v) = Some v.
Proof. intros Hv. rewrite <- (append_empty_str (render v)). by apply decodeFirst_render_app. Qed.

(** [json.NewEncoder(w).Encode]: the text and a line end. *)
Definition encodeLine (v : json) : string := append (render v) (String (chr 10) "").

Lemma unmarshal_line v : json_wf v -> unmarshal (encodeLine v) = Some v.
Proof. intros Hv. by apply unmarshal_render_app; [|vm_compute|]. Qed.

Lemma decodeFirst_line v : json_wf v -> decodeFirst (encodeLine v) = Some v.
Proof. intros Hv. by apply decodeFirst_render_app; [|vm_compute]. Qed.

Example unmarshal_ex :
  let v := JObj [("a", JArr [JInt 1; JInt (-20); JBool true; JArr []; JObj []; JNull]);
                 (encode [98; 0xE9; 0x1F600], JStr (encode [120; 10; 34; 1; 0x2028]))]%string in
  unmarshal (append " " (render v)) = Some v
  /\ unmarshal "[1.5e3, -0 ]" = Some (JArr [JReal "1.5e3"; JReal "-0"]) /\ unmarshal "[01]" = None.
Proof. vm_compute. done. Qed.
