(* ===== verification/JsonFields.v ===== *)
(** * Structs in JSON

    How [encoding/json] assigns a decoded value to the fields of a struct, and
    base64 for its byte slices. *)

From S2P Require Import Prelude GoStrings GoCrypto Utf8 Json.

(** ** [base64.StdEncoding.DecodeString] *)

Definition b64_val (a : ascii) : option Z :=
  let n := byteZ a in
  if (65 <=? n) && (n <=? 90) then Some (n - 65)
  else if (97 <=? n) && (n <=? 122) then Some (n - 71)
  else if (48 <=? n) && (n <=? 57) then Some (n + 4)
  else if n =? 43 then Some 62 else if n =? 47 then Some 63 else None.

Definition is_pad (a : ascii) : bool := byteZ a =? 61.

(** Quantum by quantum; [l] is the text without its line ends. *)
Fixpoint b64_quanta (l : list ascii) : option (list Z) :=
  match l with
  | [] => Some []
  | a :: b :: c :: d :: l' =>
      match b64_val a, b64_val b with
      | Some x, Some y =>
          if is_pad c then
            if is_pad d && negb (nonempty l') then Some [x * 4 + y / 16] else None
          else
            match b64_val c with
            | None => None
            | Some z =>
                if is_pad d then if nonempty l' then None else Some [x * 4 + y / 16; y mod 16 * 16 + z / 4]
                else
                  match b64_val d, b64_quanta l' with
                  | Some w, Some rest => Some (x * 4 + y / 16 :: y mod 16 * 16 + z / 4 :: z mod 4 * 64 + w :: rest)
                  | _, _ => None
                  end
            end
      | _, _ => None
      end
  | _ => None
  end.

Definition b64_decode (s : string) : option string :=
  of_bytes <$> b64_quanta (base.filter (fun a => byteZ a <> 10 /\ byteZ a <> 13) (list_ascii_of_string s)).

Lemma b64_char_facts n : 0 <= n < 64 ->
  b64_val (b64_char n) = Some n /\ is_pad (b64_char n) = false
  /\ byteZ (b64_char n) <> 10 /\ byteZ (b64_char n) <> 13 /\ plain_char (b64_char n) = true.
Proof.
  intros Hn.
  assert (bool_decide (b64_val (b64_char n) = Some n) && negb (is_pad (b64_char n)) && negb (byteZ (b64_char n) =? 10)
    && negb (byteZ (b64_char n) =? 13) && plain_char (b64_char n) = true) as H.
  { revert n Hn. apply (forallb_below (fun n => bool_decide (b64_val (b64_char n) = Some n)
      && negb (is_pad (b64_char n)) && negb (byteZ (b64_char n) =? 10) && negb (byteZ (b64_char n) =? 13)
      && plain_char (b64_char n)) 64).
    vm_compute. reflexivity. }
  rewrite !andb_true_iff, !negb_true_iff, bool_decide_eq_true in H. go_bool. tauto.
Qed.

(** The quanta of an encoding. *)
Lemma b64_quanta_encode l :
  Forall (fun b => 0 <= b < 256) l ->
  b64_quanta (list_ascii_of_string (b64_encode l)) = Some l
  /\ Forall (fun a => byteZ a <> 10 /\ byteZ a <> 13) (list_ascii_of_string (b64_encode l)).
Proof.
  remember (length l) as n eqn:Hn. revert l Hn. induction n as [n IH] using lt_wf_ind. intros l -> Hl.
  destruct l as [|a [|b [|c l]]].
  - split; [done|constructor].
  - apply Forall_cons in Hl as [Ha _]. cbn.
    destruct (b64_char_facts (a / 4)) as (H1 & _ & H2 & H3 & _); [Z.div_mod_to_equations; lia|].
    destruct (b64_char_facts (a mod 4 * 16)) as (H4 & _ & H5 & H6 & _); [Z.div_mod_to_equations; lia|].
    rewrite H1, H4. cbn. split; [|repeat constructor; done]. do 2 f_equal. Z.div_mod_to_equations. lia.
  - rewrite !Forall_cons in Hl. destruct Hl as (Ha & Hb & _). cbn.
    destruct (b64_char_facts (a / 4)) as (H1 & _ & H2 & H3 & _); [Z.div_mod_to_equations; lia|].
    destruct (b64_char_facts (a mod 4 * 16 + b / 16)) as (H4 & _ & H5 & H6 & _); [Z.div_mod_to_equations; lia|].
    destruct (b64_char_facts (b mod 16 * 4)) as (H7 & H8 & H9 & H10 & _); [Z.div_mod_to_equations; lia|].
    rewrite H1, H4, H8, H7. cbn. split; [|repeat constructor; done].
    repeat (f_equal; try (Z.div_mod_to_equations; lia)).
  - rewrite !Forall_cons in Hl. destruct Hl as (Ha & Hb & Hc & Hl). cbn [b64_encode list_ascii_of_string b64_quanta].
    destruct (b64_char_facts (a / 4)) as (H1 & _ & H2 & H3 & _); [Z.div_mod_to_equations; lia|].
    destruct (b64_char_facts (a mod 4 * 16 + b / 16)) as (H4 & _ & H5 & H6 & _); [Z.div_mod_to_equations; lia|].
    destruct (b64_char_facts (b mod 16 * 4 + c / 64)) as (H7 & H8 & H9 & H10 & _); [Z.div_mod_to_equations; lia|].
    destruct (b64_char_facts (c mod 64)) as (H11 & H12 & H13 & H14 & _); [Z.div_mod_to_equations; lia|].
    destruct (IH (length l) ltac:(cbn; lia) l eq_refl Hl) as [Hq Hnl].
    rewrite H1, H4, H8, H7, H12, H11, Hq. split; [|repeat constructor; done].
    repeat (f_equal; try (Z.div_mod_to_equations; lia)).
Qed.

Lemma of_bytes_bytes_of s : of_bytes (bytes_of s) = s.
Proof.
  unfold of_bytes, bytes_of. rewrite <- list_fmap_compose.
  rewrite (list_fmap_ext _ id) by (intros; apply chr_byteZ). by rewrite list_fmap_id, string_of_list_ascii_of_string.
Qed.

Lemma bytes_of_range s : Forall (fun b => 0 <= b < 256) (bytes_of s).
Proof. unfold bytes_of. apply Forall_fmap, Forall_true. intros a. apply byteZ_range. Qed.

Lemma filter_all {A} (P : A -> Prop) `{forall x, Decision (P x)} l : Forall P l -> base.filter P l = l.
Proof. induction 1 as [|x l Hx Hl IH]; [done|]. by rewrite filter_cons_True, IH. Qed.

Lemma b64_decode_encode s : b64_decode (b64_encode (bytes_of s)) = Some s.
Proof.
  unfold b64_decode. destruct (b64_quanta_encode (bytes_of s) (bytes_of_range s)) as [Hq Hn].
  rewrite filter_all by done. rewrite Hq. cbn. by rewrite of_bytes_bytes_of.
Qed.

(** ** Fields

    A field takes the value of every member that names it, in the order of the
    members; [None] is the error of the decoder. *)

Definition setter (R : Type) : Type := json -> R -> option R.

Definition as_string (v : json) (old : string) : option string :=
  match v with JStr s => Some s | JNull => Some old | _ => None end.

Definition as_bool (v : json) (old : bool) : option bool :=
  match v with JBool b => Some b | JNull => Some old | _ => None end.

(** The integer types with their bounds: [strconv.ParseInt] reads [-0]. *)
Definition as_int (lo hi : Z) (v : json) (old : Z) : option Z :=
  match v with
  | JInt z => if (lo <=? z) && (z <=? hi) then Some z else None
  | JReal lit => if str_eqb lit "-0" && (lo <? 0) then Some 0 else None
  | JNull => Some old
  | _ => None
  end.

Definition as_uint32 := as_int 0 (2 ^ 32 - 1).
Definition as_uint64 := as_int 0 (2 ^ 64 - 1).
Definition as_int64 := as_int (- 2 ^ 63) (2 ^ 63 - 1).

(** Elements of an array; [null] leaves the zero value. *)
Fixpoint as_elems {A} (elem : json -> option A) (l : list json) : option (list A) :=
  match l with
  | [] => Some []
  | v :: l' => match elem v, as_elems elem l' with Some x, Some xs => Some (x :: xs) | _, _ => None end
  end.

(** A [[]byte]: base64 text, or an array of numbers. *)
Definition as_bytes (v : json) (old : option string) : option (option string) :=
  match v with
  | JStr s => match b64_decode s with Some b => Some (Some b) | None => None end
  | JArr l => match as_elems (fun v => as_int 0 255 v 0) l with Some bs => Some (Some (of_bytes bs)) | None => None end
  | JNull => Some None
  | _ => None
  end.

Definition as_strings (v : json) (old : option (list string)) : option (option (list string)) :=
  match v with
  | JArr l => match as_elems (fun v => as_string v "") l with Some ss => Some (Some ss) | None => None end
  | JNull => Some None
  | _ => None
  end.

Section Fields.
Context `{UnicodeTables}.

(** The field of a struct with the given field names that a key names: the
    exact one, or else the first up to case. *)
Definition target (names : list string) (key : string) : option string :=
  if Contains names key then Some key
  else snd <$> list_find (fun n => EqualFold n key = true) names.

(** The value a field ends up with. *)
Fixpoint collect {A} (names : list string) (n : string) (read : json -> A -> option A) (ms : list (string * json))
    (old : A) : option A :=
  match ms with
  | [] => Some old
  | (key, v) :: ms' =>
      if bool_decide (target names key = Some n)
      then match read v old with Some x => collect names n read ms' x | None => None end
      else collect names n read ms' old
  end.

(** The members a struct is decoded from. *)
Definition members (v : json) : option (list (string * json)) :=
  match v with JObj ms => Some ms | JNull => Some [] | _ => None end.

Lemma collect_app {A} names n (read : json -> A -> option A) ms1 ms2 old :
  collect names n read (ms1 ++ ms2) old
  = match collect names n read ms1 old with Some x => collect names n read ms2 x | None => None end.
Proof.
  revert old. induction ms1 as [|[k v] ms1 IH]; intros old; cbn; [done|].
  case_bool_decide; [|apply IH]. destruct (read v old); [apply IH|done].
Qed.
End Fields.

(** An encoded struct: its fields in order, with whether [omitempty] drops them. *)
Definition jfield : Type := string * json * bool.

Fixpoint present (fs : list jfield) : list (string * json) :=
  match fs with
  | [] => []
  | (n, v, omit) :: fs' => if omit then present fs' else (n, v) :: present fs'
  end.

Definition struct (fs : list jfield) : json := JObj (present fs).

(** A field with its text, as [json_object] takes it. *)
Definition field_text (f : jfield) : json_field := JsonField f.1.1 (render f.1.2) f.2.

Lemma json_object_struct fs : json_object (field_text <$> fs) = render (struct fs).
Proof.
  unfold json_object. cbn [struct render]. do 2 f_equal.
  enough (forall l, json_members ((fun m => JsonField m.1 (render m.2) false) <$> l) = joined (render_member <$> l)) as He.
  { rewrite <- He. f_equal. induction fs as [|[[n v] []] fs IH]; cbn; [done..|]. f_equal. exact IH. }
  induction l as [|m [|m' l] IH]; [done..|]. cbn [fmap list_fmap json_members joined] in *. by rewrite IH.
Qed.

Fixpoint field_value (n : string) (fs : list jfield) : option json :=
  match fs with
  | [] => None
  | (k, v, omit) :: fs' => if str_eqb k n then if omit then None else Some v else field_value n fs'
  end.

Lemma field_value_absent n fs : n ∉ (fst ∘ fst <$> fs) -> field_value n fs = None.
Proof.
  intros Hn. induction fs as [|[[k' v'] o] fs IH]; [done|]. cbn in *. rewrite elem_of_cons in Hn.
  destruct (str_eqb k' n) eqn:E; go_bool; [naive_solver|]. apply IH. naive_solver.
Qed.

(** The fields can be told from what is present. *)
Fixpoint present_value (n : string) (ms : list (string * json)) : option json :=
  match ms with
  | [] => None
  | (k, v) :: ms' => if str_eqb k n then Some v else present_value n ms'
  end.

Lemma present_value_absent n fs : n ∉ (fst ∘ fst <$> fs) -> present_value n (present fs) = None.
Proof.
  induction fs as [|[[k v] o] fs IH]; [done|]. cbn. rewrite not_elem_of_cons. intros [Hk Hn].
  destruct o; [by apply IH|]. cbn. rewrite (proj2 (str_eqb_neq _ _)) by (cbn in Hk; congruence). by apply IH.
Qed.

Lemma present_value_field n fs : NoDup (fst ∘ fst <$> fs) -> present_value n (present fs) = field_value n fs.
Proof.
  induction fs as [|[[k v] o] fs IH]; [done|]. cbn. intros [Hk Hnd]%NoDup_cons. destruct (str_eqb k n) eqn:E; go_bool.
  - subst n. destruct o; [by apply present_value_absent|]. cbn. by rewrite str_eqb_refl.
  - destruct o; cbn; [|rewrite (proj2 (str_eqb_neq _ _)) by done]; by apply IH.
Qed.

Lemma struct_fields_eq n fs1 fs2 :
  NoDup (fst ∘ fst <$> fs1) -> NoDup (fst ∘ fst <$> fs2) -> struct fs1 = struct fs2 -> field_value n fs1 = field_value n fs2.
Proof. intros H1 H2 [= Hp]. by rewrite <- !present_value_field, Hp. Qed.

Lemma render_inj v w : json_wf v -> json_wf w -> render v = render w -> v = w.
Proof. intros Hv Hw Heq%(f_equal unmarshal). rewrite !unmarshal_render in Heq by done. by injection Heq. Qed.

Lemma omitted_eq {A} (wrap : A -> json) (empty : A -> bool) (zero x y : A) :
  (forall x, empty x = true -> x = zero) -> (forall x y, wrap x = wrap y -> x = y) ->
  (if empty x then None else Some (wrap x)) = (if empty y then None else Some (wrap y)) -> x = y.
Proof.
  intros Hz Hw. destruct (empty x) eqn:Ex, (empty y) eqn:Ey; try done; [by rewrite (Hz x), (Hz y)|].
  intros [= Heq]. by apply Hw.
Qed.

(** Whether the decoder of a struct with these fields ignores a member, or takes it
    for the field of exactly that name. *)
Definition settled `{UnicodeTables} (names : list string) (k : string) : bool :=
  Contains names k || bool_decide (target names k = None).

Lemma collect_settled `{UnicodeTables} {A} names n (read : json -> A -> option A) fs old :
  Contains names n = true -> forallb (settled names) (fst ∘ fst <$> fs) = true -> NoDup (fst ∘ fst <$> fs) ->
  collect names n read (present fs) old
  = match field_value n fs with Some v => read v old | None => Some old end.
Proof.
  intros Hn Hin Hnd. revert old Hin Hnd. induction fs as [|[[k v] omit] fs IH]; intros old Hin Hnd; [done|].
  cbn [fmap list_fmap forallb] in Hin, Hnd. apply andb_true_iff in Hin as [Hk Hin]. apply NoDup_cons in Hnd as [Hnk Hnd].
  change (settled names k = true) in Hk. pose proof (field_value_absent k fs Hnk) as Hnone.
  cbn [present field_value]. destruct (str_eqb k n) eqn:E; go_bool.
  - subst n. destruct omit; [by rewrite IH, Hnone by done|]. cbn [collect]. unfold target. rewrite (proj2 (Contains_true _ _) Hn).
    rewrite bool_decide_eq_true_2 by done. destruct (read v old); [|done]. by rewrite IH, Hnone by done.
  - destruct omit; [by apply IH|]. cbn [collect]. rewrite bool_decide_eq_false_2; [by apply IH|].
    unfold settled in Hk. apply orb_true_iff in Hk as [Hk|Hk].
    + unfold target. rewrite Hk. congruence.
    + apply bool_decide_eq_true in Hk. congruence.
Qed.

Lemma collect_struct `{UnicodeTables} {A} names n (read : json -> A -> option A) fs old :
  forallb (Contains names) (fst ∘ fst <$> fs) = true -> NoDup (fst ∘ fst <$> fs) ->
  collect names n read (present fs) old
  = match field_value n fs with Some v => read v old | None => Some old end.
Proof.
  intros Hin Hnd. destruct (Contains names n) eqn:En.
  - apply collect_settled; [done| |done]. rewrite forallb_forall in *. intros k Hk. unfold settled. by rewrite (Hin k Hk).
  - assert (n ∉ (fst ∘ fst <$> fs)) as Hn.
    { intros Hf. rewrite forallb_forall in Hin. rewrite (Hin n) in En by (by apply list_elem_of_In). done. }
    rewrite field_value_absent by done. revert old. clear Hnd. induction fs as [|[[k v] omit] fs IH]; intros old; [done|].
    cbn [fmap list_fmap forallb] in Hin, Hn. apply andb_true_iff in Hin as [Hk Hin]. rewrite not_elem_of_cons in Hn.
    change (Contains names k = true) in Hk. destruct Hn as [Hnk Hn]. cbn in Hnk.
    cbn [present]. destruct omit; [by apply IH|]. cbn [collect]. unfold target. rewrite Hk.
    rewrite bool_decide_eq_false_2 by congruence. by apply IH.
Qed.

(** A struct of well-formed fields. *)
Lemma struct_wf fs :
  Forall (fun f : jfield => f.2 = false -> utf8 f.1.1 /\ json_wf f.1.2) fs -> json_wf (struct fs).
Proof.
  intros Hf. cbn. apply foldr_wf_members. induction Hf as [|[[n v] []] fs Hv Hf IH]; cbn; [constructor|done|].
  constructor; [by apply Hv|done].
Qed.

Definition json_of_bytes (b : option string) : json :=
  match b with Some s => JStr (b64_encode (bytes_of s)) | None => JNull end.

(** The value of a byte slice that [omitempty] drops when it is empty. *)
Definition nonempty_bytes (b : option string) : option string :=
  match b with Some s => if str_eqb s "" then None else b | None => None end.

Definition no_bytes (b : option string) : bool := match nonempty_bytes b with Some _ => false | None => true end.

Lemma as_bytes_json b : as_bytes (json_of_bytes b) None = Some b.
Proof. destruct b as [s|]; [|done]. cbn. by rewrite b64_decode_encode. Qed.

Lemma as_int_json lo hi z old : lo <= z <= hi -> as_int lo hi (JInt z) old = Some z.
Proof. intros Hz. cbn. by byte_tests. Qed.

Lemma encode_codes s : plain s = true -> encode (codes s) = s /\ ascii_text s = true.
Proof.
  induction s as [|a s IH]; [done|]. cbn [plain]. rewrite andb_true_iff. intros [Ha Hp]. destruct (IH Hp) as [He Ht].
  unfold plain_char in Ha. rewrite !andb_true_iff in Ha. destruct Ha as [[H1 H2] _].
  apply Z.leb_le in H1. apply Z.ltb_lt in H2. split.
  - change (encode (codes (String a s))) with (append (encode_rune (byteZ a)) (encode (codes s))). rewrite He.
    unfold encode_rune. byte_tests. cbn. by rewrite chr_byteZ.
  - cbn [ascii_text]. rewrite Ht. by byte_tests.
Qed.

Lemma plain_utf8 s : plain s = true -> utf8 s.
Proof.
  intros Hp. destruct (encode_codes s Hp) as [He Ht]. unfold utf8. rewrite <- (append_empty_str s) at 1.
  rewrite runes_ascii_app by done. cbn. by rewrite app_nil_r.
Qed.

Lemma b64_char_plain n : 0 <= n < 64 -> plain_char (b64_char n) = true.
Proof. intros Hn. by destruct (b64_char_facts n Hn) as (_ & _ & _ & _ & H). Qed.

Lemma b64_plain l : Forall (fun b => 0 <= b < 256) l -> plain (b64_encode l) = true.
Proof.
  remember (length l) as n eqn:Hn. revert l Hn. induction n as [n IH] using lt_wf_ind. intros l -> Hl.
  destruct l as [|a [|b [|c l]]]; [done| | |]; rewrite !Forall_cons in Hl; cbn [b64_encode plain].
  - rewrite !b64_char_plain by (Z.div_mod_to_equations; lia). done.
  - rewrite !b64_char_plain by (Z.div_mod_to_equations; lia). done.
  - rewrite !b64_char_plain by (Z.div_mod_to_equations; lia).
    apply (IH (length l)); [cbn; lia|done|tauto].
Qed.

Lemma json_of_bytes_wf b : json_wf (json_of_bytes b).
Proof. destruct b; cbn; [|done]. apply plain_utf8, b64_plain, bytes_of_range. Qed.

(** Fields that [omitempty] may have dropped read back as well. *)
Lemma omitted_string s :
  match (if str_eqb s "" then None else Some (JStr s)) with Some v => as_string v "" | None => Some ""%string end = Some s.
Proof. destruct (str_eqb s "") eqn:E; [|done]. go_bool. by subst s. Qed.

Lemma omitted_bytes b :
  match (if no_bytes b then None else Some (json_of_bytes b)) with Some v => as_bytes v None | None => Some None end
  = Some (nonempty_bytes b).
Proof.
  unfold no_bytes. destruct (nonempty_bytes b) as [s|] eqn:E; [|done]. rewrite as_bytes_json.
  destruct b as [s'|]; [|done]. cbn in *. destruct (str_eqb s' ""); [done|]. by rewrite E.
Qed.

Lemma omitted_bool b :
  match (if negb b then None else Some (JBool b)) with Some v => as_bool v false | None => Some false end = Some b.
Proof. by destruct b. Qed.

Lemma omitted_int lo hi z : lo <= z <= hi ->
  match (if z =? 0 then None else Some (JInt z)) with Some v => as_int lo hi v 0 | None => Some 0 end = Some z.
Proof. intros Hz. destruct (z =? 0) eqn:E; go_bool; [by subst z|]. by apply as_int_json. Qed.

Lemma bind_some {A B} (m : option A) x (k : A -> option B) r : m = Some x -> k x = r -> m ≫= k = r.
Proof. by intros -> <-. Qed.

(** Reads one field of an encoded struct, given the law of [collect_struct]. *)
Ltac read_field Hc structure :=
  rewrite Hc; cbn [field_value structure]; str_compute; cbn iota;
  first [ apply omitted_string | apply omitted_bytes | apply omitted_bool | reflexivity
        | by apply as_int_json; unfold in_u32, in_u64, in_i64 in *; lia ].

(** Reading back a struct whose fields are read in order: one field per step. *)
Ltac read_struct_field :=
  eapply bind_some;
  [ rewrite collect_settled by first [ vm_compute; reflexivity | apply (bool_decide_eq_true_1 _); vm_compute; reflexivity ];
    cbn [field_value]; str_compute; cbn iota;
    first [ apply omitted_string | apply omitted_bytes | apply omitted_bool | reflexivity
          | by apply as_int_json; unfold in_u32, in_u64, in_i64 in *; lia
          | by apply omitted_int; unfold in_i64 in *; lia ]
  | ].

(** The well-formedness of a struct, field by field, from facts about its strings. *)
Ltac struct_fields :=
  apply struct_wf;
  repeat (constructor; [intros _; cbn [fst snd]; split;
    [by apply plain_utf8|cbn [json_wf]; unfold in_u32, in_u64, in_i64 in *; first [done|lia|apply json_of_bytes_wf]]|]);
  constructor.

(** A decoded object as an encoded struct without omitted fields. *)
Ltac plain_members :=
  match goal with
  | |- context [collect ?ns ?n ?rd ?ms ?old] =>
      lazymatch ms with
      | present _ => fail
      | _ => let fs := eval cbn [map fst snd] in (map (fun m : string * json => (m.1, m.2, false)) ms) in
             change ms with (present fs)
      end
  end.
