(* ===== verification/Config.v ===== *)
(** * Node configuration (package [internal/config])

    The configuration records, [Validate], the three compliance presets, the
    raw TOML structure with [apply], and [Load].  A slice that the code only
    measures or ranges over is a [list]; where the code tests a slice, map or
    pointer against [nil] (the raw TOML structure) it is an [option].  The
    TOML decoder and the file system are parameters of [Load]. *)

From S2P Require Import Prelude GoStrings.

(** ** Configuration records *)

Record CutoffWindow := { cw_Open : string; cw_Close : string; cw_TZ : string }.

Record Iso20022AdapterConfig := {
  iso_DedupTTLH : Z;
  iso_SettlementFinality : bool;
  iso_RetainLong : bool;
  iso_CutoffWindows : gmap string CutoffWindow }.

Record AdapterConfig := {
  ad_Type : string;
  ad_Version : string;
  ad_Enabled : bool;
  ad_Description : string;
  ad_JurisdictionPolicy : string;
  ad_AllowTiers : list string;
  ad_Contact : string }.

Record SchemaRegistryConfig := {
  sr_Adapters : list AdapterConfig;
  sr_Iso20022 : Iso20022AdapterConfig }.

Record StorageConfig := {
  st_Backend : string; st_Path : string; st_RedisURL : string; st_KeyPrefix : string }.

Record APIConfig := { api_APIKey : string; api_JWTSecret : string }.

Record UserConfig := { uc_DisplayHint : string; uc_Region : string }.

Record AppConfig := {
  ac_WebhookURL : string;
  ac_WebhookSecret : string;
  ac_WebhookTimeout : Z;
  ac_AutoAccept : string;
  ac_Users : gmap string UserConfig }.

Record TLSConfig := { tls_Cert : string; tls_Key : string; tls_CA : string; tls_Insecure : bool }.

Record NodeConfig := {
  nc_NodeID : string;
  nc_NodeScope : string;
  nc_Region : string;
  nc_Regions : list string;
  nc_AllianceID : string;
  nc_Disclaimer : string;
  nc_OperatorID : string;
  nc_PolicyVersion : string;
  nc_ApplicableLaw : string;
  nc_SignedBy : string;
  nc_DiscoveryTokenTTL : Z;
  nc_LogLevel : string;
  nc_LogFormat : string }.

Record ProfileConfig := {
  pf_Name : string;
  pf_DedupTTL : Z;
  pf_TimingJitterMax : Z;
  pf_PaddingBucket : Z;
  pf_DummyTrafficRate : Z;
  pf_TransitCacheTTL : Z }.

Record JurisdictionIsolationRule := {
  jr_SchemaType : string;
  jr_AllowTiers : list string;
  jr_AllowJurisdictions : list string;
  jr_RequireProfile : string }.

Record DiscoveryPolicy := { dp_AppIsolation : string; dp_AllowedAppIDs : list string }.
Record ConnectPolicy := { cp_AutoAccept : string; cp_TrustedNodes : list string }.
Record OutboundPolicy := { op_AllowTo : list string; op_DenyTo : list string; op_StoreLocally : bool }.
Record InboundPolicy := { ip_MinTrustTier : Z }.

Record AuditPolicy := {
  ap_LogAllDecisions : bool;
  ap_LogBackend : string;
  ap_ExportToOperator : bool;
  ap_DNSTXTPublish : bool;
  ap_DNSTXTInterval : Z;
  ap_HTTPSWellKnown : bool;
  ap_RootHashGossip : bool }.

Record PolicyConfig := {
  pc_Outbound : OutboundPolicy;
  pc_Inbound : InboundPolicy;
  pc_Audit : AuditPolicy;
  pc_AllowVia : list string;       (** [Routing.AllowVia] *)
  pc_Discovery : DiscoveryPolicy;
  pc_Connect : ConnectPolicy;
  pc_Rules : list JurisdictionIsolationRule  (** [JurisdictionIsolation.Rules] *) }.

Record PeerConfig := {
  peer_Region : string; peer_Addr : string; peer_NodeScope : string; peer_Regions : list string }.

Record NetworkConfig := {
  net_GRPCListenAddr : string;
  net_HTTPListenAddr : string;
  net_MetricsAddr : string;
  net_ShutdownTimeout : Z;
  net_Peers : gmap string PeerConfig;
  net_BootstrapNodes : list string;
  net_PeerGossipInterval : Z }.

Record Config := {
  cfg_Node : NodeConfig;
  cfg_Profile : ProfileConfig;
  cfg_Policy : PolicyConfig;
  cfg_Network : NetworkConfig;
  cfg_TLS : TLSConfig;
  cfg_API : APIConfig;
  cfg_Storage : StorageConfig;
  cfg_SchemaRegistry : SchemaRegistryConfig;
  cfg_Apps : gmap string AppConfig }.

(** ** Validation *)

Inductive ConfigError :=
| NodeIDRequired
| NodeScopeRequired
| NodeScopeInvalid (scope : string)
| OperatorIDRequired
| PolicyVersionRequired
| ApplicableLawRequired
| SignedByFormat
| ProfileNameRequired
| DedupTTLNotPositive
| HTTPListenAddrRequired
| GRPCListenAddrRequired
| RegionRequired (scope : string)
| RegionsRequired
| AllianceIDRequired
| AllowViaInvalid (tier : string)
| PeerAddrEmpty (key : string)
| PeerScopeInvalid (key scope : string)
| PeerRegionsRequired (key : string)
| AdapterTypeRequired (i : nat)
| AdapterTypeInvalid (i : nat) (t : string)
| AdapterVersionRequired (i : nat)
| RuleSchemaTypeRequired (i : nat)
| RuleTierInvalid (i : nat) (tier : string)
| PathNotFound
| PathIsDirectory (path : string)
| UnsupportedFormat (ext : string)
| OpenFailed
| ParseTOML.

(** One of the three tiers. *)
Definition is_tier (s : string) : bool :=
  str_eqb s "regional" || str_eqb s "alliance" || str_eqb s "global".

Definition isValidSchemaType (s : string) : bool :=
  str_eqb s "messaging" || str_eqb s "iso20022" || str_eqb s "hl7fhir" || str_eqb s "edifact"
  || HasPrefix s "custom:".

(** The first error of a list of checks, in order. *)
Fixpoint first_error {E} (checks : list (option E)) : option E :=
  match checks with
  | [] => None
  | Some e :: _ => Some e
  | None :: cs => first_error cs
  end.

Definition check {E} (bad : bool) (e : E) : option E := if bad then Some e else None.

(** The [switch] on the scalar fields. *)
Definition validateScalars (c : Config) : option ConfigError :=
  let n := cfg_Node c in
  first_error [
    check (blank (nc_NodeID n)) NodeIDRequired;
    check (blank (nc_NodeScope n)) NodeScopeRequired;
    check (negb (is_tier (nc_NodeScope n))) (NodeScopeInvalid (nc_NodeScope n));
    check (blank (nc_OperatorID n)) OperatorIDRequired;
    check (blank (nc_PolicyVersion n)) PolicyVersionRequired;
    check (blank (nc_ApplicableLaw n)) ApplicableLawRequired;
    check (negb (HasPrefix (nc_SignedBy n) "ed25519:")) SignedByFormat;
    check (blank (pf_Name (cfg_Profile c))) ProfileNameRequired;
    check (pf_DedupTTL (cfg_Profile c) <=? 0) DedupTTLNotPositive;
    check (blank (net_HTTPListenAddr (cfg_Network c))) HTTPListenAddrRequired;
    check (blank (net_GRPCListenAddr (cfg_Network c))) GRPCListenAddrRequired ].

Definition validateScope (n : NodeConfig) : option ConfigError :=
  if str_eqb (nc_NodeScope n) "regional" || str_eqb (nc_NodeScope n) "global" then
    check (blank (nc_Region n)) (RegionRequired (nc_NodeScope n))
  else if str_eqb (nc_NodeScope n) "alliance" then
    first_error [ check (negb (nonempty (nc_Regions n))) RegionsRequired;
                  check (blank (nc_AllianceID n)) AllianceIDRequired ]
  else None.

Definition validatePeer (kp : string * PeerConfig) : option ConfigError :=
  let (key, peer) := kp in
  first_error [
    check (blank (peer_Addr peer)) (PeerAddrEmpty key);
    check (negb (str_eqb (peer_NodeScope peer) "") && negb (is_tier (peer_NodeScope peer)))
          (PeerScopeInvalid key (peer_NodeScope peer));
    check (str_eqb (peer_NodeScope peer) "alliance" && negb (nonempty (peer_Regions peer)))
          (PeerRegionsRequired key) ].

Definition validateAdapter (i : nat) (a : AdapterConfig) : option ConfigError :=
  first_error [
    check (blank (ad_Type a)) (AdapterTypeRequired i);
    check (negb (isValidSchemaType (ad_Type a))) (AdapterTypeInvalid i (ad_Type a));
    check (blank (ad_Version a)) (AdapterVersionRequired i) ].

Definition validateRule (i : nat) (r : JurisdictionIsolationRule) : option ConfigError :=
  first_error (check (blank (jr_SchemaType r)) (RuleSchemaTypeRequired i)
    :: ((fun t => check (negb (is_tier t)) (RuleTierInvalid i t)) <$> jr_AllowTiers r)).

(** [Validate]; [order] is the order in which [range] visits the peers, which
    Go leaves open and which only matters for the choice of the reported error. *)
Definition Validate_in (order : list (string * PeerConfig)) (c : Config) : option ConfigError :=
  first_error (
    [validateScalars c; validateScope (cfg_Node c)]
    ++ ((fun t => check (negb (is_tier t)) (AllowViaInvalid t)) <$> pc_AllowVia (cfg_Policy c))
    ++ (validatePeer <$> order)
    ++ imap validateAdapter (sr_Adapters (cfg_SchemaRegistry c))
    ++ imap validateRule (pc_Rules (cfg_Policy c))).

Definition Validate (c : Config) : option ConfigError :=
  Validate_in (map_to_list (net_Peers (cfg_Network c))) c.

(** ** Presets ([presets.go]) *)

Definition version_App : string := "0.1.0".

Definition emptyIso : Iso20022AdapterConfig :=
  {| iso_DedupTTLH := 0; iso_SettlementFinality := false; iso_RetainLong := false;
     iso_CutoffWindows := ∅ |}.

Definition profilePreset (name : string) : ProfileConfig :=
  if str_eqb name "strict" then
    {| pf_Name := "strict"; pf_DedupTTL := 72 * Hour; pf_TimingJitterMax := 500 * Millisecond;
       pf_PaddingBucket := 16 * 1024; pf_DummyTrafficRate := 5 * Second;
       pf_TransitCacheTTL := 30 * Second |}
  else if str_eqb name "performance" then
    {| pf_Name := "performance"; pf_DedupTTL := Hour; pf_TimingJitterMax := 0;
       pf_PaddingBucket := 0; pf_DummyTrafficRate := 0; pf_TransitCacheTTL := 0 |}
  else
    {| pf_Name := "balanced"; pf_DedupTTL := 24 * Hour; pf_TimingJitterMax := 100 * Millisecond;
       pf_PaddingBucket := 4 * 1024; pf_DummyTrafficRate := 60 * Second;
       pf_TransitCacheTTL := 30 * Second |}.

Definition auditPreset (name : string) : AuditPolicy :=
  if str_eqb name "performance" then
    {| ap_LogAllDecisions := false; ap_LogBackend := "local-merkle"; ap_ExportToOperator := false;
       ap_DNSTXTPublish := false; ap_DNSTXTInterval := 0; ap_HTTPSWellKnown := false;
       ap_RootHashGossip := false |}
  else
    {| ap_LogAllDecisions := true; ap_LogBackend := "local-merkle"; ap_ExportToOperator := false;
       ap_DNSTXTPublish := true;
       ap_DNSTXTInterval := if str_eqb name "strict" then Hour else 6 * Hour;
       ap_HTTPSWellKnown := true; ap_RootHashGossip := false |}.

Definition DefaultConfigForProfile (name : string) : Config := {|
  cfg_Node := {|
    nc_NodeID := "rs-node-01"; nc_NodeScope := "regional"; nc_Region := "RS"; nc_Regions := [];
    nc_AllianceID := ""; nc_Disclaimer := ""; nc_OperatorID := "example-operator";
    nc_PolicyVersion := version_App; nc_ApplicableLaw := "RS-GDPR";
    nc_SignedBy := "ed25519:REPLACE_ME"; nc_DiscoveryTokenTTL := 5 * Minute;
    nc_LogLevel := ""; nc_LogFormat := "" |};
  cfg_Profile := profilePreset name;
  cfg_Policy := {|
    pc_Outbound := {| op_AllowTo := ["RU"; "BY"; "KZ"; "AM"]; op_DenyTo := [];
                      op_StoreLocally := negb (str_eqb name "performance") |};
    pc_Inbound := {| ip_MinTrustTier := 0 |};
    pc_Audit := auditPreset name;
    pc_AllowVia := [];
    pc_Discovery := {| dp_AppIsolation := "SAME_APP_ONLY"; dp_AllowedAppIDs := [] |};
    pc_Connect := {| cp_AutoAccept := "MANUAL"; cp_TrustedNodes := [] |};
    pc_Rules := [] |};
  cfg_Network := {|
    net_GRPCListenAddr := ":7777"; net_HTTPListenAddr := ":8080"; net_MetricsAddr := ":9090";
    net_ShutdownTimeout := 5 * Second; net_Peers := ∅; net_BootstrapNodes := [];
    net_PeerGossipInterval := 0 |};
  cfg_TLS := {| tls_Cert := ""; tls_Key := ""; tls_CA := ""; tls_Insecure := false |};
  cfg_API := {| api_APIKey := ""; api_JWTSecret := "" |};
  cfg_Storage := {| st_Backend := ""; st_Path := ""; st_RedisURL := ""; st_KeyPrefix := "" |};
  cfg_SchemaRegistry := {| sr_Adapters := []; sr_Iso20022 := emptyIso |};
  cfg_Apps := ∅ |}.

Definition DefaultBalancedConfig : Config := DefaultConfigForProfile "balanced".

(** ** The raw TOML structure *)

Record rawNode := {
  rn_NodeID : string; rn_NodeScope : string; rn_Region : string; rn_Regions : option (list string);
  rn_AllianceID : string; rn_Disclaimer : string; rn_OperatorID : string; rn_PolicyVersion : string;
  rn_ApplicableLaw : string; rn_SignedBy : string; rn_DiscoveryTokenTTLS : Z;
  rn_LogLevel : string; rn_LogFormat : string }.

Record rawOverride := {
  ro_PaddingBucketBytes : Z; ro_TimingJitterMaxMs : Z; ro_DedupTTLH : Z;
  ro_DummyTrafficIntervalSecond : Z; ro_TransitCacheTTLS : Z }.

Record rawPolicy := {
  rp_AllowTo : option (list string); rp_DenyTo : option (list string); rp_StoreLocally : option bool;
  rp_MinTrustTier : option Z;
  rp_LogAllDecisions : option bool; rp_LogBackend : string; rp_ExportOperator : option bool;
  rp_DNSPublish : option bool; rp_DNSIntervalS : Z; rp_HTTPSWellKnown : option bool;
  rp_RootHashGossip : option bool;
  rp_AllowVia : option (list string);
  rp_AppIsolation : string; rp_AllowedAppIDs : option (list string);
  rp_AutoAccept : string; rp_TrustedNodes : option (list string);
  rp_Rules : list JurisdictionIsolationRule }.

Record rawNetwork := {
  rw_GRPCListenAddr : string; rw_ListenAddr : string; rw_GRPCPort : Z;
  rw_HTTPListenAddr : string; rw_HTTPPort : Z;
  rw_MetricsAddr : string; rw_MetricsPort : Z;
  rw_ShutdownTimeoutS : Z; rw_BootstrapNodes : option (list string); rw_PeerGossipIntervalS : Z }.

Record rawPeer := { rpe_Addr : string; rpe_NodeScope : string; rpe_Regions : list string }.

Record rawApp := {
  ra_WebhookURL : string; ra_WebhookSecret : string; ra_WebhookTimeout : Z; ra_AutoAccept : string;
  ra_Users : gmap string UserConfig }.

Record rawAdapter := {
  rad_Type : string; rad_Version : string; rad_Enabled : option bool; rad_Description : string;
  rad_JurisdictionPolicy : string; rad_AllowTiers : list string; rad_Contact : string }.

Record rawTOML := {
  raw_Node : rawNode;
  raw_ProfileName : string;
  raw_ProfileOverride : rawOverride;
  raw_Policy : rawPolicy;
  raw_Network : rawNetwork;
  raw_Peers : option (gmap string rawPeer);
  raw_TLS : TLSConfig;
  raw_API : APIConfig;
  raw_Storage : StorageConfig;
  raw_Apps : option (gmap string rawApp);
  raw_Adapters : list rawAdapter;
  raw_Iso20022 : Iso20022AdapterConfig }.

Definition profileName (r : rawTOML) : string :=
  let name := TrimSpace (raw_ProfileName r) in
  if str_eqb name "" then "balanced" else name.

(** [if v := strings.TrimSpace(raw); v != "" { field = v }] *)
Definition set_str (raw old : string) : string :=
  let v := TrimSpace raw in if str_eqb v "" then old else v.

(** [if raw != nil { field = raw }] *)
Definition set_opt {A} (raw : option A) (old : A) : A :=
  match raw with Some v => v | None => old end.

(** [if raw > 0 { field = f(raw) }] *)
Definition set_pos (raw : Z) (f : Z -> Z) (old : Z) : Z := if 0 <? raw then f raw else old.

Definition in_unit (unit_ : Z) (n : Z) : Z := mul_duration n unit_.

(** [fmt.Sprintf(":%d", port)] when the port is positive. *)
Definition set_port (port : Z) (old : string) : string :=
  if 0 <? port then append ":" (itoa port) else old.

Definition applyNode (r : rawNode) (c : NodeConfig) : NodeConfig := {|
  nc_NodeID := set_str (rn_NodeID r) (nc_NodeID c);
  nc_NodeScope := set_str (rn_NodeScope r) (nc_NodeScope c);
  nc_Region := set_str (rn_Region r) (nc_Region c);
  nc_Regions := set_opt (rn_Regions r) (nc_Regions c);
  nc_AllianceID := set_str (rn_AllianceID r) (nc_AllianceID c);
  nc_Disclaimer := set_str (rn_Disclaimer r) (nc_Disclaimer c);
  nc_OperatorID := set_str (rn_OperatorID r) (nc_OperatorID c);
  nc_PolicyVersion := set_str (rn_PolicyVersion r) (nc_PolicyVersion c);
  nc_ApplicableLaw := set_str (rn_ApplicableLaw r) (nc_ApplicableLaw c);
  nc_SignedBy := set_str (rn_SignedBy r) (nc_SignedBy c);
  nc_DiscoveryTokenTTL := set_pos (rn_DiscoveryTokenTTLS r) (in_unit Second) (nc_DiscoveryTokenTTL c);
  nc_LogLevel := set_str (rn_LogLevel r) (nc_LogLevel c);
  nc_LogFormat := set_str (rn_LogFormat r) (nc_LogFormat c) |}.

Definition applyProfile (r : rawTOML) (c : ProfileConfig) : ProfileConfig :=
  let o := raw_ProfileOverride r in {|
  pf_Name := profileName r;
  pf_PaddingBucket := set_pos (ro_PaddingBucketBytes o) id (pf_PaddingBucket c);
  pf_TimingJitterMax := set_pos (ro_TimingJitterMaxMs o) (in_unit Millisecond) (pf_TimingJitterMax c);
  pf_DedupTTL := set_pos (ro_DedupTTLH o) (in_unit Hour) (pf_DedupTTL c);
  pf_DummyTrafficRate :=
    set_pos (ro_DummyTrafficIntervalSecond o) (in_unit Second) (pf_DummyTrafficRate c);
  pf_TransitCacheTTL := set_pos (ro_TransitCacheTTLS o) (in_unit Second) (pf_TransitCacheTTL c) |}.

Definition applyAudit (r : rawPolicy) (c : AuditPolicy) : AuditPolicy := {|
  ap_LogAllDecisions := set_opt (rp_LogAllDecisions r) (ap_LogAllDecisions c);
  ap_LogBackend := set_str (rp_LogBackend r) (ap_LogBackend c);
  ap_ExportToOperator := set_opt (rp_ExportOperator r) (ap_ExportToOperator c);
  ap_DNSTXTPublish := set_opt (rp_DNSPublish r) (ap_DNSTXTPublish c);
  ap_DNSTXTInterval := set_pos (rp_DNSIntervalS r) (in_unit Second) (ap_DNSTXTInterval c);
  ap_HTTPSWellKnown := set_opt (rp_HTTPSWellKnown r) (ap_HTTPSWellKnown c);
  ap_RootHashGossip := set_opt (rp_RootHashGossip r) (ap_RootHashGossip c) |}.

Definition applyPolicy (r : rawPolicy) (c : PolicyConfig) : PolicyConfig := {|
  pc_Outbound := {|
    op_AllowTo := set_opt (rp_AllowTo r) (op_AllowTo (pc_Outbound c));
    op_DenyTo := set_opt (rp_DenyTo r) (op_DenyTo (pc_Outbound c));
    op_StoreLocally := set_opt (rp_StoreLocally r) (op_StoreLocally (pc_Outbound c)) |};
  pc_Inbound := {| ip_MinTrustTier := set_opt (rp_MinTrustTier r) (ip_MinTrustTier (pc_Inbound c)) |};
  pc_Audit := applyAudit r (pc_Audit c);
  pc_AllowVia := set_opt (rp_AllowVia r) (pc_AllowVia c);
  pc_Discovery := {|
    dp_AppIsolation := set_str (rp_AppIsolation r) (dp_AppIsolation (pc_Discovery c));
    dp_AllowedAppIDs := set_opt (rp_AllowedAppIDs r) (dp_AllowedAppIDs (pc_Discovery c)) |};
  pc_Connect := {|
    cp_AutoAccept := set_str (rp_AutoAccept r) (cp_AutoAccept (pc_Connect c));
    cp_TrustedNodes := set_opt (rp_TrustedNodes r) (cp_TrustedNodes (pc_Connect c)) |};
  pc_Rules := if nonempty (rp_Rules r) then rp_Rules r else pc_Rules c |}.

Definition applyNetwork (r : rawNetwork) (peers : option (gmap string rawPeer)) (c : NetworkConfig)
  : NetworkConfig := {|
  net_GRPCListenAddr :=
    set_str (rw_GRPCListenAddr r)
      (set_str (rw_ListenAddr r) (set_port (rw_GRPCPort r) (net_GRPCListenAddr c)));
  net_HTTPListenAddr :=
    set_str (rw_HTTPListenAddr r) (set_port (rw_HTTPPort r) (net_HTTPListenAddr c));
  net_MetricsAddr := set_str (rw_MetricsAddr r) (set_port (rw_MetricsPort r) (net_MetricsAddr c));
  net_ShutdownTimeout := set_pos (rw_ShutdownTimeoutS r) (in_unit Second) (net_ShutdownTimeout c);
  net_BootstrapNodes := set_opt (rw_BootstrapNodes r) (net_BootstrapNodes c);
  net_PeerGossipInterval :=
    set_pos (rw_PeerGossipIntervalS r) (in_unit Second) (net_PeerGossipInterval c);
  net_Peers :=
    match peers with
    | Some ps => map_imap (fun k v => Some {| peer_Region := k; peer_Addr := rpe_Addr v;
                   peer_NodeScope := rpe_NodeScope v; peer_Regions := rpe_Regions v |}) ps
    | None => net_Peers c
    end |}.

Definition applyApp (raw : rawApp) : AppConfig := {|
  ac_WebhookURL := ra_WebhookURL raw;
  ac_WebhookSecret := ra_WebhookSecret raw;
  ac_WebhookTimeout := if ra_WebhookTimeout raw <=? 0 then 5 else ra_WebhookTimeout raw;
  ac_AutoAccept := if str_eqb (ra_AutoAccept raw) "" then "manual" else ra_AutoAccept raw;
  ac_Users := ra_Users raw |}.

Definition applyAdapter (a : rawAdapter) : AdapterConfig := {|
  ad_Type := rad_Type a; ad_Version := rad_Version a;
  ad_Enabled := set_opt (rad_Enabled a) true;
  ad_Description := rad_Description a; ad_JurisdictionPolicy := rad_JurisdictionPolicy a;
  ad_AllowTiers := rad_AllowTiers a; ad_Contact := rad_Contact a |}.

Definition applyRegistry (adapters : list rawAdapter) (iso : Iso20022AdapterConfig)
    (c : SchemaRegistryConfig) : SchemaRegistryConfig := {|
  sr_Adapters := if nonempty adapters then applyAdapter <$> adapters else sr_Adapters c;
  sr_Iso20022 :=
    if (0 <? iso_DedupTTLH iso) || iso_SettlementFinality iso || iso_RetainLong iso
       || nonempty (map_to_list (iso_CutoffWindows iso))
    then iso else sr_Iso20022 c |}.

Definition apply (r : rawTOML) (c : Config) : Config := {|
  cfg_Node := applyNode (raw_Node r) (cfg_Node c);
  cfg_Profile := applyProfile r (cfg_Profile c);
  cfg_Policy := applyPolicy (raw_Policy r) (cfg_Policy c);
  cfg_Network := applyNetwork (raw_Network r) (raw_Peers r) (cfg_Network c);
  cfg_TLS := {|
    tls_Cert := set_str (tls_Cert (raw_TLS r)) (tls_Cert (cfg_TLS c));
    tls_Key := set_str (tls_Key (raw_TLS r)) (tls_Key (cfg_TLS c));
    tls_CA := set_str (tls_CA (raw_TLS r)) (tls_CA (cfg_TLS c));
    tls_Insecure := tls_Insecure (raw_TLS r) |};
  cfg_API := {|
    api_APIKey := set_str (api_APIKey (raw_API r)) (api_APIKey (cfg_API c));
    api_JWTSecret := set_str (api_JWTSecret (raw_API r)) (api_JWTSecret (cfg_API c)) |};
  cfg_Storage := {|
    st_Backend := set_str (st_Backend (raw_Storage r)) (st_Backend (cfg_Storage c));
    st_Path := set_str (st_Path (raw_Storage r)) (st_Path (cfg_Storage c));
    st_RedisURL := set_str (st_RedisURL (raw_Storage r)) (st_RedisURL (cfg_Storage c));
    st_KeyPrefix := set_str (st_KeyPrefix (raw_Storage r)) (st_KeyPrefix (cfg_Storage c)) |};
  cfg_SchemaRegistry := applyRegistry (raw_Adapters r) (raw_Iso20022 r) (cfg_SchemaRegistry c);
  cfg_Apps := match raw_Apps r with Some apps => applyApp <$> apps | None => cfg_Apps c end |}.

(** ** [Load] *)

(** [filepath.Ext]: the suffix from the last dot of the last path element. *)
Fixpoint ext_rev (l acc : list ascii) : list ascii :=
  match l with
  | [] => []
  | a :: l' =>
      if Ascii.eqb a "/" then []
      else if Ascii.eqb a "." then a :: acc
      else ext_rev l' (a :: acc)
  end.

Definition Ext (path : string) : string :=
  string_of_list_ascii (ext_rev (rev (list_ascii_of_string path)) []).

Section Load.
Context `{UnicodeTables}.
(** [os.Stat]: nothing, or whether the path is a directory. *)
Context (stat : string -> option bool).
(** [os.Open] followed by the TOML decoder: the file, and its decoding. *)
Context (open_file : string -> option string) (decode_toml : string -> option rawTOML).

Definition Load (path : string) : outcome ConfigError Config :=
  if str_eqb (TrimSpace path) "" then Ok DefaultBalancedConfig else
  match stat path with
  | None => Err PathNotFound
  | Some true => Err (PathIsDirectory path)
  | Some false =>
      let ext := ToLower (Ext path) in
      if negb (str_eqb ext ".toml") then Err (UnsupportedFormat ext) else
      match open_file path with
      | None => Err OpenFailed
      | Some contents =>
          match decode_toml contents with
          | None => Err ParseTOML
          | Some raw =>
              let cfg := apply raw (DefaultConfigForProfile (profileName raw)) in
              match Validate cfg with
              | Some e => Err e
              | None => Ok cfg
              end
          end
      end
  end.
End Load.

(** ** What a valid configuration is *)

Definition tier (s : string) : Prop := s = "regional"%string \/ s = "alliance"%string \/ s = "global"%string.

(** The schema types of an adapter, as docs/PROTOCOL_SPEC.md (section 6.3) names them,
    except that the document forbids an empty identifier. *)
Definition recognised (s : string) : Prop :=
  s ∈ ["messaging"; "iso20022"; "hl7fhir"; "edifact"]%string \/ exists id, s = append "custom:" id.

Record ValidConfig (c : Config) : Prop := {
  vc_required :
    Forall (fun s => blank s = false)
      [nc_NodeID (cfg_Node c); nc_OperatorID (cfg_Node c); nc_PolicyVersion (cfg_Node c);
       nc_ApplicableLaw (cfg_Node c); pf_Name (cfg_Profile c);
       net_HTTPListenAddr (cfg_Network c); net_GRPCListenAddr (cfg_Network c)];
  vc_scope : tier (nc_NodeScope (cfg_Node c));
  vc_signed : HasPrefix (nc_SignedBy (cfg_Node c)) "ed25519:" = true;
  vc_ttl : 0 < pf_DedupTTL (cfg_Profile c);
  vc_region : nc_NodeScope (cfg_Node c) <> "alliance"%string -> blank (nc_Region (cfg_Node c)) = false;
  vc_alliance : nc_NodeScope (cfg_Node c) = "alliance"%string ->
    nc_Regions (cfg_Node c) <> [] /\ blank (nc_AllianceID (cfg_Node c)) = false;
  vc_via : Forall tier (pc_AllowVia (cfg_Policy c));
  vc_peers : map_Forall (fun _ p =>
      blank (peer_Addr p) = false
      /\ (peer_NodeScope p = ""%string \/ tier (peer_NodeScope p))
      /\ (peer_NodeScope p = "alliance"%string -> peer_Regions p <> []))
    (net_Peers (cfg_Network c));
  vc_adapters : Forall (fun a =>
      blank (ad_Type a) = false /\ recognised (ad_Type a) /\ blank (ad_Version a) = false)
    (sr_Adapters (cfg_SchemaRegistry c));
  vc_rules : Forall (fun r =>
      blank (jr_SchemaType r) = false /\ Forall tier (jr_AllowTiers r))
    (pc_Rules (cfg_Policy c)) }.

(** ** Lemmas on the checks *)

Lemma first_error_None {E} (cs : list (option E)) : first_error cs = None <-> Forall (fun c => c = None) cs.
Proof.
  induction cs as [|[e|] cs IH]; cbn; rewrite ?Forall_cons; naive_solver.
Qed.

Lemma check_None {E} b (e : E) : check b e = None <-> b = false.
Proof. destruct b; cbn; naive_solver. Qed.

Lemma is_tier_true s : is_tier s = true <-> tier s.
Proof. unfold is_tier, tier. go_bool. tauto. Qed.

Lemma is_tier_blank : forall s, tier s -> blank s = false.
Proof. intros s [->|[->| ->]]; vm_compute; reflexivity. Qed.

Lemma Forall_imap_None {A E} (f : nat -> A -> option E) (P : A -> Prop) l :
  (forall i x, f i x = None <-> P x) ->
  Forall (fun c => c = None) (imap f l) <-> Forall P l.
Proof.
  intros Hf. revert f Hf. induction l as [|x l IH]; intros f Hf; cbn.
  - split; constructor.
  - rewrite !Forall_cons, Hf. unfold compose. rewrite (IH (fun n => f (S n))) by eauto. done.
Qed.

Create Rewrite HintDb goconf.
#[export] Hint Rewrite @first_error_None @check_None is_tier_true @Forall_cons @Forall_nil
  @Forall_app @Forall_fmap : goconf.

Ltac conf := autorewrite with goconf; go_bool.

Lemma validateScalars_None c :
  validateScalars c = None <->
    Forall (fun s => blank s = false)
      [nc_NodeID (cfg_Node c); nc_OperatorID (cfg_Node c); nc_PolicyVersion (cfg_Node c);
       nc_ApplicableLaw (cfg_Node c); pf_Name (cfg_Profile c);
       net_HTTPListenAddr (cfg_Network c); net_GRPCListenAddr (cfg_Network c)]
    /\ tier (nc_NodeScope (cfg_Node c))
    /\ HasPrefix (nc_SignedBy (cfg_Node c)) "ed25519:" = true
    /\ 0 < pf_DedupTTL (cfg_Profile c).
Proof.
  unfold validateScalars. conf. rewrite is_tier_true. pose proof (is_tier_blank (nc_NodeScope (cfg_Node c))).
  intuition lia.
Qed.

Lemma validateScope_None n :
  tier (nc_NodeScope n) ->
  validateScope n = None <->
    (nc_NodeScope n <> "alliance"%string -> blank (nc_Region n) = false)
    /\ (nc_NodeScope n = "alliance"%string -> nc_Regions n <> [] /\ blank (nc_AllianceID n) = false).
Proof.
  unfold validateScope. intros [E|[E|E]]; rewrite E; str_compute; conf; naive_solver.
Qed.

Lemma validatePeer_None k p :
  validatePeer (k, p) = None <->
    blank (peer_Addr p) = false
    /\ (peer_NodeScope p = ""%string \/ tier (peer_NodeScope p))
    /\ (peer_NodeScope p = "alliance"%string -> peer_Regions p <> []).
Proof.
  unfold validatePeer. conf. rewrite is_tier_true.
  destruct (decide (peer_NodeScope p = "alliance"%string)); tauto.
Qed.

Lemma isValidSchemaType_recognised s : isValidSchemaType s = true <-> recognised s.
Proof.
  unfold isValidSchemaType, recognised. rewrite !orb_true_iff, !str_eqb_eq, HasPrefix_iff.
  rewrite !elem_of_cons, elem_of_nil. tauto.
Qed.

Lemma validateAdapter_None i a :
  validateAdapter i a = None <->
    blank (ad_Type a) = false /\ recognised (ad_Type a) /\ blank (ad_Version a) = false.
Proof. rewrite <- isValidSchemaType_recognised. unfold validateAdapter. conf. tauto. Qed.

Lemma Forall_tier_checks {E} (e : string -> E) l :
  Forall (fun c => c = None) ((fun t => check (negb (is_tier t)) (e t)) <$> l) <-> Forall tier l.
Proof.
  rewrite Forall_fmap. apply Forall_iff. intros s. unfold compose. cbn.
  rewrite check_None, negb_false_iff. apply is_tier_true.
Qed.

Lemma validateRule_None i r :
  validateRule i r = None <-> blank (jr_SchemaType r) = false /\ Forall tier (jr_AllowTiers r).
Proof.
  unfold validateRule. rewrite first_error_None, Forall_cons, check_None, Forall_tier_checks. done.
Qed.

Lemma Forall_peers_None order (m : gmap string PeerConfig) :
  order ≡ₚ map_to_list m ->
  Forall (fun c => c = None) (validatePeer <$> order) <->
  map_Forall (fun _ p =>
      blank (peer_Addr p) = false
      /\ (peer_NodeScope p = ""%string \/ tier (peer_NodeScope p))
      /\ (peer_NodeScope p = "alliance"%string -> peer_Regions p <> [])) m.
Proof.
  intros Hperm. rewrite Hperm, Forall_fmap, map_Forall_to_list. apply Forall_iff.
  intros [k p]. apply validatePeer_None.
Qed.

Lemma Validate_in_None order c :
  order ≡ₚ map_to_list (net_Peers (cfg_Network c)) ->
  Validate_in order c = None <-> ValidConfig c.
Proof.
  intros Hperm. unfold Validate_in.
  rewrite first_error_None, !Forall_app, !Forall_cons, Forall_tier_checks, Forall_peers_None by done.
  rewrite (Forall_imap_None _ _ _ validateAdapter_None), (Forall_imap_None _ _ _ validateRule_None).
  rewrite validateScalars_None. split.
  - intros (((Hreq & Hsc & Hsig & Httl) & Hscope & _) & Hvia & Hp & Ha & Hr).
    apply validateScope_None in Hscope as [H1 H2]; [|done]. by constructor.
  - intros []. rewrite validateScope_None by done. split_and!; auto.
Qed.

Lemma Validate_None c : Validate c = None <-> ValidConfig c.
Proof. by apply Validate_in_None. Qed.

Lemma Load_Ok_valid `{UnicodeTables} stat open_file decode_toml path cfg :
  Load stat open_file decode_toml path = Ok cfg -> ValidConfig cfg.
Proof.
  unfold Load. intros Hl. apply Validate_None. revert Hl.
  case_guards; intros [= <-]; [vm_compute; reflexivity | done].
Qed.

Lemma set_pos_exact raw unit_ old :
  0 < raw -> raw * unit_ < 2 ^ 63 -> 0 < unit_ -> set_pos raw (in_unit unit_) old = raw * unit_.
Proof.
  intros Hr Hb Hu. unfold set_pos, in_unit, mul_duration. rewrite (proj2 (Z.ltb_lt _ _)) by done.
  apply wrap_i64_id. unfold in_i64. nia.
Qed.

Lemma set_pos_keep raw f old : raw <= 0 -> set_pos raw f old = old.
Proof. intros Hr. unfold set_pos. by rewrite (proj2 (Z.ltb_ge _ _)). Qed.

(** ** Properties *)

(** C17: [Validate] accepts exactly the valid configurations.  Whatever the order
    in which Go visits the peer map, the checks report no error if and only if the
    configuration satisfies [ValidConfig]: the required fields are there, every
    tier is one of the three, the scope has its region or alliance, the signing key
    is an ed25519 key, the deduplication window is positive, every peer and jurisdiction
    rule is well formed, and every adapter has a version and one of the four known schema
    types or one that starts with "custom:". *)
Theorem Validate_exact order c :
  order ≡ₚ map_to_list (net_Peers (cfg_Network c)) ->
  (Validate_in order c = None <-> ValidConfig c)
  /\ ((exists e, Validate_in order c = Some e) <-> ~ ValidConfig c).
Proof.
  intros Hperm. pose proof (Validate_in_None _ _ Hperm) as Hv. split; [exact Hv|].
  rewrite <- Hv. destruct (Validate_in order c); naive_solver.
Qed.

Lemma Validate_exact_witness : ValidConfig (DefaultConfigForProfile "performance").
Proof.
  refine (proj1 (proj1 (Validate_exact [] (DefaultConfigForProfile "performance") _)) _).
  - vm_compute. reflexivity.
  - vm_compute. reflexivity.
Defined.

(** The specification (section 6.3) wants the identifier after "custom:" to be non-empty;
    the validation takes an adapter without one. *)
Example custom_without_id : isValidSchemaType "custom:" = true /\ recognised "custom:".
Proof. split; [reflexivity|]. right. by exists ""%string. Qed.

Section LoadProperties.
Context `{UnicodeTables} (stat : string -> option bool) (open_file : string -> option string).
Context (decode_toml : string -> option rawTOML).

(** What [Load] returns, on every path.  A blank path gives the balanced
    defaults; any other path succeeds exactly when it names a regular file with
    extension .toml that opens and decodes, and the file laid over the preset of
    the profile it names is a valid configuration, which is then the result.
    Either way the configuration returned is valid. *)
Theorem Load_exact path cfg :
  Load stat open_file decode_toml path = Ok cfg <->
  ValidConfig cfg
  /\ ((TrimSpace path = ""%string /\ cfg = DefaultBalancedConfig)
      \/ (TrimSpace path <> ""%string /\ stat path = Some false /\ ToLower (Ext path) = ".toml"%string
          /\ exists contents raw,
              open_file path = Some contents /\ decode_toml contents = Some raw
              /\ cfg = apply raw (DefaultConfigForProfile (profileName raw)))).
Proof.
  split.
  - intros Hl. split; [by eapply Load_Ok_valid|]. revert Hl. unfold Load.
    case_guards; go_bool; intros [= <-]; [by left|right]. naive_solver.
  - intros [Hv [[Hb ->]|(Hb & Hs & He & contents & raw & Ho & Hd & ->)]]; unfold Load.
    + by rewrite Hb.
    + apply Validate_None in Hv.
      by rewrite (proj2 (str_eqb_neq _ _) Hb), Hs, He, str_eqb_refl, Ho, Hd, Hv.
Qed.
End LoadProperties.

(** The profile section of a file.  Each positive override replaces the
    preset value by exactly the number of milliseconds, seconds or hours written,
    as long as the product fits a 64-bit duration; an absent, zero or negative
    override keeps the preset; the profile keeps the trimmed name the file gives. *)
Theorem profile_override_exact r c :
  let o := raw_ProfileOverride r in
  let p := applyProfile r c in
  ro_TimingJitterMaxMs o * Millisecond < 2 ^ 63 -> ro_DedupTTLH o * Hour < 2 ^ 63 ->
  ro_DummyTrafficIntervalSecond o * Second < 2 ^ 63 -> ro_TransitCacheTTLS o * Second < 2 ^ 63 ->
  pf_Name p = profileName r
  /\ pf_PaddingBucket p = (if 0 <? ro_PaddingBucketBytes o then ro_PaddingBucketBytes o else pf_PaddingBucket c)
  /\ pf_TimingJitterMax p =
       (if 0 <? ro_TimingJitterMaxMs o then ro_TimingJitterMaxMs o * Millisecond else pf_TimingJitterMax c)
  /\ pf_DedupTTL p = (if 0 <? ro_DedupTTLH o then ro_DedupTTLH o * Hour else pf_DedupTTL c)
  /\ pf_DummyTrafficRate p =
       (if 0 <? ro_DummyTrafficIntervalSecond o then ro_DummyTrafficIntervalSecond o * Second
        else pf_DummyTrafficRate c)
  /\ pf_TransitCacheTTL p =
       (if 0 <? ro_TransitCacheTTLS o then ro_TransitCacheTTLS o * Second else pf_TransitCacheTTL c).
Proof.
  cbn zeta. intros H1 H2 H3 H4. cbn [applyProfile pf_Name pf_PaddingBucket pf_TimingJitterMax pf_DedupTTL
    pf_DummyTrafficRate pf_TransitCacheTTL].
  split_and!; try reflexivity;
    (destruct (0 <? _) eqn:E; go_bool; [by apply set_pos_exact | by apply set_pos_keep]).
Qed.

(** A raw configuration file with nothing but a profile section. *)
Definition emptyRawPolicy : rawPolicy :=
  {| rp_AllowTo := None; rp_DenyTo := None; rp_StoreLocally := None; rp_MinTrustTier := None;
     rp_LogAllDecisions := None; rp_LogBackend := ""; rp_ExportOperator := None;
     rp_DNSPublish := None; rp_DNSIntervalS := 0; rp_HTTPSWellKnown := None;
     rp_RootHashGossip := None; rp_AllowVia := None; rp_AppIsolation := ""; rp_AllowedAppIDs := None;
     rp_AutoAccept := ""; rp_TrustedNodes := None; rp_Rules := [] |}.

Definition rawProfileWith (name : string) (o : rawOverride) : rawTOML :=
  {| raw_Node := {| rn_NodeID := ""; rn_NodeScope := ""; rn_Region := ""; rn_Regions := None;
       rn_AllianceID := ""; rn_Disclaimer := ""; rn_OperatorID := ""; rn_PolicyVersion := "";
       rn_ApplicableLaw := ""; rn_SignedBy := ""; rn_DiscoveryTokenTTLS := 0; rn_LogLevel := "";
       rn_LogFormat := "" |};
     raw_ProfileName := name;
     raw_ProfileOverride := o;
     raw_Policy := emptyRawPolicy;
     raw_Network := {| rw_GRPCListenAddr := ""; rw_ListenAddr := ""; rw_GRPCPort := 0;
       rw_HTTPListenAddr := ""; rw_HTTPPort := 0; rw_MetricsAddr := ""; rw_MetricsPort := 0;
       rw_ShutdownTimeoutS := 0; rw_BootstrapNodes := None; rw_PeerGossipIntervalS := 0 |};
     raw_Peers := None;
     raw_TLS := {| tls_Cert := ""; tls_Key := ""; tls_CA := ""; tls_Insecure := false |};
     raw_API := {| api_APIKey := ""; api_JWTSecret := "" |};
     raw_Storage := {| st_Backend := ""; st_Path := ""; st_RedisURL := ""; st_KeyPrefix := "" |};
     raw_Apps := None; raw_Adapters := [];
     raw_Iso20022 := emptyIso |}.

Definition noOverride : rawOverride :=
  {| ro_PaddingBucketBytes := 0; ro_TimingJitterMaxMs := 0; ro_DedupTTLH := 0;
     ro_DummyTrafficIntervalSecond := 0; ro_TransitCacheTTLS := 0 |}.

Definition rawProfile (name : string) : rawTOML := rawProfileWith name noOverride.

Lemma profile_override_exact_witness :
  let r := rawProfileWith " strict " {| ro_PaddingBucketBytes := 0; ro_TimingJitterMaxMs := 250;
             ro_DedupTTLH := 48; ro_DummyTrafficIntervalSecond := -1; ro_TransitCacheTTLS := 0 |} in
  pf_Name (applyProfile r (profilePreset "strict")) = "strict"%string
  /\ pf_DedupTTL (applyProfile r (profilePreset "strict")) = 48 * Hour.
Proof.
  cbn zeta.
  match goal with |- context [applyProfile ?r ?c] => pose proof (profile_override_exact r c) as Hp end.
  destruct Hp as (Hn & _ & _ & Hd & _); [vm_compute; reflexivity..|].
  split; [etransitivity; [exact Hn|] | etransitivity; [exact Hd|]]; vm_compute; reflexivity.
Defined.
