(* ===== verification/Schema.v ===== *)
(** * Schema types and ISO 20022 cutoff windows (package [internal/schema])

    [Normalize], the parsing of "HH:MM" times, [IsInWindow] and [NextOpen].
    The time-zone database behind [time.LoadLocation] is a parameter: a
    location is the function [lookup] of package [time], which gives for an
    instant the offset in force and the interval in which it is in force. *)

From S2P Require Import Prelude GoStrings Config.

Definition Messaging : string := "messaging".
Definition Iso20022 : string := "iso20022".
Definition Hl7Fhir : string := "hl7fhir".
Definition Edifact : string := "edifact".

Definition Normalize (t : string) : string := if str_eqb (TrimSpace t) "" then Messaging else t.

Lemma Normalize_idem t : Normalize (Normalize t) = Normalize t.
Proof. unfold Normalize. by destruct (str_eqb (TrimSpace t) "") eqn:E; [|rewrite E]. Qed.

Inductive SchemaError :=
| InvalidTimezone (tz : string)
| ExpectedHHMM (s : string)
| TimeOutOfRange (s : string).

(** ** [parseTOD] *)

(** [SkipSpace] of package [fmt] in [Sscanf]: white space is skipped, a
    newline is an error. *)
Fixpoint skip_space (l : list ascii) : option (list ascii) :=
  match l with
  | [] => Some []
  | a :: l' => if byteZ a =? 10 then None else if space1 a then skip_space l' else Some l
  end.

Definition is_digit (a : ascii) : bool := (48 <=? byteZ a) && (byteZ a <=? 57).

Fixpoint scan_digits (l : list ascii) (acc : Z) : Z * list ascii :=
  match l with
  | a :: l' => if is_digit a then scan_digits l' (acc * 10 + (byteZ a - 48)) else (acc, l)
  | [] => (acc, [])
  end.

(** The verb [%d]: optional white space, optional sign, at least one digit. *)
Definition scan_int (l : list ascii) : option (Z * list ascii) :=
  match skip_space l with
  | None => None
  | Some l1 =>
      let '(sign, l2) :=
        match l1 with
        | a :: l' => if byteZ a =? 43 then (1, l') else if byteZ a =? 45 then (-1, l') else (1, l1)
        | [] => (1, [])
        end in
      match l2 with
      | a :: _ => if is_digit a then let '(n, l3) := scan_digits l2 0 in Some (sign * n, l3) else None
      | [] => None
      end
  end.

(** [fmt.Sscanf(s, "%d:%d", &h, &m)], when both verbs succeed. *)
Definition scan_hm (s : string) : option (Z * Z) :=
  match scan_int (list_ascii_of_string s) with
  | Some (h, c :: rest) =>
      if Ascii.eqb c ":" then
        match scan_int rest with Some (m, _) => Some (h, m) | None => None end
      else None
  | _ => None
  end.

Definition parseTOD (s : string) : outcome SchemaError Z :=
  if negb (Nat.eqb (String.length s) 5)
     || negb (bool_decide (String.get 2 s = Some ":"%char)) then Err (ExpectedHHMM s) else
  match scan_hm s with
  | None => Err (ExpectedHHMM s)
  | Some (h, m) =>
      if (h <? 0) || (23 <? h) || (m <? 0) || (59 <? m) then Err (TimeOutOfRange s)
      else Ok (h * 60 + m)
  end.

(** ** Locations *)

Record zone := { z_offset : Z; z_start : Z; z_end : Z }.

Definition Location := Z -> zone.

(** Seconds of the local clock at [t.In(loc)]. *)
Definition localSec (loc : Location) (t : Z) : Z := Unix t + z_offset (loc (Unix t)).

Definition timeHour (loc : Location) (t : Z) : Z := localSec loc t mod 86400 / 3600.
Definition timeMinute (loc : Location) (t : Z) : Z := localSec loc t mod 3600 / 60.

Definition timeOfDay (loc : Location) (t : Z) : Z := timeHour loc t * 60 + timeMinute loc t.

(** [time.Date(y, m, d, hour, min, 0, 0, loc)] where [day] counts the civil
    days of [y-m-d] from 1970-01-01: the offset in force at the wall-clock
    reading taken as UTC, corrected once when the result leaves its interval. *)
Definition DateOn (loc : Location) (day hour min : Z) : Z :=
  let unix := day * 86400 + hour * 3600 + min * 60 in
  let z := loc unix in
  if z_offset z =? 0 then unix * Second else
  let utc := unix - z_offset z in
  let off := if (utc <? z_start z) || (z_end z <=? utc) then z_offset (loc utc) else z_offset z in
  (unix - off) * Second.

Section Windows.
Context (LoadLocation : string -> option Location).

(** The common head of [IsInWindow] and [NextOpen]. *)
Definition parseWindow (w : CutoffWindow) : outcome SchemaError (Location * Z * Z) :=
  match LoadLocation (cw_TZ w) with
  | None => Err (InvalidTimezone (cw_TZ w))
  | Some loc =>
      (let! open := parseTOD (cw_Open w) in
       let! close := parseTOD (cw_Close w) in
       Ok (loc, open, close))%go
  end.

Definition IsInWindow (w : CutoffWindow) (t : Z) : outcome SchemaError bool :=
  (let! p := parseWindow w in
   let '(loc, open, close) := p in
   let now := timeOfDay loc t in
   Ok (if open <=? close then (open <=? now) && (now <? close)
       else (open <=? now) || (now <? close)))%go.

Definition NextOpen (w : CutoffWindow) (t : Z) : outcome SchemaError Z :=
  (let! p := parseWindow w in
   let '(loc, open, close) := p in
   let nowTOD := timeOfDay loc t in
   let openToday := DateOn loc (localSec loc t / 86400) (open / 60) (open mod 60) in
   Ok (if open <=? close then
         if nowTOD <? open then openToday else openToday + 24 * Hour
       else openToday))%go.
End Windows.

(** ** Lemmas *)

Lemma parseTOD_range s n : parseTOD s = Ok n -> 0 <= n < 1440.
Proof.
  unfold parseTOD. case_guards; try done.
  destruct p as [h m]. case_guards; [done|]. intros [= <-]. go_bool. lia.
Qed.

Lemma timeOfDay_eq loc t : timeOfDay loc t = localSec loc t mod 86400 / 60.
Proof. unfold timeOfDay, timeHour, timeMinute. generalize (localSec loc t). intros. Z.to_euclidean_division_equations. lia. Qed.

Lemma timeOfDay_range loc t : 0 <= timeOfDay loc t < 1440.
Proof. rewrite timeOfDay_eq. generalize (localSec loc t). intros. Z.to_euclidean_division_equations. lia. Qed.

Lemma parseWindow_Ok L w loc open close :
  parseWindow L w = Ok (loc, open, close) ->
  L (cw_TZ w) = Some loc /\ parseTOD (cw_Open w) = Ok open /\ parseTOD (cw_Close w) = Ok close
  /\ 0 <= open < 1440 /\ 0 <= close < 1440.
Proof.
  unfold parseWindow. destruct (L (cw_TZ w)) as [l|]; [|done].
  destruct (parseTOD (cw_Open w)) eqn:Ho; [|done]. destruct (parseTOD (cw_Close w)) eqn:Hc; [|done].
  cbn. intros [= -> -> ->].
  pose proof (parseTOD_range _ _ Ho). pose proof (parseTOD_range _ _ Hc). auto.
Qed.

(** A location with one offset at all times: UTC and the fixed zones. *)
Definition fixed_offset (loc : Location) (off : Z) : Prop := forall u, z_offset (loc u) = off.

Lemma DateOn_fixed loc off day h m :
  fixed_offset loc off -> DateOn loc day h m = (day * 86400 + h * 3600 + m * 60 - off) * Second.
Proof.
  intros Hf. unfold DateOn. rewrite !Hf. destruct (off =? 0) eqn:E; go_bool; [subst; f_equal; lia|].
  by destruct (_ || _).
Qed.

(** Minutes into the window at [now], counted on the 24-hour dial. *)
Definition sinceOpen (open now : Z) : Z := (now - open) mod 1440.

(** "Inside the window": fewer minutes have passed since the opening time than
    the window lasts, on the 24-hour dial. *)
Definition inWindow (open close now : Z) : Prop := sinceOpen open now < sinceOpen open close.

#[export] Instance inWindow_dec open close now : Decision (inWindow open close now).
Proof. unfold inWindow. apply _. Defined.

Lemma window_test open close now :
  0 <= open < 1440 -> 0 <= close < 1440 -> 0 <= now < 1440 ->
  (if open <=? close then (open <=? now) && (now <? close) else (open <=? now) || (now <? close)) = true
  <-> inWindow open close now.
Proof.
  intros. unfold inWindow, sinceOpen. destruct (open <=? close) eqn:E; go_bool;
    Z.to_euclidean_division_equations; lia.
Qed.

(** ** The properties of the windows *)

(** Two decimal digits, as [fmt.Sprintf("%02d")] prints them. *)
Definition two_digits (n : Z) : string := String (chr (48 + n / 10)) (String (chr (48 + n mod 10)) "").

Definition fmtTOD (h m : Z) : string := append (two_digits h) (String ":"%char (two_digits m)).

Definition tod_ok (h m : Z) : bool :=
  match parseTOD (fmtTOD h m) with Ok n => n =? h * 60 + m | Err _ => false end.

Lemma parse_fmtTOD h m : 0 <= h < 24 -> 0 <= m < 60 -> parseTOD (fmtTOD h m) = Ok (h * 60 + m).
Proof.
  intros Hh Hm.
  assert (tod_ok h m = true) as H.
  { revert m Hm. apply forallb_below. revert h Hh. apply (forallb_below (fun h => forallb (tod_ok h) (seqZ 0 60))).
    vm_compute. reflexivity. }
  unfold tod_ok in H. destruct (parseTOD (fmtTOD h m)); [|done]. apply Z.eqb_eq in H. by subst.
Qed.

Lemma IsInWindow_inWindow L w loc open close t :
  parseWindow L w = Ok (loc, open, close) ->
  exists b, IsInWindow L w t = Ok b /\ (b = true <-> inWindow open close (timeOfDay loc t)).
Proof.
  intros Hp. unfold IsInWindow. rewrite Hp. cbn. eexists. split; [reflexivity|].
  apply parseWindow_Ok in Hp as (_ & _ & _ & Ho & Hc). apply window_test; auto using timeOfDay_range.
Qed.

(** Arithmetic of the next opening on a dial of seconds: [now] is the local
    clock in seconds, [s] the first second of the next opening. *)
Definition nextOpenSec (open close now : Z) : Z :=
  let today := now / 86400 * 86400 + open * 60 in
  if open <=? close then if now mod 86400 / 60 <? open then today else today + 86400 else today.

Lemma nextOpenSec_first open close now :
  0 <= open < 1440 -> 0 <= close < 1440 -> ~ inWindow open close (now mod 86400 / 60) ->
  let s := nextOpenSec open close now in
  now < s <= now + 86400
  /\ s mod 86400 / 60 = open
  /\ (forall u, now <= u < s -> ~ inWindow open close (u mod 86400 / 60)).
Proof.
  intros Ho Hc Hn. cbn zeta. unfold nextOpenSec.
  rewrite <- window_test in Hn by (try lia; Z.to_euclidean_division_equations; lia).
  split; [|split].
  - destruct (open <=? close) eqn:E1; [destruct (_ <? open) eqn:E2|]; go_bool;
      Z.to_euclidean_division_equations; lia.
  - destruct (open <=? close) eqn:E1; [destruct (_ <? open) eqn:E2|]; go_bool;
      Z.to_euclidean_division_equations; lia.
  - intros u Hu. rewrite <- window_test by (try lia; Z.to_euclidean_division_equations; lia).
    destruct (open <=? close) eqn:E1; [destruct (_ <? open) eqn:E2 in Hu|]; go_bool;
      Z.to_euclidean_division_equations; lia.
Qed.

Lemma Unix_mul s : Unix (s * Second) = s.
Proof. unfold Unix. by rewrite Z.div_mul. Qed.

Lemma Unix_bounds t : Unix t * Second <= t < (Unix t + 1) * Second.
Proof. unfold Unix, Second, Millisecond. Z.to_euclidean_division_equations. lia. Qed.

Lemma localSec_fixed loc off t : fixed_offset loc off -> localSec loc t = Unix t + off.
Proof. intros Hf. unfold localSec. by rewrite Hf. Qed.

Lemma NextOpen_fixed L w loc off open close t :
  parseWindow L w = Ok (loc, open, close) -> fixed_offset loc off ->
  NextOpen L w t = Ok ((nextOpenSec open close (Unix t + off) - off) * Second).
Proof.
  intros Hp Hf. unfold NextOpen. rewrite Hp. cbn. f_equal.
  apply parseWindow_Ok in Hp as (_ & _ & _ & Ho & Hc).
  rewrite timeOfDay_eq, (DateOn_fixed _ off), !(localSec_fixed _ off) by done.
  unfold nextOpenSec. replace (24 * Hour) with (86400 * Second) by reflexivity.
  case_guards; Z.to_euclidean_division_equations; lia.
Qed.

(** The cutoff-window test is membership in an interval of the 24-hour
    dial: for every configured window that parses, [IsInWindow] answers true
    exactly when the minutes elapsed since the opening time, modulo a day, are
    fewer than the length of the window; windows that cross midnight included,
    and a window whose opening and closing times coincide is never open. *)
Theorem IsInWindow_dial (L : string -> option Location) w loc open close t :
  parseWindow L w = Ok (loc, open, close) ->
  IsInWindow L w t = Ok (bool_decide (sinceOpen open (timeOfDay loc t) < sinceOpen open close))
  /\ (open = close -> IsInWindow L w t = Ok false).
Proof.
  intros Hp. destruct (IsInWindow_inWindow L w loc open close t Hp) as (b & -> & Hb).
  unfold inWindow in Hb. split.
  - f_equal. case_bool_decide; destruct b; naive_solver.
  - intros ->. f_equal. destruct b; [|done]. exfalso. destruct Hb as [Hb _]. specialize (Hb eq_refl).
    unfold sinceOpen in Hb. Z.to_euclidean_division_equations. lia.
Qed.

Definition utc_zone : Location := fun _ => {| z_offset := 0; z_start := - 2 ^ 62; z_end := 2 ^ 62 |}.
Definition utc_db (name : string) : option Location := if str_eqb name "UTC" then Some utc_zone else None.
Definition night_window : CutoffWindow := {| cw_Open := "22:00"; cw_Close := "06:00"; cw_TZ := "UTC" |}.

Lemma IsInWindow_dial_witness :
  IsInWindow utc_db night_window (23 * Hour) = Ok true.
Proof.
  rewrite (proj1 (IsInWindow_dial utc_db night_window utc_zone 1320 360 (23 * Hour) ltac:(reflexivity))).
  vm_compute. reflexivity.
Defined.

(** In a zone of fixed offset, when an instant is outside the window,
    [NextOpen] returns the first instant after it that is inside: the result is
    later, at most 24 hours later, everything in between is outside, and the
    result itself is inside unless the window is empty. *)
Theorem NextOpen_first (L : string -> option Location) w loc off open close t :
  parseWindow L w = Ok (loc, open, close) -> fixed_offset loc off ->
  IsInWindow L w t = Ok false ->
  exists t', NextOpen L w t = Ok t'
    /\ t < t' <= t + 24 * Hour
    /\ (forall u, t <= u < t' -> IsInWindow L w u = Ok false)
    /\ (open <> close -> IsInWindow L w t' = Ok true).
Proof.
  intros Hp Hf Hout. exists ((nextOpenSec open close (Unix t + off) - off) * Second).
  split; [by apply NextOpen_fixed with loc|].
  pose proof (parseWindow_Ok _ _ _ _ _ Hp) as (_ & _ & _ & Ho & Hc).
  assert (forall u, IsInWindow L w u = Ok (bool_decide (inWindow open close ((Unix u + off) mod 86400 / 60)))) as Hin.
  { intros u. destruct (IsInWindow_inWindow L w loc open close u Hp) as (b & -> & Hb).
    rewrite timeOfDay_eq, (localSec_fixed _ off) in Hb by done. f_equal.
    case_bool_decide; destruct b; naive_solver. }
  rewrite Hin in Hout. injection Hout as Hout. apply bool_decide_eq_false in Hout.
  destruct (nextOpenSec_first open close (Unix t + off) Ho Hc Hout) as (Hb & Hopen & Hgap).
  pose proof (Unix_bounds t) as Ht. set (s := nextOpenSec open close (Unix t + off)) in *.
  assert (Second = 1000000000) as HS by reflexivity. assert (Hour = 3600 * Second) as HH by reflexivity.
  split; [lia|split].
  - intros u Hu. rewrite Hin, bool_decide_eq_false_2; [done|]. apply Hgap.
    pose proof (Unix_bounds u). lia.
  - intros Hne. rewrite Hin, bool_decide_eq_true_2; [done|].
    rewrite (Unix_mul (s - off)), Z.sub_add, Hopen.
    unfold inWindow, sinceOpen. Z.to_euclidean_division_equations. lia.
Qed.

Lemma NextOpen_first_witness :
  exists t', NextOpen utc_db night_window (12 * Hour) = Ok t' /\ IsInWindow utc_db night_window t' = Ok true.
Proof.
  destruct (NextOpen_first utc_db night_window utc_zone 0 1320 360 (12 * Hour)) as (t' & H1 & _ & _ & H2);
    [reflexivity | intros u; reflexivity | vm_compute; reflexivity |].
  exists t'. split; [exact H1 | apply H2; lia].
Defined.

(** A zone that moves its clocks forward by an hour at the given instant. *)
Definition spring_forward (at_ : Z) : Location := fun u =>
  if u <? at_ then {| z_offset := 3600; z_start := - 2 ^ 62; z_end := at_ |}
  else {| z_offset := 7200; z_start := at_; z_end := 2 ^ 62 |}.

Definition cet_db (name : string) : option Location := Some (spring_forward 1774746000).
Definition day_window : CutoffWindow :=
  {| cw_Open := "08:00"; cw_Close := "17:00"; cw_TZ := "Europe/Belgrade" |}.

(** Across a clock change [NextOpen] is late: it adds 24 hours of elapsed
    time to today's opening, so on the evening before the clocks go forward
    (2026-03-28, 19:00 local) it names 09:00 of the next day although the window
    has been open since 08:00. *)
Theorem NextOpen_clock_change :
  let evening := 1774720800 * Second in
  IsInWindow cet_db day_window evening = Ok false
  /\ exists t', NextOpen cet_db day_window evening = Ok t'
     /\ timeOfDay (spring_forward 1774746000) t' = 9 * 60
     /\ IsInWindow cet_db day_window (t' - Hour) = Ok true.
Proof.
  cbn zeta. split; [vm_compute; reflexivity|]. eexists. split; [vm_compute; reflexivity|].
  split; vm_compute; reflexivity.
Qed.

(** Parsing inverts printing: for every hour below 24 and minute below 60
    the zero-padded "HH:MM" text is accepted and yields hour * 60 + minute, and
    whatever text [parseTOD] accepts, the result is a minute of the day. *)
Theorem parseTOD_roundtrip :
  (forall h m, 0 <= h < 24 -> 0 <= m < 60 -> parseTOD (fmtTOD h m) = Ok (h * 60 + m))
  /\ (forall s n, parseTOD s = Ok n -> 0 <= n < 1440).
Proof. split; [apply parse_fmtTOD | apply parseTOD_range]. Qed.
