(* ===== verification/Crl.v ===== *)
(** * Certificate revocation list (package [internal/crl])

    The in-memory store of revocation records.  A node counts as revoked once
    two distinct signatures support its record.  The theorems show that the
    verdict is a function of the set of signatures received for the node, so
    that stores exchanging their entries agree whatever the order of arrival. *)

From S2P Require Import Prelude.

Record CrlEntry := {
  ce_NodeID : string; ce_Reason : string; ce_RevokedAt : Z; ce_Signatures : list string }.

Record CrlStore := { crl_entries : gmap string CrlEntry }.

Definition New : CrlStore := {| crl_entries := ∅ |}.

(** [now] is only read when the record is created. *)
Definition Revoke (now : Z) (nodeID reason sig : string) (s : CrlStore) : CrlStore :=
  let e := match crl_entries s !! nodeID with
           | Some e => e
           | None => {| ce_NodeID := nodeID; ce_Reason := reason; ce_RevokedAt := now;
                        ce_Signatures := [] |}
           end in
  let e' := if Contains (ce_Signatures e) sig then e
            else {| ce_NodeID := ce_NodeID e; ce_Reason := ce_Reason e; ce_RevokedAt := ce_RevokedAt e;
                    ce_Signatures := ce_Signatures e ++ [sig] |} in
  {| crl_entries := <[nodeID := e']> (crl_entries s) |}.

Definition IsRevoked (s : CrlStore) (nodeID : string) : bool :=
  match crl_entries s !! nodeID with
  | Some e => Nat.leb 2 (length (ce_Signatures e))
  | None => false
  end.

(** [Entries]: a snapshot in the order [order] in which the map is visited. *)
Definition Entries (order : list (string * CrlEntry)) : list CrlEntry := order.*2.

(** The calls of [Revoke] that [Merge] makes, in order. *)
Definition mergeCalls (entries : list CrlEntry) : list (string * string * string) :=
  e ← entries; (fun sig => (ce_NodeID e, ce_Reason e, sig)) <$> ce_Signatures e.

(** [clk i] is the clock reading of the [i]-th call. *)
Fixpoint revokeAll (clk : nat -> Z) (calls : list (string * string * string)) (s : CrlStore) : CrlStore :=
  match calls with
  | [] => s
  | (n, r, g) :: cs => revokeAll (fun i => clk (S i)) cs (Revoke (clk O) n r g s)
  end.

Definition Merge (clk : nat -> Z) (entries : list CrlEntry) (s : CrlStore) : CrlStore :=
  revokeAll clk (mergeCalls entries) s.

(** ** Invariant *)

Definition entry_wf (k : string) (e : CrlEntry) : Prop := ce_NodeID e = k /\ NoDup (ce_Signatures e).

Definition crl_wf (s : CrlStore) : Prop := map_Forall entry_wf (crl_entries s).

(** The signatures a store holds for a node. *)
Definition sigs (s : CrlStore) (n : string) : gset string :=
  match crl_entries s !! n with Some e => list_to_set (ce_Signatures e) | None => ∅ end.

(** The signatures a list of revocations carries for a node. *)
Definition callSigs (calls : list (string * string * string)) (n : string) : gset string :=
  list_to_set ((fun c => c.2) <$> base.filter (fun c => c.1.1 = n) calls).

Lemma crl_wf_New : crl_wf New.
Proof. apply map_Forall_empty. Qed.

Lemma Revoke_wf now n r g s : crl_wf s -> crl_wf (Revoke now n r g s).
Proof.
  intros Hwf. apply map_Forall_insert_2; [|done].
  destruct (crl_entries s !! n) as [e|] eqn:E.
  - apply Hwf in E as [Hn Hd]. destruct (Contains _ g) eqn:Eg; [done|]. go_bool.
    split; [done|]. cbn. apply NoDup_app. split_and!; [done| |apply NoDup_singleton].
    intros x Hx Hg. apply list_elem_of_singleton in Hg as ->. done.
  - cbn. split; [done|]. apply NoDup_singleton.
Qed.

Lemma Revoke_sigs now n r g s m :
  sigs (Revoke now n r g s) m = (if decide (m = n) then {[g]} else ∅) ∪ sigs s m.
Proof.
  unfold sigs, Revoke. cbn. rewrite lookup_insert. destruct (decide (n = m)) as [->|Hne].
  - rewrite decide_True by done. destruct (crl_entries s !! m) as [e|].
    + destruct (Contains _ g) eqn:Eg; go_bool; cbn; rewrite ?list_to_set_app_L; set_solver.
    + cbn. set_solver.
  - rewrite decide_False by done. set_solver.
Qed.

Lemma IsRevoked_sigs s n : crl_wf s -> IsRevoked s n = bool_decide (2 <= size (sigs s n))%nat.
Proof.
  intros Hwf. unfold IsRevoked, sigs. destruct (crl_entries s !! n) as [e|] eqn:E.
  - apply Hwf in E as [_ Hd]. rewrite size_list_to_set by done.
    destruct (Nat.leb_spec 2 (length (ce_Signatures e))); symmetry;
      [by apply bool_decide_eq_true_2 | apply bool_decide_eq_false_2; lia].
  - by rewrite size_empty.
Qed.

Lemma revokeAll_wf clk calls s : crl_wf s -> crl_wf (revokeAll clk calls s).
Proof.
  revert clk s. induction calls as [|[[n r] g] cs IH]; cbn; eauto using Revoke_wf.
Qed.

Lemma revokeAll_sigs clk calls s n : sigs (revokeAll clk calls s) n = callSigs calls n ∪ sigs s n.
Proof.
  revert clk s. induction calls as [|[[m r] g] cs IH]; intros clk s; cbn [revokeAll]; [set_solver|].
  rewrite IH, Revoke_sigs. unfold callSigs. rewrite filter_cons.
  destruct (decide (n = m)) as [->|]; [rewrite decide_True by done | rewrite decide_False by (cbn; congruence)];
    cbn; set_solver.
Qed.

Lemma elem_of_callSigs calls n g : g ∈ callSigs calls n <-> exists r, (n, r, g) ∈ calls.
Proof.
  unfold callSigs. rewrite elem_of_list_to_set, list_elem_of_fmap. split.
  - intros ([[m r] g'] & -> & Hin). apply list_elem_of_filter in Hin as [<- Hin]. eauto.
  - intros [r Hin]. exists (n, r, g). split; [done|]. by apply list_elem_of_filter.
Qed.

Lemma callSigs_Entries order s n :
  crl_wf s -> order ≡ₚ map_to_list (crl_entries s) ->
  callSigs (mergeCalls (Entries order)) n = sigs s n.
Proof.
  intros Hwf Hperm. apply set_eq. intros g. rewrite elem_of_callSigs. unfold mergeCalls, Entries, sigs.
  setoid_rewrite list_elem_of_bind. setoid_rewrite list_elem_of_fmap.
  setoid_rewrite Hperm. split.
  - intros (r & e & (g' & [= -> -> ->] & Hg) & [k e'] & -> & Hin). cbn in *.
    apply elem_of_map_to_list in Hin. pose proof (Hwf _ _ Hin) as [-> _]. rewrite Hin.
    by apply elem_of_list_to_set.
  - destruct (crl_entries s !! n) as [e|] eqn:E; [|set_solver]. rewrite elem_of_list_to_set. intros Hg.
    pose proof (Hwf _ _ E) as [Hn _]. exists (ce_Reason e), e. split.
    + exists g. by rewrite Hn.
    + exists (n, e). split; [done|]. by apply elem_of_map_to_list.
Qed.

(** ** Properties *)

(** After any sequence of revocation requests on an empty store, a node is
    revoked exactly when at least two distinct signatures were submitted for it;
    resubmitting the same signature never revokes a node. *)
Theorem IsRevoked_threshold clk calls n :
  IsRevoked (revokeAll clk calls New) n = bool_decide (2 <= size (callSigs calls n))%nat.
Proof.
  rewrite IsRevoked_sigs by apply revokeAll_wf, crl_wf_New. rewrite revokeAll_sigs.
  assert (sigs New n = ∅) as -> by done. by rewrite right_id_L by apply _.
Qed.

(** C15: Gossip converges: two well-formed stores that merge each other's
    snapshot, visited in any order and at any times, agree on every node, and
    they agree with the union of the signatures both had; no revocation known
    to either is lost. *)
Theorem Merge_converges clk1 clk2 order1 order2 s1 s2 :
  crl_wf s1 -> crl_wf s2 ->
  order1 ≡ₚ map_to_list (crl_entries s1) -> order2 ≡ₚ map_to_list (crl_entries s2) ->
  forall n,
    IsRevoked (Merge clk1 (Entries order2) s1) n = IsRevoked (Merge clk2 (Entries order1) s2) n
    /\ IsRevoked (Merge clk1 (Entries order2) s1) n
       = bool_decide (2 <= size (sigs s1 n ∪ sigs s2 n))%nat
    /\ (IsRevoked s1 n = true -> IsRevoked (Merge clk1 (Entries order2) s1) n = true).
Proof.
  intros H1 H2 P1 P2 n. unfold Merge.
  rewrite !IsRevoked_sigs by (done || by apply revokeAll_wf).
  rewrite !revokeAll_sigs, (callSigs_Entries order1 s1), (callSigs_Entries order2 s2) by done.
  rewrite (union_comm_L (sigs s2 n)). split_and!; [done..|].
  rewrite !bool_decide_eq_true. intros Hs.
  pose proof (subseteq_size (sigs s1 n) (sigs s1 n ∪ sigs s2 n)). set_solver by lia.
Qed.

Definition crl_ex (sig : string) : CrlStore := Revoke 0 "node-x" "compromised" sig New.

Lemma Merge_converges_witness :
  IsRevoked (crl_ex "a") "node-x" = false
  /\ IsRevoked (Merge (fun _ => 0) (Entries (map_to_list (crl_entries (crl_ex "b")))) (crl_ex "a")) "node-x"
     = IsRevoked (Merge (fun _ => 0) (Entries (map_to_list (crl_entries (crl_ex "a")))) (crl_ex "b")) "node-x".
Proof.
  split; [vm_compute; reflexivity|].
  refine (proj1 (Merge_converges (fun _ => 0) (fun _ => 0) (map_to_list (crl_entries (crl_ex "a")))
           (map_to_list (crl_entries (crl_ex "b"))) (crl_ex "a") (crl_ex "b") _ _ _ _ "node-x"%string));
    try reflexivity; apply Revoke_wf, crl_wf_New.
Defined.
