(* ===== verification/Store.v ===== *)
(** * The persistence interface (package [internal/store])

    The rows of the store and the interface [NodeStore] every backend
    implements, as a type class over the backend's state: reading methods
    return a value or an error, writing methods also return the new state. *)

From S2P Require Import Prelude.

Record StoreDLQEntry := {
  sd_ID : string; sd_IdempotencyKey : string; sd_PeerAddr : string; sd_Attempts : Z;
  sd_LastErr : string; sd_FirstSeenUnix : Z; sd_LastAttemptUnix : Z; sd_Payload : option string;
  sd_Reason : string; sd_NextOpenUnix : Z }.

Record AuditEntry := {
  sa_Seq : Z; sa_TimestampUnixMS : Z; sa_Decision : string; sa_SenderRegion : string;
  sa_RecipientRegion : string; sa_PolicyVersion : string; sa_Profile : string;
  sa_ApplicableLaw : string; sa_Reason : string; sa_SchemaType : string; sa_SchemaVersion : string;
  sa_RetainLong : bool; sa_SettlementFinal : bool }.

Record CRLEntry := {
  sc_NodeID : string; sc_Reason : string; sc_RevokedAt : Z; sc_Signatures : option (list (option string)) }.

(** What a backend's method fails with: an error of its database, or a row it cannot
    decode. *)
Inductive StoreError (E : Type) := LibError (e : E) | DecodeError.
Arguments LibError {E} e.
Arguments DecodeError {E}.

Class NodeStore (B : Type) := {
  store_error : Type;
  Deduped : Z -> string -> Z -> B -> outcome store_error bool * B;
  DLQPush : StoreDLQEntry -> B -> option store_error * B;
  DLQList : B -> outcome store_error (list StoreDLQEntry);
  DLQDelete : string -> B -> option store_error * B;
  AuditAppend : AuditEntry -> B -> option store_error * B;
  AuditLatest : Z -> B -> outcome store_error (list AuditEntry);
  CRLPut : CRLEntry -> B -> option store_error * B;
  CRLGet : string -> B -> outcome store_error (option CRLEntry);
  CRLList : B -> outcome store_error (list CRLEntry) }.
