(* ===== verification/AuditLog.v ===== *)
(** * The audit log (package [internal/audit])

    A hash chain of decisions: every entry carries the hash of its predecessor
    and its own hash over the JSON form of its other fields.  The model computes
    the real JSON bytes and the real SHA-256 digests.  The theorems: every log
    the operations produce verifies, the log is append-only, and two verifying
    logs with the same root are the same log, as long as SHA-256 tells the texts of
    their own entries apart. *)

From S2P Require Import Prelude GoStrings GoCrypto Utf8 Json JsonFields Config Schema Store.

Definition DecisionAllow : string := "ALLOW".
Definition DecisionDeny : string := "DENY".
Definition DecisionDuplicate : string := "DUPLICATE".
Definition DecisionDummy : string := "ALLOW/DUMMY".
Definition DecisionSettlementFinal : string := "SETTLEMENT/FINAL".

Record Entry := {
  ae_Seq : Z;
  ae_Timestamp : Z;
  ae_Decision : string;
  ae_Reason : string;
  ae_TrustTier : Z;
  ae_SenderRegion : string;
  ae_RecipientRegion : string;
  ae_PolicyVersion : string;
  ae_Profile : string;
  ae_ApplicableLaw : string;
  ae_DedupTTLHours : Z;
  ae_NodeScope : string;
  ae_AllianceID : string;
  ae_NodeRegion : string;
  ae_SchemaType : string;
  ae_SchemaVersion : string;
  ae_RetainLong : bool;
  ae_SettlementFinal : bool;
  ae_PreviousHash : string;
  ae_EntryHash : string }.

(** ** Hashing *)

Definition stringsOfZeros (length : nat) : string := string_of_list_ascii (replicate length "0"%char).

Definition zeroHash : string := append "sha256:" (stringsOfZeros 64).

Definition empty_str (s : string) : bool := str_eqb s "".

(** The members of the hashed JSON object before ["previous_hash"]. *)
Definition hashedFields (e : Entry) : list json_field := [
  field "seq" (itoa (ae_Seq e));
  field "timestamp" (itoa (ae_Timestamp e));
  field "decision" (json_string (ae_Decision e));
  field_omit "reason" (json_string (ae_Reason e)) (empty_str (ae_Reason e));
  field "trust_tier" (itoa (ae_TrustTier e));
  field "sender_region" (json_string (ae_SenderRegion e));
  field "recipient_region" (json_string (ae_RecipientRegion e));
  field "policy_version" (json_string (ae_PolicyVersion e));
  field "profile" (json_string (ae_Profile e));
  field "applicable_law" (json_string (ae_ApplicableLaw e));
  field "dedup_ttl_hours" (itoa (ae_DedupTTLHours e));
  field "node_scope" (json_string (ae_NodeScope e));
  field "alliance_id" (json_string (ae_AllianceID e));
  field "node_region" (json_string (ae_NodeRegion e));
  field_omit "schema_type" (json_string (ae_SchemaType e)) (empty_str (ae_SchemaType e));
  field_omit "schema_version" (json_string (ae_SchemaVersion e)) (empty_str (ae_SchemaVersion e));
  field_omit "retain_long" (json_bool (ae_RetainLong e)) (negb (ae_RetainLong e));
  field_omit "settlement_final" (json_bool (ae_SettlementFinal e)) (negb (ae_SettlementFinal e)) ].

(** [json.Marshal(payload)] in [hashEntry]. *)
Definition hashPayload (e : Entry) : string :=
  json_object (hashedFields e ++ [field "previous_hash" (json_string (ae_PreviousHash e))]).

Definition hashString (raw : string) : string := append "sha256:" (hex_encode (Sum256 raw)).

Definition hashEntry (e : Entry) : string := hashString (hashPayload e).

(** [entry.EntryHash = hashEntry(entry)] *)
Definition seal_entry (e : Entry) : Entry := {|
  ae_Seq := ae_Seq e; ae_Timestamp := ae_Timestamp e; ae_Decision := ae_Decision e;
  ae_Reason := ae_Reason e; ae_TrustTier := ae_TrustTier e; ae_SenderRegion := ae_SenderRegion e;
  ae_RecipientRegion := ae_RecipientRegion e; ae_PolicyVersion := ae_PolicyVersion e;
  ae_Profile := ae_Profile e; ae_ApplicableLaw := ae_ApplicableLaw e;
  ae_DedupTTLHours := ae_DedupTTLHours e; ae_NodeScope := ae_NodeScope e;
  ae_AllianceID := ae_AllianceID e; ae_NodeRegion := ae_NodeRegion e;
  ae_SchemaType := ae_SchemaType e; ae_SchemaVersion := ae_SchemaVersion e;
  ae_RetainLong := ae_RetainLong e; ae_SettlementFinal := ae_SettlementFinal e;
  ae_PreviousHash := ae_PreviousHash e; ae_EntryHash := hashEntry e |}.

(** ** Conversion to and from the store *)

Definition toStoreEntry (e : Entry) : AuditEntry := {|
  sa_Seq := ae_Seq e; sa_TimestampUnixMS := ae_Timestamp e; sa_Decision := ae_Decision e;
  sa_SenderRegion := ae_SenderRegion e; sa_RecipientRegion := ae_RecipientRegion e;
  sa_PolicyVersion := ae_PolicyVersion e; sa_Profile := ae_Profile e;
  sa_ApplicableLaw := ae_ApplicableLaw e; sa_Reason := ae_Reason e;
  sa_SchemaType := ae_SchemaType e; sa_SchemaVersion := ae_SchemaVersion e;
  sa_RetainLong := ae_RetainLong e; sa_SettlementFinal := ae_SettlementFinal e |}.

Definition fromStoreEntry (e : AuditEntry) : Entry := {|
  ae_Seq := sa_Seq e; ae_Timestamp := sa_TimestampUnixMS e; ae_Decision := sa_Decision e;
  ae_Reason := sa_Reason e; ae_TrustTier := 0;
  ae_SenderRegion := sa_SenderRegion e; ae_RecipientRegion := sa_RecipientRegion e;
  ae_PolicyVersion := sa_PolicyVersion e; ae_Profile := sa_Profile e;
  ae_ApplicableLaw := sa_ApplicableLaw e; ae_DedupTTLHours := 0; ae_NodeScope := "";
  ae_AllianceID := ""; ae_NodeRegion := ""; ae_SchemaType := sa_SchemaType e;
  ae_SchemaVersion := sa_SchemaVersion e; ae_RetainLong := sa_RetainLong e;
  ae_SettlementFinal := sa_SettlementFinal e; ae_PreviousHash := ""; ae_EntryHash := "" |}.

(** ** The log *)

Inductive AuditError :=
| PreviousHashMismatch (i : nat)
| EntryHashMismatch (i : nat)
| EmptyRootMismatch
| RootMismatch
| LogUnreadable.

Section Log.
Context {B : Type} `{NodeStore B}.

Record Log := { log_entries : list Entry; log_root : string; log_backend : option B }.

Definition NewLog : Log := {| log_entries := []; log_root := zeroHash; log_backend := None |}.

Definition SetStore (b : B) (l : Log) : Log :=
  {| log_entries := log_entries l; log_root := log_root l; log_backend := Some b |}.

(** The entry [appendEntry] adds; [now] is its clock reading. *)
Definition newEntry (now : Z) (cfg : Config) (decision reason : string) (trustTier : Z)
    (senderRegion recipientRegion schemaType schemaVersion : string)
    (retainLong settlementFinal : bool) (l : Log) : Entry :=
  seal_entry {|
    ae_Seq := wrap_u64 (Z.of_nat (length (log_entries l)) + 1);
    ae_Timestamp := UnixMilli now;
    ae_Decision := decision; ae_Reason := reason; ae_TrustTier := trustTier;
    ae_SenderRegion := senderRegion; ae_RecipientRegion := recipientRegion;
    ae_PolicyVersion := nc_PolicyVersion (cfg_Node cfg);
    ae_Profile := pf_Name (cfg_Profile cfg);
    ae_ApplicableLaw := nc_ApplicableLaw (cfg_Node cfg);
    ae_DedupTTLHours := wrap_u64 (Z.quot (pf_DedupTTL (cfg_Profile cfg)) Hour);
    ae_NodeScope := nc_NodeScope (cfg_Node cfg);
    ae_AllianceID := nc_AllianceID (cfg_Node cfg);
    ae_NodeRegion := nc_Region (cfg_Node cfg);
    ae_SchemaType := schemaType; ae_SchemaVersion := schemaVersion;
    ae_RetainLong := retainLong; ae_SettlementFinal := settlementFinal;
    ae_PreviousHash := log_root l; ae_EntryHash := "" |}.

Definition appendEntry (now : Z) (cfg : Config) (decision reason : string) (trustTier : Z)
    (senderRegion recipientRegion schemaType schemaVersion : string)
    (retainLong settlementFinal : bool) (l : Log) : Entry * Log :=
  let entry := newEntry now cfg decision reason trustTier senderRegion recipientRegion
                 schemaType schemaVersion retainLong settlementFinal l in
  (entry,
   {| log_entries := log_entries l ++ [entry];
      log_root := ae_EntryHash entry;
      log_backend := (fun b => (AuditAppend (toStoreEntry entry) b).2) <$> log_backend l |}).

Definition Append (now : Z) (cfg : Config) (decision reason : string) (trustTier : Z)
    (senderRegion recipientRegion schemaType schemaVersion : string) (l : Log) : Entry * Log :=
  let retainLong := str_eqb schemaType Iso20022
                    || iso_RetainLong (sr_Iso20022 (cfg_SchemaRegistry cfg)) in
  appendEntry now cfg decision reason trustTier senderRegion recipientRegion
    schemaType schemaVersion retainLong false l.

Definition AppendFinality (now : Z) (cfg : Config)
    (senderRegion recipientRegion schemaVersion : string) (l : Log) : Entry * Log :=
  appendEntry now cfg DecisionSettlementFinal "ISO20022_SETTLEMENT_FINAL" 0
    senderRegion recipientRegion Iso20022 schemaVersion true true l.

Definition RootHash (l : Log) : string := log_root l.

Definition LogEntries (l : Log) : list Entry := log_entries l.

(** The in-memory part of [Recent]: [out[i] = entries[total-1-i]]. *)
Definition recentInMemory (n : Z) (entries : list Entry) : list Entry :=
  let total := Z.of_nat (length entries) in
  if (n <=? 0) || (total =? 0) then [] else
  let m := if total <? n then total else n in
  omap (fun i => entries !! Z.to_nat (total - 1 - Z.of_nat i)) (seq 0 (Z.to_nat m)).

Definition Recent (n : Z) (l : Log) : list Entry :=
  match log_backend l with
  | Some b =>
      match AuditLatest n b with
      | Ok (x :: xs) => fromStoreEntry <$> x :: xs
      | _ => recentInMemory n (log_entries l)
      end
  | None => recentInMemory n (log_entries l)
  end.
End Log.
Arguments Log B : clear implicits.

(** The loop shared by [Verify] and [VerifyFile]; [i] entries were checked. *)
Fixpoint verifyChain (expectedPrev : string) (i : nat) (entries : list Entry)
  : outcome AuditError string :=
  match entries with
  | [] => Ok expectedPrev
  | e :: es =>
      if negb (str_eqb (ae_PreviousHash e) expectedPrev) then Err (PreviousHashMismatch (S i))
      else if negb (str_eqb (hashEntry e) (ae_EntryHash e)) then Err (EntryHashMismatch (S i))
      else verifyChain (ae_EntryHash e) (S i) es
  end.

Definition Verify {B} (l : Log B) : option AuditError :=
  match verifyChain zeroHash 0 (log_entries l) with
  | Err e => Some e
  | Ok _ =>
      match last (log_entries l) with
      | None => if negb (str_eqb (log_root l) zeroHash) then Some EmptyRootMismatch else None
      | Some e => if negb (str_eqb (log_root l) (ae_EntryHash e)) then Some RootMismatch else None
      end
  end.

(** [VerifyFile], from the result of reading and decoding the file. *)
Definition VerifyFile (decoded : option (list Entry)) : outcome AuditError string :=
  match decoded with
  | None => Err LogUnreadable
  | Some entries =>
      (let! _ := verifyChain zeroHash 0 entries in
       Ok (match last entries with None => zeroHash | Some e => ae_EntryHash e end))%go
  end.

(** ** The chain as a predicate *)

(** The hash the next entry must carry as its predecessor. *)
Definition tip (entries : list Entry) : string :=
  match last entries with None => zeroHash | Some e => ae_EntryHash e end.

(** Every entry is sealed with its own hash and linked to the one before. *)
Inductive chain : list Entry -> Prop :=
| chain_nil : chain []
| chain_snoc es e :
    chain es -> ae_PreviousHash e = tip es -> ae_EntryHash e = hashEntry e -> chain (es ++ [e]).

Lemma tip_snoc es e : tip (es ++ [e]) = ae_EntryHash e.
Proof. unfold tip. by rewrite last_snoc. Qed.

Lemma verifyChain_app prev i es1 es2 :
  verifyChain prev i (es1 ++ es2)
  = obind (verifyChain prev i es1) (fun p => verifyChain p (i + length es1) es2).
Proof.
  revert prev i. induction es1 as [|e es IH]; intros prev i; cbn [app length].
  - cbn. by rewrite Nat.add_0_r.
  - cbn. case_guards; [done..|]. rewrite IH. by replace (S i + length es)%nat with (i + S (length es))%nat by lia.
Qed.

Lemma verifyChain_chain es r : verifyChain zeroHash 0 es = Ok r <-> chain es /\ r = tip es.
Proof.
  revert r. induction es as [|e es IH] using rev_ind; intros r.
  - cbn. split; [intros [= <-]; by split; [constructor|] | by intros [_ ->]].
  - rewrite verifyChain_app, obind_Ok. split.
    + intros (p & Hp & He). apply IH in Hp as [Hc ->]. cbn in He. revert He. case_guards; try done.
      intros [= <-]. go_bool. rewrite tip_snoc. split; [|done]. by constructor.
    + intros [Hc ->]. inversion Hc as [|es' e' Hc' Hprev Hhash Heq]; [by destruct es|].
      apply app_inj_2 in Heq as [-> [= ->]]; [|done].
      exists (tip es). split; [by apply IH|]. cbn.
      by rewrite Hprev, <- Hhash, !str_eqb_refl, tip_snoc.
Qed.

Lemma chain_app_l es1 es2 : chain (es1 ++ es2) -> chain es1.
Proof.
  intros Hc. destruct (verifyChain zeroHash 0 es1) as [p|err] eqn:E.
  - by apply verifyChain_chain in E as [? _].
  - assert (verifyChain zeroHash 0 (es1 ++ es2) = Ok (tip (es1 ++ es2))) as Hv by by apply verifyChain_chain.
    by rewrite verifyChain_app, E in Hv.
Qed.

(** A log whose entries form a chain that its root closes. *)
Definition log_wf {B} (l : Log B) : Prop := chain (log_entries l) /\ log_root l = tip (log_entries l).

Lemma Verify_None {B} (l : Log B) : Verify l = None <-> log_wf l.
Proof.
  unfold Verify, log_wf. destruct (verifyChain zeroHash 0 (log_entries l)) as [p|err] eqn:E.
  - pose proof (proj1 (verifyChain_chain _ _) E) as [Hc ->]. unfold tip.
    destruct (last (log_entries l)); case_guards; go_bool; naive_solver.
  - split; [done|]. intros [Hc _].
    assert (verifyChain zeroHash 0 (log_entries l) = Ok (tip (log_entries l))) as Hv by by apply verifyChain_chain.
    congruence.
Qed.

Section LogLemmas.
Context {B : Type} `{NodeStore B}.
Implicit Types l : Log B.

Lemma NewLog_wf : log_wf (NewLog (B := B)).
Proof. split; [constructor|done]. Qed.

Lemma SetStore_wf b l : log_wf l -> log_wf (SetStore b l).
Proof. done. Qed.

Lemma appendEntry_wf now cfg d r t sr rr st sv rl sf l :
  log_wf l -> log_wf (appendEntry now cfg d r t sr rr st sv rl sf l).2.
Proof.
  intros [Hc Hr]. split; cbn; [|by rewrite tip_snoc]. by constructor.
Qed.

Lemma Append_wf now cfg d r t sr rr st sv l : log_wf l -> log_wf (Append now cfg d r t sr rr st sv l).2.
Proof. apply appendEntry_wf. Qed.

Lemma AppendFinality_wf now cfg sr rr sv l : log_wf l -> log_wf (AppendFinality now cfg sr rr sv l).2.
Proof. apply appendEntry_wf. Qed.

Lemma Append_entries now cfg d r t sr rr st sv l :
  log_entries (Append now cfg d r t sr rr st sv l).2
  = log_entries l ++ [(Append now cfg d r t sr rr st sv l).1].
Proof. done. Qed.

Lemma AppendFinality_entries now cfg sr rr sv l :
  log_entries (AppendFinality now cfg sr rr sv l).2
  = log_entries l ++ [(AppendFinality now cfg sr rr sv l).1].
Proof. done. Qed.

(** One operation on the log. *)
Inductive log_step : Log B -> Log B -> Prop :=
| step_append now cfg d r t sr rr st sv l : log_step l (Append now cfg d r t sr rr st sv l).2
| step_finality now cfg sr rr sv l : log_step l (AppendFinality now cfg sr rr sv l).2
| step_set_store b l : log_step l (SetStore b l).

(** What every reachable log satisfies. *)
Definition log_inv l : Prop :=
  log_wf l
  /\ forall i e, log_entries l !! i = Some e -> ae_Seq e = wrap_u64 (Z.of_nat i + 1).

Lemma appendEntry_seq now cfg d r t sr rr st sv rl sf l :
  log_inv l -> log_inv (appendEntry now cfg d r t sr rr st sv rl sf l).2.
Proof.
  intros [Hwf Hseq]. split; [by apply appendEntry_wf|]. cbn. intros i e.
  rewrite lookup_app_Some, list_lookup_singleton_Some. intros [Hi|(Hle & Hi & <-)]; [by apply Hseq|].
  cbn. do 3 f_equal. lia.
Qed.

Lemma log_step_inv l l' : log_step l l' -> log_inv l -> log_inv l'.
Proof. destruct 1; intros Hi; [by apply appendEntry_seq..|done]. Qed.

Lemma log_step_prefix l l' : log_step l l' -> log_entries l `prefix_of` log_entries l'.
Proof. destruct 1; cbn; [by eexists..|done]. Qed.

Lemma log_reachable_inv l : rtc log_step NewLog l -> log_inv l.
Proof.
  intros Hr. pattern l. eapply rtc_ind_r; [|by intros y z _ Hstep Hy; eapply log_step_inv|exact Hr].
  split; [apply NewLog_wf|done].
Qed.
End LogLemmas.
#[export] Hint Resolve NewLog_wf SetStore_wf Append_wf AppendFinality_wf : mrmi.

(** ** Hash-shaped strings *)

Definition hash_shaped (s : string) : Prop := String.length s = 71%nat /\ plain s = true.

Lemma zeroHash_shaped : hash_shaped zeroHash.
Proof. by vm_compute. Qed.

Lemma hashString_shaped raw : hash_shaped (hashString raw).
Proof.
  unfold hashString. split.
  - by rewrite length_append_str, length_hex_encode, length_Sum256.
  - by rewrite plain_append, hex_encode_plain.
Qed.

Lemma tip_shaped es : chain es -> hash_shaped (tip es).
Proof.
  destruct 1 as [|es e _ _ He]; [apply zeroHash_shaped|]. rewrite tip_snoc, He. apply hashString_shaped.
Qed.

Lemma chain_prev_shaped es e : chain (es ++ [e]) -> hash_shaped (ae_PreviousHash e).
Proof.
  intros Hc. inversion Hc as [|es' e' Hc' Hprev _ Heq]; [by destruct es|].
  apply app_inj_2 in Heq as [-> [= ->]]; [|done]. rewrite Hprev. by apply tip_shaped.
Qed.

Lemma hex_digit_inj m n : 0 <= m < 16 -> 0 <= n < 16 -> hex_digit m = hex_digit n -> m = n.
Proof.
  intros Hm Hn Heq. apply (f_equal byteZ) in Heq. unfold hex_digit in Heq.
  destruct (m <? 10) eqn:E1, (n <? 10) eqn:E2; go_bool; rewrite !byteZ_chr in Heq by lia; lia.
Qed.

Lemma hex_encode_inj s t : hex_encode s = hex_encode t -> s = t.
Proof.
  revert t. induction s as [|a s IH]; intros [|b t]; cbn [hex_encode]; try done.
  intros [= H1 H2 H3]. pose proof (byteZ_range a). pose proof (byteZ_range b).
  apply hex_digit_inj in H1; [|Z.to_euclidean_division_equations; lia..].
  apply hex_digit_inj in H2; [|Z.to_euclidean_division_equations; lia..].
  f_equal; [|by apply IH]. rewrite <- (chr_byteZ a), <- (chr_byteZ b). f_equal.
  Z.to_euclidean_division_equations. lia.
Qed.

Lemma hashString_inj x y : hashString x = hashString y -> Sum256 x = Sum256 y.
Proof. unfold hashString. intros Heq%append_inj_l. by apply hex_encode_inj. Qed.

(** The last member of a JSON object can be read off its text. *)
Lemma json_members_snoc fs f : exists pre, json_members (fs ++ [f]) = append pre (json_member f).
Proof.
  induction fs as [|g fs [pre IH]]; [by exists EmptyString|].
  exists (append (json_member g) (String ","%char pre)).
  transitivity (append (json_member g) (String ","%char (json_members (fs ++ [f])))).
  - by destruct fs.
  - by rewrite IH, <- append_assoc_str, append_cons.
Qed.

Lemma json_object_snoc fs f :
  jf_omit f = false -> exists pre, json_object (fs ++ [f]) = append pre (append (json_member f) "}").
Proof.
  intros Hf. unfold json_object. rewrite filter_app, (filter_cons_True _ f) by done. rewrite filter_nil.
  destruct (json_members_snoc (base.filter (fun f => jf_omit f = false) fs) f) as [pre ->].
  exists (String "{"%char pre). by rewrite append_cons, append_assoc_str.
Qed.

Lemma hashPayload_prev e1 e2 :
  hash_shaped (ae_PreviousHash e1) -> hash_shaped (ae_PreviousHash e2) ->
  hashPayload e1 = hashPayload e2 -> ae_PreviousHash e1 = ae_PreviousHash e2.
Proof.
  intros [Hl1 Hp1] [Hl2 Hp2]. unfold hashPayload.
  destruct (json_object_snoc (hashedFields e1) (field "previous_hash" (json_string (ae_PreviousHash e1)))) as [p1 ->]; [done|].
  destruct (json_object_snoc (hashedFields e2) (field "previous_hash" (json_string (ae_PreviousHash e2)))) as [p2 ->]; [done|].
  unfold json_member. cbn [jf_name jf_value field]. rewrite !json_string_plain with (s := ae_PreviousHash _) by done.
  intros Heq. apply append_inj_r_len in Heq as [_ Heq].
  - apply append_inj_r_len in Heq as [Heq _]; [|done]. apply append_inj_l in Heq. injection Heq as Heq.
    by apply append_inj_r_len in Heq as [? _].
  - rewrite !length_append_str. cbn [String.length]. rewrite !length_append_str, Hl1, Hl2. reflexivity.
Qed.

(** ** What a payload determines *)

(** An entry as Go can hold it, with valid UTF-8 in its strings. *)
Record entry_ok (e : Entry) : Prop := {
  en_strings : Forall utf8 [ae_Decision e; ae_Reason e; ae_SenderRegion e; ae_RecipientRegion e; ae_PolicyVersion e;
    ae_Profile e; ae_ApplicableLaw e; ae_NodeScope e; ae_AllianceID e; ae_NodeRegion e; ae_SchemaType e;
    ae_SchemaVersion e; ae_PreviousHash e; ae_EntryHash e];
  en_seq : in_u64 (ae_Seq e); en_ttl : in_u64 (ae_DedupTTLHours e);
  en_tier : in_u32 (ae_TrustTier e); en_ts : in_i64 (ae_Timestamp e) }.

(** The hashed object as a value. *)
Definition hashedStruct (e : Entry) : list jfield := [
  ("seq", JInt (ae_Seq e), false); ("timestamp", JInt (ae_Timestamp e), false);
  ("decision", JStr (ae_Decision e), false); ("reason", JStr (ae_Reason e), empty_str (ae_Reason e));
  ("trust_tier", JInt (ae_TrustTier e), false); ("sender_region", JStr (ae_SenderRegion e), false);
  ("recipient_region", JStr (ae_RecipientRegion e), false); ("policy_version", JStr (ae_PolicyVersion e), false);
  ("profile", JStr (ae_Profile e), false); ("applicable_law", JStr (ae_ApplicableLaw e), false);
  ("dedup_ttl_hours", JInt (ae_DedupTTLHours e), false); ("node_scope", JStr (ae_NodeScope e), false);
  ("alliance_id", JStr (ae_AllianceID e), false); ("node_region", JStr (ae_NodeRegion e), false);
  ("schema_type", JStr (ae_SchemaType e), empty_str (ae_SchemaType e));
  ("schema_version", JStr (ae_SchemaVersion e), empty_str (ae_SchemaVersion e));
  ("retain_long", JBool (ae_RetainLong e), negb (ae_RetainLong e));
  ("settlement_final", JBool (ae_SettlementFinal e), negb (ae_SettlementFinal e));
  ("previous_hash", JStr (ae_PreviousHash e), false)]%string.

Lemma hashPayload_struct e : hashPayload e = render (struct (hashedStruct e)).
Proof. by rewrite <- json_object_struct. Qed.

Lemma hashedStruct_wf e : entry_ok e -> json_wf (struct (hashedStruct e)).
Proof.
  intros [Hs Hseq Httl Htier Hts]. repeat (apply Forall_cons in Hs as [? Hs]). struct_fields.
Qed.

Lemma empty_str_nil s : empty_str s = true -> s = ""%string.
Proof. unfold empty_str. intros. by go_bool. Qed.

Lemma JStr_inj x y : JStr x = JStr y -> x = y.
Proof. by intros [= ->]. Qed.

Lemma JBool_inj x y : JBool x = JBool y -> x = y.
Proof. by intros [= ->]. Qed.

Lemma negb_true_false b : negb b = true -> b = false.
Proof. by destruct b. Qed.

(** A field of two entries, from the equality of their values called [n]. *)
Ltac same_field Hf n :=
  let H := fresh in
  pose proof (Hf n%string) as H; clear Hf; cbn [field_value hashedStruct] in H; revert H; str_compute; cbn iota;
  first [ intros [= ->]; reflexivity
        | exact (omitted_eq JStr empty_str ""%string _ _ empty_str_nil JStr_inj)
        | exact (omitted_eq JBool negb false _ _ negb_true_false JBool_inj) ].

(** Entries with the same payload differ at most in the hash they carry. *)
Lemma hashPayload_inj e1 e2 : entry_ok e1 -> entry_ok e2 -> hashPayload e1 = hashPayload e2 -> seal_entry e1 = seal_entry e2.
Proof.
  intros H1%hashedStruct_wf H2%hashedStruct_wf Heq. rewrite !hashPayload_struct in Heq. apply render_inj in Heq; [|done..].
  assert (forall n, field_value n (hashedStruct e1) = field_value n (hashedStruct e2)) as Hf.
  { intros n. apply struct_fields_eq; [..|done]; apply (bool_decide_eq_true_1 _); reflexivity. }
  assert (hashEntry e1 = hashEntry e2) as Hh by (unfold hashEntry; by rewrite !hashPayload_struct, Heq).
  clear H1 H2 Heq. unfold seal_entry. rewrite Hh. f_equal;
    [ same_field Hf "seq" | same_field Hf "timestamp" | same_field Hf "decision" | same_field Hf "reason" |
      same_field Hf "trust_tier" | same_field Hf "sender_region" | same_field Hf "recipient_region" |
      same_field Hf "policy_version" | same_field Hf "profile" | same_field Hf "applicable_law" |
      same_field Hf "dedup_ttl_hours" | same_field Hf "node_scope" | same_field Hf "alliance_id" |
      same_field Hf "node_region" | same_field Hf "schema_type" | same_field Hf "schema_version" |
      same_field Hf "retain_long" | same_field Hf "settlement_final" | same_field Hf "previous_hash" ].
Qed.

(** ** Tamper evidence *)

(** SHA-256 gives these texts digests that are different from each other and from the
    one an empty log starts from. *)
Definition hashes_apart (texts : list string) : bool :=
  forallb (fun x => negb (str_eqb (hashString x) zeroHash)
    && forallb (fun y => negb (str_eqb (hashString x) (hashString y)) || str_eqb x y) texts) texts.

Lemma chain_snoc_inv es e :
  chain (es ++ [e]) -> chain es /\ ae_PreviousHash e = tip es /\ ae_EntryHash e = hashEntry e.
Proof.
  intros Hc. inversion Hc as [|es' e' Hc' Hprev Hh Heq]; [by destruct es|].
  by apply app_inj_2 in Heq as [-> [= ->]].
Qed.

Lemma hashes_apart_spec texts :
  hashes_apart texts = true
  <-> (forall x, x ∈ texts -> hashString x <> zeroHash)
      /\ forall x y, x ∈ texts -> y ∈ texts -> hashString x = hashString y -> x = y.
Proof.
  unfold hashes_apart. rewrite forallb_forall. split.
  - intros Hf. split; [intros x Hx|intros x y Hx Hy Heq];
      apply list_elem_of_In, Hf, andb_true_iff in Hx as [Hz Ha]; [by go_bool|].
    rewrite forallb_forall in Ha. specialize (Ha y (proj1 (list_elem_of_In _ _) Hy)).
    rewrite Heq, str_eqb_refl in Ha. by apply str_eqb_eq.
  - intros [Hz Ha] x Hx. apply list_elem_of_In in Hx. apply andb_true_iff. split; [by apply negb_true_iff, str_eqb_neq, Hz|].
    apply forallb_forall. intros y Hy. apply list_elem_of_In in Hy. destruct (str_eqb (hashString x) (hashString y)) eqn:E; [|done].
    go_bool. right. by apply Ha.
Qed.

Lemma hashes_apart_sub texts texts' : texts' ⊆ texts -> hashes_apart texts = true -> hashes_apart texts' = true.
Proof. rewrite !hashes_apart_spec. intros Hs [Hz Ha]. split; [intros x Hx; by apply Hz, Hs|intros x y Hx Hy; by apply Ha; apply Hs]. Qed.

Lemma tip_zero es : chain es -> tip es = zeroHash -> hashes_apart (hashPayload <$> es) = true -> es = [].
Proof.
  destruct 1 as [|es e _ _ He]; [done|]. rewrite tip_snoc, He. intros Heq [Hz _]%hashes_apart_spec.
  destruct (Hz (hashPayload e)); [|exact Heq]. rewrite fmap_app. apply elem_of_app. right. by left.
Qed.

Lemma chain_tip_inj es1 es2 :
  chain es1 -> chain es2 -> tip es1 = tip es2 -> hashes_apart (hashPayload <$> es1 ++ es2) = true ->
  (hashPayload <$> es1) = (hashPayload <$> es2).
Proof.
  intros H1. revert es2. induction H1 as [|es1 e1 Hc1 IH Hp1 Hh1]; intros es2 H2 Htip Ha.
  - by rewrite (tip_zero es2).
  - destruct H2 as [|es2 e2 Hc2 Hp2 Hh2].
    { rewrite app_nil_r in Ha. rewrite (tip_zero (es1 ++ [e1])); auto using chain. }
    rewrite !tip_snoc, Hh1, Hh2 in Htip. rewrite !fmap_app, !list_fmap_singleton in *.
    assert (hashPayload e1 = hashPayload e2) as Heq.
    { apply hashes_apart_spec in Ha as [_ Hi]. unfold hashEntry in Htip. revert Hi Htip. generalize (hashPayload e1) (hashPayload e2).
      intros p1 p2 Hi. apply Hi; rewrite !elem_of_app, !list_elem_of_singleton; auto. }
    rewrite Heq, (IH es2 Hc2); [done| |].
    + rewrite <- Hp1, <- Hp2. apply hashPayload_prev; [..|done]; [rewrite Hp1|rewrite Hp2]; by apply tip_shaped.
    + eapply hashes_apart_sub; [|exact Ha]. rewrite fmap_app. intros x. rewrite !elem_of_app. tauto.
Qed.

Lemma chain_sealed es : chain es -> Forall (fun e => seal_entry e = e) es.
Proof.
  induction 1 as [|es e _ IH _ He]; [constructor|]. apply Forall_app. split; [exact IH|]. apply Forall_singleton.
  unfold seal_entry. rewrite <- He. by destruct e.
Qed.

Lemma same_payloads es1 es2 :
  chain es1 -> chain es2 -> Forall entry_ok (es1 ++ es2) -> (hashPayload <$> es1) = (hashPayload <$> es2) -> es1 = es2.
Proof.
  intros H1%chain_sealed H2%chain_sealed [Hok1 Hok2]%Forall_app Heq. revert es2 H2 Hok2 Heq.
  induction es1 as [|e1 es1 IH]; intros [|e2 es2] H2 Hok2 Heq; try done.
  rewrite !fmap_cons in Heq. apply (inj2 cons) in Heq as [He Hes].
  apply Forall_cons in H1 as [S1 H1]; apply Forall_cons in H2 as [S2 H2].
  apply Forall_cons in Hok1 as [O1 Hok1]; apply Forall_cons in Hok2 as [O2 Hok2].
  f_equal; [|by apply IH]. rewrite <- S1, <- S2. by apply hashPayload_inj.
Qed.

(** C4: The audit log is tamper evident.  Two logs that pass [Verify] and publish the
    same root hash have the same number of entries with the same hashed JSON text each,
    as long as SHA-256 tells the texts of the entries of these two logs apart; and when
    their strings are valid UTF-8 and their numbers in range, the two logs hold the same
    entries, field by field. *)
Theorem audit_tamper_evident {B} (l1 l2 : Log B) :
  Verify l1 = None -> Verify l2 = None -> RootHash l1 = RootHash l2 ->
  hashes_apart (hashPayload <$> log_entries l1 ++ log_entries l2) = true ->
  (hashPayload <$> log_entries l1) = (hashPayload <$> log_entries l2)
  /\ (Forall entry_ok (log_entries l1 ++ log_entries l2) -> log_entries l1 = log_entries l2).
Proof.
  rewrite !Verify_None. intros [H1 R1] [H2 R2]. unfold RootHash. rewrite R1, R2. intros Ht Ha.
  pose proof (chain_tip_inj _ _ H1 H2 Ht Ha) as Hp. split; [done|]. intros Hok. by apply same_payloads.
Qed.

(** A store that keeps nothing, for concrete evaluations. *)
#[export] Instance null_store : NodeStore unit := {|
  store_error := unit;
  Deduped := fun _ _ _ b => (Ok false, b);
  DLQPush := fun _ b => (None, b);
  DLQList := fun _ => Ok [];
  DLQDelete := fun _ b => (None, b);
  AuditAppend := fun _ b => (None, b);
  AuditLatest := fun _ _ => Ok [];
  CRLPut := fun _ b => (None, b);
  CRLGet := fun _ _ => Ok None;
  CRLList := fun _ => Ok [] |}.

Definition demo_log : Log unit :=
  (Append Hour DefaultBalancedConfig DecisionAllow "POLICY_ACCEPTED" 1 "RS" "RU" Messaging "1.0.0"
    (Append 0 DefaultBalancedConfig DecisionDeny "NODE_REVOKED" 0 "RS" "US" Messaging "" NewLog).2).2.

(** A log read back from elsewhere, whose backend is another one. *)
Definition demo_copy : Log unit :=
  {| log_entries := log_entries demo_log; log_root := RootHash demo_log; log_backend := Some tt |}.

Lemma plain_utf8_all l : forallb plain l = true -> Forall utf8 l.
Proof. intros Hl. apply Forall_forall. intros s Hs. apply plain_utf8. rewrite forallb_forall in Hl. by apply Hl, list_elem_of_In. Qed.

Lemma demo_log_ok : Forall entry_ok (log_entries demo_log).
Proof.
  repeat (constructor; [split; [by apply plain_utf8_all; vm_compute|vm_compute; split; congruence..]|]). constructor.
Qed.

Lemma audit_tamper_evident_witness : log_entries demo_log = log_entries demo_copy.
Proof.
  refine (proj2 (audit_tamper_evident demo_log demo_copy _ _ _ _) _).
  - vm_compute. reflexivity.
  - vm_compute. reflexivity.
  - reflexivity.
  - vm_compute. reflexivity.
  - apply Forall_app. split; exact demo_log_ok.
Defined.

(** Changing a decision, even with the hashes of the chain recomputed, changes the
    root. *)
Example demo_tampered :
  let forged := (Append Hour DefaultBalancedConfig DecisionAllow "POLICY_ACCEPTED" 1 "RS" "RU" Messaging "1.0.0"
    (Append 0 DefaultBalancedConfig DecisionAllow "NODE_REVOKED" 0 "RS" "US" Messaging "" (NewLog (B := unit))).2).2 in
  Verify forged = None /\ str_eqb (RootHash forged) (RootHash demo_log) = false.
Proof. vm_compute. done. Qed.

(** C11: Whatever sequence of operations built it, a log verifies, its root is
    the hash of its last entry (the zero hash when it is empty), and its entries
    are numbered 1, 2, 3, ... in order. *)
Theorem audit_log_verifies {B} `{NodeStore B} (l : Log B) :
  rtc log_step NewLog l ->
  Verify l = None
  /\ RootHash l = tip (log_entries l)
  /\ forall i e, log_entries l !! i = Some e -> ae_Seq e = wrap_u64 (Z.of_nat i + 1).
Proof.
  intros Hr. apply log_reachable_inv in Hr as [Hwf Hseq].
  split; [by apply Verify_None|]. split; [apply Hwf|done].
Qed.

Lemma demo_log_reachable : rtc log_step NewLog demo_log.
Proof. do 2 (eapply rtc_r; [|apply step_append]). apply rtc_refl. Qed.

Lemma audit_log_verifies_witness : Verify demo_log = None /\ length (log_entries demo_log) = 2%nat.
Proof. split; [apply (audit_log_verifies demo_log demo_log_reachable) | reflexivity]. Defined.

(** The log is append-only: along any sequence of operations the entries
    already written stay in place, unchanged. *)
Theorem audit_append_only {B} `{NodeStore B} (l l' : Log B) :
  rtc log_step l l' -> log_entries l `prefix_of` log_entries l'.
Proof.
  induction 1 as [|l1 l2 l3 Hs _ IH]; [done|]. etrans; [by apply log_step_prefix|done].
Qed.

Lemma audit_append_only_witness : log_entries (NewLog (B := unit)) `prefix_of` log_entries demo_log.
Proof. apply (audit_append_only NewLog demo_log demo_log_reachable). Defined.

(** Offline verification agrees with the running node: the exported entries
    of a verifying log are accepted by [VerifyFile], which reports exactly the
    root hash the node publishes; and an accepted file stays accepted when its
    tail is cut off, so truncation shows only in the reported root. *)
Theorem VerifyFile_root {B} (l : Log B) :
  Verify l = None ->
  VerifyFile (Some (LogEntries l)) = Ok (RootHash l)
  /\ forall n, VerifyFile (Some (take n (LogEntries l))) = Ok (tip (take n (LogEntries l))).
Proof.
  rewrite Verify_None. intros [Hc Hr]. unfold VerifyFile, LogEntries, RootHash. rewrite Hr.
  assert (forall es, chain es -> verifyChain zeroHash 0 es = Ok (tip es)) as Hv
    by (intros; by apply verifyChain_chain).
  split; [by rewrite Hv|]. intros n. rewrite Hv; [done|].
  apply (chain_app_l _ (drop n (log_entries l))). by rewrite take_drop.
Qed.

Lemma VerifyFile_root_witness : VerifyFile (Some (LogEntries demo_log)) = Ok (RootHash demo_log).
Proof. refine (proj1 (VerifyFile_root demo_log _)). vm_compute. reflexivity. Defined.

(** ** [Recent] *)

Lemma omap_rev_lookup {A} (l : list A) (m : nat) :
  (m <= length l)%nat ->
  omap (fun i => l !! Z.to_nat (Z.of_nat (length l) - 1 - Z.of_nat i)) (seq 0 m) = take m (reverse l).
Proof.
  induction m as [|m IH]; intros Hm; [done|].
  rewrite seq_S, omap_app, IH by lia. cbn.
  replace (Z.to_nat (Z.of_nat (length l) - 1 - Z.of_nat m)) with (length l - S m)%nat by lia.
  destruct (lookup_lt_is_Some_2 l (length l - S m)) as [x Hx]; [lia|]. rewrite Hx.
  symmetry. apply take_S_r. by rewrite reverse_lookup by lia.
Qed.

Lemma recentInMemory_take n es : recentInMemory n es = take (Z.to_nat n) (reverse es).
Proof.
  unfold recentInMemory. destruct (_ || _) eqn:E; go_bool.
  - destruct E as [E|E].
    + by replace (Z.to_nat n) with O by lia.
    + destruct es; [by destruct (Z.to_nat n) | cbn in E; lia].
  - rewrite omap_rev_lookup by (case_guards; go_bool; lia).
    destruct (Z.of_nat (length es) <? n) eqn:E2; go_bool; [|done].
    by rewrite !take_ge by (rewrite length_reverse; lia).
Qed.

(** [Recent n] without a backend returns the last [n] entries, newest
    first; with a backend whose answer is an error or empty it falls back to
    the same entries, and otherwise returns what the backend holds. *)
Theorem Recent_newest_first {B} `{NodeStore B} (n : Z) (l : Log B) :
  Recent n l =
    match log_backend l with
    | Some b => match AuditLatest n b with
                | Ok (x :: xs) => fromStoreEntry <$> x :: xs
                | _ => take (Z.to_nat n) (reverse (log_entries l))
                end
    | None => take (Z.to_nat n) (reverse (log_entries l))
    end.
Proof. unfold Recent. by rewrite recentInMemory_take. Qed.

(** The digest of the demonstration log, as any SHA-256 tool computes it. *)
Example demo_log_root :
  RootHash demo_log = "sha256:8e3ebf14f364a5719008f14751fb80e6ad60767549ed40da510f0cb8712ae516"%string.
Proof. vm_compute. reflexivity. Qed.
