(* ===== verification/Rows.v ===== *)
(** * The rows of the store as text (package [internal/store], the JSON tags)

    Both backends keep a row as the JSON text of its struct.  What is decoded is what
    was encoded, except that an empty payload comes back as nil. *)

From S2P Require Import Prelude GoStrings GoCrypto Utf8 Json JsonFields Store.

(** ** Encoding *)

Definition dlqStruct (e : StoreDLQEntry) : list jfield :=
  [("id"%string, JStr (sd_ID e), false);
   ("idempotency_key"%string, JStr (sd_IdempotencyKey e), false);
   ("peer_addr"%string, JStr (sd_PeerAddr e), false);
   ("attempts"%string, JInt (sd_Attempts e), false);
   ("last_err"%string, JStr (sd_LastErr e), false);
   ("first_seen_unix"%string, JInt (sd_FirstSeenUnix e), false);
   ("last_attempt_unix"%string, JInt (sd_LastAttemptUnix e), false);
   ("payload"%string, json_of_bytes (sd_Payload e), no_bytes (sd_Payload e));
   ("reason"%string, JStr (sd_Reason e), str_eqb (sd_Reason e) ""%string);
   ("next_open_unix"%string, JInt (sd_NextOpenUnix e), sd_NextOpenUnix e =? 0)].

Definition auditStruct (e : AuditEntry) : list jfield :=
  [("seq"%string, JInt (sa_Seq e), false);
   ("timestamp_unix_ms"%string, JInt (sa_TimestampUnixMS e), false);
   ("decision"%string, JStr (sa_Decision e), false);
   ("sender_region"%string, JStr (sa_SenderRegion e), false);
   ("recipient_region"%string, JStr (sa_RecipientRegion e), false);
   ("policy_version"%string, JStr (sa_PolicyVersion e), false);
   ("profile"%string, JStr (sa_Profile e), false);
   ("applicable_law"%string, JStr (sa_ApplicableLaw e), false);
   ("reason"%string, JStr (sa_Reason e), false);
   ("schema_type"%string, JStr (sa_SchemaType e), str_eqb (sa_SchemaType e) ""%string);
   ("schema_version"%string, JStr (sa_SchemaVersion e), str_eqb (sa_SchemaVersion e) ""%string);
   ("retain_long"%string, JBool (sa_RetainLong e), negb (sa_RetainLong e));
   ("settlement_final"%string, JBool (sa_SettlementFinal e), negb (sa_SettlementFinal e))].

(** A slice of byte slices. *)
Definition json_of_slices (l : option (list (option string))) : json :=
  match l with Some bs => JArr (json_of_bytes <$> bs) | None => JNull end.

Definition crlStruct (e : CRLEntry) : list jfield :=
  [("node_id"%string, JStr (sc_NodeID e), false);
   ("reason"%string, JStr (sc_Reason e), false);
   ("revoked_at_unix"%string, JInt (sc_RevokedAt e), false);
   ("signatures"%string, json_of_slices (sc_Signatures e), false)].

(** [json.Marshal]. *)
Definition marshalDLQ (e : StoreDLQEntry) : string := render (struct (dlqStruct e)).
Definition marshalAudit (e : AuditEntry) : string := render (struct (auditStruct e)).
Definition marshalCRL (e : CRLEntry) : string := render (struct (crlStruct e)).

(** ** Decoding *)

Definition as_slices (v : json) (old : option (list (option string))) : option (option (list (option string))) :=
  match v with
  | JArr l => match as_elems (fun v => as_bytes v None) l with Some bs => Some (Some bs) | None => None end
  | JNull => Some None
  | _ => None
  end.

Definition dlqFields : list string :=
  ["id"; "idempotency_key"; "peer_addr"; "attempts"; "last_err"; "first_seen_unix"; "last_attempt_unix"; "payload";
   "reason"; "next_open_unix"]%string.
Definition auditFields : list string :=
  ["seq"; "timestamp_unix_ms"; "decision"; "sender_region"; "recipient_region"; "policy_version"; "profile";
   "applicable_law"; "reason"; "schema_type"; "schema_version"; "retain_long"; "settlement_final"]%string.
Definition crlFields : list string := ["node_id"; "reason"; "revoked_at_unix"; "signatures"]%string.

Section Rows.
Context `{UnicodeTables}.

(** [json.Unmarshal] into a new row. *)
Definition unmarshalDLQ (data : string) : option StoreDLQEntry :=
  v ← unmarshal data;
  ms ← members v;
  let get {A} n (read : json -> A -> option A) zero := collect dlqFields n read ms zero in
  id ← get "id"%string as_string ""%string;
  key ← get "idempotency_key"%string as_string ""%string;
  addr ← get "peer_addr"%string as_string ""%string;
  attempts ← get "attempts"%string as_int64 0;
  last ← get "last_err"%string as_string ""%string;
  first ← get "first_seen_unix"%string as_int64 0;
  lastAt ← get "last_attempt_unix"%string as_int64 0;
  payload ← get "payload"%string as_bytes None;
  reason ← get "reason"%string as_string ""%string;
  nextOpen ← get "next_open_unix"%string as_int64 0;
  Some {| sd_ID := id; sd_IdempotencyKey := key; sd_PeerAddr := addr; sd_Attempts := attempts; sd_LastErr := last;
          sd_FirstSeenUnix := first; sd_LastAttemptUnix := lastAt; sd_Payload := payload; sd_Reason := reason;
          sd_NextOpenUnix := nextOpen |}.

Definition unmarshalAudit (data : string) : option AuditEntry :=
  v ← unmarshal data;
  ms ← members v;
  let get {A} n (read : json -> A -> option A) zero := collect auditFields n read ms zero in
  seqno ← get "seq"%string as_uint64 0;
  ts ← get "timestamp_unix_ms"%string as_int64 0;
  decision ← get "decision"%string as_string ""%string;
  sregion ← get "sender_region"%string as_string ""%string;
  rregion ← get "recipient_region"%string as_string ""%string;
  version ← get "policy_version"%string as_string ""%string;
  profile ← get "profile"%string as_string ""%string;
  law ← get "applicable_law"%string as_string ""%string;
  reason ← get "reason"%string as_string ""%string;
  stype ← get "schema_type"%string as_string ""%string;
  sver ← get "schema_version"%string as_string ""%string;
  retain ← get "retain_long"%string as_bool false;
  final ← get "settlement_final"%string as_bool false;
  Some {| sa_Seq := seqno; sa_TimestampUnixMS := ts; sa_Decision := decision; sa_SenderRegion := sregion;
          sa_RecipientRegion := rregion; sa_PolicyVersion := version; sa_Profile := profile;
          sa_ApplicableLaw := law; sa_Reason := reason; sa_SchemaType := stype; sa_SchemaVersion := sver;
          sa_RetainLong := retain; sa_SettlementFinal := final |}.

Definition unmarshalCRL (data : string) : option CRLEntry :=
  v ← unmarshal data;
  ms ← members v;
  let get {A} n (read : json -> A -> option A) zero := collect crlFields n read ms zero in
  node ← get "node_id"%string as_string ""%string;
  reason ← get "reason"%string as_string ""%string;
  revoked ← get "revoked_at_unix"%string as_int64 0;
  sigs ← get "signatures"%string as_slices None;
  Some {| sc_NodeID := node; sc_Reason := reason; sc_RevokedAt := revoked; sc_Signatures := sigs |}.
End Rows.

(** ** Rows as Go can hold them, with valid UTF-8 in their strings *)

Record dlq_ok (e : StoreDLQEntry) : Prop := {
  do_id : utf8 (sd_ID e); do_key : utf8 (sd_IdempotencyKey e); do_addr : utf8 (sd_PeerAddr e);
  do_err : utf8 (sd_LastErr e); do_reason : utf8 (sd_Reason e); do_attempts : in_i64 (sd_Attempts e);
  do_first : in_i64 (sd_FirstSeenUnix e); do_last : in_i64 (sd_LastAttemptUnix e);
  do_next : in_i64 (sd_NextOpenUnix e) }.

Record audit_ok (e : AuditEntry) : Prop := {
  ao_seq : in_u64 (sa_Seq e); ao_ts : in_i64 (sa_TimestampUnixMS e); ao_decision : utf8 (sa_Decision e);
  ao_sregion : utf8 (sa_SenderRegion e); ao_rregion : utf8 (sa_RecipientRegion e);
  ao_version : utf8 (sa_PolicyVersion e); ao_profile : utf8 (sa_Profile e); ao_law : utf8 (sa_ApplicableLaw e);
  ao_reason : utf8 (sa_Reason e); ao_stype : utf8 (sa_SchemaType e); ao_sver : utf8 (sa_SchemaVersion e) }.

Record crl_ok (e : CRLEntry) : Prop := {
  co_node : utf8 (sc_NodeID e); co_reason : utf8 (sc_Reason e); co_at : in_i64 (sc_RevokedAt e) }.

(** What is read back of a dead letter. *)
Definition storedDLQ (e : StoreDLQEntry) : StoreDLQEntry := {|
  sd_ID := sd_ID e; sd_IdempotencyKey := sd_IdempotencyKey e; sd_PeerAddr := sd_PeerAddr e;
  sd_Attempts := sd_Attempts e; sd_LastErr := sd_LastErr e; sd_FirstSeenUnix := sd_FirstSeenUnix e;
  sd_LastAttemptUnix := sd_LastAttemptUnix e; sd_Payload := nonempty_bytes (sd_Payload e);
  sd_Reason := sd_Reason e; sd_NextOpenUnix := sd_NextOpenUnix e |}.

Section RoundTrips.
Context `{UnicodeTables}.

Lemma as_slices_json l : as_slices (json_of_slices l) None = Some l.
Proof.
  destruct l as [bs|]; [|done]. cbn. enough (as_elems (fun v => as_bytes v None) (json_of_bytes <$> bs) = Some bs) as -> by done.
  induction bs as [|b bs IH]; [done|]. cbn [fmap list_fmap as_elems]. rewrite as_bytes_json.
  change (list_fmap _ _ json_of_bytes bs) with (json_of_bytes <$> bs). by rewrite IH.
Qed.

Lemma json_of_slices_wf l : json_wf (json_of_slices l).
Proof.
  destruct l as [bs|]; [|done]. cbn. induction bs as [|b bs IH]; [done|]. cbn. split; [apply json_of_bytes_wf|exact IH].
Qed.

(** The law of [collect] on an encoded struct, once per struct. *)
Ltac struct_law Hc structure fields names :=
  assert (forall A n (read : json -> A -> option A) old, collect names n read (present structure) old
    = match field_value n structure with Some v => read v old | None => Some old end) as Hc by
    (intros A n read old; apply collect_struct; [vm_compute; reflexivity|];
     change (fst ∘ fst <$> structure) with fields; apply (bool_decide_eq_true_1 _); vm_compute; reflexivity).

Ltac read_row Hc structure :=
  eapply bind_some;
  [first [ rewrite Hc; cbn [field_value structure]; str_compute; cbn iota; by apply omitted_int; unfold in_i64 in *; lia
         | rewrite Hc; cbn [field_value structure]; str_compute; cbn iota; apply as_slices_json
         | read_field Hc structure ]|].

Ltac row_wf structure :=
  apply struct_wf; unfold structure, in_u64, in_i64 in *; rewrite !Forall_cons, Forall_nil;
  cbn [fst snd json_wf]; split_and!; try done; intros _;
  (split; [vm_compute; reflexivity|first [done | apply json_of_bytes_wf | apply json_of_slices_wf | lia]]).

Lemma unmarshal_marshalDLQ e : dlq_ok e -> unmarshalDLQ (marshalDLQ e) = Some (storedDLQ e).
Proof.
  intros []. unfold unmarshalDLQ, marshalDLQ. rewrite unmarshal_render by row_wf dlqStruct.
  struct_law Hc (dlqStruct e) dlqFields dlqFields.
  cbn [mbind option_bind struct members]. cbv zeta. do 10 (read_row Hc dlqStruct). reflexivity.
Qed.

Lemma unmarshal_marshalAudit e : audit_ok e -> unmarshalAudit (marshalAudit e) = Some e.
Proof.
  intros []. unfold unmarshalAudit, marshalAudit. rewrite unmarshal_render by row_wf auditStruct.
  struct_law Hc (auditStruct e) auditFields auditFields.
  cbn [mbind option_bind struct members]. cbv zeta. do 13 (read_row Hc auditStruct). by destruct e.
Qed.

Lemma unmarshal_marshalCRL e : crl_ok e -> unmarshalCRL (marshalCRL e) = Some e.
Proof.
  intros []. unfold unmarshalCRL, marshalCRL. rewrite unmarshal_render by row_wf crlStruct.
  struct_law Hc (crlStruct e) crlFields crlFields.
  cbn [mbind option_bind struct members]. cbv zeta. do 4 (read_row Hc crlStruct). by destruct e.
Qed.
End RoundTrips.

(** ** Listings *)

(** Decoding the values of a listing, up to the first that fails. *)
Fixpoint decodeRows {E A} (decode : string -> option A) (rows : list (string * string)) : outcome (StoreError E) (list A) :=
  match rows with
  | [] => Ok []
  | (_, v) :: rows' =>
      match decode v with
      | None => Err DecodeError
      | Some e => match decodeRows decode rows' with Ok es => Ok (e :: es) | Err x => Err x end
      end
  end.

Lemma decodeRows_rows {E V} (key enc : V -> string) decode (stored : V -> V) es :
  Forall (fun e => decode (enc e) = Some (stored e)) es ->
  decodeRows (E := E) decode ((fun e => (key e, enc e)) <$> es) = Ok (stored <$> es).
Proof. induction 1 as [|e es He Hes IH]; [done|]. cbn. cbn in IH. by rewrite He, IH. Qed.

(** The pairs of an encoded table, in any order. *)
Lemma table_pairs {V} (key enc : V -> string) (t : gmap string V) l :
  map_Forall (fun k e => k = key e) t -> l ≡ₚ map_to_list (enc <$> t) ->
  exists es, l = (fun e => (key e, enc e)) <$> es /\ es ≡ₚ (map_to_list t).*2.
Proof.
  intros Hk Hl.
  assert (map_to_list (enc <$> t) = (fun e => (key e, enc e)) <$> (map_to_list t).*2) as Heq.
  { rewrite map_to_list_fmap, <- list_fmap_compose. apply list_fmap_ext. intros i [k e] Hi. cbn. f_equal.
    apply list_elem_of_lookup_2 in Hi. apply elem_of_map_to_list in Hi. by apply Hk in Hi. }
  rewrite Heq in Hl. apply Permutation_map_inv in Hl as (es & -> & Hp). by exists es.
Qed.

(** A listing of a table decodes to its rows. *)
Lemma decodeRows_table {E V} (key enc : V -> string) decode (stored : V -> V) (ok : V -> Prop) (t : gmap string V) l :
  (forall e, ok e -> decode (enc e) = Some (stored e)) -> map_Forall (fun k e => k = key e /\ ok e) t ->
  l ≡ₚ map_to_list (enc <$> t) ->
  exists es, decodeRows (E := E) decode l = Ok es /\ es ≡ₚ stored <$> (map_to_list t).*2.
Proof.
  intros Hd Ht Hl. destruct (table_pairs key enc t l) as (es & -> & Hp); [|done|].
  { intros k e He. by destruct (Ht k e He). }
  exists (stored <$> es). split; [|by rewrite Hp]. apply decodeRows_rows. rewrite Hp, Forall_fmap. apply Forall_forall.
  intros [k e] He%elem_of_map_to_list. apply Hd. by destruct (Ht k e He).
Qed.
