(* ===== verification/StoreSpec.v ===== *)
(** * What a persistence backend promises (package [internal/store])

    The comments of the interface [NodeStore] as laws over abstract tables: the
    contract [StoreContract], which the backends of [Bolt] and [Redis] discharge and
    against which the audit log on top of a store is verified. *)

From stdpp Require Import sorting.
From S2P Require Import Prelude GoStrings Utf8 Json JsonFields Store Rows.

(** The rows of a store: expiry times of keys, dead letters by identifier, audit
    entries in the order of their appending, revocations by node. *)
Record Tables := {
  tb_dedup : gmap string Z;
  tb_dlq : gmap string StoreDLQEntry;
  tb_audit : list AuditEntry;
  tb_crl : gmap string CRLEntry }.

Definition no_tables : Tables := {| tb_dedup := ∅; tb_dlq := ∅; tb_audit := []; tb_crl := ∅ |}.

Definition set_dedup (m : gmap string Z) (t : Tables) : Tables :=
  {| tb_dedup := m; tb_dlq := tb_dlq t; tb_audit := tb_audit t; tb_crl := tb_crl t |}.
Definition set_dlq (m : gmap string StoreDLQEntry) (t : Tables) : Tables :=
  {| tb_dedup := tb_dedup t; tb_dlq := m; tb_audit := tb_audit t; tb_crl := tb_crl t |}.
Definition set_audit (l : list AuditEntry) (t : Tables) : Tables :=
  {| tb_dedup := tb_dedup t; tb_dlq := tb_dlq t; tb_audit := l; tb_crl := tb_crl t |}.
Definition set_crl (m : gmap string CRLEntry) (t : Tables) : Tables :=
  {| tb_dedup := tb_dedup t; tb_dlq := tb_dlq t; tb_audit := tb_audit t; tb_crl := m |}.

(** Seen within the window, or registered now. *)
Definition seenIn (now : Z) (key : string) (t : Tables) : bool :=
  match tb_dedup t !! key with Some exp => now <? exp | None => false end.
Definition register (now : Z) (key : string) (ttl : Z) (t : Tables) : Tables :=
  if seenIn now key t then t else set_dedup (<[key := now + ttl]> (tb_dedup t)) t.

(** A write that succeeds is done.  One fails only where the database does not work,
    and then it may be done. *)
Definition wrote {B E} (rep : B -> Tables -> Prop) (ok : bool) (r : option E * B) (t t' : Tables) : Prop :=
  match r.1 with None => rep r.2 t' | Some _ => ok = false /\ (rep r.2 t \/ rep r.2 t') end.

(** [represents] ties a backend's state to its tables; [works] tells whether the
    database under it carries out the next call.  A backend may count time in coarser
    units than nanoseconds ([clock_unit]) and bound the lengths of keys and values
    ([fits]); it fails only where the database does, with the database's error
    ([lib_failure]), never on a row. *)
Class StoreContract (B : Type) `{NodeStore B} := {
  represents : B -> Tables -> Prop;
  works : B -> bool;
  clock_unit : Z;
  fits : nat -> nat -> Prop;
  lib_failure : store_error -> Prop;
  Deduped_law b t now key ttl :
    represents b t -> fits (String.length key) 8 -> 0 < ttl -> (clock_unit | now) -> (clock_unit | ttl) ->
    in_i64 now -> in_i64 (now + ttl) ->
    match Deduped now key ttl b with
    | (Ok seen, b') => seen = seenIn now key t /\ represents b' (register now key ttl t)
    | (Err e, b') => lib_failure e /\ works b = false /\ (represents b' t \/ represents b' (register now key ttl t))
    end;
  DLQPush_law b t e :
    represents b t -> dlq_ok e -> fits (String.length (sd_ID e)) (String.length (marshalDLQ e)) ->
    wrote represents (works b) (DLQPush e b) t (set_dlq (<[sd_ID e := e]> (tb_dlq t)) t);
  DLQList_law b t : represents b t ->
    match DLQList b with Ok l => l ≡ₚ storedDLQ <$> (map_to_list (tb_dlq t)).*2 | Err e => lib_failure e /\ works b = false end;
  DLQDelete_law b t id :
    represents b t -> wrote represents (works b) (DLQDelete id b) t (set_dlq (delete id (tb_dlq t)) t);
  AuditAppend_law b t e :
    represents b t -> audit_ok e -> fits 8 (String.length (marshalAudit e)) -> Forall (fun e' => sa_Seq e' < sa_Seq e) (tb_audit t) ->
    wrote represents (works b) (AuditAppend e b) t (set_audit (tb_audit t ++ [e]) t);
  AuditLatest_law b t n : represents b t -> 0 < n < 2 ^ 63 ->
    match AuditLatest n b with Ok l => l = take (Z.to_nat n) (reverse (tb_audit t)) | Err e => lib_failure e /\ works b = false end;
  CRLPut_law b t e :
    represents b t -> crl_ok e -> fits (String.length (sc_NodeID e)) (String.length (marshalCRL e)) ->
    wrote represents (works b) (CRLPut e b) t (set_crl (<[sc_NodeID e := e]> (tb_crl t)) t);
  CRLGet_law b t id : represents b t ->
    match CRLGet id b with Ok r => r = tb_crl t !! id | Err e => lib_failure e /\ works b = false end;
  CRLList_law b t : represents b t ->
    match CRLList b with Ok l => l ≡ₚ (map_to_list (tb_crl t)).*2 | Err e => lib_failure e /\ works b = false end }.

(** ** The tables as an automaton

    The operations of the interface, what they answer, and the steps the tables may
    take: a backend is correct when whatever it answers, along a sequence of
    operations, the tables could have answered.  The tables answer every operation while
    the database works; only where it does not may an operation fail, carried out or
    not. *)

Inductive StoreOp :=
| DoDeduped (now : Z) (key : string) (ttl : Z)
| DoDLQPush (e : StoreDLQEntry)
| DoDLQList
| DoDLQDelete (id : string)
| DoAuditAppend (e : AuditEntry)
| DoAuditLatest (n : Z)
| DoCRLPut (e : CRLEntry)
| DoCRLGet (id : string)
| DoCRLList.

Inductive Answer :=
| Seen (b : bool)
| Done
| Letters (l : list StoreDLQEntry)
| Audited (l : list AuditEntry)
| Revocation (r : option CRLEntry)
| Revocations (l : list CRLEntry)
| Failed.

Definition applied (op : StoreOp) (t : Tables) : Tables :=
  match op with
  | DoDeduped now key ttl => register now key ttl t
  | DoDLQPush e => set_dlq (<[sd_ID e := e]> (tb_dlq t)) t
  | DoDLQDelete id => set_dlq (delete id (tb_dlq t)) t
  | DoAuditAppend e => set_audit (tb_audit t ++ [e]) t
  | DoCRLPut e => set_crl (<[sc_NodeID e := e]> (tb_crl t)) t
  | DoDLQList | DoAuditLatest _ | DoCRLGet _ | DoCRLList => t
  end.

(** The answers of the tables; a listing may come in any order, except that the audit
    entries come newest first. *)
Definition answers (op : StoreOp) (t : Tables) (a : Answer) : Prop :=
  match op, a with
  | DoDeduped now key _, Seen b => b = seenIn now key t
  | (DoDLQPush _ | DoDLQDelete _ | DoAuditAppend _ | DoCRLPut _), Done => True
  | DoDLQList, Letters l => l ≡ₚ storedDLQ <$> (map_to_list (tb_dlq t)).*2
  | DoAuditLatest n, Audited l => l = take (Z.to_nat n) (reverse (tb_audit t))
  | DoCRLGet id, Revocation r => r = tb_crl t !! id
  | DoCRLList, Revocations l => l ≡ₚ (map_to_list (tb_crl t)).*2
  | _, _ => False
  end.

Inductive table_step (ok : bool) (t : Tables) (op : StoreOp) : Answer -> Tables -> Prop :=
| step_answer a : answers op t a -> table_step ok t op a (applied op t)
| step_failed_done : ok = false -> table_step ok t op Failed (applied op t)
| step_failed : ok = false -> table_step ok t op Failed t.

(** The flags tell at which operations the database works. *)
Inductive table_run : Tables -> list StoreOp -> list bool -> list Answer -> Tables -> Prop :=
| run_nil t : table_run t [] [] [] t
| run_cons t op ok a t1 ops oks answers t2 :
    table_step ok t op a t1 -> table_run t1 ops oks answers t2 -> table_run t (op :: ops) (ok :: oks) (a :: answers) t2.

Lemma table_run_answers t ops oks ans t' :
  table_run t ops oks ans t' -> Forall (fun ok => ok = true) oks -> Failed ∉ ans.
Proof.
  induction 1 as [|t op ok a t1 ops oks ans t2 Hstep _ IH]; intros Hok; [apply not_elem_of_nil|].
  apply Forall_cons in Hok as [Ht Hok]. rewrite not_elem_of_cons. split; [|exact (IH Hok)].
  destruct Hstep as [a Ha|Hf|Hf]; [intros <-; by destruct op|congruence..].
Qed.

(** The sequence numbers that operations append. *)
Definition appended (ops : list StoreOp) : list Z :=
  omap (fun op => match op with DoAuditAppend e => Some (sa_Seq e) | _ => None end) ops.

Section Backend.
Context {B : Type} `{StoreContract B}.

Definition wrote_answer (r : option store_error * B) : Answer * B :=
  (match r.1 with None => Done | Some _ => Failed end, r.2).
Definition read_answer {A} (f : A -> Answer) (r : outcome store_error A) (b : B) : Answer * B :=
  (match r with Ok v => f v | Err _ => Failed end, b).

Definition perform (op : StoreOp) (b : B) : Answer * B :=
  match op with
  | DoDeduped now key ttl =>
      let r := Deduped now key ttl b in (match r.1 with Ok seen => Seen seen | Err _ => Failed end, r.2)
  | DoDLQPush e => wrote_answer (DLQPush e b)
  | DoDLQList => read_answer Letters (DLQList b) b
  | DoDLQDelete id => wrote_answer (DLQDelete id b)
  | DoAuditAppend e => wrote_answer (AuditAppend e b)
  | DoAuditLatest n => read_answer Audited (AuditLatest n b) b
  | DoCRLPut e => wrote_answer (CRLPut e b)
  | DoCRLGet id => read_answer Revocation (CRLGet id b) b
  | DoCRLList => read_answer Revocations (CRLList b) b
  end.

Fixpoint performs (ops : list StoreOp) (b : B) : list Answer * B :=
  match ops with
  | [] => ([], b)
  | op :: ops' => let (a, b1) := perform op b in let (answers, b2) := performs ops' b1 in (a :: answers, b2)
  end.

(** Whether the database works, before each operation. *)
Fixpoint worked (ops : list StoreOp) (b : B) : list bool :=
  match ops with [] => [] | op :: ops' => works b :: worked ops' (perform op b).2 end.

(** What the caller of an operation owes the backend. *)
Definition op_ok (op : StoreOp) : Prop :=
  match op with
  | DoDeduped now key ttl =>
      fits (String.length key) 8 /\ 0 < ttl /\ (clock_unit | now) /\ (clock_unit | ttl) /\ in_i64 now /\ in_i64 (now + ttl)
  | DoDLQPush e => dlq_ok e /\ fits (String.length (sd_ID e)) (String.length (marshalDLQ e))
  | DoAuditAppend e => audit_ok e /\ fits 8 (String.length (marshalAudit e))
  | DoAuditLatest n => 0 < n < 2 ^ 63
  | DoCRLPut e => crl_ok e /\ fits (String.length (sc_NodeID e)) (String.length (marshalCRL e))
  | DoDLQList | DoDLQDelete _ | DoCRLGet _ | DoCRLList => True
  end.

Lemma wrote_step ok r t op :
  wrote represents ok r t (applied op t) -> answers op t Done ->
  exists t', table_step ok t op (wrote_answer r).1 t' /\ represents (wrote_answer r).2 t'.
Proof.
  intros Hw Ha. unfold wrote, wrote_answer in *. destruct r as [[e|] b]; cbn in *.
  - destruct Hw as [Hok [Hw|Hw]]; eexists; (split; [|exact Hw]); [by apply step_failed|by apply step_failed_done].
  - eexists. split; [by apply step_answer|done].
Qed.

Lemma read_step {A} (f : A -> Answer) r b t op :
  applied op t = t -> represents b t -> match r with Ok v => answers op t (f v) | Err e => works b = false end ->
  exists t', table_step (works b) t op (read_answer f r b).1 t' /\ represents (read_answer f r b).2 t'.
Proof.
  intros Hap Hr Ha. exists t. split; [|done]. destruct r as [v|e]; cbn; [|by apply step_failed].
  rewrite <- Hap at 2. by apply step_answer.
Qed.

Lemma perform_step op b t :
  represents b t -> op_ok op ->
  (forall e, op = DoAuditAppend e -> Forall (fun e' => sa_Seq e' < sa_Seq e) (tb_audit t)) ->
  exists t', table_step (works b) t op (perform op b).1 t' /\ represents (perform op b).2 t'.
Proof.
  intros Hr Hok Hlt. destruct op as [now key ttl|e| |id|e|n|e|id|]; cbn [perform op_ok] in *.
  - pose proof (Deduped_law b t now key ttl Hr) as Hd. destruct Hok as (H1 & H2 & H3 & H4 & H5 & H6).
    specialize (Hd H1 H2 H3 H4 H5 H6). destruct (Deduped now key ttl b) as [[seen|e] b']; cbn.
    + destruct Hd as [-> Hd]. eexists. split; [by apply step_answer|done].
    + destruct Hd as (_ & Hw & [Hd|Hd]); eexists; (split; [|exact Hd]); [by apply step_failed|by apply step_failed_done].
  - destruct Hok. apply wrote_step; [by apply DLQPush_law|done].
  - apply read_step; [done..|]. pose proof (DLQList_law b t Hr). destruct (DLQList b); [done|tauto].
  - apply wrote_step; [by apply DLQDelete_law|done].
  - apply wrote_step; [|done]. destruct Hok. by apply AuditAppend_law; [..|apply Hlt].
  - apply read_step; [done..|]. pose proof (AuditLatest_law b t n Hr Hok). destruct (AuditLatest n b); [done|tauto].
  - destruct Hok. apply wrote_step; [by apply CRLPut_law|done].
  - apply read_step; [done..|]. pose proof (CRLGet_law b t id Hr). destruct (CRLGet id b); [done|tauto].
  - apply read_step; [done..|]. pose proof (CRLList_law b t Hr). destruct (CRLList b); [done|tauto].
Qed.

Lemma table_step_audit ok t op a t' : table_step ok t op a t' ->
  tb_audit t' = tb_audit t \/ exists e, op = DoAuditAppend e /\ tb_audit t' = tb_audit t ++ [e].
Proof.
  assert (tb_audit (applied op t) = tb_audit t \/ exists e, op = DoAuditAppend e /\ tb_audit (applied op t) = tb_audit t ++ [e]).
  { destruct op; cbn; eauto. unfold register. destruct (seenIn _ _ _); auto. }
  by destruct 1; auto.
Qed.

Lemma performs_run ops b t :
  represents b t -> Forall op_ok ops -> StronglySorted Z.lt ((sa_Seq <$> tb_audit t) ++ appended ops) ->
  exists t', table_run t ops (worked ops b) (performs ops b).1 t' /\ represents (performs ops b).2 t'.
Proof.
  revert b t. induction ops as [|op ops IH]; intros b t Hr Hok Hs; [by eexists; split; [constructor|]|].
  apply Forall_cons in Hok as [Hop Hok]. destruct (perform_step op b t Hr Hop) as (t1 & Hstep & Hr1).
  { intros e ->. cbn in Hs. apply Forall_forall. intros e' He'.
    eapply (StronglySorted_app_1_elem_of Z.lt); [exact Hs|by apply list_elem_of_fmap_2|by left]. }
  destruct (IH (perform op b).2 t1 Hr1 Hok) as (t2 & Hrun & Hr2).
  { destruct (table_step_audit _ _ _ _ _ Hstep) as [->|(e & -> & ->)].
    - destruct op; try done. cbn in Hs. apply StronglySorted_app in Hs as (Hlt & H1 & H2).
      apply StronglySorted_cons in H2 as [_ H2]. apply StronglySorted_app_2; [|done..]. intros. apply Hlt; [done|by right].
    - rewrite fmap_app, <- app_assoc. done. }
  cbn [performs worked]. destruct (perform op b) as [a b1]. cbn [fst snd] in *. destruct (performs ops b1) as [answers b2].
  exists t2. split; [by econstructor|done].
Qed.
End Backend.
