(* ===== verification/Bolt.v ===== *)
(** * The bbolt backend (package [internal/store/bbolt])

    The database is a library, the class [Bolt]: transactions over buckets of pairs
    sorted by key.  [BoltLaws] is what its documentation promises.  The backend
    implements the interface of [Store]: it refines a table per kind of row. *)

From stdpp Require Import sorting.
From S2P Require Import Prelude GoStrings GoCrypto Utf8 Json JsonFields Store Rows StoreSpec.

(** ** The library *)

(** Byte-wise order of keys. *)
Fixpoint lex_ltb (a b : list Z) : bool :=
  match a, b with
  | _, [] => false
  | [], _ :: _ => true
  | x :: a', y :: b' => if x <? y then true else if y <? x then false else lex_ltb a' b'
  end.

Definition key_lt (s t : string) : Prop := lex_ltb (bytes_of s) (bytes_of t) = true.

Class Bolt := {
  bolt_DB : Type;
  bolt_Tx : Type;
  bolt_error : Type;
  bolt_Update : forall A, (bolt_Tx -> outcome (StoreError bolt_error) A * bolt_Tx) -> bolt_DB ->
    outcome (StoreError bolt_error) A * bolt_DB;
  bolt_View : forall A, (bolt_Tx -> outcome (StoreError bolt_error) A) -> bolt_DB -> outcome (StoreError bolt_error) A;
  bolt_CreateBucket : string -> bolt_Tx -> option bolt_error * bolt_Tx;
  bolt_Get : string -> string -> bolt_Tx -> option string;
  bolt_Put : string -> string -> string -> bolt_Tx -> option bolt_error * bolt_Tx;
  bolt_Delete : string -> string -> bolt_Tx -> option bolt_error * bolt_Tx;
  bolt_Pairs : string -> bolt_Tx -> list (string * string) }.
Arguments bolt_Update {_ A}.
Arguments bolt_View {_ A}.

(** The bounds of the library on keys and values. *)
Definition storable (k v : nat) : Prop := 0 < Z.of_nat k <= 32768 /\ Z.of_nat v <= 2 ^ 31 - 2.

(** [bolt_data] is what is committed, [bolt_sees] what a transaction sees, its own
    writes included.  A transaction that fails, by its callback or by itself, leaves
    the data as they were.  [bolt_works] tells whether the next transaction of a database
    can be begun and committed (the file is open, the disk takes the write). *)
Class BoltLaws `{Bolt} := {
  bolt_data : bolt_DB -> gmap string (gmap string string);
  bolt_sees : bolt_Tx -> gmap string (gmap string string);
  bolt_works : bolt_DB -> bool;
  bolt_Update_law A (f : bolt_Tx -> outcome (StoreError bolt_error) A * bolt_Tx) db :
    (bolt_works db = false /\ exists e, (bolt_Update f db).1 = Err (LibError e) /\ bolt_data (bolt_Update f db).2 = bolt_data db)
    \/ exists tx, bolt_sees tx = bolt_data db /\ (bolt_Update f db).1 = (f tx).1
       /\ bolt_data (bolt_Update f db).2 = match (f tx).1 with Ok _ => bolt_sees (f tx).2 | Err _ => bolt_data db end;
  bolt_View_law A (f : bolt_Tx -> outcome (StoreError bolt_error) A) db :
    (bolt_works db = false /\ exists e, bolt_View f db = Err (LibError e)) \/ exists tx, bolt_sees tx = bolt_data db /\ bolt_View f db = f tx;
  bolt_Get_law b k tx m : bolt_sees tx !! b = Some m -> bolt_Get b k tx = m !! k;
  bolt_Put_law b k v tx m : bolt_sees tx !! b = Some m -> storable (String.length k) (String.length v) ->
    (bolt_Put b k v tx).1 = None /\ bolt_sees (bolt_Put b k v tx).2 = <[b := <[k := v]> m]> (bolt_sees tx);
  bolt_Put_refused b k v tx : ~ storable (String.length k) (String.length v) -> (bolt_Put b k v tx).1 <> None;
  bolt_Delete_law b k tx m : bolt_sees tx !! b = Some m ->
    (bolt_Delete b k tx).1 = None /\ bolt_sees (bolt_Delete b k tx).2 = <[b := delete k m]> (bolt_sees tx);
  bolt_Pairs_law b tx m : bolt_sees tx !! b = Some m ->
    StronglySorted key_lt (bolt_Pairs b tx).*1 /\ list_to_map (bolt_Pairs b tx) = m;
  bolt_CreateBucket_law b tx : (bolt_CreateBucket b tx).1 = None ->
    bolt_sees (bolt_CreateBucket b tx).2 = <[b := default ∅ (bolt_sees tx !! b)]> (bolt_sees tx) }.

(** ** The backend *)

Definition bucketDedup : string := "dedup".
Definition bucketDLQ : string := "dlq".
Definition bucketAudit : string := "audit".
Definition bucketCRL : string := "crl".

(** [binary.BigEndian.PutUint64]. *)
Definition seqKey (n : Z) : string := of_bytes (be_bytes 8 n).

(** [binary.BigEndian.Uint64]; [Deduped] writes all the values it reads, eight bytes
    each. *)
Definition beUint64 (s : string) : Z := foldl (fun acc b => acc * 256 + b) 0 (bytes_of s).

Section Bolt.
Context `{UnicodeTables} `{Bolt}.

#[local] Notation error := (StoreError bolt_error).
#[local] Notation Tx := bolt_Tx.

(** A callback that ends with the error of a call of the library. *)
Definition tx_end {A} (r : option bolt_error * Tx) (a : A) : outcome error A * Tx :=
  (match r.1 with Some e => Err (LibError e) | None => Ok a end, r.2).

(** [Open], after [bolt.Open]: the buckets are created. *)
Fixpoint createBuckets (bs : list string) (tx : Tx) : outcome error unit * Tx :=
  match bs with
  | [] => (Ok tt, tx)
  | b :: bs' =>
      match bolt_CreateBucket b tx with
      | (Some e, tx') => (Err (LibError e), tx')
      | (None, tx') => createBuckets bs' tx'
      end
  end.

Definition OpenBolt (opened : outcome bolt_error bolt_DB) : outcome error bolt_DB :=
  match opened with
  | Err e => Err (LibError e)
  | Ok db =>
      match bolt_Update (createBuckets [bucketDedup; bucketDLQ; bucketAudit; bucketCRL]) db with
      | (Err e, _) => Err e
      | (Ok _, db') => Ok db'
      end
  end.

Definition bolt_Deduped (now : Z) (key : string) (ttl : Z) (db : bolt_DB) : outcome error bool * bolt_DB :=
  bolt_Update (fun tx =>
    let seen := match bolt_Get bucketDedup key tx with
                | Some raw => wrap_i64 now <? wrap_i64 (beUint64 raw)
                | None => false
                end in
    if seen then (Ok true, tx)
    else tx_end (bolt_Put bucketDedup key (seqKey (wrap_u64 (wrap_i64 (now + ttl)))) tx) false) db.

(** The error of an update. *)
Definition errOf {A} (r : outcome error A * bolt_DB) : option error * bolt_DB :=
  (match r.1 with Err e => Some e | Ok _ => None end, r.2).

Definition bolt_DLQPush (entry : StoreDLQEntry) (db : bolt_DB) : option error * bolt_DB :=
  errOf (bolt_Update (fun tx => tx_end (bolt_Put bucketDLQ (sd_ID entry) (marshalDLQ entry) tx) tt) db).

Definition bolt_DLQList (db : bolt_DB) : outcome error (list StoreDLQEntry) :=
  bolt_View (fun tx => decodeRows unmarshalDLQ (bolt_Pairs bucketDLQ tx)) db.

Definition bolt_DLQDelete (id : string) (db : bolt_DB) : option error * bolt_DB :=
  errOf (bolt_Update (fun tx => tx_end (bolt_Delete bucketDLQ id tx) tt) db).

Definition bolt_AuditAppend (entry : AuditEntry) (db : bolt_DB) : option error * bolt_DB :=
  errOf (bolt_Update (fun tx => tx_end (bolt_Put bucketAudit (seqKey (sa_Seq entry)) (marshalAudit entry) tx) tt) db).

(** The cursor from [Last] by [Prev], while fewer than [n] rows are read. *)
Fixpoint latestRows (rows : list (string * string)) (read n : Z) : outcome error (list AuditEntry) :=
  match rows with
  | [] => Ok []
  | (_, v) :: rows' =>
      if read <? n then
        match unmarshalAudit v with
        | None => Err DecodeError
        | Some e => match latestRows rows' (read + 1) n with Ok es => Ok (e :: es) | Err x => Err x end
        end
      else Ok []
  end.

Definition bolt_AuditLatest (n : Z) (db : bolt_DB) : outcome error (list AuditEntry) :=
  bolt_View (fun tx => latestRows (reverse (bolt_Pairs bucketAudit tx)) 0 n) db.

Definition bolt_CRLPut (entry : CRLEntry) (db : bolt_DB) : option error * bolt_DB :=
  errOf (bolt_Update (fun tx => tx_end (bolt_Put bucketCRL (sc_NodeID entry) (marshalCRL entry) tx) tt) db).

Definition bolt_CRLGet (nodeID : string) (db : bolt_DB) : outcome error (option CRLEntry) :=
  bolt_View (fun tx =>
    match bolt_Get bucketCRL nodeID tx with
    | None => Ok None
    | Some v => match unmarshalCRL v with None => Err DecodeError | Some e => Ok (Some e) end
    end) db.

Definition bolt_CRLList (db : bolt_DB) : outcome error (list CRLEntry) :=
  bolt_View (fun tx => decodeRows unmarshalCRL (bolt_Pairs bucketCRL tx)) db.

#[export] Instance bolt_store : NodeStore bolt_DB := {|
  store_error := error; Deduped := bolt_Deduped; DLQPush := bolt_DLQPush; DLQList := bolt_DLQList;
  DLQDelete := bolt_DLQDelete; AuditAppend := bolt_AuditAppend; AuditLatest := bolt_AuditLatest;
  CRLPut := bolt_CRLPut; CRLGet := bolt_CRLGet; CRLList := bolt_CRLList |}.
End Bolt.

(** ** Keys in order *)

Lemma be_bytes_value n z acc :
  foldl (fun acc b => acc * 256 + b) acc (be_bytes n z) = acc * 256 ^ Z.of_nat n + z mod 256 ^ Z.of_nat n.
Proof.
  revert acc. induction n as [|n IH]; intros acc; [cbn; rewrite Z.mod_1_r; lia|].
  cbn [be_bytes foldl]. rewrite IH, Nat2Z.inj_succ, Z.pow_succ_r by lia.
  change 0xFF with (Z.ones 8). rewrite Z.land_ones, Z.shiftr_div_pow2 by lia.
  replace (2 ^ (8 * Z.of_nat n)) with (256 ^ Z.of_nat n) by (rewrite Z.pow_mul_r by lia; done).
  change (2 ^ 8) with 256. rewrite (Z.mul_comm 256), Z.rem_mul_r by lia. ring.
Qed.

Lemma be_bytes_range n z : Forall (fun b => 0 <= b < 256) (be_bytes n z).
Proof.
  induction n as [|n IH]; constructor; [|done]. change 0xFF with (Z.ones 8). rewrite Z.land_ones by lia.
  apply Z.mod_pos_bound. lia.
Qed.

Lemma bytes_of_of_bytes l : Forall (fun b => 0 <= b < 256) l -> bytes_of (of_bytes l) = l.
Proof.
  unfold bytes_of, of_bytes. rewrite list_ascii_of_string_of_list_ascii, <- list_fmap_compose.
  induction 1 as [|b l Hb Hl IH]; [done|]. cbn in *. by rewrite IH, byteZ_chr.
Qed.

Lemma bytes_of_seqKey z : bytes_of (seqKey z) = be_bytes 8 z.
Proof. apply bytes_of_of_bytes, be_bytes_range. Qed.

Lemma beUint64_seqKey z : beUint64 (seqKey z) = wrap_u64 z.
Proof. unfold beUint64. rewrite bytes_of_seqKey, be_bytes_value. done. Qed.

Lemma seqKey_inj a b : in_u64 a -> in_u64 b -> seqKey a = seqKey b -> a = b.
Proof. intros Ha Hb E. rewrite <- (wrap_u64_id a Ha), <- (wrap_u64_id b Hb), <- !beUint64_seqKey. by rewrite E. Qed.

(** Big-endian keys sort like their numbers. *)
Lemma be_bytes_order n a b :
  lex_ltb (be_bytes n a) (be_bytes n b) = (a mod 256 ^ Z.of_nat n <? b mod 256 ^ Z.of_nat n).
Proof.
  induction n as [|n IH]; [cbn; by rewrite !Z.mod_1_r|].
  cbn [be_bytes lex_ltb]. rewrite IH, Nat2Z.inj_succ, Z.pow_succ_r by lia.
  change 0xFF with (Z.ones 8). rewrite !Z.land_ones, !Z.shiftr_div_pow2 by lia.
  replace (2 ^ (8 * Z.of_nat n)) with (256 ^ Z.of_nat n) by (rewrite Z.pow_mul_r by lia; done).
  change (2 ^ 8) with 256. rewrite (Z.mul_comm 256), !Z.rem_mul_r by lia.
  pose proof (Z.pow_pos_nonneg 256 (Z.of_nat n) ltac:(lia) ltac:(lia)) as Hp.
  pose proof (Z.mod_pos_bound a _ Hp). pose proof (Z.mod_pos_bound b _ Hp).
  set (p := 256 ^ Z.of_nat n) in *. set (x := a / p mod 256). set (y := b / p mod 256).
  destruct (Z.ltb_spec x y); [symmetry; apply Z.ltb_lt; nia|].
  destruct (Z.ltb_spec y x); [symmetry; apply Z.ltb_ge; nia|].
  replace y with x by lia. apply eq_true_iff_eq. rewrite !Z.ltb_lt. lia.
Qed.

Lemma seqKey_order a b : in_u64 a -> in_u64 b -> key_lt (seqKey a) (seqKey b) <-> a < b.
Proof.
  intros Ha Hb. unfold key_lt. rewrite !bytes_of_seqKey, be_bytes_order, Z.ltb_lt.
  change (256 ^ Z.of_nat 8) with (2 ^ 64). by rewrite !Z.mod_small by done.
Qed.

Lemma lex_ltb_irrefl l : lex_ltb l l = false.
Proof. induction l as [|x l IH]; [done|]. cbn. by rewrite Z.ltb_irrefl. Qed.

Lemma sorted_nodup {A} (R : A -> A -> Prop) l : (forall x, ~ R x x) -> StronglySorted R l -> NoDup l.
Proof.
  intros HR. induction 1 as [|x l Hs IH Hx]; constructor; [|done]. intros Hin. by eapply Forall_forall in Hx as ?%HR.
Qed.

Lemma sorted_total {A} (R : A -> A -> Prop) l x y : StronglySorted R l -> x ∈ l -> y ∈ l -> x = y \/ R x y \/ R y x.
Proof.
  induction 1 as [|z l Hs IH Hz]; [set_solver|]. rewrite Forall_forall in Hz. rewrite !elem_of_cons. naive_solver.
Qed.

Lemma sorted_keys_nodup l : StronglySorted key_lt l -> NoDup l.
Proof. apply sorted_nodup. intros x. unfold key_lt. by rewrite lex_ltb_irrefl. Qed.

Lemma sorted_pairs (l : list (string * string)) (m : gmap string string) :
  StronglySorted key_lt l.*1 -> list_to_map l = m -> l ≡ₚ map_to_list m.
Proof. intros Hs <-. symmetry. by apply map_to_list_to_map, sorted_keys_nodup. Qed.

(** The sorted pairs of a bucket that holds a table are the encoded rows. *)
Lemma pairs_rows {V} (row : V -> string * string) (l : list (string * string)) es :
  StronglySorted key_lt l.*1 -> map_to_list (list_to_map l : gmap string string) ≡ₚ row <$> es ->
  exists es', l = row <$> es' /\ es' ≡ₚ es.
Proof.
  intros Hs Hp. rewrite map_to_list_to_map in Hp by by apply sorted_keys_nodup.
  apply Permutation_map_inv in Hp as (es' & -> & Hp). by exists es'.
Qed.

(** ** Transactions over tables *)

Section Tables.
Context `{UnicodeTables} `{BoltLaws}.
Implicit Types (db : bolt_DB) (t : Tables) (m : gmap string string).

#[local] Notation error := (StoreError bolt_error).

Definition expiryBytes (exp : Z) : string := seqKey (wrap_u64 exp).

(** The rows of the audit bucket. *)
Definition auditRows (l : list AuditEntry) m : Prop :=
  forall k v, m !! k = Some v <-> exists e, e ∈ l /\ k = seqKey (sa_Seq e) /\ v = marshalAudit e.

Record tables_ok t : Prop := {
  to_dedup : map_Forall (fun _ exp => in_i64 exp) (tb_dedup t);
  to_dlq : map_Forall (fun k e => k = sd_ID e /\ dlq_ok e) (tb_dlq t);
  to_audit : Forall audit_ok (tb_audit t);
  to_sorted : StronglySorted (fun a b => sa_Seq a < sa_Seq b) (tb_audit t);
  to_crl : map_Forall (fun k e => k = sc_NodeID e /\ crl_ok e) (tb_crl t) }.

(** What the buckets hold for the tables. *)
Record holds (d : gmap string (gmap string string)) t : Prop := {
  ho_dedup : d !! bucketDedup = Some (expiryBytes <$> tb_dedup t);
  ho_dlq : d !! bucketDLQ = Some (marshalDLQ <$> tb_dlq t);
  ho_audit : exists m, d !! bucketAudit = Some m /\ auditRows (tb_audit t) m;
  ho_crl : d !! bucketCRL = Some (marshalCRL <$> tb_crl t);
  ho_ok : tables_ok t }.

Definition bolt_represents db t : Prop := holds (bolt_data db) t.

Definition bolt_failure (e : error) : Prop := exists x, e = LibError x.

(** A transaction that writes. *)
Lemma update_tables {A} (f : bolt_Tx -> outcome error A * bolt_Tx) db t t' (want : A) :
  bolt_represents db t ->
  (forall tx, holds (bolt_sees tx) t -> (f tx).1 = Ok want /\ holds (bolt_sees (f tx).2) t') ->
  match bolt_Update f db with
  | (Ok a, db') => a = want /\ bolt_represents db' t'
  | (Err e, db') => bolt_failure e /\ bolt_works db = false /\ bolt_represents db' t
  end.
Proof.
  intros Hr Hf. unfold bolt_represents in *.
  destruct (bolt_Update_law A f db) as [(Hw & e & He & Hd)|(tx & Hv & Hres & Hd)];
    destruct (bolt_Update _ db) as [r db']; cbn [fst snd] in *.
  - rewrite He. split; [by eexists|]. by rewrite Hd.
  - destruct (Hf tx) as [Hok Hholds]; [by rewrite Hv|]. rewrite Hok in *. rewrite Hres. split; [done|]. by rewrite Hd.
Qed.

Lemma update_wrote {A} (f : bolt_Tx -> outcome error A * bolt_Tx) db t t' (want : A) :
  bolt_represents db t ->
  (forall tx, holds (bolt_sees tx) t -> (f tx).1 = Ok want /\ holds (bolt_sees (f tx).2) t') ->
  wrote bolt_represents (bolt_works db) (errOf (bolt_Update f db)) t t'.
Proof.
  intros Hr Hf. pose proof (update_tables f db t t' want Hr Hf) as Hu.
  unfold wrote, errOf. destruct (bolt_Update f db) as [[a|e] db']; cbn; tauto.
Qed.

Lemma view_tables {A} (f : bolt_Tx -> outcome error A) db t (Q : A -> Prop) :
  bolt_represents db t -> (forall tx, holds (bolt_sees tx) t -> exists v, f tx = Ok v /\ Q v) ->
  match bolt_View f db with Ok v => Q v | Err e => bolt_failure e /\ bolt_works db = false end.
Proof.
  intros Hr Hf. destruct (bolt_View_law A f db) as [(Hw & e & ->)|(tx & Hv & ->)]; [by split; [eexists|]|].
  destruct (Hf tx) as (v & -> & HQ); [by rewrite Hv|done].
Qed.

(** One pair put or deleted in a transaction. *)
Lemma put_step {A} b k v tx m t' (a : A) :
  bolt_sees tx !! b = Some m -> storable (String.length k) (String.length v) ->
  holds (<[b := <[k := v]> m]> (bolt_sees tx)) t' ->
  (tx_end (bolt_Put b k v tx) a).1 = Ok a /\ holds (bolt_sees (tx_end (bolt_Put b k v tx) a).2) t'.
Proof.
  intros Hm Hs Hh. destruct (bolt_Put_law b k v tx m Hm Hs) as [He Hsees]. unfold tx_end. rewrite He. cbn [fst snd].
  by rewrite Hsees.
Qed.

Lemma delete_step {A} b k tx m t' (a : A) :
  bolt_sees tx !! b = Some m -> holds (<[b := delete k m]> (bolt_sees tx)) t' ->
  (tx_end (bolt_Delete b k tx) a).1 = Ok a /\ holds (bolt_sees (tx_end (bolt_Delete b k tx) a).2) t'.
Proof.
  intros Hm Hh. destruct (bolt_Delete_law b k tx m Hm) as [He Hsees]. unfold tx_end. rewrite He. cbn [fst snd].
  by rewrite Hsees.
Qed.

(** Replacing one bucket keeps the others. *)
Ltac other_buckets := constructor; cbn; rewrite ?lookup_insert_eq, ?lookup_insert_ne by done; try done.

Lemma holds_dedup d t key exp : holds d t -> in_i64 exp ->
  holds (<[bucketDedup := <[key := expiryBytes exp]> (expiryBytes <$> tb_dedup t)]> d)
    (set_dedup (<[key := exp]> (tb_dedup t)) t).
Proof.
  intros [? ? ? ? []] He. other_buckets; [by rewrite fmap_insert|].
  constructor; cbn; [by apply map_Forall_insert_2|done..].
Qed.

Lemma holds_dlq d t e : holds d t -> dlq_ok e ->
  holds (<[bucketDLQ := <[sd_ID e := marshalDLQ e]> (marshalDLQ <$> tb_dlq t)]> d)
    (set_dlq (<[sd_ID e := e]> (tb_dlq t)) t).
Proof.
  intros [? ? ? ? []] He. other_buckets; [by rewrite fmap_insert|].
  constructor; cbn; [done| |done..]. by apply map_Forall_insert_2.
Qed.

Lemma holds_dlq_delete d t id : holds d t ->
  holds (<[bucketDLQ := delete id (marshalDLQ <$> tb_dlq t)]> d) (set_dlq (delete id (tb_dlq t)) t).
Proof.
  intros [? ? ? ? []]. other_buckets; [by rewrite fmap_delete|].
  constructor; cbn; [done| |done..]. by apply map_Forall_delete.
Qed.

Lemma holds_crl d t e : holds d t -> crl_ok e ->
  holds (<[bucketCRL := <[sc_NodeID e := marshalCRL e]> (marshalCRL <$> tb_crl t)]> d)
    (set_crl (<[sc_NodeID e := e]> (tb_crl t)) t).
Proof.
  intros [? ? ? ? []] He. other_buckets; [by rewrite fmap_insert|].
  constructor; cbn; [done..|]. by apply map_Forall_insert_2.
Qed.

Lemma auditRows_app l m e :
  Forall audit_ok l -> audit_ok e -> Forall (fun e' => sa_Seq e' < sa_Seq e) l -> auditRows l m ->
  auditRows (l ++ [e]) (<[seqKey (sa_Seq e) := marshalAudit e]> m).
Proof.
  intros Hl He Hlt Hm k v. rewrite lookup_insert_Some, (Hm k v). split.
  - intros [[<- <-]|[Hne (e' & He' & -> & ->)]]; [exists e|exists e']; rewrite elem_of_app; set_solver.
  - intros (e' & [He'|He']%elem_of_app & -> & ->).
    + right. split; [|by eexists]. intros E. rewrite Forall_forall in Hl, Hlt. specialize (Hlt e' He').
      apply seqKey_inj in E; [lia|by destruct He|by destruct (Hl e' He')].
    + left. by apply list_elem_of_singleton in He' as ->.
Qed.

Lemma holds_audit d t m e : holds d t -> audit_ok e -> Forall (fun e' => sa_Seq e' < sa_Seq e) (tb_audit t) ->
  d !! bucketAudit = Some m ->
  holds (<[bucketAudit := <[seqKey (sa_Seq e) := marshalAudit e]> m]> d) (set_audit (tb_audit t ++ [e]) t).
Proof.
  intros [? ? (m' & Hm' & Hrows) ? []] He Hlt Hm. simplify_eq. other_buckets.
  - eexists. split; [done|]. by apply auditRows_app.
  - constructor; cbn; [done..| | |done]; [by apply Forall_app; split; [|apply Forall_singleton]|].
    apply StronglySorted_app_2; [|done|by do 2 constructor].
    intros x1 x2 Hx1 ->%list_elem_of_singleton. by eapply Forall_forall in Hlt.
Qed.

(** ** Reading *)

Lemma latestRows_rows es i n :
  Forall audit_ok es ->
  latestRows ((fun e => (seqKey (sa_Seq e), marshalAudit e)) <$> es) i n = Ok (take (Z.to_nat (n - i)) es).
Proof.
  intros Hes. revert i. induction Hes as [|e es He Hes IH]; intros i; [by rewrite take_nil|].
  cbn [fmap list_fmap latestRows]. rewrite unmarshal_marshalAudit by done. destruct (i <? n) eqn:E; go_bool.
  - change (list_fmap _ _ ?f es) with (f <$> es). rewrite IH.
    replace (Z.to_nat (n - i)) with (S (Z.to_nat (n - (i + 1)))) by lia. done.
  - by replace (Z.to_nat (n - i)) with O by lia.
Qed.

Lemma seq_sorted es :
  Forall audit_ok es -> StronglySorted key_lt ((fun e => seqKey (sa_Seq e)) <$> es) ->
  StronglySorted (fun a b => sa_Seq a < sa_Seq b) es.
Proof.
  induction 1 as [|e es He Hes IH]; intros Hs; [constructor|].
  rewrite fmap_cons in Hs. apply StronglySorted_cons in Hs as [Hh Hs]. apply StronglySorted_cons. split; [|by apply IH].
  rewrite Forall_fmap in Hh. rewrite Forall_forall in Hh, Hes |- *. intros x Hx.
  apply seqKey_order; [by destruct He|by destruct (Hes x Hx)|by apply Hh].
Qed.

Lemma audit_pairs t m l :
  tables_ok t -> auditRows (tb_audit t) m -> StronglySorted key_lt l.*1 -> list_to_map l = m ->
  l = (fun e => (seqKey (sa_Seq e), marshalAudit e)) <$> tb_audit t.
Proof.
  intros [] Hm Hs Hl. destruct (pairs_rows (fun e => (seqKey (sa_Seq e), marshalAudit e)) l (tb_audit t)) as (es & -> & Hp).
  - done.
  - apply NoDup_Permutation; [apply NoDup_map_to_list| |].
    + apply NoDup_fmap_2_strong; [|eapply sorted_nodup; [|done]; cbn; lia].
      intros x y Hx Hy E%(f_equal fst). cbn [fst] in E. rewrite Forall_forall in to_audit0.
      apply seqKey_inj in E; [|by destruct (to_audit0 x Hx)|by destruct (to_audit0 y Hy)].
      destruct (sorted_total _ _ x y to_sorted0 Hx Hy) as [?|[?|?]]; [done|lia|lia].
    + intros [k v]. rewrite elem_of_map_to_list, Hl, (Hm k v), list_elem_of_fmap. split.
      * intros (e & He & -> & ->). by exists e.
      * intros (e & [= -> ->] & He). by exists e.
  - f_equal. eapply StronglySorted_unique_strong; [|apply seq_sorted|apply to_sorted0|done]; [cbn; lia|by rewrite Hp|].
    by rewrite <- list_fmap_compose in Hs.
Qed.

(** ** The operations *)

Lemma expiryBytes_value exp : in_i64 exp -> wrap_i64 (beUint64 (expiryBytes exp)) = exp.
Proof.
  intros He. unfold expiryBytes. rewrite beUint64_seqKey. unfold wrap_u64, wrap_i64, in_i64 in *.
  rewrite Z.mod_mod, Zplus_mod_idemp_l by lia. rewrite Z.mod_small; lia.
Qed.

Lemma length_seqKey z : String.length (seqKey z) = 8%nat.
Proof. unfold seqKey. by rewrite length_of_bytes. Qed.

Lemma bolt_Deduped_tables db t now key ttl :
  bolt_represents db t -> storable (String.length key) 8 -> in_i64 now -> in_i64 (now + ttl) ->
  match bolt_Deduped now key ttl db with
  | (Ok seen, db') => seen = seenIn now key t /\ bolt_represents db' (register now key ttl t)
  | (Err e, db') => bolt_failure e /\ bolt_works db = false /\ bolt_represents db' t
  end.
Proof.
  intros Hr Hs Hn Ht. unfold bolt_Deduped. apply update_tables; [done|]. intros tx Htx.
  rewrite (bolt_Get_law bucketDedup key tx _ (ho_dedup _ _ Htx)), lookup_fmap.
  assert (match expiryBytes <$> tb_dedup t !! key with
          | Some raw => wrap_i64 now <? wrap_i64 (beUint64 raw) | None => false end = seenIn now key t) as ->.
  { unfold seenIn. destruct (tb_dedup t !! key) as [exp|] eqn:E; [|done].
    change ((wrap_i64 now <? wrap_i64 (beUint64 (expiryBytes exp))) = (now <? exp)).
    rewrite expiryBytes_value, wrap_i64_id; [done..|]. destruct (ho_ok _ _ Htx). by eapply to_dedup0. }
  unfold register. destruct (seenIn now key t); [done|].
  rewrite wrap_i64_id by done. eapply put_step; [apply Htx|by rewrite length_seqKey|]. by apply holds_dedup.
Qed.

Lemma bolt_DLQPush_tables db t e : bolt_represents db t -> dlq_ok e -> storable (String.length (sd_ID e)) (String.length (marshalDLQ e)) ->
  wrote bolt_represents (bolt_works db) (bolt_DLQPush e db) t (set_dlq (<[sd_ID e := e]> (tb_dlq t)) t).
Proof.
  intros Hr He Hs. eapply update_wrote; [done|]. intros tx Htx.
  eapply put_step; [apply Htx|done|]. by apply holds_dlq.
Qed.

Lemma bolt_DLQList_tables db t : bolt_represents db t ->
  match bolt_DLQList db with Ok l => l ≡ₚ storedDLQ <$> (map_to_list (tb_dlq t)).*2 | Err e => bolt_failure e /\ bolt_works db = false end.
Proof.
  intros Hr. eapply view_tables; [done|]. intros tx Htx.
  destruct (bolt_Pairs_law _ _ _ (ho_dlq _ _ Htx)) as [Hs Hl]. destruct (ho_ok _ _ Htx).
  destruct (decodeRows_table (E := bolt_error) sd_ID marshalDLQ _ storedDLQ _ _ _ unmarshal_marshalDLQ to_dlq0 (sorted_pairs _ _ Hs Hl)) as (es & Hes & Hp).
  exists es. split; [done|exact Hp].
Qed.

Lemma bolt_DLQDelete_tables db t id : bolt_represents db t ->
  wrote bolt_represents (bolt_works db) (bolt_DLQDelete id db) t (set_dlq (delete id (tb_dlq t)) t).
Proof.
  intros Hr. eapply update_wrote; [done|]. intros tx Htx.
  eapply delete_step; [apply Htx|]. by apply holds_dlq_delete.
Qed.

Lemma bolt_AuditAppend_tables db t e : bolt_represents db t -> audit_ok e -> storable 8 (String.length (marshalAudit e)) ->
  Forall (fun e' => sa_Seq e' < sa_Seq e) (tb_audit t) ->
  wrote bolt_represents (bolt_works db) (bolt_AuditAppend e db) t (set_audit (tb_audit t ++ [e]) t).
Proof.
  intros Hr He Hs Hlt. eapply update_wrote; [done|]. intros tx Htx. destruct (ho_audit _ _ Htx) as (m & Hm & _).
  eapply put_step; [done|by rewrite length_seqKey|]. by apply holds_audit.
Qed.

Lemma bolt_AuditLatest_tables db t n : bolt_represents db t ->
  match bolt_AuditLatest n db with Ok l => l = take (Z.to_nat n) (reverse (tb_audit t)) | Err e => bolt_failure e /\ bolt_works db = false end.
Proof.
  intros Hr. eapply view_tables; [done|]. intros tx Htx. destruct (ho_audit _ _ Htx) as (m & Hm & Hrows).
  destruct (bolt_Pairs_law _ _ _ Hm) as [Hs Hl]. eexists. split; [|done].
  rewrite (audit_pairs t m (bolt_Pairs bucketAudit tx) (ho_ok _ _ Htx) Hrows Hs Hl), <- fmap_reverse.
  rewrite latestRows_rows, Z.sub_0_r; [done|]. apply Forall_reverse. by destruct (ho_ok _ _ Htx).
Qed.

Lemma bolt_CRLPut_tables db t e : bolt_represents db t -> crl_ok e -> storable (String.length (sc_NodeID e)) (String.length (marshalCRL e)) ->
  wrote bolt_represents (bolt_works db) (bolt_CRLPut e db) t (set_crl (<[sc_NodeID e := e]> (tb_crl t)) t).
Proof.
  intros Hr He Hs. eapply update_wrote; [done|]. intros tx Htx.
  eapply put_step; [apply Htx|done|]. by apply holds_crl.
Qed.

Lemma bolt_CRLGet_tables db t id : bolt_represents db t ->
  match bolt_CRLGet id db with Ok r => r = tb_crl t !! id | Err e => bolt_failure e /\ bolt_works db = false end.
Proof.
  intros Hr. eapply view_tables; [done|]. intros tx Htx.
  rewrite (bolt_Get_law bucketCRL id tx _ (ho_crl _ _ Htx)), lookup_fmap. eexists. split; [|done].
  destruct (tb_crl t !! id) as [e|] eqn:E; [|done]. cbn [fmap option_fmap option_map].
  rewrite unmarshal_marshalCRL; [done|].
  destruct (ho_ok _ _ Htx). by eapply to_crl0.
Qed.

Lemma bolt_CRLList_tables db t : bolt_represents db t ->
  match bolt_CRLList db with Ok l => l ≡ₚ (map_to_list (tb_crl t)).*2 | Err e => bolt_failure e /\ bolt_works db = false end.
Proof.
  intros Hr. eapply view_tables; [done|]. intros tx Htx.
  destruct (bolt_Pairs_law _ _ _ (ho_crl _ _ Htx)) as [Hs Hl]. destruct (ho_ok _ _ Htx).
  destruct (decodeRows_table (E := bolt_error) sc_NodeID marshalCRL _ id _ _ _ unmarshal_marshalCRL to_crl0 (sorted_pairs _ _ Hs Hl)) as (es & Hes & Hp).
  exists es. split; [done|]. by rewrite list_fmap_id in Hp.
Qed.

Lemma bolt_Deduped_law db t now key ttl :
  bolt_represents db t -> storable (String.length key) 8 -> 0 < ttl -> (1 | now) -> (1 | ttl) ->
  in_i64 now -> in_i64 (now + ttl) ->
  match bolt_Deduped now key ttl db with
  | (Ok seen, db') => seen = seenIn now key t /\ bolt_represents db' (register now key ttl t)
  | (Err e, db') => bolt_failure e /\ bolt_works db = false /\ (bolt_represents db' t \/ bolt_represents db' (register now key ttl t))
  end.
Proof.
  intros Hr Hs _ _ _ Hn Ht. pose proof (bolt_Deduped_tables db t now key ttl Hr Hs Hn Ht) as H'.
  destruct (bolt_Deduped _ _ _ _) as [[seen|e] db']; tauto.
Qed.

#[export] Instance bolt_contract : StoreContract bolt_DB := {|
  represents := bolt_represents; works := bolt_works; clock_unit := 1; fits := storable; lib_failure := bolt_failure;
  Deduped_law := bolt_Deduped_law; DLQPush_law := bolt_DLQPush_tables; DLQList_law := bolt_DLQList_tables;
  DLQDelete_law := bolt_DLQDelete_tables; AuditAppend_law := bolt_AuditAppend_tables;
  AuditLatest_law := fun db t n Hr _ => bolt_AuditLatest_tables db t n Hr; CRLPut_law := bolt_CRLPut_tables;
  CRLGet_law := bolt_CRLGet_tables; CRLList_law := bolt_CRLList_tables |}.

(** A new file: the buckets are there and empty. *)
Lemma createBuckets_sees bs tx : (createBuckets bs tx).1 = Ok tt ->
  forall b, bolt_sees (createBuckets bs tx).2 !! b
    = if bool_decide (b ∈ bs) then Some (default ∅ (bolt_sees tx !! b)) else bolt_sees tx !! b.
Proof.
  revert tx. induction bs as [|b0 bs IH]; intros tx; [done|]. cbn [createBuckets].
  destruct (bolt_CreateBucket b0 tx) as [[e|] tx'] eqn:E; [done|]. intros Hok b. rewrite (IH tx' Hok b).
  pose proof (bolt_CreateBucket_law b0 tx) as Hc. rewrite E in Hc. cbn in Hc. rewrite (Hc eq_refl).
  destruct (decide (b = b0)) as [->|Hne].
  - rewrite lookup_insert_eq, (bool_decide_eq_true_2 (b0 ∈ b0 :: bs)) by by left. by case_bool_decide.
  - rewrite lookup_insert_ne by done. erewrite (bool_decide_ext (b ∈ b0 :: bs)); [reflexivity|]. set_solver.
Qed.

Lemma OpenBolt_empty opened db :
  bolt_data opened = ∅ -> OpenBolt (Ok opened) = Ok db -> bolt_represents db no_tables.
Proof.
  intros Hd Ho. unfold OpenBolt in Ho.
  destruct (bolt_Update_law _ (createBuckets [bucketDedup; bucketDLQ; bucketAudit; bucketCRL]) opened)
    as [(_ & e & He & _)|(tx & Hv & Hres & Hdata)]; destruct (bolt_Update _ opened) as [[[]|e'] db']; cbn [fst snd] in *; simplify_eq.
  rewrite <- Hres in Hdata. pose proof (createBuckets_sees _ _ (eq_sym Hres)) as Hb. rewrite Hv, Hd in Hb.
  unfold bolt_represents. rewrite Hdata. clear Hdata Hres. revert Hb. generalize (bolt_sees (createBuckets [bucketDedup; bucketDLQ; bucketAudit; bucketCRL] tx).2).
  intros d Hb.
  constructor; cbn; rewrite ?Hb, ?fmap_empty; cbn; try done.
  - exists ∅. split; [done|]. intros k v. rewrite lookup_empty. set_solver.
  - constructor; cbn; try apply map_Forall_empty; constructor.
Qed.

(** C35: The bbolt backend refines the tables.  On a new file, along a sequence of
    operations with storable rows, growing sequence numbers and times in range, every
    answer of the backend is the answer of the tables: a key is seen exactly within its
    window, dead letters and revocations are kept under their names until they are
    replaced or deleted, audit entries come back newest first.  An operation fails only
    where the transaction of the database does, never otherwise, and has then been
    carried out or not. *)
Theorem bolt_refines opened db ops :
  bolt_data opened = ∅ -> OpenBolt (Ok opened) = Ok db -> Forall op_ok ops -> StronglySorted Z.lt (appended ops) ->
  (exists t, table_run no_tables ops (worked ops db) (performs ops db).1 t /\ bolt_represents (performs ops db).2 t)
  /\ (Forall (fun ok => ok = true) (worked ops db) -> Failed ∉ (performs ops db).1).
Proof.
  intros Hd Ho Hops Hs.
  pose proof (performs_run ops db no_tables (OpenBolt_empty opened db Hd Ho) Hops Hs : exists t, _ /\ bolt_represents _ t) as Hex.
  split; [exact Hex|]. destruct Hex as (t & Hrun & _). by eapply table_run_answers.
Qed.
End Tables.

(** ** A database in memory, for concrete evaluations *)

Definition toy_buckets : Type := gmap string (gmap string string).

#[export] Instance key_lt_dec s t : Decision (key_lt s t).
Proof. unfold key_lt. apply _. Defined.

Definition pair_le (p q : string * string) : Prop := ~ key_lt q.1 p.1.

#[export] Instance storable_dec k v : Decision (storable k v).
Proof. unfold storable. apply _. Defined.

Lemma lex_ltb_trans a b c : lex_ltb a b = false -> lex_ltb b c = false -> lex_ltb a c = false.
Proof.
  revert b c. induction a as [|x a IH]; intros [|y b] [|z c]; cbn; try done.
  destruct (Z.ltb_spec x y), (Z.ltb_spec y x); try done;
    destruct (Z.ltb_spec y z), (Z.ltb_spec z y); try done;
    destruct (Z.ltb_spec x z), (Z.ltb_spec z x); try done; try lia. apply IH.
Qed.

Lemma lex_ltb_total a b : lex_ltb a b = false -> lex_ltb b a = false -> a = b.
Proof.
  revert b. induction a as [|x a IH]; intros [|y b]; cbn; try done.
  destruct (Z.ltb_spec x y), (Z.ltb_spec y x); try done. intros Ha Hb. f_equal; [lia|by apply IH].
Qed.

Lemma lex_ltb_asym a b : lex_ltb a b = true -> lex_ltb b a = false.
Proof.
  revert b. induction a as [|x a IH]; intros [|y b]; cbn; try done.
  destruct (Z.ltb_spec x y), (Z.ltb_spec y x); try done; try lia. apply IH.
Qed.

Lemma not_key_lt s t : ~ key_lt s t <-> lex_ltb (bytes_of s) (bytes_of t) = false.
Proof. unfold key_lt. apply not_true_iff_false. Qed.

#[export] Instance pair_le_trans : Transitive pair_le.
Proof. intros [] [] []. unfold pair_le. rewrite !not_key_lt. cbn. intros H1 H2. by eapply lex_ltb_trans. Qed.

#[export] Instance pair_le_total : Total pair_le.
Proof.
  intros [s ?] [t ?]. unfold pair_le. cbn. rewrite !not_key_lt.
  destruct (lex_ltb (bytes_of s) (bytes_of t)) eqn:E; [left; by apply lex_ltb_asym|by right].
Qed.

Lemma key_eq s t : ~ key_lt s t -> ~ key_lt t s -> s = t.
Proof.
  rewrite !not_key_lt. intros H1 H2. rewrite <- (of_bytes_bytes_of s), <- (of_bytes_bytes_of t). f_equal.
  by apply lex_ltb_total.
Qed.

Lemma strict_keys (l : list (string * string)) : StronglySorted pair_le l -> NoDup l.*1 -> StronglySorted key_lt l.*1.
Proof.
  induction 1 as [|[k v] l Hs IH Hk]; [constructor|]. rewrite fmap_cons. intros [Hn Hnd]%NoDup_cons.
  apply StronglySorted_cons. split; [|by apply IH]. apply Forall_fmap. rewrite Forall_forall in Hk |- *. intros [k' v'] Hin.
  specialize (Hk _ Hin). unfold pair_le in Hk. cbn in Hk |- *. destruct (decide (key_lt k k')) as [|Hlt]; [done|].
  destruct Hn. apply list_elem_of_fmap. exists (k', v'). split; [|done]. cbn. by apply key_eq.
Qed.

Definition toy_put (b k v : string) (tx : toy_buckets) : option unit * toy_buckets :=
  if decide (storable (String.length k) (String.length v))
  then (None, <[b := <[k := v]> (default ∅ (tx !! b))]> tx) else (Some tt, tx).

Lemma toy_put_law b k v tx m : tx !! b = Some m -> storable (String.length k) (String.length v) ->
  (toy_put b k v tx).1 = None /\ (toy_put b k v tx).2 = <[b := <[k := v]> m]> tx.
Proof. intros Hm Hs. unfold toy_put. by rewrite decide_True, Hm. Qed.

Lemma toy_put_refused b k v tx : ~ storable (String.length k) (String.length v) -> (toy_put b k v tx).1 <> None.
Proof. intros Hs. unfold toy_put. by rewrite decide_False. Qed.

Definition toy_pairs (b : string) (tx : toy_buckets) : list (string * string) :=
  merge_sort pair_le (map_to_list (default ∅ (tx !! b))).

Lemma toy_pairs_law b tx m : tx !! b = Some m ->
  StronglySorted key_lt (toy_pairs b tx).*1 /\ list_to_map (toy_pairs b tx) = m.
Proof.
  intros Hm. unfold toy_pairs. rewrite Hm. cbn [default option_union from_option]. unfold id.
  assert (NoDup (merge_sort pair_le (map_to_list m)).*1) as Hnd.
  { rewrite merge_sort_Permutation. apply NoDup_fst_map_to_list. }
  split; [by apply strict_keys; [apply StronglySorted_merge_sort; apply _|]|].
  rewrite <- (list_to_map_to_list m) at 2. apply list_to_map_proper; [done|apply merge_sort_Permutation].
Qed.

#[export] Instance toy_bolt : Bolt := {|
  bolt_DB := toy_buckets; bolt_Tx := toy_buckets; bolt_error := unit;
  bolt_Update := fun A f db => match f db with (Ok a, db') => (Ok a, db') | (Err e, _) => (Err e, db) end;
  bolt_View := fun A f db => f db;
  bolt_CreateBucket := fun b tx => (None, <[b := default ∅ (tx !! b)]> tx);
  bolt_Get := fun b k tx => m ← tx !! b; m !! k;
  bolt_Put := toy_put;
  bolt_Delete := fun b k tx => (None, <[b := delete k (default ∅ (tx !! b))]> tx);
  bolt_Pairs := toy_pairs |}.

Lemma toy_Update_law A (f : toy_buckets -> outcome (StoreError unit) A * toy_buckets) (db : toy_buckets) :
  let u := bolt_Update (Bolt := toy_bolt) f db in
  (true = false /\ exists e, u.1 = Err (LibError e) /\ u.2 = db)
  \/ exists tx, tx = db /\ u.1 = (f tx).1 /\ u.2 = match (f tx).1 with Ok _ => (f tx).2 | Err _ => db end.
Proof. right. exists db. cbn. by destruct (f db) as [[] ?]. Qed.

Lemma toy_Get_law b k (tx : toy_buckets) m : tx !! b = Some m -> (m ← tx !! b; m !! k) = m !! k.
Proof. by intros ->. Qed.

Lemma toy_Delete_law b k (tx : toy_buckets) m : tx !! b = Some m ->
  @None unit = None /\ <[b := delete k (default ∅ (tx !! b))]> tx = <[b := delete k m]> tx.
Proof. by intros ->. Qed.

#[export] Instance toy_bolt_laws : @BoltLaws toy_bolt := {|
  bolt_data := (fun db => db) : @bolt_DB toy_bolt -> toy_buckets;
  bolt_sees := (fun tx => tx) : @bolt_Tx toy_bolt -> toy_buckets; bolt_works := fun _ => true;
  bolt_Update_law := toy_Update_law; bolt_View_law := fun A f db => or_intror (ex_intro _ db (conj eq_refl eq_refl));
  bolt_Get_law := toy_Get_law; bolt_Put_law := toy_put_law; bolt_Put_refused := toy_put_refused;
  bolt_Delete_law := toy_Delete_law; bolt_Pairs_law := toy_pairs_law; bolt_CreateBucket_law := fun b tx _ => eq_refl |}.

(** ** Witness *)

Definition demo_row (n : Z) : AuditEntry := {|
  sa_Seq := n; sa_TimestampUnixMS := 1700000000000 + n; sa_Decision := "ALLOW"; sa_SenderRegion := "RS";
  sa_RecipientRegion := "RU"; sa_PolicyVersion := "1"; sa_Profile := "balanced"; sa_ApplicableLaw := "GDPR";
  sa_Reason := "POLICY_ACCEPTED"; sa_SchemaType := ""; sa_SchemaVersion := ""; sa_RetainLong := false;
  sa_SettlementFinal := false |}.

Definition demo_letter : StoreDLQEntry := {|
  sd_ID := "letter-1"; sd_IdempotencyKey := "k1"; sd_PeerAddr := "peer:1"; sd_Attempts := 3; sd_LastErr := "timeout";
  sd_FirstSeenUnix := 1; sd_LastAttemptUnix := 2; sd_Payload := Some "hello"%string; sd_Reason := ""; sd_NextOpenUnix := 0 |}.

Definition demo_revocation : CRLEntry := {|
  sc_NodeID := "node-b"; sc_Reason := "compromised"; sc_RevokedAt := 5; sc_Signatures := Some [Some "s1"%string; None] |}.

(** Sequence numbers whose bytes differ in more than the last place. *)
Definition demo_ops : list StoreOp := [
  DoDeduped 0 "k1" Hour; DoDeduped (Hour - 1) "k1" Hour; DoDeduped Hour "k1" Hour; DoDLQPush demo_letter; DoDLQList;
  DoAuditAppend (demo_row 2); DoAuditAppend (demo_row 255); DoAuditAppend (demo_row 256); DoAuditLatest 2;
  DoCRLPut demo_revocation; DoCRLGet "node-b"; DoCRLList; DoDLQDelete "letter-1"; DoDLQList]%string.

Definition demo_bolt : @bolt_DB toy_bolt :=
  list_to_map ((fun b => (b, ∅)) <$> [bucketDedup; bucketDLQ; bucketAudit; bucketCRL]).

Example demo_answers :
  (performs demo_ops demo_bolt).1
  = [Seen false; Seen true; Seen false; Done; Letters [demo_letter]; Done; Done; Done;
     Audited [demo_row 256; demo_row 255]; Done; Revocation (Some demo_revocation); Revocations [demo_revocation]; Done;
     Letters []].
Proof. vm_compute. reflexivity. Qed.

Lemma demo_row_ok n : 0 <= n < 1000 -> audit_ok (demo_row n).
Proof.
  intros Hn. constructor; cbn [demo_row sa_Seq sa_TimestampUnixMS];
    first [by unfold in_u64, in_i64; lia | vm_compute; reflexivity].
Qed.

Lemma demo_ops_ok : Forall (op_ok (B := @bolt_DB toy_bolt)) demo_ops.
Proof.
  assert (forall now, 0 <= now <= Hour -> op_ok (B := @bolt_DB toy_bolt) (DoDeduped now "k1" Hour)) as Hd.
  { intros now Hn. unfold op_ok, in_i64. change (Hour) with 3600000000000 in *.
    split_and!; try lia; try apply Z.divide_1_l; vm_compute; split_and!; congruence. }
  assert (forall n, bool_decide (storable 8 (String.length (marshalAudit (demo_row n)))) = true -> 0 <= n < 1000 ->
    op_ok (B := @bolt_DB toy_bolt) (DoAuditAppend (demo_row n))) as Ha.
  { intros n Hs Hn. split; [by apply demo_row_ok|by apply bool_decide_eq_true in Hs]. }
  repeat apply Forall_cons_2; try apply Forall_nil_2; try exact I.
  - apply Hd. by vm_compute.
  - apply Hd. by vm_compute.
  - apply Hd. by vm_compute.
  - split; [constructor; try (vm_compute; reflexivity); by vm_compute|by apply (bool_decide_eq_true_1 _); vm_compute].
  - apply Ha; [vm_compute; reflexivity|lia].
  - apply Ha; [vm_compute; reflexivity|lia].
  - apply Ha; [vm_compute; reflexivity|lia].
  - by vm_compute.
  - split; [constructor; try (vm_compute; reflexivity); by vm_compute|by apply (bool_decide_eq_true_1 _); vm_compute].
Qed.

Lemma bolt_refines_witness :
  (exists t, table_run no_tables demo_ops (worked demo_ops demo_bolt) (performs demo_ops demo_bolt).1 t
    /\ bolt_represents (performs demo_ops demo_bolt).2 t) /\ Failed ∉ (performs demo_ops demo_bolt).1.
Proof.
  destruct (bolt_refines (∅ : @bolt_DB toy_bolt) demo_bolt demo_ops) as [Hr Hf].
  - reflexivity.
  - vm_compute. reflexivity.
  - exact demo_ops_ok.
  - vm_compute. repeat constructor.
  - split; [exact Hr|]. apply Hf. vm_compute. repeat constructor.
Defined.
