(* ===== verification/Redis.v ===== *)
(** * The Redis backend (package [internal/store/redis])

    The server is a library, the class [Redis]: strings with an expiry, hashes and
    lists under names.  [RedisLaws] is what its documentation promises of the commands
    the backend sends.  The backend implements the contract of [StoreSpec]. *)

From stdpp Require Import sorting.
From S2P Require Import Prelude GoStrings GoCrypto Utf8 Json JsonFields Store Rows StoreSpec Bolt.

(** ** The library *)

Inductive RedisValue :=
| RString (expires : option Z)
| RHash (m : gmap string string)
| RList (l : list string).

(** [redis_SetNX] takes the clock of the server; [redis_HGetAll] answers a Go map, here
    its pairs in the order in which it is ranged over; [redis_HGet] answers [None] for
    [goredis.Nil]. *)
Class Redis := {
  redis_Client : Type;
  redis_error : Type;
  redis_SetNX : Z -> string -> Z -> redis_Client -> outcome redis_error bool * redis_Client;
  redis_HSet : string -> string -> string -> redis_Client -> option redis_error * redis_Client;
  redis_HDel : string -> string -> redis_Client -> option redis_error * redis_Client;
  redis_HGet : string -> string -> redis_Client -> outcome redis_error (option string);
  redis_HGetAll : string -> redis_Client -> outcome redis_error (list (string * string));
  redis_RPush : string -> string -> redis_Client -> option redis_error * redis_Client;
  redis_LRange : string -> Z -> Z -> redis_Client -> outcome redis_error (list string) }.

Definition hash_at (d : gmap string RedisValue) (key : string) : option (gmap string string) :=
  match d !! key with None => Some ∅ | Some (RHash m) => Some m | Some _ => None end.

Definition list_at (d : gmap string RedisValue) (key : string) : option (list string) :=
  match d !! key with None => Some [] | Some (RList l) => Some l | Some _ => None end.

(** The elements from [start] to [stop], negative positions counted from the end. *)
Definition lrange (l : list string) (start stop : Z) : list string :=
  let n := Z.of_nat (length l) in
  let first := Z.max 0 (if start <? 0 then n + start else start) in
  let last := Z.min (n - 1) (if stop <? 0 then n + stop else stop) in
  take (Z.to_nat (last - first + 1)) (drop (Z.to_nat first) l).

(** Whether a name holds a value at a time. *)
Definition live (now : Z) (v : option RedisValue) : bool :=
  match v with Some (RString (Some exp)) => now <? exp | Some _ => true | None => false end.

(** Only the name of a command changes. *)
Definition others_kept (key : string) (d d' : gmap string RedisValue) : Prop := forall k, k <> key -> d' !! k = d !! k.

(** A command that succeeds is carried out.  One fails only where the server cannot be
    reached, and then it may be carried out. *)
Definition carried {E} (ok : bool) (r : option E) (before after : Prop) : Prop :=
  match r with None => after | Some _ => ok = false /\ (before \/ after) end.

(** [redis_data] are the values of the names, expired ones included; [redis_works] tells
    whether the next command reaches the server and its answer comes back. *)
Class RedisLaws `{Redis} := {
  redis_data : redis_Client -> gmap string RedisValue;
  redis_works : redis_Client -> bool;
  redis_SetNX_law now key ttl c : 0 < ttl -> (Millisecond | now) -> (Millisecond | ttl) ->
    let d := redis_data c in let r := redis_SetNX now key ttl c in
    let d' := if live now (d !! key) then d else <[key := RString (Some (now + ttl))]> d in
    match r.1 with
    | Ok b => b = negb (live now (d !! key)) /\ redis_data r.2 = d'
    | Err _ => redis_works c = false /\ (redis_data r.2 = d \/ redis_data r.2 = d')
    end;
  redis_HSet_law key f v c m : hash_at (redis_data c) key = Some m ->
    let r := redis_HSet key f v c in
    others_kept key (redis_data c) (redis_data r.2)
    /\ carried (redis_works c) r.1 (hash_at (redis_data r.2) key = Some m) (hash_at (redis_data r.2) key = Some (<[f := v]> m));
  redis_HDel_law key f c m : hash_at (redis_data c) key = Some m ->
    let r := redis_HDel key f c in
    others_kept key (redis_data c) (redis_data r.2)
    /\ carried (redis_works c) r.1 (hash_at (redis_data r.2) key = Some m) (hash_at (redis_data r.2) key = Some (delete f m));
  redis_HGet_law key f c m : hash_at (redis_data c) key = Some m ->
    match redis_HGet key f c with Ok v => v = m !! f | Err _ => redis_works c = false end;
  redis_HGetAll_law key c m : hash_at (redis_data c) key = Some m ->
    match redis_HGetAll key c with Ok l => l ≡ₚ map_to_list m | Err _ => redis_works c = false end;
  redis_RPush_law key v c l : list_at (redis_data c) key = Some l ->
    let r := redis_RPush key v c in
    others_kept key (redis_data c) (redis_data r.2)
    /\ carried (redis_works c) r.1 (list_at (redis_data r.2) key = Some l) (list_at (redis_data r.2) key = Some (l ++ [v]));
  redis_LRange_law key start stop c l : list_at (redis_data c) key = Some l ->
    match redis_LRange key start stop c with Ok vs => vs = lrange l start stop | Err _ => redis_works c = false end }.

(** ** The backend *)

Record RedisStore `{Redis} := { rs_client : redis_Client; rs_prefix : string }.

Section Redis.
Context `{UnicodeTables} `{Redis}.

#[local] Notation error := (StoreError redis_error).

(** [New], after [goredis.ParseURL] and [goredis.NewClient]. *)
Definition NewRedis (client : outcome redis_error redis_Client) (prefix : string) : outcome error RedisStore :=
  match client with
  | Err e => Err (LibError e)
  | Ok c => Ok {| rs_client := c; rs_prefix := if str_eqb prefix "" then "mrmi:" else prefix |}
  end.

(** [s.key(parts...)]. *)
Definition redisKey (s : RedisStore) (parts : list string) : string := foldl append (rs_prefix s) parts.

Definition with_client (s : RedisStore) (c : redis_Client) : RedisStore := {| rs_client := c; rs_prefix := rs_prefix s |}.

(** The error of a command, for the caller. *)
Definition commandErr (s : RedisStore) (r : option redis_error * redis_Client) : option error * RedisStore :=
  (LibError <$> r.1, with_client s r.2).

Definition redis_Deduped (now : Z) (key : string) (ttl : Z) (s : RedisStore) : outcome error bool * RedisStore :=
  let r := redis_SetNX now (redisKey s ["dedup:"%string; key]) ttl (rs_client s) in
  (match r.1 with Ok ok => Ok (negb ok) | Err e => Err (LibError e) end, with_client s r.2).

Definition redis_DLQPush (entry : StoreDLQEntry) (s : RedisStore) : option error * RedisStore :=
  commandErr s (redis_HSet (redisKey s ["dlq"%string]) (sd_ID entry) (marshalDLQ entry) (rs_client s)).

Definition redis_DLQList (s : RedisStore) : outcome error (list StoreDLQEntry) :=
  match redis_HGetAll (redisKey s ["dlq"%string]) (rs_client s) with
  | Err e => Err (LibError e)
  | Ok m => decodeRows unmarshalDLQ m
  end.

Definition redis_DLQDelete (id : string) (s : RedisStore) : option error * RedisStore :=
  commandErr s (redis_HDel (redisKey s ["dlq"%string]) id (rs_client s)).

Definition redis_AuditAppend (entry : AuditEntry) (s : RedisStore) : option error * RedisStore :=
  commandErr s (redis_RPush (redisKey s ["audit"%string]) (marshalAudit entry) (rs_client s)).

(** The loop of [AuditLatest] goes from the last value to the first. *)
Definition redis_AuditLatest (n : Z) (s : RedisStore) : outcome error (list AuditEntry) :=
  match redis_LRange (redisKey s ["audit"%string]) (wrap_i64 (- n)) (-1) (rs_client s) with
  | Err e => Err (LibError e)
  | Ok vals => decodeRows unmarshalAudit (pair ""%string <$> reverse vals)
  end.

Definition redis_CRLPut (entry : CRLEntry) (s : RedisStore) : option error * RedisStore :=
  commandErr s (redis_HSet (redisKey s ["crl"%string]) (sc_NodeID entry) (marshalCRL entry) (rs_client s)).

Definition redis_CRLGet (nodeID : string) (s : RedisStore) : outcome error (option CRLEntry) :=
  match redis_HGet (redisKey s ["crl"%string]) nodeID (rs_client s) with
  | Ok None => Ok None
  | Err e => Err (LibError e)
  | Ok (Some v) => match unmarshalCRL v with None => Err DecodeError | Some e => Ok (Some e) end
  end.

Definition redis_CRLList (s : RedisStore) : outcome error (list CRLEntry) :=
  match redis_HGetAll (redisKey s ["crl"%string]) (rs_client s) with
  | Err e => Err (LibError e)
  | Ok m => decodeRows unmarshalCRL m
  end.

#[export] Instance redis_store : NodeStore RedisStore := {|
  store_error := error; Deduped := redis_Deduped; DLQPush := redis_DLQPush; DLQList := redis_DLQList;
  DLQDelete := redis_DLQDelete; AuditAppend := redis_AuditAppend; AuditLatest := redis_AuditLatest;
  CRLPut := redis_CRLPut; CRLGet := redis_CRLGet; CRLList := redis_CRLList |}.
End Redis.

(** ** The contract *)

Lemma lrange_last (l : list string) n : 0 < n -> reverse (lrange l (- n) (-1)) = take (Z.to_nat n) (reverse l).
Proof.
  intros Hn. unfold lrange. rewrite (proj2 (Z.ltb_lt (- n) 0)) by lia. change (-1 <? 0) with true. cbv iota.
  set (k := Z.to_nat (Z.max 0 (Z.of_nat (length l) + - n))).
  assert (k <= length l)%nat as Hk by (unfold k; lia).
  rewrite (take_ge (drop k l)) by (rewrite length_drop; unfold k; lia).
  rewrite <- (take_drop k l) at 2. rewrite reverse_app.
  destruct (decide (Z.of_nat (length l) <= n)) as [Hle|Hgt].
  - replace k with O by (unfold k; lia). cbn [take]. rewrite drop_0, app_nil_r, take_ge; [done|].
    rewrite length_reverse. lia.
  - rewrite take_app_length'; [done|]. rewrite length_reverse, length_drop. unfold k. lia.
Qed.

Section Contract.
Context `{UnicodeTables} `{RedisLaws}.
Implicit Types (s : RedisStore) (t : Tables) (d : gmap string RedisValue).

Record redis_holds (prefix : string) d t : Prop := {
  rh_dedup : forall key, d !! append prefix (append "dedup:" key) = (fun exp => RString (Some exp)) <$> tb_dedup t !! key;
  rh_dlq : hash_at d (append prefix "dlq") = Some (marshalDLQ <$> tb_dlq t);
  rh_audit : list_at d (append prefix "audit") = Some (marshalAudit <$> tb_audit t);
  rh_crl : hash_at d (append prefix "crl") = Some (marshalCRL <$> tb_crl t);
  rh_dlq_ok : map_Forall (fun k e => k = sd_ID e /\ dlq_ok e) (tb_dlq t);
  rh_audit_ok : Forall audit_ok (tb_audit t);
  rh_crl_ok : map_Forall (fun k e => k = sc_NodeID e /\ crl_ok e) (tb_crl t) }.

Definition redis_represents s t : Prop := redis_holds (rs_prefix s) (redis_data (rs_client s)) t.

Definition redis_failure (e : StoreError redis_error) : Prop := exists x, e = LibError x.

(** The names of a store are different from each other. *)
Lemma key_neq prefix a b : a <> b -> append prefix a <> append prefix b.
Proof. intros Hne E. by apply append_inj_l in E. Qed.

Lemma hash_at_other d d' key k : others_kept key d d' -> k <> key -> hash_at d' k = hash_at d k.
Proof. intros Ho Hk. unfold hash_at. by rewrite Ho. Qed.

Lemma list_at_other d d' key k : others_kept key d d' -> k <> key -> list_at d' k = list_at d k.
Proof. intros Ho Hk. unfold list_at. by rewrite Ho. Qed.

Ltac other_names Ho :=
  constructor; cbn [tb_dedup tb_dlq tb_audit tb_crl set_dedup set_dlq set_audit set_crl];
  try (intros key; rewrite Ho by (by apply key_neq)); rewrite ?(hash_at_other _ _ _ _ Ho) by (by apply key_neq);
  rewrite ?(list_at_other _ _ _ _ Ho) by (by apply key_neq); try done.

Lemma holds_dlq_name prefix d d' t m :
  redis_holds prefix d t -> others_kept (append prefix "dlq") d d' ->
  hash_at d' (append prefix "dlq") = Some (marshalDLQ <$> m) -> map_Forall (fun k e => k = sd_ID e /\ dlq_ok e) m ->
  redis_holds prefix d' (set_dlq m t).
Proof. intros [] Ho Hm Hok. other_names Ho. Qed.

Lemma holds_crl_name prefix d d' t m :
  redis_holds prefix d t -> others_kept (append prefix "crl") d d' ->
  hash_at d' (append prefix "crl") = Some (marshalCRL <$> m) -> map_Forall (fun k e => k = sc_NodeID e /\ crl_ok e) m ->
  redis_holds prefix d' (set_crl m t).
Proof. intros [] Ho Hm Hok. other_names Ho. Qed.

Lemma holds_audit_name prefix d d' t l :
  redis_holds prefix d t -> others_kept (append prefix "audit") d d' ->
  list_at d' (append prefix "audit") = Some (marshalAudit <$> l) -> Forall audit_ok l ->
  redis_holds prefix d' (set_audit l t).
Proof. intros [] Ho Hm Hok. other_names Ho. Qed.

Lemma redisKey1 s p : redisKey s [p] = append (rs_prefix s) p.
Proof. done. Qed.

Lemma redis_Deduped_law s t now key ttl :
  redis_represents s t -> True -> 0 < ttl -> (Millisecond | now) -> (Millisecond | ttl) -> in_i64 now -> in_i64 (now + ttl) ->
  match redis_Deduped now key ttl s with
  | (Ok seen, s') => seen = seenIn now key t /\ redis_represents s' (register now key ttl t)
  | (Err e, s') => redis_failure e /\ redis_works (rs_client s) = false /\ (redis_represents s' t \/ redis_represents s' (register now key ttl t))
  end.
Proof.
  intros Hr _ Ht Hn Htt _ _. unfold redis_Deduped, redisKey. cbn [foldl]. rewrite <- append_assoc_str.
  set (name := append (rs_prefix s) (append "dedup:" key)).
  assert (live now (redis_data (rs_client s) !! name) = seenIn now key t) as Hlive.
  { unfold name. rewrite (rh_dedup _ _ _ Hr). unfold seenIn. by destruct (tb_dedup t !! key). }
  assert (forall c', redis_data c' = (if live now (redis_data (rs_client s) !! name) then redis_data (rs_client s)
      else <[name := RString (Some (now + ttl))]> (redis_data (rs_client s))) ->
    redis_represents (with_client s c') (register now key ttl t)) as Hreg.
  { intros c' Hc'. rewrite Hlive in Hc'. unfold redis_represents, register. cbn [with_client rs_prefix rs_client].
    destruct (seenIn now key t); rewrite Hc'; [done|].
    assert (others_kept name (redis_data (rs_client s)) (<[name := RString (Some (now + ttl))]> (redis_data (rs_client s)))) as Ho
      by (intros k Hk; by rewrite lookup_insert_ne).
    destruct Hr. constructor; cbn [tb_dedup tb_dlq tb_audit tb_crl set_dedup]; try done.
    - intros key'. destruct (decide (key' = key)) as [->|Hne].
      + unfold name. by rewrite !lookup_insert_eq.
      + rewrite !lookup_insert_ne; [done|congruence|]. unfold name. intros E%append_inj_l%append_inj_l. congruence.
    - rewrite (hash_at_other _ _ _ _ Ho) by by apply key_neq. done.
    - rewrite (list_at_other _ _ _ _ Ho) by by apply key_neq. done.
    - rewrite (hash_at_other _ _ _ _ Ho) by by apply key_neq. done. }
  pose proof (redis_SetNX_law now name ttl (rs_client s) Ht Hn Htt) as Hs. cbv zeta in Hs.
  destruct (redis_SetNX now name ttl (rs_client s)) as [[b|e] c']; cbn [fst snd] in *.
  - destruct Hs as [-> Hs]. rewrite negb_involutive. split; [done|by apply Hreg].
  - destruct Hs as [Hw Hs]. split; [by eexists|]. split; [exact Hw|]. destruct Hs as [Hs|Hs]; [left|right; by apply Hreg].
    unfold redis_represents. cbn [with_client rs_prefix rs_client]. by rewrite Hs.
Qed.

(** A command of the backend, from its law. *)
Lemma command_wrote s t t' (r : option redis_error * redis_Client) (before after : Prop) :
  carried (redis_works (rs_client s)) r.1 before after ->
  (before -> redis_represents (with_client s r.2) t) -> (after -> redis_represents (with_client s r.2) t') ->
  wrote redis_represents (redis_works (rs_client s)) (commandErr s r) t t'.
Proof. intros Hc Hb Ha. unfold wrote, commandErr. destruct r as [[e|] c]; cbn in *; tauto. Qed.

Lemma redis_DLQPush_law s t e : redis_represents s t -> dlq_ok e -> True ->
  wrote redis_represents (redis_works (rs_client s)) (redis_DLQPush e s) t (set_dlq (<[sd_ID e := e]> (tb_dlq t)) t).
Proof.
  intros Hr He _. destruct (redis_HSet_law _ (sd_ID e) (marshalDLQ e) _ _ (rh_dlq _ _ _ Hr)) as [Ho Hc].
  eapply command_wrote; [exact Hc|..]; intros Hh.
  - assert (t = set_dlq (tb_dlq t) t) as -> by by destruct t. eapply holds_dlq_name; [done..|]. apply Hr.
  - eapply holds_dlq_name; [done|done|by rewrite fmap_insert|]. apply map_Forall_insert_2; [done|apply Hr].
Qed.

Lemma redis_DLQDelete_law s t id : redis_represents s t ->
  wrote redis_represents (redis_works (rs_client s)) (redis_DLQDelete id s) t (set_dlq (delete id (tb_dlq t)) t).
Proof.
  intros Hr. destruct (redis_HDel_law _ id _ _ (rh_dlq _ _ _ Hr)) as [Ho Hc].
  eapply command_wrote; [exact Hc|..]; intros Hh.
  - assert (t = set_dlq (tb_dlq t) t) as -> by by destruct t. eapply holds_dlq_name; [done..|]. apply Hr.
  - eapply holds_dlq_name; [done|done|by rewrite fmap_delete|]. apply map_Forall_delete, Hr.
Qed.

Lemma redis_CRLPut_law s t e : redis_represents s t -> crl_ok e -> True ->
  wrote redis_represents (redis_works (rs_client s)) (redis_CRLPut e s) t (set_crl (<[sc_NodeID e := e]> (tb_crl t)) t).
Proof.
  intros Hr He _. destruct (redis_HSet_law _ (sc_NodeID e) (marshalCRL e) _ _ (rh_crl _ _ _ Hr)) as [Ho Hc].
  eapply command_wrote; [exact Hc|..]; intros Hh.
  - assert (t = set_crl (tb_crl t) t) as -> by by destruct t. eapply holds_crl_name; [done..|]. apply Hr.
  - eapply holds_crl_name; [done|done|by rewrite fmap_insert|]. apply map_Forall_insert_2; [done|apply Hr].
Qed.

Lemma redis_AuditAppend_tables s t e : redis_represents s t -> audit_ok e ->
  wrote redis_represents (redis_works (rs_client s)) (redis_AuditAppend e s) t (set_audit (tb_audit t ++ [e]) t).
Proof.
  intros Hr He. destruct (redis_RPush_law _ (marshalAudit e) _ _ (rh_audit _ _ _ Hr)) as [Ho Hc].
  eapply command_wrote; [exact Hc|..]; intros Hh.
  - assert (t = set_audit (tb_audit t) t) as -> by by destruct t. eapply holds_audit_name; [done..|]. apply Hr.
  - eapply holds_audit_name; [done|done|by rewrite fmap_app|].
    apply Forall_app. split; [apply Hr|by apply Forall_singleton].
Qed.

Lemma redis_DLQList_law s t : redis_represents s t ->
  match redis_DLQList s with Ok l => l ≡ₚ storedDLQ <$> (map_to_list (tb_dlq t)).*2 | Err e => redis_failure e /\ redis_works (rs_client s) = false end.
Proof.
  intros Hr. unfold redis_DLQList. rewrite redisKey1.
  pose proof (redis_HGetAll_law _ _ _ (rh_dlq _ _ _ Hr)) as Hl.
  destruct (redis_HGetAll _ _) as [l|e]; [|by split; [eexists|]].
  destruct (decodeRows_table (E := redis_error) sd_ID marshalDLQ _ storedDLQ _ _ _ unmarshal_marshalDLQ (rh_dlq_ok _ _ _ Hr) Hl)
    as (es & -> & Hp). done.
Qed.

Lemma redis_CRLList_law s t : redis_represents s t ->
  match redis_CRLList s with Ok l => l ≡ₚ (map_to_list (tb_crl t)).*2 | Err e => redis_failure e /\ redis_works (rs_client s) = false end.
Proof.
  intros Hr. unfold redis_CRLList. rewrite redisKey1.
  pose proof (redis_HGetAll_law _ _ _ (rh_crl _ _ _ Hr)) as Hl.
  destruct (redis_HGetAll _ _) as [l|e]; [|by split; [eexists|]].
  destruct (decodeRows_table (E := redis_error) sc_NodeID marshalCRL _ id _ _ _ unmarshal_marshalCRL (rh_crl_ok _ _ _ Hr) Hl)
    as (es & -> & Hp). by rewrite list_fmap_id in Hp.
Qed.

Lemma redis_CRLGet_law s t id : redis_represents s t ->
  match redis_CRLGet id s with Ok r => r = tb_crl t !! id | Err e => redis_failure e /\ redis_works (rs_client s) = false end.
Proof.
  intros Hr. unfold redis_CRLGet. rewrite redisKey1.
  pose proof (redis_HGet_law _ id _ _ (rh_crl _ _ _ Hr)) as Hv.
  destruct (redis_HGet _ _ _) as [v|e]; [|by split; [eexists|]]. rewrite lookup_fmap in Hv. subst v.
  destruct (tb_crl t !! id) as [e|] eqn:E; [|done]. cbn [fmap option_fmap option_map].
  rewrite unmarshal_marshalCRL; [done|]. by eapply (rh_crl_ok _ _ _ Hr).
Qed.

Lemma redis_AuditLatest_law s t n : redis_represents s t -> 0 < n < 2 ^ 63 ->
  match redis_AuditLatest n s with Ok l => l = take (Z.to_nat n) (reverse (tb_audit t)) | Err e => redis_failure e /\ redis_works (rs_client s) = false end.
Proof.
  intros Hr Hn. unfold redis_AuditLatest. rewrite redisKey1, wrap_i64_id by (unfold in_i64; lia).
  pose proof (redis_LRange_law _ (- n) (-1) _ _ (rh_audit _ _ _ Hr)) as Hv.
  destruct (redis_LRange _ _ _ _) as [vals|e]; [|by split; [eexists|]]. subst vals.
  rewrite lrange_last by lia. rewrite <- fmap_reverse, <- fmap_take, <- list_fmap_compose.
  change (pair ""%string ∘ marshalAudit) with (fun e => ((fun _ : AuditEntry => ""%string) e, marshalAudit e)).
  rewrite (decodeRows_rows _ _ _ id), list_fmap_id; [done|].
  apply Forall_take, Forall_reverse. eapply Forall_impl; [apply Hr|]. intros e. apply unmarshal_marshalAudit.
Qed.

#[export] Instance redis_contract : StoreContract RedisStore := {|
  represents := redis_represents; works := fun s => redis_works (rs_client s); clock_unit := Millisecond; fits := fun _ _ => True; lib_failure := redis_failure;
  Deduped_law := redis_Deduped_law; DLQPush_law := redis_DLQPush_law; DLQList_law := redis_DLQList_law;
  DLQDelete_law := redis_DLQDelete_law; AuditAppend_law := fun s t e Hr He _ _ => redis_AuditAppend_tables s t e Hr He;
  AuditLatest_law := redis_AuditLatest_law; CRLPut_law := redis_CRLPut_law;
  CRLGet_law := redis_CRLGet_law; CRLList_law := redis_CRLList_law |}.

Lemma NewRedis_empty client prefix s :
  NewRedis (Ok client) prefix = Ok s -> (forall k, redis_data client !! append (rs_prefix s) k = None) ->
  redis_represents s no_tables.
Proof.
  intros [= <-] Hd. cbn [rs_prefix rs_client] in *. unfold redis_represents.
  constructor; unfold hash_at, list_at; cbn [rs_prefix rs_client tb_dedup tb_dlq tb_audit tb_crl no_tables];
    rewrite ?Hd, ?fmap_empty; done.
Qed.

End Contract.

(** ** A server in memory, for concrete evaluations *)

#[local] Notation toy_values := (gmap string RedisValue).

Definition toy_hset (key f v : string) (d : toy_values) : option unit * toy_values :=
  match hash_at d key with Some m => (None, <[key := RHash (<[f := v]> m)]> d) | None => (Some tt, d) end.
Definition toy_hdel (key f : string) (d : toy_values) : option unit * toy_values :=
  match hash_at d key with Some m => (None, <[key := RHash (delete f m)]> d) | None => (Some tt, d) end.
Definition toy_rpush (key v : string) (d : toy_values) : option unit * toy_values :=
  match list_at d key with Some l => (None, <[key := RList (l ++ [v])]> d) | None => (Some tt, d) end.
Definition toy_setnx (now : Z) (key : string) (ttl : Z) (d : toy_values) : outcome unit bool * toy_values :=
  if live now (d !! key) then (Ok false, d) else (Ok true, <[key := RString (Some (now + ttl))]> d).

Definition wrong_type {A} (r : option A) : outcome unit A := match r with Some x => Ok x | None => Err tt end.

#[export] Instance toy_redis : Redis := {|
  redis_Client := toy_values; redis_error := unit; redis_SetNX := toy_setnx; redis_HSet := toy_hset;
  redis_HDel := toy_hdel; redis_HGet := fun key f d => wrong_type ((fun m => m !! f) <$> hash_at d key);
  redis_HGetAll := fun key d => wrong_type (map_to_list <$> hash_at d key);
  redis_RPush := toy_rpush;
  redis_LRange := fun key start stop d => wrong_type ((fun l => lrange l start stop) <$> list_at d key) |}.

Lemma insert_others_kept key v (d : toy_values) : others_kept key d (<[key := v]> d).
Proof. intros k Hk. by rewrite lookup_insert_ne. Qed.

Lemma hash_at_insert key m (d : toy_values) : hash_at (<[key := RHash m]> d) key = Some m.
Proof. unfold hash_at. by rewrite lookup_insert_eq. Qed.

Lemma list_at_insert key l (d : toy_values) : list_at (<[key := RList l]> d) key = Some l.
Proof. unfold list_at. by rewrite lookup_insert_eq. Qed.

#[export] Instance toy_redis_laws : @RedisLaws toy_redis.
Proof.
  refine (@Build_RedisLaws toy_redis ((fun d => d) : @redis_Client toy_redis -> toy_values) (fun _ => true) _ _ _ _ _ _ _).
  - intros now key ttl c _ _ _. cbn [redis_SetNX toy_redis]. unfold toy_setnx. by destruct (live now _).
  - intros key f v c m Hm. cbn [redis_HSet toy_redis]. unfold toy_hset. rewrite Hm. cbn [fst snd carried].
    split; [apply insert_others_kept|apply hash_at_insert].
  - intros key f c m Hm. cbn [redis_HDel toy_redis]. unfold toy_hdel. rewrite Hm. cbn [fst snd carried].
    split; [apply insert_others_kept|apply hash_at_insert].
  - intros key f c m Hm. cbn [redis_HGet toy_redis]. by rewrite Hm.
  - intros key c m Hm. cbn [redis_HGetAll toy_redis]. rewrite Hm. cbn. reflexivity.
  - intros key v c l Hl. cbn [redis_RPush toy_redis]. unfold toy_rpush. rewrite Hl. cbn [fst snd carried].
    split; [apply insert_others_kept|apply list_at_insert].
  - intros key start stop c l Hl. cbn [redis_LRange toy_redis]. by rewrite Hl.
Defined.

Definition no_values : gmap string RedisValue := ∅.

Definition demo_redis : @RedisStore toy_redis := {| rs_client := no_values; rs_prefix := "mrmi:" |}.

(** The sequence of [Bolt.demo_ops] with times in whole milliseconds. *)
Definition demo_redis_ops : list StoreOp :=
  DoDeduped 0 "k1" Hour :: DoDeduped (Hour - Millisecond) "k1" Hour :: drop 2 demo_ops.

Example backends_agree : (performs demo_redis_ops demo_redis).1 = (performs demo_ops demo_bolt).1.
Proof. vm_compute. reflexivity. Qed.

Definition is_dedup (op : StoreOp) : bool := match op with DoDeduped _ _ _ => true | _ => false end.

(** Other than the clock, Redis asks for less than bbolt. *)
Lemma bolt_op_redis op :
  op_ok (B := @bolt_DB toy_bolt) op -> is_dedup op = false -> op_ok (B := @RedisStore toy_redis) op.
Proof. destruct op; cbn [is_dedup op_ok fits redis_contract bolt_contract]; try done; tauto. Qed.

Lemma demo_redis_ops_ok : Forall (op_ok (B := @RedisStore toy_redis)) demo_redis_ops.
Proof.
  assert (forall n, 0 <= n <= 3600000 -> op_ok (B := @RedisStore toy_redis) (DoDeduped (n * Millisecond) "k1" Hour)) as Hd.
  { intros n Hn. cbn [op_ok fits redis_contract clock_unit]. unfold in_i64.
    change Hour with (3600000 * Millisecond). change Millisecond with 1000000.
    split_and!; first [lia | exact I | by exists n | by exists 3600000]. }
  change demo_redis_ops with (DoDeduped (0 * Millisecond) "k1" Hour :: DoDeduped (3599999 * Millisecond) "k1" Hour
    :: DoDeduped (3600000 * Millisecond) "k1" Hour :: drop 3 demo_ops).
  do 3 (apply Forall_cons_2; [apply Hd; lia|]).
  assert (Forall (fun op => is_dedup op = false) (drop 3 demo_ops)) as Hn by (repeat constructor).
  eapply Forall_impl; [exact (proj2 (Forall_and _ _) (conj (Forall_drop _ 3 _ demo_ops_ok) Hn))|].
  intros op [Hop Hnd]. by apply bolt_op_redis.
Qed.

