(* ===== verification/AuditStore.v ===== *)
(** * The audit log on a persistent store

    What [Recent] returns when the log has a backend: against the contract of
    [StoreSpec], and on the bbolt backend after a restart of the node. *)

From stdpp Require Import sorting.
From S2P Require Import Prelude GoStrings GoCrypto Utf8 Json JsonFields Config Schema Store AuditLog Rows StoreSpec Bolt Redis.

(** An entry without what a row leaves out: the trust tier, the hours of the
    deduplication window, the scope, alliance and region of the node, and the hashes. *)
Definition stripped (e : Entry) : Entry := {|
  ae_Seq := ae_Seq e; ae_Timestamp := ae_Timestamp e; ae_Decision := ae_Decision e; ae_Reason := ae_Reason e;
  ae_TrustTier := 0; ae_SenderRegion := ae_SenderRegion e; ae_RecipientRegion := ae_RecipientRegion e;
  ae_PolicyVersion := ae_PolicyVersion e; ae_Profile := ae_Profile e; ae_ApplicableLaw := ae_ApplicableLaw e;
  ae_DedupTTLHours := 0; ae_NodeScope := ""; ae_AllianceID := ""; ae_NodeRegion := "";
  ae_SchemaType := ae_SchemaType e; ae_SchemaVersion := ae_SchemaVersion e; ae_RetainLong := ae_RetainLong e;
  ae_SettlementFinal := ae_SettlementFinal e; ae_PreviousHash := ""; ae_EntryHash := "" |}.

Lemma stripped_rows (es : list Entry) : (fromStoreEntry ∘ toStoreEntry) <$> es = stripped <$> es.
Proof. reflexivity. Qed.

Section Contract.
Context {B : Type} `{StoreContract B}.
Implicit Types (l : Log B) (kept : list Entry).

(** The append that [Append] and [AppendFinality] make, on a log with a backend. *)
Inductive log_appends l : Entry -> B -> Log B -> Prop :=
| appends_entry now cfg d r tier sr rr st sv retain final e l' b :
    log_backend l = Some b -> appendEntry now cfg d r tier sr rr st sv retain final l = (e, l') ->
    Z.of_nat (length (log_entries l')) < 2 ^ 64 ->
    audit_ok (toStoreEntry e) -> fits 8 (String.length (marshalAudit (toStoreEntry e))) ->
    log_appends l e b l'.

(** A log whose store was empty at its start; the flag tells whether every append was
    carried out.  The log ignores the error of an append. *)
Inductive logged : bool -> Log B -> Prop :=
| logged_start b t : represents b t -> tb_audit t = [] -> logged true (SetStore b NewLog)
| logged_append ok l e b l' :
    logged ok l -> log_appends l e b l' ->
    logged (ok && match (AuditAppend (toStoreEntry e) b).1 with None => true | Some _ => false end) l'.

(** What the store has of the log's entries. *)
Record stored (ok : bool) l kept : Prop := {
  st_rows : exists b t, log_backend l = Some b /\ represents b t /\ tb_audit t = toStoreEntry <$> kept;
  st_sub : kept `sublist_of` log_entries l;
  st_all : ok = true -> kept = log_entries l;
  st_seq : Forall (fun e => ae_Seq e <= Z.of_nat (length (log_entries l))) (log_entries l) }.

Lemma stored_append ok l kept e b l' :
  stored ok l kept -> log_appends l e b l' ->
  exists kept', stored (ok && match (AuditAppend (toStoreEntry e) b).1 with None => true | Some _ => false end) l' kept'.
Proof.
  intros [(b0 & t & Hb0 & Hr & Ht) Hsub Hall Hseq] Happend.
  destruct Happend as [now cfg d r tier sr rr st sv retain final x l1 b1 Hb Happ Hlen Hok Hfit].
  simplify_eq. injection Happ as Hx Hl. subst l1. rewrite Hx in *. cbn [log_entries] in *.
  assert (ae_Seq x = Z.of_nat (length (log_entries l)) + 1) as Hs.
  { rewrite <- Hx. cbn. rewrite length_app in Hlen. cbn in Hlen. apply wrap_u64_id. unfold in_u64. lia. }
  assert (Forall (fun e => ae_Seq e <= Z.of_nat (length (log_entries l ++ [x]))) (log_entries l ++ [x])) as Hseq'.
  { rewrite length_app. cbn [length]. apply Forall_app. split; [|apply Forall_singleton; lia].
    eapply Forall_impl; [exact Hseq|]. cbn. lia. }
  assert (Forall (fun r => sa_Seq r < sa_Seq (toStoreEntry x)) (tb_audit t)) as Hlt.
  { rewrite Ht, Forall_fmap. apply Forall_forall. intros y Hy. eapply elem_of_sublist in Hy; [|exact Hsub].
    eapply Forall_forall in Hy; [|exact Hseq]. cbn [compose toStoreEntry sa_Seq]. cbn in Hy |- *. lia. }
  pose proof (AuditAppend_law _ _ _ Hr Hok Hfit Hlt) as Hw. unfold wrote in Hw.
  assert (forall kept', kept' = kept \/ kept' = kept ++ [x] -> kept' `sublist_of` log_entries l ++ [x]) as Hsubs.
  { intros kept' [->| ->]; [by apply sublist_inserts_r|]. by apply sublist_app. }
  assert (tb_audit (set_audit (tb_audit t ++ [toStoreEntry x]) t) = toStoreEntry <$> kept ++ [x]) as Hnew.
  { rewrite fmap_app. cbn. by rewrite Ht. }
  destruct (AuditAppend (toStoreEntry x) b0) as [[err|] b2] eqn:E; cbn [fst snd] in *.
  - rewrite andb_false_r. destruct Hw as [_ [Hw|Hw]]; [exists kept|exists (kept ++ [x])]; constructor;
      cbn [log_backend log_entries]; try done; rewrite ?Hb0; auto; cbn [fmap option_fmap option_map]; rewrite E; eauto 6.
  - exists (kept ++ [x]). constructor; cbn [log_backend log_entries]; auto.
    + rewrite Hb0. cbn [fmap option_fmap option_map]. rewrite E. eauto 6.
    + rewrite andb_true_r. intros ->. by rewrite Hall.
Qed.

Lemma logged_stored ok l : logged ok l -> exists kept, stored ok l kept.
Proof.
  induction 1 as [b t Hr Ht|ok l e b l' _ [kept IH] Happ]; [|by eapply stored_append].
  exists []. constructor; try done. exists b, t. by rewrite Ht.
Qed.

End Contract.

(** ** A restart on the bbolt backend *)

Lemma sorted_filter {A} (R : A -> A -> Prop) (P : A -> Prop) `{forall x, Decision (P x)} l :
  StronglySorted R l -> StronglySorted R (base.filter P l).
Proof.
  induction 1 as [|x l Hs IH Hx]; [constructor|]. rewrite filter_cons. case_decide; [|done].
  apply StronglySorted_cons. split; [|done]. rewrite Forall_forall in Hx |- *. intros y [_ Hy]%list_elem_of_filter. auto.
Qed.

Section Restart.
Context `{UnicodeTables} `{BoltLaws}.

(** The first append of a new log writes over the row of the entry 1 that an earlier
    run left. *)
Lemma holds_overwrite d t m x :
  holds d t -> audit_ok x -> sa_Seq x = 1 -> Forall (fun r => 1 <= sa_Seq r) (tb_audit t) -> d !! bucketAudit = Some m ->
  holds (<[bucketAudit := <[seqKey 1 := marshalAudit x]> m]> d)
    (set_audit (x :: base.filter (fun r => sa_Seq r <> 1) (tb_audit t)) t).
Proof.
  intros [? ? (m' & Hm' & Hrows) ? [Hdd Hdq Hau Hso Hcr]] Hx Hx1 Hge Hm. simplify_eq.
  constructor; cbn; rewrite ?lookup_insert_eq, ?lookup_insert_ne by done; try done.
  - eexists. split; [done|]. intros k v. rewrite lookup_insert_Some, (Hrows k v). setoid_rewrite elem_of_cons.
    setoid_rewrite list_elem_of_filter. split.
    + intros [[<- <-]|(Hne & r & Hr & -> & ->)]; [exists x; split_and!; [by left|by rewrite Hx1|done]|]. exists r. split; [|done]. right.
      split; [|done]. intros E. by rewrite E in Hne.
    + intros (r & [->|[Hne Hr]] & -> & ->); [left; split; [by rewrite Hx1|done]|]. right. split; [|by eexists].
      intros E. apply seqKey_inj in E; [congruence|by unfold in_u64; lia|]. rewrite Forall_forall in Hau. by destruct (Hau r Hr).
  - constructor; cbn; [done..| | |done].
    + constructor; [done|]. rewrite Forall_forall in Hau |- *. intros r [_ Hr]%list_elem_of_filter. by apply Hau.
    + apply StronglySorted_cons. split; [|by apply sorted_filter].
      rewrite Forall_forall in Hge |- *. intros r [Hne Hr]%list_elem_of_filter. specialize (Hge r Hr). cbn in *. lia.
Qed.

Lemma AuditAppend_overwrites db t x :
  bolt_represents db t -> audit_ok x -> storable 8 (String.length (marshalAudit x)) -> sa_Seq x = 1 ->
  Forall (fun r => 1 <= sa_Seq r) (tb_audit t) ->
  wrote bolt_represents (bolt_works db) (bolt_AuditAppend x db) t (set_audit (x :: base.filter (fun r => sa_Seq r <> 1) (tb_audit t)) t).
Proof.
  intros Hr Hx Hs Hx1 Hge. eapply update_wrote; [done|]. intros tx Htx. destruct (ho_audit _ _ Htx) as (m & Hm & _).
  rewrite Hx1. eapply put_step; [done|by rewrite length_seqKey|]. by apply holds_overwrite.
Qed.

Lemma latest_of_last (l : list AuditEntry) old : last l = Some old -> take 1 (reverse l) = [old].
Proof. intros Hl. rewrite <- head_reverse in Hl. by destruct (reverse l); simplify_eq/=. Qed.

Lemma last_overwritten (l : list AuditEntry) x old :
  last l = Some old -> 1 < sa_Seq old -> last (x :: base.filter (fun r => sa_Seq r <> 1) l) = Some old.
Proof.
  intros Hl Hold. apply last_Some in Hl as [l' ->]. rewrite filter_app, filter_cons_True by lia.
  rewrite filter_nil, app_comm_cons. apply last_snoc.
Qed.

(** After a restart on bbolt the log hides its newest entries and loses its
    oldest.  The log starts to number at 1 again while the rows of the earlier run are
    still there, so the first entry of the new run replaces the row of the first entry
    of the old run, and [Recent] keeps answering with the newest entry of the old run,
    whose number is higher, instead of the entry just appended. *)
Theorem restart_hides_newest db t old now cfg d r tier sr rr st sv retain final x l' :
  bolt_represents db t -> Forall (fun r => 1 <= sa_Seq r) (tb_audit t) -> last (tb_audit t) = Some old -> 1 < sa_Seq old ->
  appendEntry now cfg d r tier sr rr st sv retain final (SetStore db NewLog) = (x, l') ->
  audit_ok (toStoreEntry x) -> storable 8 (String.length (marshalAudit (toStoreEntry x))) ->
  exists db', log_backend l' = Some db'
    /\ ((bolt_AuditAppend (toStoreEntry x) db).1 = None ->
        bolt_represents db' (set_audit (toStoreEntry x :: base.filter (fun r => sa_Seq r <> 1) (tb_audit t)) t))
    /\ match bolt_AuditLatest 1 db' with
       | Ok _ => Recent 1 l' = [fromStoreEntry old]
       | Err _ => Recent 1 l' = [x]
       end.
Proof.
  intros Hr Hge Hlast Hold Happ Hok Hs.
  pose proof (f_equal fst Happ) as Hx. pose proof (f_equal snd Happ) as Hl.
  cbn [fst snd appendEntry] in Hx, Hl. rewrite Hx in Hl. subst l'.
  assert (sa_Seq (toStoreEntry x) = 1) as Hx1 by by rewrite <- Hx.
  pose proof (AuditAppend_overwrites db t (toStoreEntry x) Hr Hok Hs Hx1 Hge) as Hw. unfold wrote in Hw.
  exists (bolt_AuditAppend (toStoreEntry x) db).2. split; [reflexivity|]. unfold Recent.
  match goal with |- context [log_backend ?l] =>
    change (log_backend l) with (Some (bolt_AuditAppend (toStoreEntry x) db).2) end.
  destruct (bolt_AuditAppend (toStoreEntry x) db) as [err db'] eqn:E. cbn [fst snd] in *. split; [by intros ->|].
  assert (exists t', bolt_represents db' t' /\ last (tb_audit t') = Some old) as (t' & Hr' & Hlast').
  { destruct err; [destruct Hw as [_ [Hw|Hw]]|]; eexists; (split; [exact Hw|]); try exact Hlast;
      cbn [tb_audit set_audit]; by apply last_overwritten. }
  pose proof (bolt_AuditLatest_tables db' t' 1 Hr') as Hlatest. change (AuditLatest 1 db') with (bolt_AuditLatest 1 db').
  destruct (bolt_AuditLatest 1 db') as [rows|e]; [|done].
  change (Z.to_nat 1) with 1%nat in Hlatest. rewrite (latest_of_last _ _ Hlast') in Hlatest. by rewrite Hlatest.
Qed.
End Restart.

(** On Redis, which keeps the entries in a list, a restart loses nothing: the new entry
    goes behind the old ones and is the latest. *)
Theorem redis_restart_appends `{UnicodeTables} `{RedisLaws} s t now cfg d r tier sr rr st sv retain final x l' :
  redis_represents s t ->
  appendEntry now cfg d r tier sr rr st sv retain final (SetStore s NewLog) = (x, l') ->
  audit_ok (toStoreEntry x) -> (redis_AuditAppend (toStoreEntry x) s).1 = None ->
  exists s', log_backend l' = Some s'
    /\ redis_represents s' (set_audit (tb_audit t ++ [toStoreEntry x]) t)
    /\ match redis_AuditLatest 1 s' with Ok _ => Recent 1 l' = [stripped x] | Err _ => Recent 1 l' = [x] end.
Proof.
  intros Hr Happ Hok Hnone. pose proof (f_equal fst Happ) as Hx. pose proof (f_equal snd Happ) as Hl.
  cbn [fst snd appendEntry] in Hx, Hl. rewrite Hx in Hl. subst l'.
  pose proof (redis_AuditAppend_tables s t (toStoreEntry x) Hr Hok) as Hw. unfold wrote in Hw. rewrite Hnone in Hw.
  exists (redis_AuditAppend (toStoreEntry x) s).2. split_and!; [reflexivity|done|]. unfold Recent.
  match goal with |- context [log_backend ?l] =>
    change (log_backend l) with (Some (redis_AuditAppend (toStoreEntry x) s).2) end.
  pose proof (redis_AuditLatest_law _ _ 1 Hw ltac:(lia)) as Hlatest. change (Z.to_nat 1) with 1%nat in Hlatest.
  cbn [tb_audit set_audit] in Hlatest. rewrite reverse_snoc in Hlatest. cbn [take] in Hlatest. rewrite take_0 in Hlatest.
  cbv iota. set (s' := (redis_AuditAppend (toStoreEntry x) s).2) in *. change (AuditLatest 1 s') with (redis_AuditLatest 1 s').
  destruct (redis_AuditLatest 1 s') as [rows|e]; [by rewrite Hlatest|done].
Qed.

(** ** Witnesses *)

(** A database that an earlier run left with three entries. *)
Definition demo_left : @bolt_DB toy_bolt :=
  (performs (DoAuditAppend <$> [demo_row 1; demo_row 2; demo_row 3]) demo_bolt).2.

Definition demo_first (b : @bolt_DB toy_bolt) : Entry * Log (@bolt_DB toy_bolt) :=
  Append Hour DefaultBalancedConfig DecisionDeny "NODE_REVOKED" 0 "RS" "US" Messaging "" (SetStore b NewLog).

Definition demo_old_tables : Tables := set_audit [demo_row 1; demo_row 2; demo_row 3] no_tables.

Lemma demo_bolt_empty : represents demo_bolt no_tables.
Proof. apply (OpenBolt_empty (∅ : @bolt_DB toy_bolt)); vm_compute; reflexivity. Qed.

Lemma demo_left_tables : represents demo_left demo_old_tables.
Proof.
  destruct (performs_run (DoAuditAppend <$> [demo_row 1; demo_row 2; demo_row 3]) demo_bolt no_tables demo_bolt_empty)
    as (t & Hrun & Hr).
  - repeat apply Forall_cons_2; try apply Forall_nil_2;
      (split; [by apply demo_row_ok|by apply (bool_decide_eq_true_1 _); vm_compute]).
  - vm_compute. repeat constructor.
  - enough (t = demo_old_tables) as <- by exact Hr.
    replace (performs _ _).1 with [Done; Done; Done] in Hrun by (vm_compute; reflexivity).
    replace (worked _ _) with [true; true; true] in Hrun by (vm_compute; reflexivity).
    cbn [fmap list_fmap] in Hrun.
    repeat match goal with
    | Hx : table_run _ (_ :: _) _ _ _ |- _ => inversion Hx; clear Hx; subst
    | Hx : table_run _ [] _ _ _ |- _ => inversion Hx; clear Hx; subst
    | Hx : table_step _ _ _ Done _ |- _ => inversion Hx; clear Hx; subst
    end. reflexivity.
Qed.

Lemma demo_first_ok b : audit_ok (toStoreEntry (demo_first b).1).
Proof. constructor; vm_compute; try done; split; congruence. Qed.

Lemma restart_hides_newest_witness :
  Recent 1 (demo_first demo_left).2 = [fromStoreEntry (demo_row 3)].
Proof.
  destruct (restart_hides_newest demo_left demo_old_tables (demo_row 3) _ _ _ _ _ _ _ _ _ _ _ _ _ demo_left_tables
    ltac:(repeat apply Forall_cons_2; try apply Forall_nil_2; vm_compute; congruence) eq_refl ltac:(vm_compute; reflexivity)
    (surjective_pairing (demo_first demo_left)) (demo_first_ok _)
    ltac:(apply (bool_decide_eq_true_1 _); vm_compute; reflexivity)) as (db' & _ & _ & _).
  vm_compute. reflexivity.
Defined.

