(* ===== verification/Policy.v ===== *)
(** * The policy engine (package [internal/policy])

    [Evaluate] decides an envelope and records the decision in the audit log;
    [EvaluateDiscovery] decides a discovery request.  The engine holds its
    configuration and pointers to the revocation list and the audit log, which
    other components share: the pointed-to objects are arguments of the model
    and the engine records whether the pointers are nil.  The refinement
    theorem relates the sequence of guards to the declarative [Permitted]. *)

From S2P Require Import Prelude GoStrings Config Schema Crl Store AuditLog.

Definition ReasonTrustTierBelowMinimum : string := "TRUST_TIER_BELOW_MINIMUM".
Definition ReasonAppIsolationViolation : string := "APP_ISOLATION_VIOLATION".
Definition ReasonJurisdictionIsolationTier : string := "JURISDICTION_ISOLATION_TIER_DENIED".
Definition ReasonJurisdictionIsolationRegion : string := "JURISDICTION_ISOLATION_REGION_DENIED".
Definition ReasonJurisdictionIsolationProfile : string := "JURISDICTION_ISOLATION_PROFILE_MISMATCH".
Definition ReasonHl7FhirNonRegionalNode : string := "HL7FHIR_NON_REGIONAL_NODE".
Definition ReasonHl7FhirRequiresStrictProfile : string := "HL7FHIR_REQUIRES_STRICT_PROFILE".
Definition ReasonEdifactNodeTierDenied : string := "EDIFACT_NODE_TIER_DENIED".
Definition ReasonEdifactRequiresBalancedProfile : string := "EDIFACT_REQUIRES_BALANCED_PROFILE".

Record Engine := { en_cfg : Config; en_auditing : bool; en_hasCRL : bool }.

Record DiscoveryRequest := { dr_OriginAppID : string; dr_NodeAppID : string }.

Record Request := {
  rq_SenderNodeID : string;
  rq_SenderRegion : string;
  rq_RecipientRegion : string;
  rq_TrustTier : Z;
  rq_SchemaType : string;
  rq_SchemaVersion : string }.

Record Result := { res_Decision : string; res_Reason : string; res_Profile : string }.

Definition NewEngine (cfg : Config) (auditing hasCRL : bool) : outcome ConfigError Engine :=
  match Validate cfg with
  | Some e => Err e
  | None => Ok {| en_cfg := cfg; en_auditing := auditing; en_hasCRL := hasCRL |}
  end.

(** [Reload] returns the error, if any, and the engine after the call. *)
Definition Reload (cfg : Config) (e : Engine) : option ConfigError * Engine :=
  match Validate cfg with
  | Some err => (Some err, e)
  | None => (None, {| en_cfg := cfg; en_auditing := en_auditing e; en_hasCRL := en_hasCRL e |})
  end.

Section Engine.
Context `{UnicodeTables}.

Definition deny (cfg : Config) (reason : string) : Result :=
  {| res_Decision := DecisionDeny; res_Reason := reason; res_Profile := pf_Name (cfg_Profile cfg) |}.

Definition accept (cfg : Config) (reason : string) : Result :=
  {| res_Decision := DecisionAllow; res_Reason := reason; res_Profile := pf_Name (cfg_Profile cfg) |}.

(** The helpers return [None] for [(zero, true)] and the denial otherwise. *)
Definition enforceHl7FhirPolicy (cfg : Config) : option Result :=
  if negb (str_eqb (nc_NodeScope (cfg_Node cfg)) "regional")
  then Some (deny cfg ReasonHl7FhirNonRegionalNode)
  else if negb (EqualFold (pf_Name (cfg_Profile cfg)) "strict")
  then Some (deny cfg ReasonHl7FhirRequiresStrictProfile)
  else None.

Definition enforceEdifactDefaults (cfg : Config) : option Result :=
  let scope := nc_NodeScope (cfg_Node cfg) in
  let profile := ToLower (pf_Name (cfg_Profile cfg)) in
  if negb (str_eqb scope "regional") && negb (str_eqb scope "alliance")
  then Some (deny cfg ReasonEdifactNodeTierDenied)
  else if negb (str_eqb profile "balanced") && negb (str_eqb profile "strict")
  then Some (deny cfg ReasonEdifactRequiresBalancedProfile)
  else None.

Fixpoint hasIsolationRuleIn (rules : list JurisdictionIsolationRule) (schemaType : string) : bool :=
  match rules with
  | [] => false
  | r :: rs => if str_eqb (jr_SchemaType r) schemaType then true else hasIsolationRuleIn rs schemaType
  end.

Definition hasIsolationRule (cfg : Config) (schemaType : string) : bool :=
  hasIsolationRuleIn (pc_Rules (cfg_Policy cfg)) schemaType.

(** The loop of [evaluateJurisdictionIsolation]: the first rule for the
    schema type decides. *)
Fixpoint isolationLoop (cfg : Config) (req : Request) (schemaType : string)
    (rules : list JurisdictionIsolationRule) : option Result :=
  match rules with
  | [] => None
  | rule :: rest =>
      if negb (str_eqb (jr_SchemaType rule) schemaType) then isolationLoop cfg req schemaType rest
      else if nonempty (jr_AllowTiers rule)
              && negb (Contains (jr_AllowTiers rule) (nc_NodeScope (cfg_Node cfg)))
      then Some (deny cfg ReasonJurisdictionIsolationTier)
      else if nonempty (jr_AllowJurisdictions rule)
              && (negb (Contains (jr_AllowJurisdictions rule) (rq_SenderRegion req))
                  || negb (Contains (jr_AllowJurisdictions rule) (rq_RecipientRegion req)))
      then Some (deny cfg ReasonJurisdictionIsolationRegion)
      else if negb (str_eqb (jr_RequireProfile rule) "")
              && negb (EqualFold (pf_Name (cfg_Profile cfg)) (jr_RequireProfile rule))
      then Some (deny cfg ReasonJurisdictionIsolationProfile)
      else None
  end.

Definition evaluateJurisdictionIsolation (cfg : Config) (req : Request) : option Result :=
  let rules := pc_Rules (cfg_Policy cfg) in
  if negb (nonempty rules) then None
  else isolationLoop cfg req (Normalize (rq_SchemaType req)) rules.

Definition appendAudit {B} `{NodeStore B} (now : Z) (e : Engine) (cfg : Config) (result : Result)
    (req : Request) (log : Log B) : Log B :=
  if negb (en_auditing e) then log else
  (Append now cfg (res_Decision result) (res_Reason result) (rq_TrustTier req)
     (rq_SenderRegion req) (rq_RecipientRegion req) (rq_SchemaType req) (rq_SchemaVersion req) log).2.

Definition Evaluate {B} `{NodeStore B} (now : Z) (e : Engine) (crl : CrlStore) (req : Request)
    (log : Log B) : Result * Log B :=
  let cfg := en_cfg e in
  let finish result := (result, appendAudit now e cfg result req log) in
  let outbound := pc_Outbound (cfg_Policy cfg) in
  let isLocalDestination := negb (str_eqb (nc_Region (cfg_Node cfg)) "")
                            && str_eqb (rq_RecipientRegion req) (nc_Region (cfg_Node cfg)) in
  let schemaType := Normalize (rq_SchemaType req) in
  if en_hasCRL e && IsRevoked crl (rq_SenderNodeID req) then finish (deny cfg "NODE_REVOKED") else
  if rq_TrustTier req <? ip_MinTrustTier (pc_Inbound (cfg_Policy cfg))
  then finish (deny cfg ReasonTrustTierBelowMinimum) else
  if Contains (op_DenyTo outbound) (rq_RecipientRegion req)
  then finish (deny cfg "RECIPIENT_REGION_DENIED") else
  if negb isLocalDestination && nonempty (op_AllowTo outbound)
     && negb (Contains (op_AllowTo outbound) (rq_RecipientRegion req))
  then finish (deny cfg "RECIPIENT_REGION_NOT_IN_ALLOW_LIST") else
  match (if str_eqb schemaType Hl7Fhir then enforceHl7FhirPolicy cfg else None) with
  | Some result => finish result
  | None =>
      match (if str_eqb schemaType Edifact && negb (hasIsolationRule cfg Edifact)
             then enforceEdifactDefaults cfg else None) with
      | Some result => finish result
      | None =>
          match evaluateJurisdictionIsolation cfg req with
          | Some result => finish result
          | None => finish (accept cfg "POLICY_ACCEPTED")
          end
      end
  end.

Definition EvaluateDiscovery (e : Engine) (req : DiscoveryRequest) : Result :=
  let cfg := en_cfg e in
  let trimmed := ToUpper (TrimSpace (dp_AppIsolation (pc_Discovery (cfg_Policy cfg)))) in
  let isolation := if str_eqb trimmed "" then "SAME_APP_ONLY"%string else trimmed in
  let allowed :=
    if str_eqb isolation "OPEN" then true
    else if str_eqb isolation "WHITELIST"
    then Contains (dp_AllowedAppIDs (pc_Discovery (cfg_Policy cfg))) (dr_OriginAppID req)
    else EqualFold (dr_OriginAppID req) (dr_NodeAppID req) in
  if negb allowed then deny cfg ReasonAppIsolationViolation
  else accept cfg "DISCOVERY_POLICY_ACCEPTED".
End Engine.

(** ** The specification: when an envelope may pass *)

Section Permitted.
Context `{UnicodeTables}.

(** The rule that governs a schema type: the first one written for it. *)
Definition governingRule (cfg : Config) (schemaType : string) : option JurisdictionIsolationRule :=
  snd <$> list_find (fun r => jr_SchemaType r = schemaType) (pc_Rules (cfg_Policy cfg)).

Definition ruleAllows (cfg : Config) (req : Request) (r : JurisdictionIsolationRule) : Prop :=
  (jr_AllowTiers r = [] \/ nc_NodeScope (cfg_Node cfg) ∈ jr_AllowTiers r)
  /\ (jr_AllowJurisdictions r = []
      \/ (rq_SenderRegion req ∈ jr_AllowJurisdictions r /\ rq_RecipientRegion req ∈ jr_AllowJurisdictions r))
  /\ (jr_RequireProfile r = ""%string
      \/ EqualFold (pf_Name (cfg_Profile cfg)) (jr_RequireProfile r) = true).

Record Permitted (cfg : Config) (revoked : bool) (req : Request) : Prop := {
  may_sender : revoked = false;
  may_tier : ip_MinTrustTier (pc_Inbound (cfg_Policy cfg)) <= rq_TrustTier req;
  may_recipient : rq_RecipientRegion req ∉ op_DenyTo (pc_Outbound (cfg_Policy cfg));
  may_route :
    (nc_Region (cfg_Node cfg) <> ""%string /\ rq_RecipientRegion req = nc_Region (cfg_Node cfg))
    \/ op_AllowTo (pc_Outbound (cfg_Policy cfg)) = []
    \/ rq_RecipientRegion req ∈ op_AllowTo (pc_Outbound (cfg_Policy cfg));
  may_health : Normalize (rq_SchemaType req) = Hl7Fhir ->
    nc_NodeScope (cfg_Node cfg) = "regional"%string
    /\ EqualFold (pf_Name (cfg_Profile cfg)) "strict" = true;
  may_logistics : Normalize (rq_SchemaType req) = Edifact -> governingRule cfg Edifact = None ->
    (nc_NodeScope (cfg_Node cfg) = "regional"%string \/ nc_NodeScope (cfg_Node cfg) = "alliance"%string)
    /\ (ToLower (pf_Name (cfg_Profile cfg)) = "balanced"%string
        \/ ToLower (pf_Name (cfg_Profile cfg)) = "strict"%string);
  may_jurisdiction : forall r,
    governingRule cfg (Normalize (rq_SchemaType req)) = Some r -> ruleAllows cfg req r }.
End Permitted.

(** ** Lemmas *)

Section PolicyLemmas.
Context `{UnicodeTables}.

(** Each helper answers with a denial or lets the envelope proceed. *)
Definition denial (r : option Result) : Prop :=
  match r with Some x => res_Decision x = DecisionDeny | None => True end.

Lemma denial_Some o r : denial o -> o = Some r -> res_Decision r = DecisionDeny.
Proof. by intros Hd ->. Qed.

Lemma enforceHl7FhirPolicy_denial cfg : denial (enforceHl7FhirPolicy cfg).
Proof. unfold enforceHl7FhirPolicy. by case_guards. Qed.

Lemma enforceEdifactDefaults_denial cfg : denial (enforceEdifactDefaults cfg).
Proof. unfold enforceEdifactDefaults. by case_guards. Qed.

Lemma isolationLoop_denial cfg req st rules : denial (isolationLoop cfg req st rules).
Proof. induction rules as [|r rs IH]; cbn; [done|]. by case_guards. Qed.

Lemma evaluateJurisdictionIsolation_denial cfg req : denial (evaluateJurisdictionIsolation cfg req).
Proof. unfold evaluateJurisdictionIsolation. case_guards; [done|]. apply isolationLoop_denial. Qed.

Lemma enforceHl7FhirPolicy_None cfg :
  enforceHl7FhirPolicy cfg = None <->
  nc_NodeScope (cfg_Node cfg) = "regional"%string /\ EqualFold (pf_Name (cfg_Profile cfg)) "strict" = true.
Proof. unfold enforceHl7FhirPolicy. case_guards; go_solve. Qed.

Lemma enforceEdifactDefaults_None cfg :
  enforceEdifactDefaults cfg = None <->
  (nc_NodeScope (cfg_Node cfg) = "regional"%string \/ nc_NodeScope (cfg_Node cfg) = "alliance"%string)
  /\ (ToLower (pf_Name (cfg_Profile cfg)) = "balanced"%string
      \/ ToLower (pf_Name (cfg_Profile cfg)) = "strict"%string).
Proof. unfold enforceEdifactDefaults. cbn zeta. case_guards; go_solve. Qed.

Definition governing (st : string) (rules : list JurisdictionIsolationRule) :=
  snd <$> list_find (fun r => jr_SchemaType r = st) rules.

Lemma governing_cons st r rules :
  governing st (r :: rules) = if decide (jr_SchemaType r = st) then Some r else governing st rules.
Proof.
  unfold governing. cbn. case_decide; [done|]. by destruct (list_find _ rules) as [[i x]|].
Qed.

Lemma hasIsolationRuleIn_governing rules st :
  hasIsolationRuleIn rules st = true <-> governing st rules <> None.
Proof.
  induction rules as [|r rs IH]; [done|]. rewrite governing_cons. cbn.
  case_decide as E; [by rewrite E, str_eqb_refl|].
  rewrite (proj2 (str_eqb_neq _ _)) by done. apply IH.
Qed.

Lemma isolationLoop_None cfg req st rules :
  isolationLoop cfg req st rules = None <->
  forall r, governing st rules = Some r -> ruleAllows cfg req r.
Proof.
  induction rules as [|r rs IH]; [done|]. rewrite governing_cons. cbn.
  case_decide as E; [|by rewrite (proj2 (str_eqb_neq _ _)) by done].
  rewrite E, str_eqb_refl. cbn. unfold ruleAllows. split.
  - intros Hn r' [= <-]. revert Hn. case_guards; try done. intros _. go_solve.
  - intros Hr. specialize (Hr r eq_refl) as (H1 & H2 & H3).
    case_guards; go_bool; [exfalso; intuition congruence..|done].
Qed.

Lemma evaluateJurisdictionIsolation_None cfg req :
  evaluateJurisdictionIsolation cfg req = None <->
  forall r, governingRule cfg (Normalize (rq_SchemaType req)) = Some r -> ruleAllows cfg req r.
Proof.
  unfold evaluateJurisdictionIsolation. change (governingRule cfg ?st) with (governing st (pc_Rules (cfg_Policy cfg))).
  destruct (nonempty (pc_Rules (cfg_Policy cfg))) eqn:E; cbn.
  - apply isolationLoop_None.
  - go_bool. by rewrite E.
Qed.

Lemma hasIsolationRule_governing cfg st :
  hasIsolationRule cfg st = false <-> governingRule cfg st = None.
Proof.
  pose proof (hasIsolationRuleIn_governing (pc_Rules (cfg_Policy cfg)) st) as Hg.
  unfold hasIsolationRule. change (governingRule cfg st) with (governing st (pc_Rules (cfg_Policy cfg))).
  destruct (hasIsolationRuleIn _ st), (governing st _); naive_solver.
Qed.

Context {B : Type} `{NodeStore B}.

Lemma Evaluate_log now e crl req (log : Log B) :
  (Evaluate now e crl req log).2
  = appendAudit now e (en_cfg e) (Evaluate now e crl req log).1 req log.
Proof. unfold Evaluate. cbn zeta. by case_guards. Qed.

Lemma Evaluate_profile now e crl req (log : Log B) :
  res_Profile (Evaluate now e crl req log).1 = pf_Name (cfg_Profile (en_cfg e)).
Proof.
  unfold Evaluate, evaluateJurisdictionIsolation, enforceHl7FhirPolicy, enforceEdifactDefaults. cbn zeta.
  assert (forall st rules r, isolationLoop (en_cfg e) req st rules = Some r ->
            res_Profile r = pf_Name (cfg_Profile (en_cfg e))) as Hl.
  { intros st rules r. induction rules as [|x xs IH]; cbn; [done|]. case_guards; naive_solver. }
  case_guards; try done; simplify_eq; try done; cbn; eauto.
Qed.

Definition revokedSender (e : Engine) (crl : CrlStore) (req : Request) : bool :=
  en_hasCRL e && IsRevoked crl (rq_SenderNodeID req).

Lemma Evaluate_two_valued now e crl req (log : Log B) :
  res_Decision (Evaluate now e crl req log).1 = DecisionAllow
  \/ res_Decision (Evaluate now e crl req log).1 = DecisionDeny.
Proof.
  pose proof (enforceHl7FhirPolicy_denial (en_cfg e)) as H1.
  pose proof (enforceEdifactDefaults_denial (en_cfg e)) as H2.
  pose proof (evaluateJurisdictionIsolation_denial (en_cfg e) req) as H3.
  unfold Evaluate. cbn zeta. repeat case_match; cbn; simplify_eq; auto; right;
    first [by eapply denial_Some in H1 | by eapply denial_Some in H2 | by eapply denial_Some in H3].
Qed.

Lemma Evaluate_Permitted now e crl req (log : Log B) :
  Permitted (en_cfg e) (revokedSender e crl req) req ->
  (Evaluate now e crl req log).1 = accept (en_cfg e) "POLICY_ACCEPTED".
Proof.
  intros [Hrev Htier Hden Hroute Hhl7 Hedi Hjur]. unfold Evaluate. cbn zeta.
  unfold revokedSender in Hrev. rewrite Hrev.
  rewrite (proj2 (Z.ltb_ge _ _)) by done. rewrite (proj2 (Contains_false _ _)) by done.
  rewrite (proj2 (evaluateJurisdictionIsolation_None _ _)) by done.
  destruct (negb _ && nonempty _ && negb _) eqn:E; [exfalso; go_bool; intuition congruence|clear E].
  replace (if str_eqb _ Hl7Fhir then _ else _) with (@None Result).
  2: { destruct (str_eqb _ Hl7Fhir) eqn:E; [|done]. go_bool. symmetry.
       by apply enforceHl7FhirPolicy_None, Hhl7. }
  replace (if str_eqb _ Edifact && _ then _ else _) with (@None Result); [done|].
  destruct (str_eqb _ Edifact && _) eqn:E; [|done]. go_bool. destruct E as [E1 E2].
  symmetry. apply enforceEdifactDefaults_None, Hedi; [done|]. by apply hasIsolationRule_governing.
Qed.

Lemma Evaluate_allow_Permitted now e crl req (log : Log B) :
  res_Decision (Evaluate now e crl req log).1 = DecisionAllow ->
  Permitted (en_cfg e) (revokedSender e crl req) req.
Proof.
  pose proof (enforceHl7FhirPolicy_denial (en_cfg e)) as D1.
  pose proof (enforceEdifactDefaults_denial (en_cfg e)) as D2.
  pose proof (evaluateJurisdictionIsolation_denial (en_cfg e) req) as D3.
  unfold Evaluate. cbn zeta.
  destruct (en_hasCRL e && _) eqn:E1; [done|]. destruct (_ <? _) eqn:E2; [done|].
  destruct (Contains (op_DenyTo _) _) eqn:E3; [done|]. destruct (negb _ && nonempty _ && _) eqn:E4; [done|].
  destruct (if str_eqb _ Hl7Fhir then _ else _) as [r|] eqn:E5.
  { destruct (str_eqb _ Hl7Fhir); [|done]. rewrite E5 in D1. cbn. intros Ha. by rewrite D1 in Ha. }
  destruct (if str_eqb _ Edifact && _ then _ else _) as [r|] eqn:E6.
  { destruct (str_eqb _ Edifact && _); [|done]. rewrite E6 in D2. cbn. intros Ha. by rewrite D2 in Ha. }
  destruct (evaluateJurisdictionIsolation _ req) as [r|] eqn:E7.
  { cbn. intros Ha. by rewrite D3 in Ha. }
  intros _. constructor.
  - done.
  - by apply Z.ltb_ge.
  - by apply Contains_false.
  - go_bool. destruct (op_AllowTo (pc_Outbound (cfg_Policy (en_cfg e)))) eqn:Eq; cbn in E4; go_solve.
  - intros Hn. apply enforceHl7FhirPolicy_None. by rewrite Hn, str_eqb_refl in E5.
  - intros Hn Hg. apply enforceEdifactDefaults_None.
    by rewrite Hn, str_eqb_refl, (proj2 (hasIsolationRule_governing _ _) Hg) in E6.
  - by apply evaluateJurisdictionIsolation_None.
Qed.

Lemma guarded_decision (b : bool) cfg why why' :
  res_Decision (if negb b then deny cfg why else accept cfg why') = DecisionAllow <-> b = true.
Proof. by destruct b. Qed.
End PolicyLemmas.

(** ** Properties *)

Section PolicyProperties.
Context `{UnicodeTables} {B : Type} `{NodeStore B}.

(** C2: The policy engine implements its specification.  [Evaluate] answers
    ALLOW exactly for the envelopes that are [Permitted]: the sender is not
    revoked, the trust tier reaches the minimum, the recipient region is not
    denied and is local, unrestricted or allow-listed, the fixed health and
    default logistics constraints hold, and the first jurisdiction rule for the
    schema type is satisfied.  Every other envelope is answered DENY. *)
Theorem Evaluate_refines_Permitted now e crl req (log : Log B) :
  (res_Decision (Evaluate now e crl req log).1 = DecisionAllow
     <-> Permitted (en_cfg e) (revokedSender e crl req) req)
  /\ (res_Decision (Evaluate now e crl req log).1 = DecisionDeny
     <-> ~ Permitted (en_cfg e) (revokedSender e crl req) req).
Proof.
  assert (res_Decision (Evaluate now e crl req log).1 = DecisionAllow
     <-> Permitted (en_cfg e) (revokedSender e crl req) req) as Hiff.
  { split; [apply Evaluate_allow_Permitted|]. intros Hp. by rewrite Evaluate_Permitted. }
  split; [exact Hiff|]. rewrite <- Hiff.
  destruct (Evaluate_two_valued now e crl req log) as [-> | ->]; by split.
Qed.

(** An auditing engine records every decision, allow and deny alike:
    [Evaluate] appends exactly one entry, which carries the decision, the reason
    and the profile it returns, the tier, regions and schema of the request, and
    the log still verifies. *)
Theorem Evaluate_audited now e crl req (log : Log B) :
  en_auditing e = true ->
  exists entry,
    log_entries (Evaluate now e crl req log).2 = log_entries log ++ [entry]
    /\ ae_Decision entry = res_Decision (Evaluate now e crl req log).1
    /\ ae_Reason entry = res_Reason (Evaluate now e crl req log).1
    /\ ae_Profile entry = res_Profile (Evaluate now e crl req log).1
    /\ ae_TrustTier entry = rq_TrustTier req
    /\ ae_SenderRegion entry = rq_SenderRegion req
    /\ ae_RecipientRegion entry = rq_RecipientRegion req
    /\ ae_SchemaType entry = rq_SchemaType req
    /\ (Verify log = None -> Verify (Evaluate now e crl req log).2 = None).
Proof.
  intros Ha. rewrite Evaluate_log, Evaluate_profile. unfold appendAudit. rewrite Ha. cbn [negb].
  eexists. rewrite Append_entries. split; [reflexivity|]. rewrite !Verify_None. eauto 10 with mrmi.
Qed.

(** Health data cannot be let through by configuration.  Whatever the
    configuration of the engine, jurisdiction rules included, an hl7fhir
    envelope is allowed only on a regional node whose profile name folds to
    "strict". *)
Theorem hl7fhir_floor now e crl req (log : Log B) :
  Normalize (rq_SchemaType req) = Hl7Fhir ->
  res_Decision (Evaluate now e crl req log).1 = DecisionAllow ->
  nc_NodeScope (cfg_Node (en_cfg e)) = "regional"%string
  /\ EqualFold (pf_Name (cfg_Profile (en_cfg e))) "strict" = true.
Proof. intros Hs Ha. apply Evaluate_allow_Permitted in Ha. by apply (may_health _ _ _ Ha). Qed.

(** Revocation takes precedence over every other rule: once the store
    holds two signatures against the sending node, an engine connected to the
    store denies its envelopes with NODE_REVOKED, whatever the configuration,
    the tier, the regions or the schema. *)
Theorem revoked_sender_denied now e crl req (log : Log B) :
  en_hasCRL e = true -> crl_wf crl -> (2 <= size (sigs crl (rq_SenderNodeID req)))%nat ->
  (Evaluate now e crl req log).1 = deny (en_cfg e) "NODE_REVOKED".
Proof.
  intros Hc Hwf Hs. unfold Evaluate. cbn zeta. rewrite Hc, IsRevoked_sigs by done.
  by rewrite bool_decide_eq_true_2.
Qed.

(** App isolation of discovery requests: OPEN admits every origin,
    WHITELIST exactly the listed application ids, and every other setting,
    unset included, only an origin whose application id equals the node's up to
    case. *)
Theorem EvaluateDiscovery_isolation e req :
  let mode := ToUpper (TrimSpace (dp_AppIsolation (pc_Discovery (cfg_Policy (en_cfg e))))) in
  res_Decision (EvaluateDiscovery e req) = DecisionAllow <->
    mode = "OPEN"%string
    \/ (mode = "WHITELIST"%string
        /\ dr_OriginAppID req ∈ dp_AllowedAppIDs (pc_Discovery (cfg_Policy (en_cfg e))))
    \/ (mode <> "OPEN"%string /\ mode <> "WHITELIST"%string
        /\ EqualFold (dr_OriginAppID req) (dr_NodeAppID req) = true).
Proof.
  cbn zeta. unfold EvaluateDiscovery. cbn zeta. rewrite guarded_decision.
  set (mode := ToUpper _). destruct (str_eqb mode "") eqn:E0; go_bool.
  { rewrite E0. str_compute. naive_solver. }
  destruct (str_eqb mode "OPEN") eqn:E1; go_bool; [tauto|].
  destruct (str_eqb mode "WHITELIST") eqn:E2; go_bool; naive_solver.
Qed.
End PolicyProperties.

(** ** Engines over time *)

(** The configurations an engine goes through: created valid, then reloaded. *)
Inductive engine_run : Engine -> Prop :=
| run_new cfg auditing hasCRL e : NewEngine cfg auditing hasCRL = Ok e -> engine_run e
| run_reload cfg e : engine_run e -> engine_run (Reload cfg e).2.

(** An engine never runs on an invalid configuration: creation and every
    reload, successful or not, leave it with a configuration that satisfies
    [ValidConfig]; a rejected reload keeps the previous engine. *)
Theorem engine_config_valid e :
  engine_run e ->
  ValidConfig (en_cfg e) /\ forall cfg err, (Reload cfg e).1 = Some err -> (Reload cfg e).2 = e.
Proof.
  intros Hr. split.
  - induction Hr as [cfg a h e He|cfg e _ IH].
    + unfold NewEngine in He. destruct (Validate cfg) eqn:Hv; [done|]. injection He as <-.
      by apply Validate_None.
    + unfold Reload. destruct (Validate cfg) eqn:Hv; [done|]. by apply Validate_None.
  - intros cfg err. unfold Reload. by destruct (Validate cfg).
Qed.

Definition demo_engine : Engine :=
  {| en_cfg := DefaultConfigForProfile "strict"; en_auditing := true; en_hasCRL := true |}.

Lemma engine_config_valid_witness : ValidConfig (en_cfg demo_engine).
Proof.
  apply (engine_config_valid demo_engine), (run_new (DefaultConfigForProfile "strict") true true).
  vm_compute. reflexivity.
Defined.

Definition demo_request (schema : string) : Request :=
  {| rq_SenderNodeID := "ru-node-01"; rq_SenderRegion := "RS"; rq_RecipientRegion := "RU";
     rq_TrustTier := 1; rq_SchemaType := schema; rq_SchemaVersion := "1.0.0" |}.

Lemma Evaluate_audited_witness :
  Verify (Evaluate 0 demo_engine New (demo_request "hl7fhir") (NewLog (B := unit))).2 = None.
Proof.
  destruct (Evaluate_audited 0 demo_engine New (demo_request "hl7fhir") (NewLog (B := unit)) eq_refl)
    as (entry & _ & _ & _ & _ & _ & _ & _ & _ & Hv).
  apply Hv. vm_compute. reflexivity.
Defined.

Lemma hl7fhir_floor_witness : nc_NodeScope (cfg_Node (en_cfg demo_engine)) = "regional"%string.
Proof.
  apply (hl7fhir_floor 0 demo_engine New (demo_request "hl7fhir") (NewLog (B := unit)));
    vm_compute; reflexivity.
Defined.

Definition demo_crl : CrlStore :=
  Revoke 0 "ru-node-01" "compromised" "sig-b" (Revoke 0 "ru-node-01" "compromised" "sig-a" New).

Lemma revoked_sender_denied_witness :
  (Evaluate 0 demo_engine demo_crl (demo_request "messaging") (NewLog (B := unit))).1
  = deny (en_cfg demo_engine) "NODE_REVOKED".
Proof.
  apply (revoked_sender_denied 0 demo_engine demo_crl (demo_request "messaging") (NewLog (B := unit))).
  - reflexivity.
  - apply Revoke_wf, Revoke_wf, crl_wf_New.
  - vm_compute. lia.
Defined.

(** The profile name is compared without case by the health-data check but
    with case by the presets.  A file that says [name = "STRICT"] loads without
    error, runs with the balanced preset (24-hour deduplication, 100 ms jitter),
    and still passes hl7fhir envelopes as if the strict preset were active. *)
Theorem uppercase_strict_gets_balanced_preset :
  exists cfg,
    Load (fun _ => Some false) (fun _ => Some ""%string) (fun _ => Some (rawProfile "STRICT")) "node.toml" = Ok cfg
    /\ pf_DedupTTL (cfg_Profile cfg) = pf_DedupTTL (profilePreset "balanced")
    /\ pf_TimingJitterMax (cfg_Profile cfg) = pf_TimingJitterMax (profilePreset "balanced")
    /\ pf_DedupTTL (cfg_Profile cfg) < pf_DedupTTL (profilePreset "strict")
    /\ res_Decision (Evaluate 0 {| en_cfg := cfg; en_auditing := true; en_hasCRL := true |} New
                       (demo_request "hl7fhir") (NewLog (B := unit))).1 = DecisionAllow.
Proof. eexists. split; [vm_compute; reflexivity|]. vm_compute. auto. Qed.
