(* ===== verification/Dedup.v ===== *)
(** * The deduplication index (package [internal/dedup])

    Idempotency keys with their expiry, spread over sixteen shards by an FNV-1a
    hash of the key.  Every operation on a shard runs under the shard's lock, so a
    concurrent execution is a sequence of atomic shard operations: [reach] below
    interleaves registrations with the per-shard sweeps of [Purge], whose clock
    reading may be stale by the time a shard is swept. *)

From S2P Require Import Prelude GoCrypto.

Definition numShards : nat := 16.

(** A shard is the map [entries] from keys to expiry times. *)
Notation shard := (gmap string Z).

Record Index := { dx_shards : list shard; dx_ttl : Z }.

Definition NewIndex (ttl : Z) : Index := {| dx_shards := replicate numShards ∅; dx_ttl := ttl |}.

(** [shardFor] returns the position of the shard it points to. *)
Definition shardFor (key : string) : nat := Z.to_nat (Z.land (fnv32a key) (Z.of_nat numShards - 1)).

Definition entriesOf (idx : Index) (i : nat) : shard := default ∅ (dx_shards idx !! i).

Definition setShard (idx : Index) (i : nat) (s : shard) : Index :=
  {| dx_shards := <[i := s]> (dx_shards idx); dx_ttl := dx_ttl idx |}.

Definition SeenOrAdd (now : Z) (key : string) (idx : Index) : bool * Index :=
  let i := shardFor key in
  let s := entriesOf idx i in
  if match s !! key with Some exp => now <? exp | None => false end
  then (true, idx)
  else (false, setShard idx i (<[key := now + dx_ttl idx]> s)).

Definition SeenOrAddWithTTL (now : Z) (key : string) (ttl : Z) (idx : Index) : bool * Index :=
  let i := shardFor key in
  let s := entriesOf idx i in
  if match s !! key with Some exp => now <? exp | None => false end
  then (true, idx)
  else (false, setShard idx i (<[key := now + ttl]> s)).

(** The inner loop of [Purge]: [delete] for every expired key of one shard. *)
Definition purgeShard (now : Z) (idx : Index) (i : nat) : Index :=
  setShard idx i (filter (fun kv => ~ (kv.2 < now)) (entriesOf idx i)).

Definition Purge (now : Z) (idx : Index) : Index :=
  foldl (purgeShard now) idx (seq 0 numShards).

Definition Len (now : Z) (idx : Index) : nat :=
  foldl (fun n (s : shard) => (n + size (filter (fun kv => (now < kv.2)%Z) s))%nat) 0%nat (dx_shards idx).

(** ** The specification: one map from keys to expiry times *)

Definition flat (idx : Index) : gmap string Z := ⋃ dx_shards idx.

Definition specSeen (now : Z) (key : string) (ttl : Z) (m : gmap string Z) : bool * gmap string Z :=
  match m !! key with
  | Some exp => if now <? exp then (true, m) else (false, <[key := now + ttl]> m)
  | None => (false, <[key := now + ttl]> m)
  end.

Definition specPurge (now : Z) (m : gmap string Z) : gmap string Z := filter (fun kv => ~ (kv.2 < now)) m.

Definition specLen (now : Z) (m : gmap string Z) : nat := size (filter (fun kv => now < kv.2) m).

(** Every key lives in its own shard. *)
Definition index_wf (idx : Index) : Prop :=
  length (dx_shards idx) = numShards
  /\ forall i s key, dx_shards idx !! i = Some s -> is_Some (s !! key) -> i = shardFor key.

(** ** Lemmas *)

Lemma shardFor_lt key : (shardFor key < numShards)%nat.
Proof.
  unfold shardFor, numShards. change (Z.of_nat 16 - 1) with (Z.ones 4).
  rewrite Z.land_ones by lia. pose proof (Z.mod_pos_bound (fnv32a key) (2 ^ 4)). lia.
Qed.

Lemma NewIndex_wf ttl : index_wf (NewIndex ttl).
Proof.
  split; [done|]. intros i s key Hi [v Hv]. unfold NewIndex in Hi. cbn [dx_shards] in Hi.
  apply lookup_replicate in Hi as [-> _]. by rewrite lookup_empty in Hv.
Qed.

Lemma setShard_wf idx i s :
  index_wf idx -> (forall key, is_Some (s !! key) -> i = shardFor key) -> index_wf (setShard idx i s).
Proof.
  intros [Hl Hk] Hs. split; [by cbn; rewrite length_insert|]. intros j s' key Hj Hin. cbn in Hj.
  apply list_lookup_insert_Some in Hj as [(-> & -> & _)|[_ Hj]]; eauto.
Qed.

Lemma entriesOf_wf idx i key : index_wf idx -> is_Some (entriesOf idx i !! key) -> i = shardFor key.
Proof.
  intros [_ Hk] Hs. unfold entriesOf in Hs. destruct (dx_shards idx !! i) eqn:E; cbn in Hs; [eauto|].
  rewrite lookup_empty in Hs. by destruct Hs.
Qed.

Lemma add_wf idx key v :
  index_wf idx ->
  index_wf (setShard idx (shardFor key) (<[key := v]> (entriesOf idx (shardFor key)))).
Proof.
  intros Hwf. apply setShard_wf; [done|]. intros k Hk.
  destruct (decide (k = key)) as [->|Hne]; [done|]. rewrite lookup_insert_ne in Hk by done.
  by eapply entriesOf_wf.
Qed.

Lemma SeenOrAddWithTTL_wf now key ttl idx : index_wf idx -> index_wf (SeenOrAddWithTTL now key ttl idx).2.
Proof.
  intros Hwf. unfold SeenOrAddWithTTL. cbn zeta.
  destruct (match _ with Some _ => _ | None => _ end); cbn; [done|]. by apply add_wf.
Qed.

Lemma SeenOrAdd_default now key idx : SeenOrAdd now key idx = SeenOrAddWithTTL now key (dx_ttl idx) idx.
Proof. reflexivity. Qed.

Lemma purgeShard_wf now idx i : index_wf idx -> index_wf (purgeShard now idx i).
Proof.
  intros Hwf. apply setShard_wf; [done|]. intros key [v Hv].
  apply map_lookup_filter_Some in Hv as [Hv _]. eapply entriesOf_wf; eauto.
Qed.

Lemma foldl_purge_wf now is_ idx : index_wf idx -> index_wf (foldl (purgeShard now) idx is_).
Proof. revert idx. induction is_ as [|i is_ IH]; intros idx Hwf; cbn; [done|]. by apply IH, purgeShard_wf. Qed.

#[export] Hint Resolve NewIndex_wf SeenOrAddWithTTL_wf purgeShard_wf : mrmi.

(** The expiry a key has in its shard. *)
Definition expiry (idx : Index) (key : string) : option Z := entriesOf idx (shardFor key) !! key.

(** Shards as a partition: [f] gives the position of the shard that may hold a key. *)
Definition owned (f : string -> nat) (base : nat) (l : list shard) : Prop :=
  forall i s key, l !! i = Some s -> is_Some (s !! key) -> f key = (base + i)%nat.

Lemma owned_cons f base s l :
  owned f base (s :: l) ->
  (forall key, is_Some (s !! key) -> f key = base) /\ owned f (S base) l.
Proof.
  intros Ho. split.
  - intros key Hk. rewrite (Ho O s key) by done. lia.
  - intros i s' key Hi Hk. rewrite (Ho (S i) s' key) by done. lia.
Qed.

Lemma union_list_None (l : list shard) key :
  (forall s, s ∈ l -> s !! key = None) -> (⋃ l : shard) !! key = None.
Proof.
  induction l as [|s l IH]; intros Hl; cbn; [apply lookup_empty|].
  apply lookup_union_None. split; [apply Hl; left | apply IH; intros; apply Hl; by right].
Qed.

Lemma union_list_lookup f base (l : list shard) key :
  owned f base l -> (base <= f key < base + length l)%nat ->
  (⋃ l : shard) !! key = default ∅ (l !! (f key - base)%nat) !! key.
Proof.
  revert base. induction l as [|s l IH]; intros base Ho Hb; cbn in Hb; [lia|].
  apply owned_cons in Ho as [Hs Ho]. cbn [union_list foldr]. change (foldr _ _ l) with (⋃ l : shard).
  destruct (decide (f key = base)) as [E|E].
  - rewrite E, Nat.sub_diag. cbn. apply lookup_union_l, union_list_None. intros s' Hin.
    apply list_elem_of_lookup in Hin as [i Hi]. apply eq_None_not_Some. intros Hk.
    pose proof (Ho _ _ _ Hi Hk). lia.
  - rewrite lookup_union_r.
    + rewrite (IH (S base)) by (done || lia). by replace (f key - base)%nat with (S (f key - S base)) by lia.
    + apply eq_None_not_Some. intros Hk. by rewrite (Hs _ Hk) in E.
Qed.

Lemma wf_owned idx : index_wf idx -> owned shardFor 0 (dx_shards idx).
Proof. intros [_ Hk] i s key Hi Hs. by rewrite <- (Hk i s key). Qed.

Lemma flat_lookup idx key : index_wf idx -> flat idx !! key = expiry idx key.
Proof.
  intros Hwf. unfold flat, expiry, entriesOf. rewrite (union_list_lookup shardFor 0).
  - by rewrite Nat.sub_0_r.
  - by apply wf_owned.
  - destruct Hwf as [-> _]. pose proof (shardFor_lt key). lia.
Qed.

Lemma entriesOf_setShard idx i s j :
  index_wf idx -> (i < numShards)%nat ->
  entriesOf (setShard idx i s) j = if decide (i = j) then s else entriesOf idx j.
Proof.
  intros [Hl _] Hi. unfold entriesOf, setShard. cbn. case_decide as E.
  - subst j. by rewrite list_lookup_insert_eq by lia.
  - by rewrite list_lookup_insert_ne.
Qed.

Lemma SeenOrAddWithTTL_expiry now key ttl idx k :
  index_wf idx ->
  expiry (SeenOrAddWithTTL now key ttl idx).2 k
  = if (SeenOrAddWithTTL now key ttl idx).1 then expiry idx k
    else if decide (k = key) then Some (now + ttl) else expiry idx k.
Proof.
  intros Hwf. unfold SeenOrAddWithTTL. cbn zeta.
  destruct (match _ with Some _ => _ | None => _ end); cbn [fst snd]; [done|].
  unfold expiry. rewrite entriesOf_setShard by (done || apply shardFor_lt).
  destruct (decide (k = key)) as [->|Hne].
  - by rewrite decide_True, lookup_insert_eq by done.
  - case_decide as E; [|done]. rewrite lookup_insert_ne by done. by rewrite E.
Qed.

Lemma SeenOrAddWithTTL_dup now key ttl idx :
  (SeenOrAddWithTTL now key ttl idx).1 = true <-> exists exp, expiry idx key = Some exp /\ now < exp.
Proof.
  unfold SeenOrAddWithTTL, expiry. cbn zeta. destruct (entriesOf _ _ !! key) as [exp|]; [|naive_solver].
  destruct (now <? exp) eqn:E; go_bool; cbn; [naive_solver|].
  split; [done|]. intros (e & [= <-] & He). lia.
Qed.

(** What a sweep at [now] leaves of an expiry time. *)
Definition unexpired (now : Z) (o : option Z) : option Z :=
  match o with Some exp => if exp <? now then None else Some exp | None => None end.

Lemma unexpired_idemp now o : unexpired now (unexpired now o) = unexpired now o.
Proof. destruct o as [v|]; cbn; [|done]. destruct (v <? now) eqn:E; cbn; by rewrite ?E. Qed.

Lemma filter_unexpired now (m : shard) k :
  filter (fun kv => ~ (kv.2 < now)) m !! k = unexpired now (m !! k).
Proof.
  rewrite map_lookup_filter. destruct (m !! k) as [v|]; cbn; [|done].
  destruct (v <? now) eqn:E; go_bool; case_guard; cbn; (done || lia).
Qed.

Lemma purgeShard_expiry now idx i k :
  index_wf idx -> (i < numShards)%nat ->
  expiry (purgeShard now idx i) k
  = if decide (i = shardFor k) then unexpired now (expiry idx k) else expiry idx k.
Proof.
  intros Hwf Hi. unfold purgeShard, expiry. rewrite entriesOf_setShard by done.
  case_decide as E; [|done]. subst i. apply filter_unexpired.
Qed.

Lemma foldl_purge_expiry now is_ idx k :
  index_wf idx -> Forall (fun i => (i < numShards)%nat) is_ ->
  expiry (foldl (purgeShard now) idx is_) k
  = if decide (shardFor k ∈ is_) then unexpired now (expiry idx k) else expiry idx k.
Proof.
  revert idx. induction is_ as [|i is_ IH]; intros idx Hwf Hf; cbn [foldl]; [done|].
  apply Forall_cons in Hf as [Hi Hf]. rewrite IH, purgeShard_expiry by eauto with mrmi.
  destruct (decide (i = shardFor k)) as [->|Hne].
  - rewrite (decide_True (P := shardFor k ∈ shardFor k :: is_)) by left.
    case_decide; [apply unexpired_idemp|done].
  - repeat case_decide; try done; set_solver.
Qed.

Lemma Purge_expiry now idx k :
  index_wf idx -> expiry (Purge now idx) k = unexpired now (expiry idx k).
Proof.
  intros Hwf. unfold Purge. rewrite foldl_purge_expiry; [|done|apply Forall_forall; intros i Hi; apply elem_of_seq in Hi; lia].
  rewrite decide_True; [done|]. apply elem_of_seq. pose proof (shardFor_lt k). lia.
Qed.

Lemma Purge_wf now idx : index_wf idx -> index_wf (Purge now idx).
Proof. apply foldl_purge_wf. Qed.

Lemma foldl_size_shift (f : shard -> nat) l n :
  foldl (fun n s => (n + f s)%nat) n l = (n + foldl (fun n s => (n + f s)%nat) 0 l)%nat.
Proof.
  revert n. induction l as [|s l IH]; intros n; cbn; [lia|]. rewrite IH, (IH (f s)). lia.
Qed.

Lemma size_filter_union (P : string * Z -> Prop) `{!forall x, Decision (P x)} f base (l : list shard) :
  owned f base l ->
  size (filter P (⋃ l : shard)) = foldl (fun n (s : shard) => (n + size (filter P s))%nat) 0%nat l.
Proof.
  revert base. induction l as [|s l IH]; intros base Ho.
  { cbn. by rewrite map_filter_empty, map_size_empty. }
  apply owned_cons in Ho as [Hs Ho]. cbn [foldl union_list foldr].
  change (foldr _ _ l) with (⋃ l : shard). rewrite (foldl_size_shift (fun s => size (filter P s))).
  assert (s ##ₘ (⋃ l : shard)) as Hd.
  { apply map_disjoint_spec. intros k v1 v2 H1 H2.
    assert ((⋃ l : shard) !! k = None); [|congruence]. apply union_list_None. intros s' Hin.
    apply list_elem_of_lookup in Hin as [i Hi]. apply eq_None_not_Some. intros Hk.
    pose proof (Ho _ _ _ Hi Hk). pose proof (Hs k ltac:(eauto)). lia. }
  rewrite map_filter_union by done. rewrite map_size_disj_union by by apply map_disjoint_filter.
  rewrite (IH (S base)) by done. lia.
Qed.

Lemma flat_SeenOrAddWithTTL now key ttl idx :
  index_wf idx ->
  ((SeenOrAddWithTTL now key ttl idx).1, flat (SeenOrAddWithTTL now key ttl idx).2)
  = specSeen now key ttl (flat idx).
Proof.
  intros Hwf. unfold specSeen. rewrite flat_lookup by done.
  assert (forall k, flat (SeenOrAddWithTTL now key ttl idx).2 !! k
            = if (SeenOrAddWithTTL now key ttl idx).1 then flat idx !! k
              else <[key := now + ttl]> (flat idx) !! k) as Hf.
  { intros k. rewrite flat_lookup, SeenOrAddWithTTL_expiry by eauto with mrmi.
    destruct (_.1); [by rewrite flat_lookup|]. rewrite lookup_insert, flat_lookup by done.
    repeat case_decide; naive_solver. }
  pose proof (SeenOrAddWithTTL_dup now key ttl idx) as Hd.
  destruct (SeenOrAddWithTTL now key ttl idx) as [[] idx']; cbn in *.
  - destruct (proj1 Hd eq_refl) as (exp & -> & Hlt). apply Z.ltb_lt in Hlt. rewrite Hlt.
    f_equal. by apply map_eq.
  - destruct (expiry idx key) as [exp|].
    + destruct (now <? exp) eqn:E; go_bool; [discriminate (proj2 Hd ltac:(eauto))|]. f_equal. by apply map_eq.
    + f_equal. by apply map_eq.
Qed.

(** ** Histories: interleavings of the atomic shard operations *)

Inductive event :=
| Registered (now : Z) (key : string) (ttl : Z) (dup : bool)
| Swept (now : Z) (i : nat).

(** [reach t h idx]: the events [h] lead from a new index to [idx] at clock [t].
    A registration reads the clock under the lock; a sweep uses the reading
    [Purge] took before it started, so any time up to the clock. *)
Inductive reach : Z -> list event -> Index -> Prop :=
| reach_new t ttl : reach t [] (NewIndex ttl)
| reach_seen t h idx now key ttl :
    reach t h idx -> t <= now ->
    reach now (h ++ [Registered now key ttl (SeenOrAddWithTTL now key ttl idx).1])
      (SeenOrAddWithTTL now key ttl idx).2
| reach_sweep t h idx now i :
    reach t h idx -> now <= t -> (i < numShards)%nat ->
    reach t (h ++ [Swept now i]) (purgeShard now idx i)
| reach_idle t h idx t' : reach t h idx -> t <= t' -> reach t' h idx.

(** The index remembers exactly the registrations that have not expired. *)
Definition remembers (t : Z) (h : list event) (idx : Index) : Prop :=
  (forall key exp, expiry idx key = Some exp ->
     exists now ttl, Registered now key ttl false ∈ h /\ exp = now + ttl)
  /\ (forall key now ttl, Registered now key ttl false ∈ h -> t < now + ttl ->
     expiry idx key = Some (now + ttl)).

Lemma expiry_New ttl key : expiry (NewIndex ttl) key = None.
Proof.
  unfold expiry, entriesOf, NewIndex. cbn [dx_shards].
  rewrite lookup_replicate_2 by apply shardFor_lt. simpl. apply (lookup_empty (M := gmap string)).
Qed.

Lemma remembers_seen t h idx now key ttl :
  index_wf idx -> t <= now -> remembers t h idx ->
  remembers now (h ++ [Registered now key ttl (SeenOrAddWithTTL now key ttl idx).1])
    (SeenOrAddWithTTL now key ttl idx).2.
Proof.
  intros Hwf Ht [Hs Hc]. pose proof (SeenOrAddWithTTL_expiry now key ttl idx) as He.
  pose proof (SeenOrAddWithTTL_dup now key ttl idx) as Hd.
  destruct (SeenOrAddWithTTL now key ttl idx) as [dup idx']. cbn in *. split.
  - intros k exp. rewrite He by done. setoid_rewrite elem_of_app.
    destruct dup; [naive_solver|]. case_decide as E; [|naive_solver].
    intros [= <-]. exists now, ttl. split; [right; subst k; by left|done].
  - intros k now1 ttl1 Hin Hlt. rewrite He by done. apply elem_of_app in Hin as [Hin|Hin].
    + pose proof (Hc _ _ _ Hin ltac:(lia)) as Hk. destruct dup; [done|]. case_decide as E; [|done].
      subst k. exfalso. assert (false = true); [|done]. apply Hd. eauto with lia.
    + apply list_elem_of_singleton in Hin as [= -> -> -> <-]. by rewrite decide_True.
Qed.

Lemma remembers_sweep t h idx now i :
  index_wf idx -> now <= t -> (i < numShards)%nat -> remembers t h idx ->
  remembers t (h ++ [Swept now i]) (purgeShard now idx i).
Proof.
  intros Hwf Hn Hi [Hs Hc]. split.
  - intros k exp. rewrite purgeShard_expiry by done. setoid_rewrite elem_of_app. intros He.
    assert (expiry idx k = Some exp) as Hk; [|naive_solver].
    case_decide; [|done]. destruct (expiry idx k) as [v|]; cbn in He; [|done]. by destruct (v <? now).
  - intros k now1 ttl1 Hin Hlt. rewrite purgeShard_expiry by done.
    apply elem_of_app in Hin as [Hin|Hin]; [|by apply list_elem_of_singleton in Hin].
    rewrite (Hc _ _ _ Hin) by lia. case_decide; [|done]. cbn. by rewrite (proj2 (Z.ltb_ge _ _)) by lia.
Qed.

Lemma reach_inv t h idx : reach t h idx -> index_wf idx /\ remembers t h idx.
Proof.
  induction 1 as [t ttl|t h idx now key ttl _ [Hwf IH] Ht|t h idx now i _ [Hwf IH] Hn Hi
    |t h idx t' _ [Hwf [Hs Hc]] Ht].
  - split; [apply NewIndex_wf|]. split.
    + intros key exp. by rewrite expiry_New.
    + intros key now ttl' Hin. by eapply not_elem_of_nil in Hin.
  - split; [by apply SeenOrAddWithTTL_wf|]. by apply (remembers_seen t).
  - split; [by apply purgeShard_wf|]. by apply (remembers_sweep t).
  - split; [done|]. split; [done|]. intros key now ttl Hin Hlt. apply Hc; [done|lia].
Qed.

Lemma reach_seen_iff t h idx now key ttl :
  reach t h idx -> t <= now ->
  (SeenOrAddWithTTL now key ttl idx).1 = true <->
  exists now1 ttl1, Registered now1 key ttl1 false ∈ h /\ now < now1 + ttl1.
Proof.
  intros [Hwf [Hs Hc]]%reach_inv Ht. rewrite SeenOrAddWithTTL_dup. split.
  - intros (exp & He & Hlt). apply Hs in He as (now1 & ttl1 & Hin & ->). eauto.
  - intros (now1 & ttl1 & Hin & Hlt). exists (now1 + ttl1). split; [|done]. apply Hc; [done|lia].
Qed.

(** ** Properties *)

(** C10: Sharding is unobservable.  On a well-formed index the sixteen shards
    behave as one map from keys to expiry times: registration, with the default or
    an explicit window, gives the answer of the single map and leads to the
    corresponding map; [Purge] deletes exactly the expired keys, [Len] counts
    exactly the live ones, and every operation keeps the index well formed. *)
Theorem sharding_refines idx now key ttl :
  index_wf idx ->
  ((SeenOrAddWithTTL now key ttl idx).1, flat (SeenOrAddWithTTL now key ttl idx).2)
    = specSeen now key ttl (flat idx)
  /\ ((SeenOrAdd now key idx).1, flat (SeenOrAdd now key idx).2)
    = specSeen now key (dx_ttl idx) (flat idx)
  /\ flat (Purge now idx) = specPurge now (flat idx)
  /\ Len now idx = specLen now (flat idx)
  /\ index_wf (SeenOrAddWithTTL now key ttl idx).2 /\ index_wf (Purge now idx).
Proof.
  intros Hwf. rewrite SeenOrAdd_default, !flat_SeenOrAddWithTTL by done. split_and!; try done.
  - apply map_eq. intros k. unfold specPurge.
    rewrite filter_unexpired, !flat_lookup, Purge_expiry by eauto using Purge_wf. done.
  - unfold Len, specLen, flat. symmetry. by eapply size_filter_union, wf_owned.
  - by apply SeenOrAddWithTTL_wf.
  - by apply Purge_wf.
Qed.

(** Deduplication is exact.  After any interleaving of registrations and
    shard sweeps of a new index, a key is reported as seen if and only if it was
    accepted before and the window of that acceptance has not ended.  So a key is
    never accepted twice within its window, an expired or unknown key is never
    rejected, and [Purge] cannot be observed. *)
Theorem dedup_exact t h idx now key ttl :
  reach t h idx -> t <= now ->
  (SeenOrAddWithTTL now key ttl idx).1 = true <->
  exists now1 ttl1, Registered now1 key ttl1 false ∈ h /\ now < now1 + ttl1.
Proof. apply reach_seen_iff. Qed.

Definition demo_index : Index := (SeenOrAddWithTTL 10 "k" 60 (NewIndex 60)).2.

Lemma sharding_refines_witness : Len 20 demo_index = specLen 20 (flat demo_index).
Proof.
  refine (proj1 (proj2 (proj2 (proj2 (sharding_refines demo_index 20 "k" 60 _))))).
  apply SeenOrAddWithTTL_wf, NewIndex_wf.
Defined.

Lemma dedup_exact_witness : (SeenOrAddWithTTL 30 "k" 60 demo_index).1 = true.
Proof.
  refine (proj2 (dedup_exact 10 [Registered 10 "k" 60 false] demo_index 30 "k" 60 _ _) _).
  - apply (reach_seen 0 [] (NewIndex 60) 10 "k" 60); [constructor | lia].
  - lia.
  - exists 10, 60. split; [left | lia].
Defined.
