(* ===== verification/Core.v ===== *)
(** * The data of package [internal/core]

    Envelopes, requests and responses, shared by the gateway, the transit cache,
    the delivery layer and the transports. *)

From S2P Require Import Prelude.

(** A [[]byte]: [None] is the nil slice, which JSON tells from the empty one. *)
Notation bytes := (option string).

Definition slice_of (b : bytes) : string := default ""%string b.

Definition slice_len (b : bytes) : nat := String.length (slice_of b).

Record Envelope := {
  env_IdempotencyKey : string;
  env_SenderNodeID : string;
  env_SenderIdentity : bytes;
  env_RecipientIdentity : bytes;
  env_SenderRegion : string;
  env_RecipientRegion : string;
  env_TrustTier : Z;
  env_SequenceNumber : Z;
  env_Payload : bytes;
  env_PaddedTo : Z;
  env_Timestamp : Z;
  env_Signature : bytes;
  env_IsDummy : bool;
  env_SchemaType : string;
  env_SchemaVersion : string;
  env_RoutingHint : string }.

#[export] Instance Envelope_eq_dec : EqDecision Envelope.
Proof. solve_decision. Defined.

Record SendRequest := { sr_Envelope : Envelope }.

Record SendResponse := {
  rs_Decision : string;
  rs_Reason : string;
  rs_Profile : string;
  rs_NodeID : string;
  rs_AuditRootHash : string;
  rs_PeerAuditRootHash : string }.

Record NodeInfo := {
  ni_NodeID : string; ni_NodeScope : string; ni_Region : string; ni_ApplicableLaw : string;
  ni_Profile : string }.

(** Assignments to a field of an envelope. *)
Definition with_schema_type (v : string) (e : Envelope) : Envelope := {|
  env_IdempotencyKey := env_IdempotencyKey e; env_SenderNodeID := env_SenderNodeID e;
  env_SenderIdentity := env_SenderIdentity e; env_RecipientIdentity := env_RecipientIdentity e;
  env_SenderRegion := env_SenderRegion e; env_RecipientRegion := env_RecipientRegion e;
  env_TrustTier := env_TrustTier e; env_SequenceNumber := env_SequenceNumber e;
  env_Payload := env_Payload e; env_PaddedTo := env_PaddedTo e; env_Timestamp := env_Timestamp e;
  env_Signature := env_Signature e; env_IsDummy := env_IsDummy e; env_SchemaType := v;
  env_SchemaVersion := env_SchemaVersion e; env_RoutingHint := env_RoutingHint e |}.

Definition with_padding (p : string) (n : Z) (e : Envelope) : Envelope := {|
  env_IdempotencyKey := env_IdempotencyKey e; env_SenderNodeID := env_SenderNodeID e;
  env_SenderIdentity := env_SenderIdentity e; env_RecipientIdentity := env_RecipientIdentity e;
  env_SenderRegion := env_SenderRegion e; env_RecipientRegion := env_RecipientRegion e;
  env_TrustTier := env_TrustTier e; env_SequenceNumber := env_SequenceNumber e;
  env_Payload := Some p; env_PaddedTo := n; env_Timestamp := env_Timestamp e;
  env_Signature := env_Signature e; env_IsDummy := env_IsDummy e; env_SchemaType := env_SchemaType e;
  env_SchemaVersion := env_SchemaVersion e; env_RoutingHint := env_RoutingHint e |}.

(** An envelope with a key, two regions and a schema type, everything else zero. *)
Definition mkEnvelope (key src dst schema : string) : Envelope := {|
  env_IdempotencyKey := key; env_SenderNodeID := ""; env_SenderIdentity := None;
  env_RecipientIdentity := None; env_SenderRegion := src; env_RecipientRegion := dst;
  env_TrustTier := 0; env_SequenceNumber := 0; env_Payload := None; env_PaddedTo := 0;
  env_Timestamp := 0; env_Signature := None; env_IsDummy := false; env_SchemaType := schema;
  env_SchemaVersion := ""; env_RoutingHint := "" |}.
