(* ===== verification/Transit.v ===== *)
(** * The transit cache (package [internal/transit])

    The bounded in-memory buffer for envelopes whose peers are all unreachable.
    Where Go ranges over the map, the order of the visit is an argument: any
    permutation of the entries of the map. *)

From S2P Require Import Prelude Core.

Definition maxEntries : nat := 1000.
Definition maxTTL : Z := 60 * Second.

(** [time.Time{}]: midnight of 1 January of the year 1. *)
Definition zeroTime : Z := -62135596800 * Second.

Record TransitEntry := { te_Env : Envelope; te_PeerAddr : string; te_Expires : Z }.

Record Cache := { tc_entries : gmap string TransitEntry; tc_ttl : Z }.

Definition NewCache (ttl : Z) : Cache :=
  let ttl := if ttl <=? 0 then 30 * Second else ttl in
  let ttl := if maxTTL <? ttl then maxTTL else ttl in
  {| tc_entries := ∅; tc_ttl := ttl |}.

(** One round of the loop of [evictOldest]. *)
Definition older (acc : string * Z) (kv : string * TransitEntry) : string * Z :=
  if str_eqb acc.1 "" || (te_Expires kv.2 <? acc.2) then (kv.1, te_Expires kv.2) else acc.

Definition oldestKey (order : list (string * TransitEntry)) : string :=
  (foldl older (""%string, zeroTime) order).1.

Definition evictOldest (order : list (string * TransitEntry)) (m : gmap string TransitEntry)
  : gmap string TransitEntry := delete (oldestKey order) m.

Definition Put (now : Z) (order : list (string * TransitEntry)) (env : Envelope) (peerAddr : string)
    (c : Cache) : Cache :=
  let m := if Nat.leb maxEntries (size (tc_entries c)) then evictOldest order (tc_entries c)
           else tc_entries c in
  {| tc_entries := <[env_IdempotencyKey env :=
       {| te_Env := env; te_PeerAddr := peerAddr; te_Expires := now + tc_ttl c |}]> m;
     tc_ttl := tc_ttl c |}.

Definition expired (now : Z) (kv : string * TransitEntry) : Prop := te_Expires kv.2 < now.

#[export] Instance expired_dec now kv : Decision (expired now kv).
Proof. unfold expired. apply _. Defined.

Definition Pending (now : Z) (order : list (string * TransitEntry)) : list TransitEntry :=
  (base.filter (fun kv => ~ expired now kv) order).*2.

Definition Drain (now : Z) (order : list (string * TransitEntry)) (c : Cache) : list TransitEntry * Cache :=
  ((base.filter (expired now) order).*2,
   {| tc_entries := foldr delete (tc_entries c) (base.filter (expired now) order).*1; tc_ttl := tc_ttl c |}).

Definition Delete (key : string) (c : Cache) : Cache :=
  {| tc_entries := delete key (tc_entries c); tc_ttl := tc_ttl c |}.

Definition CacheLen (c : Cache) : nat := size (tc_entries c).

(** A visit of the whole map. *)
Definition visits (order : list (string * TransitEntry)) (c : Cache) : Prop :=
  order ≡ₚ map_to_list (tc_entries c).

(** ** The life of a cache *)

Inductive cache_run : Cache -> Prop :=
| cache_new ttl : cache_run (NewCache ttl)
| cache_put now order env addr c : cache_run c -> visits order c -> cache_run (Put now order env addr c)
| cache_drain now order c : cache_run c -> visits order c -> cache_run (Drain now order c).2
| cache_delete key c : cache_run c -> cache_run (Delete key c).

Record cache_inv (c : Cache) : Prop := {
  ci_size : (size (tc_entries c) <= maxEntries)%nat;
  ci_ttl : 0 < tc_ttl c <= maxTTL;
  ci_key : map_Forall (fun k e => env_IdempotencyKey (te_Env e) = k) (tc_entries c) }.

(** ** Lemmas *)

(** The loop remembers an entry it has seen, and the earliest one unless the
    empty string is a key. *)
Lemma older_fold acc order :
  (acc.1 <> ""%string -> Forall (fun kv => kv.1 <> ""%string) order ->
     (foldl older acc order = acc
      \/ exists kv, kv ∈ order /\ foldl older acc order = (kv.1, te_Expires kv.2))
     /\ (foldl older acc order).2 <= acc.2
     /\ Forall (fun kv => (foldl older acc order).2 <= te_Expires kv.2) order).
Proof.
  revert acc. induction order as [|kv order IH]; intros acc Ha Ho; cbn [foldl].
  { split_and!; [by left | lia | constructor]. }
  apply Forall_cons in Ho as [Hk Ho].
  assert (str_eqb acc.1 "" = false) as E by by apply str_eqb_neq.
  unfold older at 2 4 6 8. rewrite E. cbn [orb].
  destruct (te_Expires kv.2 <? acc.2) eqn:El; go_bool.
  - destruct (IH (kv.1, te_Expires kv.2)) as ([->|(kv' & Hin & ->)] & Hle & Hall); [done..| |].
    + cbn in *. split_and!; [right; exists kv; split; [left|done] | lia | by constructor].
    + cbn in *. split_and!; [right; exists kv'; split; [by right|done] | lia | constructor; [lia|done]].
  - destruct (IH acc) as (Hor & Hle & Hall); [done..|]. split_and!.
    + destruct Hor as [->|(kv' & Hin & ->)]; [by left | right; exists kv'; split; [by right|done]].
    + done.
    + constructor; [lia|done].
Qed.

Lemma oldestKey_In order : order <> [] -> exists e, (oldestKey order, e) ∈ order.
Proof.
  unfold oldestKey. induction order as [|[k e] order IH] using rev_ind; [done|]. intros _.
  rewrite foldl_app. cbn [foldl]. unfold older at 1.
  destruct (str_eqb _ "" || _) eqn:E.
  - exists e. set_solver.
  - destruct order as [|kv order]; [done|]. destruct IH as [e' He']; [done|]. exists e'. set_solver.
Qed.

Lemma oldestKey_min order :
  order <> [] -> Forall (fun kv => kv.1 <> ""%string) order ->
  exists e, (oldestKey order, e) ∈ order /\ Forall (fun kv => te_Expires e <= te_Expires kv.2) order.
Proof.
  destruct order as [|[k e] order]; [done|]. intros _ [Hk Ho]%Forall_cons. unfold oldestKey. cbn [foldl].
  change (older (""%string, zeroTime) (k, e)) with (k, te_Expires e).
  destruct (older_fold (k, te_Expires e) order Hk Ho) as (Hor & Hle & Hall).
  destruct Hor as [Hacc|([k' e'] & Hin & Hacc)]; rewrite Hacc in *; cbn in *.
  - exists e. split; [left|]. by constructor.
  - exists e'. split; [by right|]. by constructor.
Qed.

Lemma visits_lookup order c k e : visits order c -> (k, e) ∈ order <-> tc_entries c !! k = Some e.
Proof. intros ->. apply elem_of_map_to_list. Qed.

Lemma visits_self c : visits (map_to_list (tc_entries c)) c.
Proof. unfold visits. reflexivity. Qed.

Lemma visits_New ttl : visits [] (NewCache ttl).
Proof. unfold visits. cbn. by rewrite map_to_list_empty. Qed.

Lemma visits_nonempty order c : visits order c -> tc_entries c <> ∅ -> order <> [].
Proof.
  intros Hv Hne ->. apply Hne, map_to_list_empty_iff. by apply Permutation_nil_l in Hv.
Qed.

Lemma evictOldest_size order c :
  visits order c -> tc_entries c <> ∅ ->
  S (size (evictOldest order (tc_entries c))) = size (tc_entries c).
Proof.
  intros Hv Hne. destruct (oldestKey_In order) as [e He]; [by eapply visits_nonempty|].
  eapply visits_lookup in He; [|done]. unfold evictOldest.
  rewrite map_size_delete_Some by eauto. pose proof (map_size_non_empty_iff (tc_entries c)) as Hs.
  assert (size (tc_entries c) <> 0%nat) by by apply Hs. lia.
Qed.

Lemma Put_size now order env addr c :
  visits order c -> (size (tc_entries c) <= maxEntries)%nat ->
  (size (tc_entries (Put now order env addr c)) <= maxEntries)%nat.
Proof.
  intros Hv Hs. unfold Put. cbn [tc_entries].
  destruct (Nat.leb maxEntries (size (tc_entries c))) eqn:E.
  - apply Nat.leb_le in E. etransitivity; [apply map_size_insert_le|].
    rewrite evictOldest_size; [done|done|]. intros H0. rewrite H0, map_size_empty in E. unfold maxEntries in E. lia.
  - apply Nat.leb_gt in E. etransitivity; [apply map_size_insert_le|]. lia.
Qed.

Lemma foldr_delete_lookup (m : gmap string TransitEntry) ks k :
  foldr delete m ks !! k = if decide (k ∈ ks) then None else m !! k.
Proof.
  induction ks as [|k' ks IH]; cbn [foldr]; [done|]. rewrite lookup_delete, IH.
  repeat case_decide; set_solver.
Qed.

Lemma Drain_lookup now order c k :
  visits order c ->
  tc_entries (Drain now order c).2 !! k
  = match tc_entries c !! k with
    | Some e => if decide (expired now (k, e)) then None else Some e
    | None => None
    end.
Proof.
  intros Hv. cbn [Drain snd tc_entries]. rewrite foldr_delete_lookup.
  assert (k ∈ (base.filter (expired now) order).*1 <->
          exists e, tc_entries c !! k = Some e /\ expired now (k, e)) as Hk.
  { rewrite list_elem_of_fmap. setoid_rewrite list_elem_of_filter. split.
    - intros ([k' e] & -> & Hx & Hin). exists e. by rewrite <- (visits_lookup order).
    - intros (e & He & Hx). exists (k, e). by rewrite (visits_lookup order c). }
  destruct (tc_entries c !! k) as [e|]; repeat case_decide; naive_solver.
Qed.

Lemma Drain_subseteq now order c : visits order c -> tc_entries (Drain now order c).2 ⊆ tc_entries c.
Proof.
  intros Hv. apply map_subseteq_spec. intros k e. rewrite Drain_lookup by done.
  destruct (tc_entries c !! k); [|done]. case_decide; naive_solver.
Qed.

Lemma visits_NoDup order c : visits order c -> NoDup order.
Proof. intros ->. apply NoDup_map_to_list. Qed.

Lemma visits_drained now order c order' :
  visits order c -> visits order' (Drain now order c).2 ->
  order' ≡ₚ base.filter (fun kv => ~ expired now kv) order.
Proof.
  intros Hv Hv'. apply NoDup_Permutation.
  - by eapply visits_NoDup.
  - apply NoDup_filter. by eapply visits_NoDup.
  - intros [k e]. rewrite list_elem_of_filter, (visits_lookup order c), (visits_lookup order') by done.
    rewrite Drain_lookup by done. destruct (tc_entries c !! k); [case_decide|]; naive_solver.
Qed.

Lemma NewCache_inv ttl : cache_inv (NewCache ttl).
Proof.
  constructor; cbn.
  - rewrite map_size_empty. unfold maxEntries. lia.
  - unfold maxTTL. case_guards; go_bool; unfold Second, Millisecond in *; lia.
  - apply map_Forall_empty.
Qed.

Lemma Put_inv now order env addr c : visits order c -> cache_inv c -> cache_inv (Put now order env addr c).
Proof.
  intros Hv [Hs Ht Hk]. constructor; [by apply Put_size|done|]. apply map_Forall_insert_2; [done|].
  case_guards; [|done]. by apply map_Forall_delete.
Qed.

Lemma sub_inv c m : m ⊆ tc_entries c -> cache_inv c -> cache_inv {| tc_entries := m; tc_ttl := tc_ttl c |}.
Proof.
  intros Hsub [Hs Ht Hk]. constructor; cbn; [|done|].
  - pose proof (map_size_mono _ _ Hsub). lia.
  - intros k e He. apply Hk. by eapply lookup_weaken.
Qed.

(** ** Properties *)

(** C16: The transit cache stays bounded.  Whatever sequence of [Put], [Drain]
    and [Delete] calls a cache goes through, and in whatever order Go visits the
    map, it holds at most 1000 envelopes, each under its own idempotency key, and
    its time to live is positive and at most 60 seconds. *)
Theorem transit_bounded c : cache_run c -> cache_inv c.
Proof.
  induction 1 as [ttl|now order env addr c _ IH Hv|now order c _ IH Hv|key c _ IH].
  - apply NewCache_inv.
  - by apply Put_inv.
  - apply sub_inv; [by apply Drain_subseteq|done].
  - apply sub_inv; [apply delete_subseteq|done].
Qed.

(** What [Put] keeps.  The envelope is stored with its peer and an expiry one
    time-to-live away.  Below capacity no other entry changes; at capacity exactly
    one entry is given up, and no entry expires before it, provided no envelope
    has the empty key (the gateway refuses those). *)
Theorem Put_keeps now order env addr c :
  visits order c -> tc_entries c !! ""%string = None ->
  tc_entries (Put now order env addr c) !! env_IdempotencyKey env
    = Some {| te_Env := env; te_PeerAddr := addr; te_Expires := now + tc_ttl c |}
  /\ ((size (tc_entries c) < maxEntries)%nat ->
      forall k, k <> env_IdempotencyKey env ->
        tc_entries (Put now order env addr c) !! k = tc_entries c !! k)
  /\ ((maxEntries <= size (tc_entries c))%nat ->
      exists victim ve, tc_entries c !! victim = Some ve
        /\ map_Forall (fun _ e => te_Expires ve <= te_Expires e) (tc_entries c)
        /\ forall k, k <> env_IdempotencyKey env ->
             tc_entries (Put now order env addr c) !! k
             = if decide (k = victim) then None else tc_entries c !! k).
Proof.
  intros Hv Hempty. unfold Put. cbn [tc_entries]. split_and!.
  - by rewrite lookup_insert_eq.
  - intros Hs k Hk. rewrite lookup_insert_ne by done. by rewrite (proj2 (Nat.leb_gt _ _)).
  - intros Hs. rewrite (proj2 (Nat.leb_le _ _)) by done.
    destruct (oldestKey_min order) as (e & Hin & Hmin).
    + eapply visits_nonempty; [done|]. intros H0. rewrite H0, map_size_empty in Hs. unfold maxEntries in Hs. lia.
    + apply Forall_forall. intros [k e] Hin%(visits_lookup order c); [|done]. cbn. congruence.
    + eapply visits_lookup in Hin as He; [|done]. exists (oldestKey order), e. split_and!; [done| |].
      * intros k e' He'. rewrite Forall_forall in Hmin. apply (Hmin (k, e')). by eapply visits_lookup.
      * intros k Hk. rewrite lookup_insert_ne by done. unfold evictOldest. rewrite lookup_delete.
        repeat case_decide; naive_solver.
Qed.

(** The flush of the transit cache loses nothing.  At any instant the
    pending and the drained entries together are exactly the entries of the cache;
    [Drain] removes just those whose expiry has passed, so the entries still
    pending, and only they, remain. *)
Theorem Drain_partition now order c :
  visits order c ->
  (Drain now order c).1 ++ Pending now order ≡ₚ (map_to_list (tc_entries c)).*2
  /\ Forall (fun e => te_Expires e < now) (Drain now order c).1
  /\ Forall (fun e => now <= te_Expires e) (Pending now order)
  /\ (forall order', visits order' (Drain now order c).2 ->
       Pending now order' ≡ₚ Pending now order /\ (Drain now order' (Drain now order c).2).1 = []).
Proof.
  intros Hv. split_and!.
  - cbn [Drain fst]. unfold Pending. rewrite <- fmap_app, filter_app_complement. by rewrite Hv.
  - apply Forall_fmap, Forall_forall. intros kv Hin. by apply list_elem_of_filter in Hin as [Hx _].
  - apply Forall_fmap, Forall_forall. intros kv Hin. apply list_elem_of_filter in Hin as [Hx _].
    unfold expired in Hx. cbn. lia.
  - intros order' Hv'. pose proof (visits_drained _ _ _ _ Hv Hv') as Hp. split.
    + unfold Pending. rewrite Hp, list_filter_filter_l; [done|]. tauto.
    + cbn [Drain fst]. assert (base.filter (expired now) order' = []) as ->; [|done].
      apply elem_of_nil_inv. intros kv [Hx Hin]%list_elem_of_filter. rewrite Hp in Hin.
      by apply list_elem_of_filter in Hin as [Hy _].
Qed.

Definition demo_cache : Cache := Put 0 [] (mkEnvelope "k" "RS" "RU" "messaging") "ru:7777" (NewCache 0).

Lemma demo_cache_run : cache_run demo_cache.
Proof. apply cache_put; [apply cache_new | apply visits_New]. Qed.

Lemma transit_bounded_witness : cache_inv demo_cache.
Proof. apply (transit_bounded demo_cache). apply demo_cache_run. Defined.

Lemma Put_keeps_witness :
  tc_entries demo_cache !! "k"%string
  = Some {| te_Env := mkEnvelope "k" "RS" "RU" "messaging"; te_PeerAddr := "ru:7777"; te_Expires := 0 + 30 * Second |}.
Proof.
  refine (proj1 (Put_keeps 0 [] (mkEnvelope "k" "RS" "RU" "messaging") "ru:7777" (NewCache 0) _ _));
    [apply visits_New | reflexivity].
Defined.

Lemma Drain_partition_witness :
  let order := map_to_list (tc_entries demo_cache) in
  (Drain (31 * Second) order demo_cache).1 ++ Pending (31 * Second) order ≡ₚ order.*2.
Proof.
  refine (proj1 (Drain_partition (31 * Second) (map_to_list (tc_entries demo_cache)) demo_cache _)).
  apply visits_self.
Defined.
