(* ===== verification/Delivery.v ===== *)
(** * Delivery to peers (package [internal/delivery])

    The dead-letter queue, the retry loop with exponential backoff, the choice of
    peers by tier and the forwarder that puts them together.  The transport, the
    timers, the clock and the order in which Go visits its maps belong to the
    environment: they are the operations of the class [Runtime] over a world [W],
    which they may change.  The backoff is computed on IEEE 754 binary64 numbers
    as in the code. *)

From S2P Require Import Prelude Core Config Schema Transit.
From Stdlib Require Import SpecFloat Sorted.

Inductive FwdError :=
| TransportError (msg : string)
| ContextError
| NoPeerAvailable (region : string)
| PeersExhausted (region : string)
| PeersExhaustedBuffered (region : string)
| OutsideWindow (corridor : string)
| WindowCheck (e : SchemaError).

(** ** The dead-letter queue ([dlq.go]) *)

Record DLQEntry := {
  dl_Envelope : Envelope;
  dl_PeerAddr : string;
  dl_Attempts : Z;
  dl_LastErr : option FwdError;
  dl_FirstSeenUnix : Z;
  dl_LastAttemptUnix : Z;
  dl_Reason : string;
  dl_NextOpenUnix : Z }.

(** [DLQEntry{Envelope: env, PeerAddr: addr}] *)
Definition mkDLQEntry (env : Envelope) (addr : string) : DLQEntry :=
  {| dl_Envelope := env; dl_PeerAddr := addr; dl_Attempts := 0; dl_LastErr := None;
     dl_FirstSeenUnix := 0; dl_LastAttemptUnix := 0; dl_Reason := ""; dl_NextOpenUnix := 0 |}.

Record DLQ := { dlq_entries : list DLQEntry }.

Definition NewDLQ : DLQ := {| dlq_entries := [] |}.

Definition stampFirstSeen (now : Z) (e : DLQEntry) : DLQEntry :=
  if dl_FirstSeenUnix e =? 0 then
    {| dl_Envelope := dl_Envelope e; dl_PeerAddr := dl_PeerAddr e; dl_Attempts := dl_Attempts e;
       dl_LastErr := dl_LastErr e; dl_FirstSeenUnix := Unix now; dl_LastAttemptUnix := dl_LastAttemptUnix e;
       dl_Reason := dl_Reason e; dl_NextOpenUnix := dl_NextOpenUnix e |}
  else e.

Definition DLQAppend (now : Z) (e : DLQEntry) (d : DLQ) : DLQ :=
  {| dlq_entries := dlq_entries d ++ [stampFirstSeen now e] |}.

Definition DLQEntries (d : DLQ) : list DLQEntry := dlq_entries d.

Definition Remove (index : Z) (d : DLQ) : DLQ :=
  if (index <? 0) || (Z.of_nat (length (dlq_entries d)) <=? index) then d
  else {| dlq_entries := take (Z.to_nat index) (dlq_entries d) ++ drop (Z.to_nat (index + 1)) (dlq_entries d) |}.

Definition Size (d : DLQ) : nat := length (dlq_entries d).

(** ** Retry with backoff ([retry.go]) *)

Definition float64 := spec_float.
Definition float64_of_int (z : Z) : float64 := binary_normalize 53 1024 z 0 false.
Definition fmul : float64 -> float64 -> float64 := SFmul 53 1024.

Record RetryPolicy := { rp_BaseDelay : Z; rp_Multiplier : float64; rp_Cap : Z; rp_MaxAttempts : Z }.

Definition DefaultRetryPolicy : RetryPolicy :=
  {| rp_BaseDelay := Second; rp_Multiplier := float64_of_int 2; rp_Cap := 5 * Minute; rp_MaxAttempts := 10 |}.

(** [int64(f)]: truncation; [other] stands for the value, left to the
    implementation by the language, of a number out of range. *)
Definition int64_of_float (other : float64 -> Z) (f : float64) : Z :=
  match f with
  | S754_zero _ => 0
  | S754_finite sign m e =>
      let v := if e <? 0 then Z.pos m / 2 ^ (- e) else Z.pos m * 2 ^ e in
      let v := if sign then - v else v in
      if (- 2 ^ 63 <=? v) && (v <? 2 ^ 63) then v else other f
  | _ => other f
  end.

Definition nextDelay (other : float64 -> Z) (policy : RetryPolicy) (delay : Z) : Z :=
  let delay := int64_of_float other (fmul (float64_of_int delay) (rp_Multiplier policy)) in
  if rp_Cap policy <? delay then rp_Cap policy else delay.

(** How the loop of [SendWithRetry] ends: with a [return], or past the last
    attempt with the last error and the entry as updated. *)
Inductive retryEnd (S : Type) :=
| Returned (err : option FwdError) (s : S)
| Exhausted (lastErr : option FwdError) (entry : DLQEntry) (s : S).
Arguments Returned {S}.
Arguments Exhausted {S}.

Definition recordAttempt (now attempt : Z) (err : FwdError) (e : DLQEntry) : DLQEntry :=
  {| dl_Envelope := dl_Envelope e; dl_PeerAddr := dl_PeerAddr e; dl_Attempts := attempt;
     dl_LastErr := Some err; dl_FirstSeenUnix := dl_FirstSeenUnix e; dl_LastAttemptUnix := Unix now;
     dl_Reason := dl_Reason e; dl_NextOpenUnix := dl_NextOpenUnix e |}.

Section Retry.
Context {S : Type}.
(** [send()], the wait of the [select] (false when the context ends first), the clock. *)
Context (send : S -> option FwdError * S) (wait : Z -> S -> bool * S) (clock : S -> Z).
Context (other : float64 -> Z) (policy : RetryPolicy).

(** [n] is the number of attempts left, [MaxAttempts - attempt + 1]. *)
Fixpoint retryLoop (n : nat) (attempt delay : Z) (lastErr : option FwdError) (entry : DLQEntry) (s : S)
  : retryEnd S :=
  match n with
  | O => Exhausted lastErr entry s
  | Datatypes.S n' =>
      match send s with
      | (None, s1) => Returned None s1
      | (Some err, s1) =>
          let entry := recordAttempt (clock s1) attempt err entry in
          if attempt =? rp_MaxAttempts policy then Exhausted (Some err) entry s1 else
          match wait delay s1 with
          | (false, s2) => Returned (Some ContextError) s2
          | (true, s2) => retryLoop n' (attempt + 1) (nextDelay other policy delay) (Some err) entry s2
          end
      end
  end.

Definition SendWithRetry (dlq : option DLQ) (entry : DLQEntry) (s : S) : option FwdError * option DLQ * S :=
  match retryLoop (Z.to_nat (rp_MaxAttempts policy)) 1 (rp_BaseDelay policy) None entry s with
  | Returned err s' => (err, dlq, s')
  | Exhausted lastErr entry' s' => (lastErr, DLQAppend (clock s') entry' <$> dlq, s')
  end.
End Retry.

(** ** The forwarder ([forwarder.go]) *)

(** The environment of a forwarder.  The world changes with every call and
    every wait; clock readings with neither in between coincide. *)
Class Runtime (W : Type) := {
  rt_send : string -> Envelope -> W -> string * option FwdError * W;
  rt_wait : Z -> W -> bool * W;
  rt_now : W -> Z;
  rt_convert : float64 -> Z;
  rt_peers : gmap string PeerConfig -> W -> list (string * PeerConfig);
  rt_entries : gmap string TransitEntry -> W -> list (string * TransitEntry);
  rt_peers_visit : forall m w, rt_peers m w ≡ₚ map_to_list m;
  rt_entries_visit : forall m w, rt_entries m w ≡ₚ map_to_list m }.

(** One round of the loop of [PeersFor]. *)
Definition classify (allowVia : list string) (recipientRegion : string)
    (acc : list PeerConfig * list PeerConfig * list PeerConfig) (kp : string * PeerConfig)
  : list PeerConfig * list PeerConfig * list PeerConfig :=
  let '(regional, alliance, global) := acc in
  let (key, peer) := kp in
  if nonempty allowVia && negb (Contains allowVia (peer_NodeScope peer)) then acc
  else if str_eqb (peer_NodeScope peer) "regional" then
    if str_eqb key recipientRegion then (regional ++ [peer], alliance, global) else acc
  else if str_eqb (peer_NodeScope peer) "alliance" then
    if Contains (peer_Regions peer) recipientRegion then (regional, alliance ++ [peer], global) else acc
  else if str_eqb (peer_NodeScope peer) "global" then (regional, alliance, global ++ [peer])
  else acc.

Definition PeersFor (allowVia : list string) (order : list (string * PeerConfig)) (recipientRegion : string)
  : list PeerConfig :=
  let '(regional, alliance, global) := foldl (classify allowVia recipientRegion) ([], [], []) order in
  (regional ++ alliance) ++ global.

Definition reorderByHint (peers : list PeerConfig) (hint : string) : list PeerConfig :=
  match list_find (fun p => peer_Region p = hint) peers with
  | Some (i, p) => p :: take i peers ++ drop (i + 1) peers
  | None => peers
  end.

Record Forwarder := { fw_cfg : Config; fw_retryPolicy : RetryPolicy }.

(** What a forwarder changes: the queue and the cache it points to ([None] for a
    nil pointer) and the world. *)
Record FwdState (W : Type) := { fs_dlq : option DLQ; fs_transit : option Cache; fs_world : W }.
Arguments Build_FwdState {W}.
Arguments fs_dlq {W}.
Arguments fs_transit {W}.
Arguments fs_world {W}.

Definition NewForwarder (cfg : Config) : Forwarder := {| fw_cfg := cfg; fw_retryPolicy := DefaultRetryPolicy |}.

Definition NewForwarderWithPolicy (cfg : Config) (policy : RetryPolicy) : Forwarder :=
  {| fw_cfg := cfg; fw_retryPolicy := policy |}.

Section Forward.
Context (LoadLocation : string -> option Location).

(** The next opening time and the error, as the Go function returns them. *)
Definition checkCutoffWindow (now : Z) (cfg : Config) (env : Envelope) : Z * option FwdError :=
  let windows := iso_CutoffWindows (sr_Iso20022 (cfg_SchemaRegistry cfg)) in
  if Nat.eqb (size windows) 0 then (zeroTime, None) else
  let corridorKey := append (env_SenderRegion env) (append "-" (env_RecipientRegion env)) in
  match windows !! corridorKey with
  | None => (zeroTime, None)
  | Some w =>
      match IsInWindow LoadLocation w now with
      | Err e => (zeroTime, Some (WindowCheck e))
      | Ok true => (zeroTime, None)
      | Ok false =>
          (match NextOpen LoadLocation w now with Ok no => no | Err _ => zeroTime end,
           Some (OutsideWindow corridorKey))
      end
  end.

Context {W : Type} `{Runtime W}.

(** The loop over the peers: the root hash the first reachable peer returned. *)
Fixpoint tryPeers (policy : RetryPolicy) (env : Envelope) (peers : list PeerConfig) (w : W)
  : option string * W :=
  match peers with
  | [] => (None, w)
  | peer :: rest =>
      let addr := peer_Addr peer in
      let send := fun s : string * W => let '(hash, err, w') := rt_send addr env s.2 in (err, (hash, w')) in
      let wait := fun d (s : string * W) => let (b, w') := rt_wait d s.2 in (b, (s.1, w')) in
      match SendWithRetry send wait (fun s => rt_now s.2) rt_convert policy None
              (mkDLQEntry env addr) (""%string, w) with
      | (None, _, (hash, w')) => (Some hash, w')
      | (Some _, _, (_, w')) => tryPeers policy env rest w'
      end
  end.

Definition cutoffEntry (env : Envelope) (nextOpen : Z) : DLQEntry :=
  {| dl_Envelope := env; dl_PeerAddr := ""; dl_Attempts := 0; dl_LastErr := None; dl_FirstSeenUnix := 0;
     dl_LastAttemptUnix := 0; dl_Reason := "outside_cutoff_window";
     dl_NextOpenUnix := if nextOpen =? zeroTime then 0 else UnixMilli nextOpen |}.

Definition firstAddr (peers : list PeerConfig) : string :=
  match peers with p :: _ => peer_Addr p | [] => "" end.

Definition Forward (f : Forwarder) (env : Envelope) (st : FwdState W) : outcome FwdError string * FwdState W :=
  let w := fs_world st in
  let cutoff := if str_eqb (env_SchemaType env) Iso20022 then checkCutoffWindow (rt_now w) (fw_cfg f) env
                else (zeroTime, None) in
  match cutoff with
  | (nextOpen, Some err) =>
      (Err err, {| fs_dlq := DLQAppend (rt_now w) (cutoffEntry env nextOpen) <$> fs_dlq st;
                   fs_transit := fs_transit st; fs_world := w |})
  | (_, None) =>
      let region := env_RecipientRegion env in
      let peers := PeersFor (pc_AllowVia (cfg_Policy (fw_cfg f)))
                     (rt_peers (net_Peers (cfg_Network (fw_cfg f))) w) region in
      if negb (nonempty peers) then (Err (NoPeerAvailable region), st) else
      let peers := if negb (str_eqb (env_RoutingHint env) "") then reorderByHint peers (env_RoutingHint env)
                   else peers in
      match tryPeers (fw_retryPolicy f) env peers w with
      | (Some peerRootHash, w') =>
          (Ok peerRootHash, {| fs_dlq := fs_dlq st; fs_transit := fs_transit st; fs_world := w' |})
      | (None, w') =>
          match fs_transit st with
          | Some c =>
              (Err (PeersExhaustedBuffered region),
               {| fs_dlq := fs_dlq st;
                  fs_transit := Some (Put (rt_now w') (rt_entries (tc_entries c) w') env (firstAddr peers) c);
                  fs_world := w' |})
          | None =>
              (Err (PeersExhausted region),
               {| fs_dlq := DLQAppend (rt_now w') (mkDLQEntry env (firstAddr peers)) <$> fs_dlq st;
                  fs_transit := None; fs_world := w' |})
          end
      end
  end.
End Forward.

(** ** Lemmas: peers *)

(** Which peers may carry an envelope to a region. *)
Definition reaches (region : string) (kp : string * PeerConfig) : Prop :=
  (peer_NodeScope kp.2 = "regional"%string /\ kp.1 = region)
  \/ (peer_NodeScope kp.2 = "alliance"%string /\ region ∈ peer_Regions kp.2)
  \/ peer_NodeScope kp.2 = "global"%string.

Definition eligible (allowVia : list string) (region : string) (kp : string * PeerConfig) : Prop :=
  (allowVia = [] \/ peer_NodeScope kp.2 ∈ allowVia) /\ reaches region kp.

#[export] Instance eligible_dec allowVia region kp : Decision (eligible allowVia region kp).
Proof. unfold eligible, reaches. apply _. Defined.

(** Regional before alliance before global. *)
Definition rank (p : PeerConfig) : nat :=
  if str_eqb (peer_NodeScope p) "regional" then 0 else if str_eqb (peer_NodeScope p) "alliance" then 1 else 2.

Definition candidates (allowVia : list string) (region scope : string) (order : list (string * PeerConfig))
  : list PeerConfig :=
  (base.filter (fun kp => eligible allowVia region kp /\ peer_NodeScope kp.2 = scope) order).*2.

Lemma candidates_snoc allowVia region scope order kp :
  candidates allowVia region scope (order ++ [kp])
  = candidates allowVia region scope order
    ++ (if decide (eligible allowVia region kp /\ peer_NodeScope kp.2 = scope) then [kp.2] else []).
Proof. unfold candidates. rewrite filter_app, fmap_app. f_equal. rewrite filter_cons. by case_decide. Qed.

Lemma classify_candidates allowVia region order :
  foldl (classify allowVia region) ([], [], []) order
  = (candidates allowVia region "regional" order, candidates allowVia region "alliance" order,
     candidates allowVia region "global" order).
Proof.
  induction order as [|[key p] order IH] using rev_ind; [done|].
  rewrite foldl_app, IH, !candidates_snoc. cbn [foldl classify]. unfold eligible, reaches. cbn [fst snd].
  case_guards; go_bool; repeat case_decide; rewrite ?app_nil_r; try reflexivity; exfalso;
    repeat match goal with E : peer_NodeScope p = _ |- _ => rewrite E in * end; naive_solver.
Qed.

Lemma PeersFor_candidates allowVia order region :
  PeersFor allowVia order region
  = (candidates allowVia region "regional" order ++ candidates allowVia region "alliance" order)
    ++ candidates allowVia region "global" order.
Proof. unfold PeersFor. by rewrite classify_candidates. Qed.

Lemma candidates_split allowVia region order :
  PeersFor allowVia order region ≡ₚ (base.filter (eligible allowVia region) order).*2.
Proof.
  rewrite PeersFor_candidates.
  induction order as [|kp order IH] using rev_ind; [done|].
  rewrite !candidates_snoc, filter_app, fmap_app, <- IH, filter_cons. cbn [base.filter list_filter].
  assert (eligible allowVia region kp ->
    peer_NodeScope kp.2 = "regional"%string \/ peer_NodeScope kp.2 = "alliance"%string
    \/ peer_NodeScope kp.2 = "global"%string) as Hs by (unfold eligible, reaches; tauto).
  destruct (decide (eligible allowVia region kp)) as [He|He].
  - destruct (Hs He) as [E|[E|E]]; rewrite E; repeat case_decide;
      repeat match goal with
      | Hx : _ /\ ?a = ?b |- _ => destruct Hx as [_ Hx]; discriminate Hx
      | Hx : ~ (_ /\ ?a = ?a) |- _ => destruct Hx; split; [exact He | reflexivity]
      end; cbn; rewrite ?app_nil_r; solve_Permutation.
  - rewrite !decide_False by tauto. by rewrite !app_nil_r.
Qed.

Definition tier_le (p q : PeerConfig) : Prop := (rank p <= rank q)%nat.

Lemma candidates_scope allowVia region scope order p :
  p ∈ candidates allowVia region scope order -> peer_NodeScope p = scope.
Proof.
  intros (kp & -> & Hin)%list_elem_of_fmap. by apply list_elem_of_filter in Hin as [[_ Hs] _].
Qed.

Lemma candidates_rank allowVia region order p q scope scope' :
  p ∈ candidates allowVia region scope order -> q ∈ candidates allowVia region scope' order ->
  (scope, scope') ∈ [("regional", "regional"); ("regional", "alliance"); ("regional", "global");
                     ("alliance", "alliance"); ("alliance", "global"); ("global", "global")]%string ->
  tier_le p q.
Proof.
  intros Hp%candidates_scope Hq%candidates_scope Hs. unfold tier_le, rank. rewrite Hp, Hq. clear Hp Hq.
  rewrite !elem_of_cons in Hs. destruct_or!; simplify_eq; try (vm_compute; lia).
  by eapply not_elem_of_nil in Hs.
Qed.

Lemma StronglySorted_all {A} (R : A -> A -> Prop) (l : list A) :
  (forall x y, x ∈ l -> y ∈ l -> R x y) -> StronglySorted R l.
Proof.
  induction l as [|x l IH]; intros Hr; constructor.
  - apply IH. intros y z Hy Hz. apply Hr; by right.
  - apply Forall_forall. intros y Hy. apply Hr; [left | by right].
Qed.

Lemma StronglySorted_append {A} (R : A -> A -> Prop) (l k : list A) :
  StronglySorted R l -> StronglySorted R k -> (forall x y, x ∈ l -> y ∈ k -> R x y) ->
  StronglySorted R (l ++ k).
Proof.
  intros Hl Hk Hr. induction Hl as [|x l Hl IH Hx]; cbn; [done|]. constructor.
  - apply IH. intros y z Hy Hz. apply Hr; [by right|done].
  - apply Forall_app. split; [done|]. apply Forall_forall. intros y Hy. apply Hr; [left|done].
Qed.

Lemma PeersFor_sorted allowVia order region : StronglySorted tier_le (PeersFor allowVia order region).
Proof.
  rewrite PeersFor_candidates.
  repeat (apply StronglySorted_append || (apply StronglySorted_all)); intros p q Hp Hq;
    rewrite ?elem_of_app in Hp; destruct_or?; (eapply candidates_rank; [exact Hp || exact H | exact Hq |]); set_solver.
Qed.

Lemma reorderByHint_perm peers hint : reorderByHint peers hint ≡ₚ peers.
Proof.
  unfold reorderByHint. destruct (list_find _ peers) as [[i p]|] eqn:E; [|done].
  apply list_find_Some in E as (Hi & _ & _). rewrite <- (take_drop_middle peers i p) at 3 by done.
  rewrite Nat.add_1_r. by rewrite Permutation_middle.
Qed.

(** ** Lemmas: the retry loop *)

Section RetryLemmas.
Context {S : Type} (send : S -> option FwdError * S) (wait : Z -> S -> bool * S) (clock : S -> Z).
Context (other : float64 -> Z) (policy : RetryPolicy).

(** Ends of the loop that are backed by the last call of [send] or by the
    end of the context. *)
Definition end_ok (r : retryEnd S) : Prop :=
  match r with
  | Returned None s' => exists s0, send s0 = (None, s')
  | Returned (Some e) _ => e = ContextError
  | Exhausted None _ _ => False
  | Exhausted (Some e) _ _ => True
  end.

Lemma retryLoop_end n attempt delay lastErr entry s :
  n <> O \/ lastErr <> None ->
  end_ok (retryLoop send wait clock other policy n attempt delay lastErr entry s).
Proof.
  revert attempt delay lastErr entry s. induction n as [|n IH]; intros attempt delay lastErr entry s Hn; cbn.
  - destruct lastErr; [done|]. naive_solver.
  - destruct (send s) as [[err|] s1] eqn:Es; [|by exists s].
    destruct (attempt =? _); [done|]. destruct (wait delay s1) as [[] s2]; [|done]. apply IH. by right.
Qed.

Lemma SendWithRetry_nil dlq entry s dlq' s' :
  1 <= rp_MaxAttempts policy ->
  SendWithRetry send wait clock other policy dlq entry s = (None, dlq', s') ->
  dlq' = dlq /\ exists s0, send s0 = (None, s').
Proof.
  intros Hm. unfold SendWithRetry.
  pose proof (retryLoop_end (Z.to_nat (rp_MaxAttempts policy)) 1 (rp_BaseDelay policy) None entry s) as He.
  destruct (retryLoop _ _ _ _ _ _ _ _ _ _ _) as [err s1|err entry' s1]; intros [= -> <- <-].
  - split; [done|]. apply He. left. lia.
  - destruct He. left. lia.
Qed.

(** A [send] that always succeeds is called once. *)
Lemma SendWithRetry_live dlq entry s :
  1 <= rp_MaxAttempts policy -> (send s).1 = None ->
  SendWithRetry send wait clock other policy dlq entry s = (None, dlq, (send s).2).
Proof.
  intros Hm Hs. unfold SendWithRetry. destruct (Z.to_nat (rp_MaxAttempts policy)) eqn:E; [lia|].
  cbn. by destruct (send s) as [[]].
Qed.
(** What a send and a wait keep, the loop keeps. *)
Lemma retryLoop_keeps (P : S -> Prop) n attempt delay lastErr entry s :
  (forall s, P s -> P (send s).2) -> (forall d s, P s -> P (wait d s).2) -> P s ->
  match retryLoop send wait clock other policy n attempt delay lastErr entry s with
  | Returned _ s' | Exhausted _ _ s' => P s'
  end.
Proof.
  intros Hs Hw. revert attempt delay lastErr entry s.
  induction n as [|n IH]; intros attempt delay lastErr entry s Hp; cbn; [done|].
  pose proof (Hs s Hp) as Hp1. destruct (send s) as [[err|] s1]; [|done]. cbn in Hp1.
  destruct (attempt =? _); [done|]. pose proof (Hw delay s1 Hp1) as Hp2. destruct (wait delay s1) as [[] s2]; [|done]. by apply IH.
Qed.

Lemma SendWithRetry_keeps (P : S -> Prop) dlq entry s :
  (forall s, P s -> P (send s).2) -> (forall d s, P s -> P (wait d s).2) -> P s ->
  P (SendWithRetry send wait clock other policy dlq entry s).2.
Proof.
  intros Hs Hw Hp. unfold SendWithRetry.
  pose proof (retryLoop_keeps P (Z.to_nat (rp_MaxAttempts policy)) 1 (rp_BaseDelay policy) None entry s Hs Hw Hp) as Hk.
  by destruct (retryLoop _ _ _ _ _ _ _ _ _ _ _).
Qed.
End RetryLemmas.

Section TryLemmas.
Context {W : Type} `{Runtime W}.

Lemma tryPeers_delivered policy env peers w hash w' :
  1 <= rp_MaxAttempts policy ->
  tryPeers policy env peers w = (Some hash, w') ->
  exists peer w0, peer ∈ peers /\ rt_send (peer_Addr peer) env w0 = (hash, None, w').
Proof.
  intros Hm. revert w. induction peers as [|p peers IH]; intros w; cbn; [done|].
  destruct (SendWithRetry _ _ _ _ _ _ _ _) as [[[e|] d] [h w1]] eqn:Es.
  - intros (q & w0 & Hq & Hs)%IH. exists q, w0. split; [by right|done].
  - intros [= -> ->]. apply SendWithRetry_nil in Es as (_ & [h0 w0] & Hs); [|done]. cbn in Hs.
    exists p, w0. split; [left|]. destruct (rt_send _ _ w0) as [[h' e'] w'']. naive_solver.
Qed.

Lemma tryPeers_live policy env peers w peer :
  1 <= rp_MaxAttempts policy -> peer ∈ peers ->
  (forall w0, (rt_send (peer_Addr peer) env w0).1.2 = None) ->
  exists hash, (tryPeers policy env peers w).1 = Some hash.
Proof.
  intros Hm Hin Hlive. revert w. induction Hin as [p peers|p q peers Hin IH]; intros w; cbn.
  - rewrite SendWithRetry_live; [|done|].
    + cbn. specialize (Hlive w). destruct (rt_send _ _ w) as [[h e] w1]. cbn in *. eauto.
    + cbn. specialize (Hlive w). by destruct (rt_send _ _ w) as [[h e] w1].
  - destruct (SendWithRetry _ _ _ _ _ _ _ _) as [[[e|] d] [h w1]]; [by apply IH | cbn; eauto].
Qed.

Lemma tryPeers_keeps (P : W -> Prop) policy env peers w :
  (forall addr w, P w -> P (rt_send addr env w).2) -> (forall d w, P w -> P (rt_wait d w).2) -> P w ->
  P (tryPeers policy env peers w).2.
Proof.
  intros Hs Hw. revert w. induction peers as [|p peers IH]; intros w Hp; cbn [tryPeers]; [done|]. cbv zeta.
  match goal with |- context [SendWithRetry ?send ?wait ?clock ?other ?pol ?dlq ?entry ?st] =>
    assert (P (SendWithRetry send wait clock other pol dlq entry st).2.2) as Hk;
      [apply (SendWithRetry_keeps send wait clock other pol (fun hw => P hw.2)); [| |done]|]
  end.
  { intros [h0 w0] Hp0. specialize (Hs (peer_Addr p) w0 Hp0). cbn. by destruct (rt_send _ _ _) as [[h1 e1] w1]. }
  { intros d [h0 w0] Hp0. specialize (Hw d w0 Hp0). cbn. by destruct (rt_wait _ _) as [b1 w1]. }
  destruct (SendWithRetry _ _ _ _ _ _ _ _) as [[[e|] d] [h w1]]; [by apply IH|done].
Qed.
End TryLemmas.

(** What a send of the envelope and a wait keep of the world, [Forward] keeps. *)
Lemma Forward_keeps (LoadLocation : string -> option Location) {W : Type} `{Runtime W} (P : W -> Prop) f env (st : FwdState W) :
  (forall addr w, P w -> P (rt_send addr env w).2) -> (forall d w, P w -> P (rt_wait d w).2) -> P (fs_world st) ->
  P (fs_world (Forward LoadLocation f env st).2).
Proof.
  intros Hs Hw Hp. unfold Forward. cbn zeta. destruct (if str_eqb _ Iso20022 then _ else _) as [no [err|]]; [done|].
  destruct (negb _); [done|].
  match goal with |- context [tryPeers ?pol env ?peers ?w] => pose proof (tryPeers_keeps P pol env peers w Hs Hw Hp) as Hk end.
  destruct (tryPeers _ _ _ _) as [[h|] w']; [done|]. by destruct (fs_transit st).
Qed.

(** When the first peer for the region answers at once, nobody else is asked. *)
Lemma Forward_first (LoadLocation : string -> option Location) {W : Type} `{Runtime W} f env (st : FwdState W) p rest hash w' :
  1 <= rp_MaxAttempts (fw_retryPolicy f) -> env_SchemaType env <> Iso20022 -> env_RoutingHint env = ""%string ->
  PeersFor (pc_AllowVia (cfg_Policy (fw_cfg f))) (rt_peers (net_Peers (cfg_Network (fw_cfg f))) (fs_world st))
    (env_RecipientRegion env) = p :: rest ->
  rt_send (peer_Addr p) env (fs_world st) = (hash, None, w') ->
  Forward LoadLocation f env st = (Ok hash, {| fs_dlq := fs_dlq st; fs_transit := fs_transit st; fs_world := w' |}).
Proof.
  intros Hm Hs Hh Hp Hr. unfold Forward. cbn zeta. rewrite (proj2 (str_eqb_neq _ _) Hs), Hp, Hh, str_eqb_refl. cbn [negb nonempty tryPeers]. cbv zeta.
  rewrite SendWithRetry_live; cbn [fst snd]; rewrite ?Hr; done.
Qed.

(** The envelope is not held back for settlement: only payments are, where the corridor
    has a window and it is closed. *)
Definition window_open (LoadLocation : string -> option Location) (now : Z) (cfg : Config) (env : Envelope) : Prop :=
  env_SchemaType env = Iso20022 ->
  match iso_CutoffWindows (sr_Iso20022 (cfg_SchemaRegistry cfg))
          !! append (env_SenderRegion env) (append "-" (env_RecipientRegion env)) with
  | Some w => IsInWindow LoadLocation w now = Ok true
  | None => True
  end.

Lemma cutoff_open LoadLocation now cfg env :
  window_open LoadLocation now cfg env ->
  (if str_eqb (env_SchemaType env) Iso20022 then checkCutoffWindow LoadLocation now cfg env else (zeroTime, None)) = (zeroTime, None).
Proof.
  unfold window_open. intros Ho. destruct (str_eqb _ Iso20022) eqn:E; [|done]. go_bool. specialize (Ho E). unfold checkCutoffWindow. cbn zeta.
  destruct (Nat.eqb _ 0); [done|]. destruct (_ !! _) as [w|]; [|done]. by rewrite Ho.
Qed.

(** A root hash comes from a peer for the region, as the answer of the last call. *)
Lemma Forward_delivered (LoadLocation : string -> option Location) {W : Type} `{Runtime W} f env (st : FwdState W) hash st' :
  1 <= rp_MaxAttempts (fw_retryPolicy f) -> Forward LoadLocation f env st = (Ok hash, st') ->
  exists peer w0, peer ∈ PeersFor (pc_AllowVia (cfg_Policy (fw_cfg f)))
                           (rt_peers (net_Peers (cfg_Network (fw_cfg f))) (fs_world st)) (env_RecipientRegion env)
    /\ rt_send (peer_Addr peer) env w0 = (hash, None, fs_world st').
Proof.
  intros Hm. unfold Forward. cbn zeta. destruct (if str_eqb _ Iso20022 then _ else _) as [no [err|]]; [done|].
  destruct (negb (nonempty _)); [done|]. destruct (tryPeers _ _ _ _) as [[h|] w'] eqn:Et; [|by destruct (fs_transit st)].
  intros [= -> <-]. apply tryPeers_delivered in Et as (peer & w0 & Hin & Hs); [|done]. exists peer, w0. split; [|exact Hs].
  destruct (negb _) in Hin; [by rewrite reorderByHint_perm in Hin|done].
Qed.

(** A retry against scripted answers: attempt [k] gets the answer [results k],
    and the context ends during the wait after it when [cancelled k]. *)
Section Scripted.
Context (results : nat -> option FwdError) (cancelled : nat -> bool) (now : Z) (other : float64 -> Z).
Context (policy : RetryPolicy).

Definition scriptSend (k : nat) : option FwdError * nat := (results k, S k).
Definition scriptWait (_ : Z) (k : nat) : bool * nat := (negb (cancelled (pred k)), k).

Definition scripted (n : nat) :=
  retryLoop scriptSend scriptWait (fun _ => now) other policy n.

(** Attempt [j] fails and the wait after it runs to its end. *)
Definition fails (j : nat) : Prop := results j <> None /\ cancelled j = false.

(** The fields of a dead-letter entry the loop does not touch. *)
Definition same_envelope (e e' : DLQEntry) : Prop :=
  dl_Envelope e' = dl_Envelope e /\ dl_PeerAddr e' = dl_PeerAddr e
  /\ dl_FirstSeenUnix e' = dl_FirstSeenUnix e.

Lemma scripted_skip k n attempt delay lastErr entry j :
  (forall i, (j <= i < j + k)%nat -> fails i) -> attempt + Z.of_nat k <= rp_MaxAttempts policy ->
  exists delay' lastErr' entry', same_envelope entry entry'
    /\ scripted (k + n) attempt delay lastErr entry j
       = scripted n (attempt + Z.of_nat k) delay' lastErr' entry' (j + k).
Proof.
  revert attempt delay lastErr entry j. induction k as [|k IH]; intros attempt delay lastErr entry j Hf Hm.
  { exists delay, lastErr, entry. split; [done|]. by rewrite Nat.add_0_r, Z.add_0_r. }
  destruct (Hf j ltac:(lia)) as [Hr Hc]. destruct (results j) as [err|] eqn:Er; [|done].
  destruct (IH (attempt + 1) (nextDelay other policy delay) (Some err)
              (recordAttempt now attempt err entry) (S j)) as (d & l & e & He & Heq).
  - intros i Hi. apply Hf. lia.
  - lia.
  - exists d, l, e. split; [exact He|]. cbn -[Z.of_nat]. rewrite Er.
    rewrite (proj2 (Z.eqb_neq _ _)) by lia. cbn. rewrite Hc. cbn.
    unfold scripted in Heq. rewrite Heq. f_equal; lia.
Qed.

Lemma SendWithRetry_scripted dlq entry n :
  rp_MaxAttempts policy = Z.of_nat (S n) ->
  let run := SendWithRetry scriptSend scriptWait (fun _ => now) other policy dlq entry O in
  (forall k, (k <= n)%nat -> (forall j, (j < k)%nat -> fails j) -> results k = None -> run = (None, dlq, S k))
  /\ (forall k, (k < n)%nat -> (forall j, (j < k)%nat -> fails j) -> results k <> None -> cancelled k = true ->
        run = (Some ContextError, dlq, S k))
  /\ (forall e, (forall j, (j < n)%nat -> fails j) -> results n = Some e ->
        exists entry', run = (Some e, DLQAppend now entry' <$> dlq, S n) /\ same_envelope entry entry'
          /\ dl_Attempts entry' = rp_MaxAttempts policy /\ dl_LastErr entry' = Some e).
Proof.
  intros Hm. cbn zeta. unfold SendWithRetry. rewrite Hm, Nat2Z.id.
  assert (forall k, (k <= n)%nat -> (forall j, (j < k)%nat -> fails j) ->
    exists d l e, same_envelope entry e
      /\ scripted (S n) 1 (rp_BaseDelay policy) None entry 0
         = scripted (S (n - k)) (1 + Z.of_nat k) d l e k) as Hskip.
  { intros k Hk Hf. destruct (scripted_skip k (S (n - k)) 1 (rp_BaseDelay policy) None entry 0)
      as (d & l & e & He & Heq); [intros i Hi; apply Hf; lia | lia |].
    exists d, l, e. split; [done|]. replace (S n) with (k + S (n - k))%nat by lia. exact Heq. }
  fold (scripted (S n)). split_and!.
  - intros k Hk Hf Hr. destruct (Hskip k Hk Hf) as (d & l & e & _ & ->). cbn. by rewrite Hr.
  - intros k Hk Hf Hr Hc. destruct (Hskip k ltac:(lia) Hf) as (d & l & e & _ & ->). cbn -[Z.of_nat].
    destruct (results k); [|done]. rewrite (proj2 (Z.eqb_neq _ _)) by lia. cbn. by rewrite Hc.
  - intros err Hf Hr. destruct (Hskip n ltac:(lia) Hf) as (d & l & e & He & ->). rewrite Nat.sub_diag.
    cbn -[Z.of_nat]. rewrite Hr, (proj2 (Z.eqb_eq _ _)) by lia.
    eexists. split; [reflexivity|]. split_and!; try apply He; cbn -[Z.of_nat]; [lia | done].
Qed.
End Scripted.

(** ** Properties *)

(** C21: Peer selection.  In whatever order Go visits the peer map, [PeersFor]
    returns exactly the peers that may carry the envelope to the region (the
    regional peer of the region, the alliance peers that list it, every global
    peer; each only when its tier is allowed), each once, regional peers before
    alliance peers before global ones. *)
Theorem PeersFor_exact allowVia order region (m : gmap string PeerConfig) :
  order ≡ₚ map_to_list m ->
  PeersFor allowVia order region ≡ₚ (base.filter (eligible allowVia region) (map_to_list m)).*2
  /\ StronglySorted tier_le (PeersFor allowVia order region).
Proof.
  intros Hv. split; [|apply PeersFor_sorted]. rewrite candidates_split. by rewrite Hv.
Qed.

(** A routing hint only reorders.  The reordered list holds the same peers;
    without a peer of the hinted region it is unchanged; otherwise the first peer
    of that region comes first and the others keep their relative order. *)
Theorem reorderByHint_stable peers hint :
  reorderByHint peers hint ≡ₚ peers
  /\ (Forall (fun p => peer_Region p <> hint) peers -> reorderByHint peers hint = peers)
  /\ (forall l p r, peers = l ++ p :: r -> Forall (fun q => peer_Region q <> hint) l -> peer_Region p = hint ->
      reorderByHint peers hint = p :: l ++ r).
Proof.
  split_and!.
  - apply reorderByHint_perm.
  - intros Hn. unfold reorderByHint. by rewrite (proj2 (list_find_None _ _)).
  - intros l p r -> Hl Hp. unfold reorderByHint. rewrite list_find_app_r by by apply list_find_None.
    cbn. rewrite decide_True by done. cbn. by rewrite take_app_length, <- drop_drop, drop_app_length.
Qed.

(** C34: The outcome of a retried send.  With a positive number of attempts the
    loop stops at the first attempt that succeeds (nil, nothing dead-lettered), or
    when the context ends during a wait (the context's error), or after exactly
    [MaxAttempts] failures; then the last error is returned and one entry with
    the envelope, the peer, the number of attempts and the last error is queued. *)
Theorem SendWithRetry_outcome results cancelled now other policy dlq entry n :
  rp_MaxAttempts policy = Z.of_nat (S n) ->
  let run := SendWithRetry (scriptSend results) (scriptWait cancelled) (fun _ => now) other policy dlq entry O in
  (forall k, (k <= n)%nat -> (forall j, (j < k)%nat -> fails results cancelled j) -> results k = None ->
     run = (None, dlq, S k))
  /\ (forall k, (k < n)%nat -> (forall j, (j < k)%nat -> fails results cancelled j) ->
        results k <> None -> cancelled k = true -> run = (Some ContextError, dlq, S k))
  /\ (forall e, (forall j, (j < n)%nat -> fails results cancelled j) -> results n = Some e ->
        exists entry', run = (Some e, DLQAppend now entry' <$> dlq, S n) /\ same_envelope entry entry'
          /\ dl_Attempts entry' = rp_MaxAttempts policy /\ dl_LastErr entry' = Some e).
Proof. apply SendWithRetry_scripted. Qed.

(** The default backoff schedule.  Against a peer that never answers the
    default policy makes ten attempts and waits 1, 2, 4, ..., 256 seconds between
    them, doubling in binary64 arithmetic without loss: 511 seconds in all; the
    delay after [k] failures is always the smaller of [2^k] seconds and the
    five-minute cap. *)
Theorem default_backoff other err now dlq entry :
  (SendWithRetry (fun s : nat * list Z => (Some err, (S s.1, s.2))) (fun d s => (true, (s.1, s.2 ++ [d])))
     (fun _ => now) other DefaultRetryPolicy dlq entry (O, [])).2
    = (10%nat, (fun k => 2 ^ k * Second) <$> [0; 1; 2; 3; 4; 5; 6; 7; 8])
  /\ (forall k, Nat.iter k (nextDelay other DefaultRetryPolicy) Second = Z.min (2 ^ Z.of_nat k * Second) (5 * Minute)).
Proof.
  split; [vm_compute; reflexivity|]. intros k.
  destruct (decide (k <= 9)%nat) as [Hk|Hk].
  - do 10 (destruct k as [|k]; [vm_compute; reflexivity|]). lia.
  - assert (Nat.iter k (nextDelay other DefaultRetryPolicy) Second = 5 * Minute) as ->.
    { replace k with (k - 9 + 9)%nat by lia. induction (k - 9)%nat as [|m IH]; [vm_compute; reflexivity|].
      change (Nat.iter (S m + 9) ?f ?x) with (f (Nat.iter (m + 9) f x)). rewrite IH. vm_compute. reflexivity. }
    symmetry. apply Z.min_r. assert (2 ^ 9 <= 2 ^ Z.of_nat k) by (apply Z.pow_le_mono_r; lia).
    unfold Minute, Second, Millisecond in *. lia.
Qed.

Section ForwardProperties.
Context (LoadLocation : string -> option Location) {W : Type} `{Runtime W}.

(** The queue after one more envelope was dead-lettered. *)
Definition deadLettered (env : Envelope) (reason : string) (d d' : option DLQ) : Prop :=
  match d, d' with
  | Some q, Some q' => exists e, dlq_entries q' = dlq_entries q ++ [e] /\ dl_Envelope e = env /\ dl_Reason e = reason
  | None, None => True
  | _, _ => False
  end.

Lemma stampFirstSeen_keeps now e :
  dl_Envelope (stampFirstSeen now e) = dl_Envelope e /\ dl_Reason (stampFirstSeen now e) = dl_Reason e.
Proof. unfold stampFirstSeen. by case_guards. Qed.

Lemma DLQAppend_deadLettered now e d :
  deadLettered (dl_Envelope e) (dl_Reason e) d (DLQAppend now e <$> d).
Proof.
  destruct d as [q|]; cbn; [|done]. exists (stampFirstSeen now e). split; [done|]. apply stampFirstSeen_keeps.
Qed.

Lemma checkCutoffWindow_error now cfg env no err :
  checkCutoffWindow LoadLocation now cfg env = (no, Some err) ->
  (exists c, err = OutsideWindow c) \/ (exists e, err = WindowCheck e).
Proof.
  unfold checkCutoffWindow. cbn zeta. case_guards; [done| |done].
  destruct (IsInWindow _ _ _) as [[]|]; intros [= _ <-]; eauto.
Qed.

(** The peers in the order they are tried. *)
Definition tried (env : Envelope) (peers : list PeerConfig) : list PeerConfig :=
  if negb (str_eqb (env_RoutingHint env) "") then reorderByHint peers (env_RoutingHint env) else peers.

Lemma tried_perm env peers : tried env peers ≡ₚ peers.
Proof. unfold tried. case_guards; [apply reorderByHint_perm | done]. Qed.

(** What became of an envelope: the answer of [Forward] against the states
    before and after. *)
Definition fate (f : Forwarder) (env : Envelope) (st : FwdState W) (res : outcome FwdError string)
    (st' : FwdState W) : Prop :=
  let peers := PeersFor (pc_AllowVia (cfg_Policy (fw_cfg f)))
                 (rt_peers (net_Peers (cfg_Network (fw_cfg f))) (fs_world st)) (env_RecipientRegion env) in
  match res with
  | Ok root =>
      (exists peer w0, peer ∈ peers /\ rt_send (peer_Addr peer) env w0 = (root, None, fs_world st'))
      /\ fs_dlq st' = fs_dlq st /\ fs_transit st' = fs_transit st
  | Err (NoPeerAvailable region) => peers = [] /\ region = env_RecipientRegion env /\ st' = st
  | Err (OutsideWindow _) | Err (WindowCheck _) =>
      env_SchemaType env = Iso20022 /\ fs_transit st' = fs_transit st /\ fs_world st' = fs_world st
      /\ deadLettered env "outside_cutoff_window" (fs_dlq st) (fs_dlq st')
  | Err (PeersExhaustedBuffered _) =>
      peers <> [] /\ fs_dlq st' = fs_dlq st
      /\ exists c c' e, fs_transit st = Some c /\ fs_transit st' = Some c'
           /\ tc_entries c' !! env_IdempotencyKey env = Some e /\ te_Env e = env
  | Err (PeersExhausted _) =>
      peers <> [] /\ fs_transit st = None /\ fs_transit st' = None
      /\ deadLettered env "" (fs_dlq st) (fs_dlq st')
  | Err _ => False
  end.

Lemma Forward_fate f env (st : FwdState W) :
  1 <= rp_MaxAttempts (fw_retryPolicy f) ->
  fate f env st (Forward LoadLocation f env st).1 (Forward LoadLocation f env st).2.
Proof.
  intros Hm. unfold fate, Forward. cbn zeta. set (peers := PeersFor _ _ _). fold (tried env peers).
  destruct (if str_eqb _ Iso20022 then _ else _) as [no [err|]] eqn:Ec.
  { destruct (str_eqb _ Iso20022) eqn:Es; go_bool; [|done].
    pose proof (DLQAppend_deadLettered (rt_now (fs_world st)) (cutoffEntry env no) (fs_dlq st)) as Hd.
    destruct (checkCutoffWindow_error _ _ _ _ _ Ec) as [[c ->]|[e ->]]; done. }
  destruct (nonempty peers) eqn:En; go_bool; cbn [negb]; [|done].
  destruct (tryPeers _ _ _ _) as [[root|] w'] eqn:Et.
  - apply tryPeers_delivered in Et as (p & w0 & Hp & Hs); [|done]. rewrite tried_perm in Hp.
    split; [|done]. exists p, w0. split; [exact Hp | exact Hs].
  - destruct (fs_transit st) as [c|] eqn:Ec'.
    + split_and!; [done..|]. eexists c, _, _. split_and!; [done..| |]; cbn; [by rewrite lookup_insert_eq|done].
    + split_and!; [done..|].
      apply (DLQAppend_deadLettered (rt_now w') (mkDLQEntry env (firstAddr (tried env peers)))).
Qed.

(** C7: The envelope of the call does not disappear.  [Forward] ends in one of five ways.
    A peer chosen by [PeersFor] accepted the envelope, and neither the queue nor
    the cache changed; no peer serves the region, and nothing changed; the
    corridor is closed, and exactly this envelope joined the dead-letter queue;
    every peer failed and the envelope sits in the transit cache under its key;
    or, without a cache, it joined the dead-letter queue. *)
Theorem Forward_conserves f env (st : FwdState W) :
  1 <= rp_MaxAttempts (fw_retryPolicy f) ->
  fate f env st (Forward LoadLocation f env st).1 (Forward LoadLocation f env st).2.
Proof. apply Forward_fate. Qed.

(** C12: [Forward] reaches a live peer.  If no settlement window holds the envelope
    back, the policy allows an attempt, and one of the peers that may carry the envelope
    always accepts it, then, whatever the other peers and the timers do, the call
    delivers: it returns a root hash, which a peer for the region, that one or one
    tried before it, gave in answer to the last call. *)
Theorem Forward_reaches f env (st : FwdState W) peer :
  1 <= rp_MaxAttempts (fw_retryPolicy f) -> window_open LoadLocation (rt_now (fs_world st)) (fw_cfg f) env ->
  (exists key, net_Peers (cfg_Network (fw_cfg f)) !! key = Some peer
     /\ eligible (pc_AllowVia (cfg_Policy (fw_cfg f))) (env_RecipientRegion env) (key, peer)) ->
  (forall w, (rt_send (peer_Addr peer) env w).1.2 = None) ->
  exists root st', Forward LoadLocation f env st = (Ok root, st')
    /\ exists p w0, p ∈ PeersFor (pc_AllowVia (cfg_Policy (fw_cfg f)))
                           (rt_peers (net_Peers (cfg_Network (fw_cfg f))) (fs_world st)) (env_RecipientRegion env)
         /\ rt_send (peer_Addr p) env w0 = (root, None, fs_world st').
Proof.
  intros Hm Hs (key & Hk & He) Hlive.
  enough (exists root, (Forward LoadLocation f env st).1 = Ok root) as (root & Hroot).
  { destruct (Forward LoadLocation f env st) as [res st'] eqn:Ef. cbn in Hroot. subst res. exists root, st'. split; [done|].
    by eapply Forward_delivered. }
  unfold Forward. cbn zeta. rewrite cutoff_open by done. set (peers := PeersFor _ _ _). fold (tried env peers).
  assert (peer ∈ peers) as Hin.
  { unfold peers. rewrite candidates_split. apply list_elem_of_fmap. exists (key, peer). split; [done|].
    apply list_elem_of_filter. split; [done|]. rewrite rt_peers_visit. by apply elem_of_map_to_list. }
  destruct peers as [|p ps] eqn:Ep; [by apply not_elem_of_nil in Hin|]. cbn [nonempty negb].
  rewrite <- Ep in *. rewrite <- (tried_perm env) in Hin.
  destruct (tryPeers_live (fw_retryPolicy f) env (tried env peers) (fs_world st) peer Hm Hin Hlive) as [root Hr].
  destruct (tryPeers _ _ _ _) as [[h|] w']; cbn in *; [eauto|done].
Qed.
End ForwardProperties.

(** ** A small network: one unreachable regional peer and one global peer *)

Definition peer_ru : PeerConfig :=
  {| peer_Region := "RU"; peer_Addr := "ru:7777"; peer_NodeScope := "regional"; peer_Regions := [] |}.
Definition peer_gl : PeerConfig :=
  {| peer_Region := "global-01"; peer_Addr := "gl:7777"; peer_NodeScope := "global"; peer_Regions := [] |}.

Definition demo_peers : gmap string PeerConfig := {[ "RU" := peer_ru; "global-01" := peer_gl ]}%string.

Definition with_peers (peers : gmap string PeerConfig) (c : Config) : Config :=
  let n := cfg_Network c in
  {| cfg_Node := cfg_Node c; cfg_Profile := cfg_Profile c; cfg_Policy := cfg_Policy c;
     cfg_Network := {| net_GRPCListenAddr := net_GRPCListenAddr n; net_HTTPListenAddr := net_HTTPListenAddr n;
       net_MetricsAddr := net_MetricsAddr n; net_ShutdownTimeout := net_ShutdownTimeout n; net_Peers := peers;
       net_BootstrapNodes := net_BootstrapNodes n; net_PeerGossipInterval := net_PeerGossipInterval n |};
     cfg_TLS := cfg_TLS c; cfg_API := cfg_API c; cfg_Storage := cfg_Storage c;
     cfg_SchemaRegistry := cfg_SchemaRegistry c; cfg_Apps := cfg_Apps c |}.

(** The world counts the seconds; a call of the peer takes one. *)
Definition demo_runtime (reachable : string -> bool) : Runtime Z := {|
  rt_send := fun addr _ w => if reachable addr then ("root"%string, None, w + 1)
                             else (""%string, Some (TransportError "unreachable"), w + 1);
  rt_wait := fun d w => (true, w + Unix d);
  rt_now := fun w => w * Second;
  rt_convert := fun _ => 0;
  rt_peers := fun m _ => map_to_list m;
  rt_entries := fun m _ => map_to_list m;
  rt_peers_visit := fun m _ => Permutation_refl _;
  rt_entries_visit := fun m _ => Permutation_refl _ |}.

Definition demo_forwarder : Forwarder := NewForwarder (with_peers demo_peers (DefaultConfigForProfile "balanced")).
Definition demo_state : FwdState Z :=
  {| fs_dlq := Some NewDLQ; fs_transit := Some (NewCache 0); fs_world := 0 |}.
Definition demo_env : Envelope := mkEnvelope "k" "RS" "RU" "messaging".

Lemma PeersFor_exact_witness :
  PeersFor [] (map_to_list demo_peers) "RU"
  ≡ₚ (base.filter (eligible [] "RU") (map_to_list demo_peers)).*2.
Proof. refine (proj1 (PeersFor_exact [] (map_to_list demo_peers) "RU" demo_peers _)). reflexivity. Defined.

Lemma SendWithRetry_outcome_witness :
  SendWithRetry (scriptSend (fun k => if Nat.eqb k 2 then None else Some (TransportError "down")))
    (scriptWait (fun _ => false)) (fun _ => 0) (fun _ => 0) DefaultRetryPolicy (Some NewDLQ)
    (mkDLQEntry demo_env "ru:7777") O = (None, Some NewDLQ, 3%nat).
Proof.
  refine (proj1 (SendWithRetry_outcome (fun k => if Nat.eqb k 2 then None else Some (TransportError "down"))
    (fun _ => false) 0 (fun _ => 0) DefaultRetryPolicy (Some NewDLQ) (mkDLQEntry demo_env "ru:7777") 9 eq_refl)
    2%nat _ _ eq_refl).
  - lia.
  - intros j Hj. split; [|reflexivity]. destruct j as [|[|j]]; [discriminate|discriminate|lia].
Defined.

Lemma Forward_conserves_witness :
  exists root, (Forward (H := demo_runtime (fun a => str_eqb a "gl:7777")) utc_db demo_forwarder demo_env demo_state).1
               = Ok root
    /\ fs_dlq (Forward (H := demo_runtime (fun a => str_eqb a "gl:7777")) utc_db demo_forwarder demo_env demo_state).2
       = Some NewDLQ.
Proof.
  pose proof (Forward_conserves (H := demo_runtime (fun a => str_eqb a "gl:7777")) utc_db demo_forwarder demo_env
    demo_state ltac:(vm_compute; discriminate)) as Hc.
  exists "root"%string. split; [vm_compute; reflexivity|].
  revert Hc. unfold fate. cbn zeta.
  replace (Forward (H := demo_runtime (fun a => str_eqb a "gl:7777")) utc_db demo_forwarder demo_env demo_state).1
    with (@Ok FwdError string "root") by (vm_compute; reflexivity).
  intros (_ & Hd & _). exact Hd.
Defined.

(** A payment, for whose corridor there is no window. *)
Definition demo_payment : Envelope := mkEnvelope "k2" "RS" "RU" Iso20022.

Lemma Forward_reaches_witness :
  exists root st', Forward (H := demo_runtime (fun a => str_eqb a "gl:7777")) utc_db demo_forwarder demo_payment demo_state
                   = (Ok root, st').
Proof.
  destruct (Forward_reaches (H := demo_runtime (fun a => str_eqb a "gl:7777")) utc_db demo_forwarder demo_payment
              demo_state peer_gl) as (root & st' & Hf & _).
  - vm_compute. discriminate.
  - intros _. vm_compute. exact I.
  - exists "global-01"%string. split; [vm_compute; reflexivity|]. split; [left; reflexivity|].
    right. right. reflexivity.
  - intros w. reflexivity.
  - exists root, st'. exact Hf.
Defined.
