(* ===== verification/Gateway.v ===== *)
(** * The gateway (package [internal/core])

    [SendEnvelope]: validation, dummy traffic, deduplication, policy, callbacks,
    jitter, padding, forwarding, settlement finality and the response.  The
    gateway points to objects other components share (policy engine, revocation
    list, audit log, deduplication index, forwarder); they are the fields of
    [GwState].  The callbacks act on a world [W] of their own.  The forwarder is
    known by the interface [CoreForwarder]; the forwarder of [Delivery] is shown
    to implement it. *)

From S2P Require Import Prelude Core Config Schema Crl Store AuditLog GoStrings GoCrypto Policy Dedup Transit Delivery.

(** ** The forwarder as the gateway sees it *)

(** [Forward] with the promise of its documentation: an implementation deals
    itself with the envelopes it cannot deliver.  [cf_retained env f]: [f] holds
    the envelope for later; [cf_unroutable env f]: no peer serves its region. *)
Class CoreForwarder (F : Type) := {
  cf_forward : Envelope -> F -> outcome FwdError string * F;
  cf_inv : F -> Prop;
  cf_retained : Envelope -> F -> Prop;
  cf_unroutable : Envelope -> F -> Prop;
  cf_inv_forward : forall env f, cf_inv f -> cf_inv (cf_forward env f).2;
  cf_keeps : forall env f e f',
    cf_inv f -> cf_forward env f = (Err e, f') -> cf_retained env f' \/ cf_unroutable env f }.

Inductive SendError :=
| ErrEmptyIdempotencyKey
| PanicMakeSlice.

Record Gateway (W : Type) := {
  gw_cfg : Config;
  gw_forwarder : bool;
  gw_onAllow : option (Envelope -> W -> W);
  gw_onDeny : option (string -> W -> W);
  gw_onDuplicate : option (W -> W);
  gw_notifier : option (Envelope -> W -> W) }.
Arguments Build_Gateway {W}.
Arguments gw_cfg {W}.
Arguments gw_forwarder {W}.
Arguments gw_onAllow {W}.
Arguments gw_onDeny {W}.
Arguments gw_onDuplicate {W}.
Arguments gw_notifier {W}.

Definition NewGateway {W} (cfg : Config) (hasForwarder : bool) : Gateway W :=
  {| gw_cfg := cfg; gw_forwarder := hasForwarder; gw_onAllow := None; gw_onDeny := None;
     gw_onDuplicate := None; gw_notifier := None |}.

Definition SetOnAllow {W} (fn : Envelope -> W -> W) (g : Gateway W) : Gateway W :=
  {| gw_cfg := gw_cfg g; gw_forwarder := gw_forwarder g; gw_onAllow := Some fn; gw_onDeny := gw_onDeny g;
     gw_onDuplicate := gw_onDuplicate g; gw_notifier := gw_notifier g |}.

Definition SetOnDeny {W} (fn : string -> W -> W) (g : Gateway W) : Gateway W :=
  {| gw_cfg := gw_cfg g; gw_forwarder := gw_forwarder g; gw_onAllow := gw_onAllow g; gw_onDeny := Some fn;
     gw_onDuplicate := gw_onDuplicate g; gw_notifier := gw_notifier g |}.

Definition SetOnDuplicate {W} (fn : W -> W) (g : Gateway W) : Gateway W :=
  {| gw_cfg := gw_cfg g; gw_forwarder := gw_forwarder g; gw_onAllow := gw_onAllow g; gw_onDeny := gw_onDeny g;
     gw_onDuplicate := Some fn; gw_notifier := gw_notifier g |}.

Definition SetNotifier {W} (n : Envelope -> W -> W) (g : Gateway W) : Gateway W :=
  {| gw_cfg := gw_cfg g; gw_forwarder := gw_forwarder g; gw_onAllow := gw_onAllow g; gw_onDeny := gw_onDeny g;
     gw_onDuplicate := gw_onDuplicate g; gw_notifier := Some n |}.

(** The shared objects. *)
Record GwState (B F W : Type) := {
  gs_policy : Engine;
  gs_crl : CrlStore;
  gs_audit : Log B;
  gs_dedup : Index;
  gs_fwd : F;
  gs_world : W }.
Arguments Build_GwState {B F W}.
Arguments gs_policy {B F W}.
Arguments gs_crl {B F W}.
Arguments gs_audit {B F W}.
Arguments gs_dedup {B F W}.
Arguments gs_fwd {B F W}.
Arguments gs_world {B F W}.

(** What one call reads from the outside: the clock at the deduplication
    check, at the decision's and at the finality's audit entry; the random
    jitter; the time until its context ends, if it does, and which branch the
    [select] takes when both are due. *)
Record CallEnv := {
  ck_dedup : Z; ck_audit : Z; ck_final : Z; ck_jitter : Z; ck_cancel : option Z; ck_tie : bool }.

(** ** Traffic shaping *)

(** [applyJitter]: whether it returns nil. [Int64N] draws from [0, max). *)
Definition applyJitter (c : CallEnv) (max : Z) : bool :=
  if max <=? 0 then true else
  match ck_cancel c with
  | None => true
  | Some t => if ck_jitter c <? t then true else if t <? ck_jitter c then false else ck_tie c
  end.

Fixpoint zeros (n : nat) : string :=
  match n with O => ""%string | S n' => String Ascii.zero (zeros n') end.

(** [make([]byte, target)] and [copy]; a negative length is a run-time panic. *)
Definition padTo (target : Z) (payload : string) : option string :=
  if target <? 0 then None else
  Some (append (String.substring 0 (Z.to_nat target) payload)
               (zeros (Z.to_nat target - String.length payload))).

Definition applyPadding (env : Envelope) (bucket : Z) : option Envelope :=
  if (bucket <=? 0) || Nat.eqb (slice_len (env_Payload env)) 0 then Some env else
  let n := Z.of_nat (slice_len (env_Payload env)) in
  let target := wrap_i64 (Z.quot (wrap_i64 (wrap_i64 (n + bucket) - 1)) bucket * bucket) in
  match padTo target (slice_of (env_Payload env)) with
  | None => None
  | Some padded => Some (with_padding padded (wrap_u32 target) env)
  end.

(** ** [SendEnvelope] *)

Definition policyRequest (e : Envelope) : Request := {|
  rq_SenderNodeID := env_SenderNodeID e; rq_SenderRegion := env_SenderRegion e;
  rq_RecipientRegion := env_RecipientRegion e; rq_TrustTier := env_TrustTier e;
  rq_SchemaType := env_SchemaType e; rq_SchemaVersion := env_SchemaVersion e |}.

(** [if g.callback != nil { g.callback(x) }] *)
Definition call {W A} (f : option (A -> W -> W)) (a : A) (w : W) : W :=
  match f with Some f => f a w | None => w end.

(** The time to live of an iso20022 key. *)
Definition isoTTL (cfg : Config) : Z :=
  let dedupH := iso_DedupTTLH (sr_Iso20022 (cfg_SchemaRegistry cfg)) in
  mul_duration (if dedupH <? 72 then 72 else dedupH) Hour.

Section Send.
Context `{UnicodeTables} {B : Type} `{NodeStore B} {F : Type} `{CoreForwarder F} {W : Type}.
Implicit Types (g : Gateway W) (st : GwState B F W).

(** The deduplication step on an envelope with a normalised schema type. *)
Definition dedupCheck g (c : CallEnv) (env : Envelope) (idx : Index) : bool * Index :=
  if str_eqb (env_SchemaType env) Iso20022
  then SeenOrAddWithTTL (ck_dedup c) (env_IdempotencyKey env) (isoTTL (gw_cfg g)) idx
  else SeenOrAdd (ck_dedup c) (env_IdempotencyKey env) idx.

(** The forwarding block of an allowed envelope: the peer's root hash, the
    forwarder and the log afterwards; nothing when [applyPadding] panics. *)
Definition forwardAllowed g (c : CallEnv) (env : Envelope) (f : F) (log : Log B)
  : option (string * F * Log B) :=
  let cfg := gw_cfg g in
  if negb (gw_forwarder g) then Some (""%string, f, log) else
  if negb (applyJitter c (pf_TimingJitterMax (cfg_Profile cfg))) then Some (""%string, f, log) else
  match applyPadding env (pf_PaddingBucket (cfg_Profile cfg)) with
  | None => None
  | Some padded =>
      match cf_forward padded f with
      | (Err _, f') => Some (""%string, f', log)
      | (Ok ph, f') =>
          Some (ph, f',
            if str_eqb (env_SchemaType env) Iso20022
               && iso_SettlementFinality (sr_Iso20022 (cfg_SchemaRegistry cfg))
            then (AppendFinality (ck_final c) cfg (env_SenderRegion env) (env_RecipientRegion env)
                    (env_SchemaVersion env) log).2
            else log)
      end
  end.

Definition SendEnvelope g (c : CallEnv) (req : SendRequest) st
  : outcome SendError SendResponse * GwState B F W :=
  let cfg := gw_cfg g in
  if str_eqb (env_IdempotencyKey (sr_Envelope req)) "" then (Err ErrEmptyIdempotencyKey, st) else
  let env := with_schema_type (Normalize (env_SchemaType (sr_Envelope req))) (sr_Envelope req) in
  if env_IsDummy env then
    let log := (Append (ck_audit c) cfg DecisionDummy "DUMMY_TRAFFIC" 0 (env_SenderRegion env)
                  (env_RecipientRegion env) "" "" (gs_audit st)).2 in
    (Ok {| rs_Decision := DecisionAllow; rs_Reason := "DUMMY_TRAFFIC"; rs_Profile := pf_Name (cfg_Profile cfg);
           rs_NodeID := nc_NodeID (cfg_Node cfg); rs_AuditRootHash := RootHash log; rs_PeerAuditRootHash := "" |},
     {| gs_policy := gs_policy st; gs_crl := gs_crl st; gs_audit := log; gs_dedup := gs_dedup st;
        gs_fwd := gs_fwd st; gs_world := gs_world st |})
  else
  let (isDup, idx) := dedupCheck g c env (gs_dedup st) in
  if isDup then
    let log := (Append (ck_audit c) cfg DecisionDuplicate "DUPLICATE_IDEMPOTENCY_KEY" (env_TrustTier env)
                  (env_SenderRegion env) (env_RecipientRegion env) (env_SchemaType env)
                  (env_SchemaVersion env) (gs_audit st)).2 in
    (Ok {| rs_Decision := DecisionDuplicate; rs_Reason := "idempotency_key already processed";
           rs_Profile := pf_Name (cfg_Profile cfg); rs_NodeID := nc_NodeID (cfg_Node cfg);
           rs_AuditRootHash := RootHash log; rs_PeerAuditRootHash := "" |},
     {| gs_policy := gs_policy st; gs_crl := gs_crl st; gs_audit := log; gs_dedup := idx;
        gs_fwd := gs_fwd st;
        gs_world := match gw_onDuplicate g with Some f => f (gs_world st) | None => gs_world st end |})
  else
  let (result, log) := Evaluate (ck_audit c) (gs_policy st) (gs_crl st) (policyRequest env) (gs_audit st) in
  let respond ph log := {| rs_Decision := res_Decision result; rs_Reason := res_Reason result;
    rs_Profile := res_Profile result; rs_NodeID := nc_NodeID (cfg_Node cfg);
    rs_AuditRootHash := RootHash log; rs_PeerAuditRootHash := ph |} in
  if str_eqb (res_Decision result) DecisionAllow then
    let w := call (gw_notifier g) env (call (gw_onAllow g) env (gs_world st)) in
    match forwardAllowed g c env (gs_fwd st) log with
    | None => (Err PanicMakeSlice,
               {| gs_policy := gs_policy st; gs_crl := gs_crl st; gs_audit := log; gs_dedup := idx;
                  gs_fwd := gs_fwd st; gs_world := w |})
    | Some (ph, f', log') =>
        (Ok (respond ph log'),
         {| gs_policy := gs_policy st; gs_crl := gs_crl st; gs_audit := log'; gs_dedup := idx;
            gs_fwd := f'; gs_world := w |})
    end
  else
    (Ok (respond ""%string log),
     {| gs_policy := gs_policy st; gs_crl := gs_crl st; gs_audit := log; gs_dedup := idx;
        gs_fwd := gs_fwd st; gs_world := call (gw_onDeny g) (res_Reason result) (gs_world st) |}).

Definition GetNodeInfo g : NodeInfo := {|
  ni_NodeID := nc_NodeID (cfg_Node (gw_cfg g)); ni_NodeScope := nc_NodeScope (cfg_Node (gw_cfg g));
  ni_Region := nc_Region (cfg_Node (gw_cfg g)); ni_ApplicableLaw := nc_ApplicableLaw (cfg_Node (gw_cfg g));
  ni_Profile := pf_Name (cfg_Profile (gw_cfg g)) |}.
End Send.

(** ** Lemmas *)

Lemma length_zeros n : String.length (zeros n) = n.
Proof. induction n; cbn; congruence. Qed.

Lemma substring_whole s n : (String.length s <= n)%nat -> String.substring 0 n s = s.
Proof.
  revert n. induction s as [|a s IH]; intros [|n] Hn; cbn in *; try done; [lia|]. rewrite IH; [done|lia].
Qed.

(** Rounding up to a multiple of the bucket. *)
Definition roundUp (n bucket : Z) : Z := (n + bucket - 1) / bucket * bucket.

Lemma roundUp_spec n bucket :
  0 < bucket -> 0 < n -> n <= roundUp n bucket < n + bucket /\ (bucket | roundUp n bucket).
Proof.
  intros Hb Hn. unfold roundUp. split.
  { pose proof (Z.div_mod (n + bucket - 1) bucket ltac:(lia)). pose proof (Z.mod_pos_bound (n + bucket - 1) bucket Hb).
    rewrite (Z.mul_comm (_ / _)). lia. }
  exists ((n + bucket - 1) / bucket). done.
Qed.

Lemma applyPadding_rounds env bucket :
  let n := Z.of_nat (slice_len (env_Payload env)) in
  0 < bucket -> 0 < n -> n + bucket < 2 ^ 63 ->
  applyPadding env bucket
  = Some (with_padding (append (slice_of (env_Payload env)) (zeros (Z.to_nat (roundUp n bucket - n))))
            (wrap_u32 (roundUp n bucket)) env).
Proof.
  cbn zeta. intros Hb Hn Hmax. unfold applyPadding.
  rewrite (proj2 (Z.leb_gt _ _)), (proj2 (Nat.eqb_neq _ _)) by lia. cbn zeta. cbn [orb].
  set (n := slice_len (env_Payload env)) in *.
  pose proof (roundUp_spec (Z.of_nat n) bucket Hb Hn) as [Hr _].
  assert (wrap_i64 (Z.quot (wrap_i64 (wrap_i64 (Z.of_nat n + bucket) - 1)) bucket * bucket)
          = roundUp (Z.of_nat n) bucket) as ->.
  { rewrite (wrap_i64_id (Z.of_nat n + bucket)) by (unfold in_i64; lia).
    rewrite (wrap_i64_id (_ - 1)) by (unfold in_i64; lia). rewrite Z.quot_div_nonneg by lia.
    fold (roundUp (Z.of_nat n) bucket). apply wrap_i64_id. unfold in_i64. lia. }
  unfold padTo. rewrite (proj2 (Z.ltb_ge _ _)) by lia.
  rewrite substring_whole by (unfold n, slice_len in *; lia).
  do 3 f_equal. f_equal. fold (slice_len (env_Payload env)). unfold slice_len in *. lia.
Qed.

Section SendLemmas.
Context `{UnicodeTables} {B : Type} `{NodeStore B} {F : Type} `{CoreForwarder F} {W : Type}.
Implicit Types (g : Gateway W) (st : GwState B F W) (req : SendRequest).

(** The envelope after its schema type was normalised. *)
Definition normalised req : Envelope :=
  with_schema_type (Normalize (env_SchemaType (sr_Envelope req))) (sr_Envelope req).

(** The finality entry is the only thing forwarding may add to the log. *)
Lemma forwardAllowed_log g c env f log ph f' log' :
  forwardAllowed g c env f log = Some (ph, f', log') ->
  log' = log
  \/ (env_SchemaType env = Iso20022
      /\ iso_SettlementFinality (sr_Iso20022 (cfg_SchemaRegistry (gw_cfg g))) = true
      /\ log' = (AppendFinality (ck_final c) (gw_cfg g) (env_SenderRegion env) (env_RecipientRegion env)
                   (env_SchemaVersion env) log).2).
Proof.
  unfold forwardAllowed. cbn zeta.
  destruct (negb (gw_forwarder g)); [intros [= <- <- <-]; by left|].
  destruct (negb (applyJitter _ _)); [intros [= <- <- <-]; by left|].
  destruct (applyPadding _ _) as [padded|]; [|done].
  destruct (cf_forward padded f) as [[ph0|err] f0]; intros [= <- <- <-]; [|by left].
  destruct (_ && _) eqn:E; [right|by left]. go_bool. naive_solver.
Qed.

(** At most one settlement entry, and only for iso20022 with finality configured. *)
Definition finality_only g (env : Envelope) (final : list Entry) : Prop :=
  final = [] \/ exists f, final = [f] /\ ae_Decision f = DecisionSettlementFinal
    /\ ae_SettlementFinal f = true /\ env_SchemaType env = Iso20022
    /\ iso_SettlementFinality (sr_Iso20022 (cfg_SchemaRegistry (gw_cfg g))) = true.

Lemma forwardAllowed_entries g c env f log ph f' log' :
  forwardAllowed g c env f log = Some (ph, f', log') ->
  (log_wf log -> log_wf log')
  /\ exists final, log_entries log' = log_entries log ++ final /\ finality_only g env final.
Proof.
  intros [->|(Hs & Hfin & ->)]%forwardAllowed_log.
  - split; [done|]. exists []. split; [by rewrite app_nil_r | by left].
  - split; [eauto with mrmi|]. rewrite AppendFinality_entries. eexists. split; [done|].
    right. eexists. split_and!; done.
Qed.

Definition freshKey g (c : CallEnv) req st : bool := negb (dedupCheck g c (normalised req) (gs_dedup st)).1.

(** The four kinds of call. *)
Lemma SendEnvelope_empty g c req st :
  env_IdempotencyKey (sr_Envelope req) = ""%string ->
  SendEnvelope g c req st = (Err ErrEmptyIdempotencyKey, st).
Proof. intros Hk. unfold SendEnvelope. by rewrite Hk. Qed.

(** A call that gets past deduplication. *)
Lemma SendEnvelope_fresh g c req st :
  env_IdempotencyKey (sr_Envelope req) <> ""%string -> env_IsDummy (sr_Envelope req) = false ->
  freshKey g c req st = true ->
  let ev := Evaluate (ck_audit c) (gs_policy st) (gs_crl st) (policyRequest (normalised req)) (gs_audit st) in
  let env := normalised req in
  (res_Decision ev.1 = DecisionAllow /\
     match forwardAllowed g c env (gs_fwd st) ev.2 with
     | None => (SendEnvelope g c req st).1 = Err PanicMakeSlice
               /\ gs_audit (SendEnvelope g c req st).2 = ev.2
     | Some (ph, f', log') =>
         (exists r, (SendEnvelope g c req st).1 = Ok r /\ rs_Decision r = DecisionAllow
            /\ rs_AuditRootHash r = RootHash log' /\ rs_PeerAuditRootHash r = ph)
         /\ gs_audit (SendEnvelope g c req st).2 = log' /\ gs_fwd (SendEnvelope g c req st).2 = f'
     end
     /\ gs_world (SendEnvelope g c req st).2
        = call (gw_notifier g) env (call (gw_onAllow g) env (gs_world st)))
  \/ (res_Decision ev.1 = DecisionDeny
     /\ (exists r, (SendEnvelope g c req st).1 = Ok r /\ rs_Decision r = DecisionDeny
           /\ rs_Reason r = res_Reason ev.1 /\ rs_AuditRootHash r = RootHash ev.2)
     /\ gs_audit (SendEnvelope g c req st).2 = ev.2 /\ gs_fwd (SendEnvelope g c req st).2 = gs_fwd st
     /\ gs_world (SendEnvelope g c req st).2 = call (gw_onDeny g) (res_Reason ev.1) (gs_world st)).
Proof.
  intros Hk Hd Hf. cbn zeta. unfold freshKey in Hf.
  assert (dedupCheck g c (normalised req) (gs_dedup st)
          = (false, (dedupCheck g c (normalised req) (gs_dedup st)).2)) as Hdc.
  { destruct (dedupCheck _ _ _ _) as [[]]; done. }
  pose proof (Evaluate_two_valued (ck_audit c) (gs_policy st) (gs_crl st)
                (policyRequest (normalised req)) (gs_audit st)) as H2.
  unfold SendEnvelope. cbn zeta. fold (normalised req). rewrite (proj2 (str_eqb_neq _ _)) by done.
  cbn [env_IsDummy normalised with_schema_type]. rewrite Hd. fold (normalised req). rewrite Hdc.
  destruct (Evaluate _ _ _ _ _) as [result log]. cbn [fst snd] in *.
  destruct H2 as [Ha|Ha]; [left|right]; split; try done; rewrite Ha; cbn [str_eqb].
  - change (str_eqb DecisionAllow DecisionAllow) with true. cbn iota.
    destruct (forwardAllowed _ _ _ _ _) as [[[ph f'] log']|]; cbn; eauto 10.
  - change (str_eqb DecisionDeny DecisionAllow) with false. cbn. eauto 10.
Qed.

Lemma SendEnvelope_dummy g c req st :
  env_IdempotencyKey (sr_Envelope req) <> ""%string -> env_IsDummy (sr_Envelope req) = true ->
  let log := (Append (ck_audit c) (gw_cfg g) DecisionDummy "DUMMY_TRAFFIC" 0 (env_SenderRegion (sr_Envelope req))
                (env_RecipientRegion (sr_Envelope req)) "" "" (gs_audit st)).2 in
  (exists r, (SendEnvelope g c req st).1 = Ok r /\ rs_Decision r = DecisionAllow
     /\ rs_AuditRootHash r = RootHash log)
  /\ (SendEnvelope g c req st).2
     = {| gs_policy := gs_policy st; gs_crl := gs_crl st; gs_audit := log; gs_dedup := gs_dedup st;
          gs_fwd := gs_fwd st; gs_world := gs_world st |}.
Proof.
  intros Hk Hd. unfold SendEnvelope. cbn zeta. rewrite (proj2 (str_eqb_neq _ _)) by done.
  cbn [env_IsDummy with_schema_type]. rewrite Hd. cbn. eauto.
Qed.

Lemma SendEnvelope_duplicate g c req st :
  env_IdempotencyKey (sr_Envelope req) <> ""%string -> env_IsDummy (sr_Envelope req) = false ->
  freshKey g c req st = false ->
  let env := normalised req in
  let log := (Append (ck_audit c) (gw_cfg g) DecisionDuplicate "DUPLICATE_IDEMPOTENCY_KEY" (env_TrustTier env)
                (env_SenderRegion env) (env_RecipientRegion env) (env_SchemaType env)
                (env_SchemaVersion env) (gs_audit st)).2 in
  (exists r, (SendEnvelope g c req st).1 = Ok r /\ rs_Decision r = DecisionDuplicate
     /\ rs_AuditRootHash r = RootHash log)
  /\ gs_audit (SendEnvelope g c req st).2 = log /\ gs_fwd (SendEnvelope g c req st).2 = gs_fwd st
  /\ gs_world (SendEnvelope g c req st).2
     = match gw_onDuplicate g with Some f => f (gs_world st) | None => gs_world st end.
Proof.
  intros Hk Hd Hf. cbn zeta. unfold freshKey in Hf. go_bool.
  unfold SendEnvelope. cbn zeta. fold (normalised req). rewrite (proj2 (str_eqb_neq _ _)) by done.
  cbn [env_IsDummy normalised with_schema_type]. rewrite Hd. fold (normalised req).
  destruct (dedupCheck _ _ _ _) as [[] idx]; [cbn; eauto 10|done].
Qed.

Lemma appendAudit_entries now e cfg result rq (log : Log B) :
  en_auditing e = true ->
  exists entry, log_entries (appendAudit now e cfg result rq log) = log_entries log ++ [entry]
    /\ ae_Decision entry = res_Decision result /\ (log_wf log -> log_wf (appendAudit now e cfg result rq log)).
Proof.
  intros Ha. unfold appendAudit. rewrite Ha. cbn [negb]. rewrite Append_entries.
  eexists. split_and!; eauto with mrmi.
Qed.

Lemma SendEnvelope_dedup g c req st :
  gs_dedup (SendEnvelope g c req st).2
  = if str_eqb (env_IdempotencyKey (sr_Envelope req)) "" || env_IsDummy (sr_Envelope req)
    then gs_dedup st else (dedupCheck g c (normalised req) (gs_dedup st)).2.
Proof.
  unfold SendEnvelope. cbn zeta. fold (normalised req). cbn [env_IsDummy normalised with_schema_type].
  destruct (str_eqb _ ""); [done|]. destruct (env_IsDummy (sr_Envelope req)); [done|]. cbn [orb].
  destruct (dedupCheck g c (normalised req) (gs_dedup st)) as [[] idx]; [done|].
  destruct (Evaluate _ _ _ _ _) as [result log]. destruct (str_eqb _ DecisionAllow); [|done].
  by destruct (forwardAllowed _ _ _ _ _) as [[[ph f'] log']|].
Qed.
End SendLemmas.

(** ** Histories of a gateway *)

Inductive gw_event :=
| Sent (now : Z) (req : SendRequest) (res : outcome SendError SendResponse)
| SweptShard (now : Z) (i : nat).

(** The deduplication window of an envelope, where [ttl] is the index's default. *)
Definition window {W} (g : Gateway W) (ttl : Z) (env : Envelope) : Z :=
  if str_eqb (env_SchemaType env) Iso20022 then isoTTL (gw_cfg g) else ttl.

(** The gateway took the envelope for a new one. *)
Definition accepted (res : outcome SendError SendResponse) : Prop :=
  match res with
  | Ok r => rs_Decision r <> DecisionDuplicate
  | Err ErrEmptyIdempotencyKey => False
  | Err PanicMakeSlice => True
  end.

(** Real traffic: a key and no dummy flag. *)
Definition real (req : SendRequest) : Prop :=
  env_IdempotencyKey (sr_Envelope req) <> ""%string /\ env_IsDummy (sr_Envelope req) = false.

#[export] Instance real_dec req : Decision (real req).
Proof. unfold real. apply _. Defined.

Section Histories.
Context `{UnicodeTables} {B : Type} `{NodeStore B} {F : Type} `{CoreForwarder F} {W : Type}.
Implicit Types (g : Gateway W) (st : GwState B F W) (req : SendRequest).

(** [gw_reach g ttl t h st]: the history [h] leads to [st] at clock [t].
    Between the calls the other components may change everything but the index
    (reload the policy, revoke nodes, append to the log, drain the cache). *)
Inductive gw_reach g (ttl : Z) : Z -> list gw_event -> GwState B F W -> Prop :=
| gw_new t st : gs_dedup st = NewIndex ttl -> gw_reach g ttl t [] st
| gw_send t h st c req :
    gw_reach g ttl t h st -> t <= ck_dedup c ->
    gw_reach g ttl (ck_dedup c) (h ++ [Sent (ck_dedup c) req (SendEnvelope g c req st).1])
      (SendEnvelope g c req st).2
| gw_sweep t h st st' now i :
    gw_reach g ttl t h st -> now <= t -> (i < numShards)%nat ->
    gs_dedup st' = purgeShard now (gs_dedup st) i ->
    gw_reach g ttl t (h ++ [SweptShard now i]) st'
| gw_other t h st t' st' :
    gw_reach g ttl t h st -> t <= t' -> gs_dedup st' = gs_dedup st -> gw_reach g ttl t' h st'.

Lemma SendEnvelope_accepted g c req st :
  real req -> accepted (SendEnvelope g c req st).1 <-> freshKey g c req st = true.
Proof.
  intros [Hk Hd]. destruct (freshKey g c req st) eqn:Hf.
  - split; [done|]. intros _. pose proof (SendEnvelope_fresh g c req st Hk Hd Hf) as Hfresh. cbn zeta in Hfresh.
    destruct Hfresh as [(_ & Hrest & _)|(_ & (r & -> & Hr & _) & _)].
    + destruct (forwardAllowed _ _ _ _ _) as [[[ph f'] log']|]; [|by destruct Hrest as [-> _]].
      destruct Hrest as ((r & -> & Hr & _) & _). cbn. by rewrite Hr.
    + cbn. by rewrite Hr.
  - destruct (SendEnvelope_duplicate g c req st Hk Hd Hf) as ((r & -> & Hr & _) & _). cbn. by rewrite Hr.
Qed.

Lemma dedupCheck_window g c env idx :
  dedupCheck g c env idx
  = SeenOrAddWithTTL (ck_dedup c) (env_IdempotencyKey env) (window g (dx_ttl idx) env) idx.
Proof. unfold dedupCheck, window. by case_guards. Qed.

Lemma SeenOrAddWithTTL_ttl now key ttl idx : dx_ttl (SeenOrAddWithTTL now key ttl idx).2 = dx_ttl idx.
Proof. unfold SeenOrAddWithTTL. cbn zeta. by destruct (match _ with Some _ => _ | None => _ end). Qed.

(** What the history of the gateway says about the history of its index. *)
Definition tracks g (ttl : Z) (h : list gw_event) (hd : list event) : Prop :=
  forall now key w, Registered now key w false ∈ hd <->
    exists req res, Sent now req res ∈ h /\ real req /\ env_IdempotencyKey (sr_Envelope req) = key
      /\ accepted res /\ w = window g ttl (normalised req).

Lemma tracks_sent g ttl h hd c req st :
  dx_ttl (gs_dedup st) = ttl -> tracks g ttl h hd -> real req ->
  tracks g ttl (h ++ [Sent (ck_dedup c) req (SendEnvelope g c req st).1])
    (hd ++ [Registered (ck_dedup c) (env_IdempotencyKey (sr_Envelope req)) (window g ttl (normalised req))
              (dedupCheck g c (normalised req) (gs_dedup st)).1]).
Proof.
  intros Httl Ht Hr now key w. pose proof (SendEnvelope_accepted g c req st Hr) as Ha.
  unfold freshKey in Ha. go_bool. rewrite elem_of_app, list_elem_of_singleton, (Ht now key w).
  setoid_rewrite elem_of_app. setoid_rewrite list_elem_of_singleton.
  split.
  - intros [(q & res & Hin & Hq)|[= -> -> -> Hdup]]; [by exists q, res; split; [left|]|].
    exists req, (SendEnvelope g c req st).1. symmetry in Hdup. apply Ha in Hdup. auto 10.
  - intros (q & res & [Hin|[= -> -> ->]] & Hq & Hkey & Hacc & ->); [left; eauto 10|right].
    apply Ha in Hacc. by rewrite Hacc, Hkey.
Qed.

Lemma tracks_other g ttl h hd ev :
  (forall now req res, ev = Sent now req res -> ~ real req) -> tracks g ttl h hd -> tracks g ttl (h ++ [ev]) hd.
Proof.
  intros Hev Ht now key w. rewrite (Ht now key w). setoid_rewrite elem_of_app.
  setoid_rewrite list_elem_of_singleton. split; [naive_solver|].
  intros (q & res & [Hin| <-] & Hq & Hrest); [eauto 10|]. by apply (Hev now q res) in Hq.
Qed.

Lemma gw_reach_index g ttl t h st :
  gw_reach g ttl t h st ->
  dx_ttl (gs_dedup st) = ttl /\ exists hd, reach t hd (gs_dedup st) /\ tracks g ttl h hd.
Proof.
  induction 1 as [t st Hst|t h st c req _ (Httl & hd & Hr & Ht) Hle|t h st st' now i _ (Httl & hd & Hr & Ht) Hn Hi Hst
    |t h st t' st' _ (Httl & hd & Hr & Ht) Hle Hst].
  - rewrite Hst. split; [done|]. exists []. split; [constructor|]. intros now key w.
    split; [by intros ?%not_elem_of_nil|]. by intros (? & ? & ?%not_elem_of_nil & _).
  - rewrite SendEnvelope_dedup. destruct (decide (real req)) as [Hreal|Hreal].
    + destruct Hreal as [Hk Hd]. rewrite (proj2 (str_eqb_neq _ _)), Hd by done. cbn [orb].
      rewrite dedupCheck_window, SeenOrAddWithTTL_ttl. split; [done|]. eexists. split.
      * by apply (reach_seen t hd).
      * pose proof (tracks_sent g ttl h hd c req st Httl Ht (conj Hk Hd)) as Hs.
        rewrite dedupCheck_window, Httl in Hs. rewrite Httl. exact Hs.
    + assert (str_eqb (env_IdempotencyKey (sr_Envelope req)) "" || env_IsDummy (sr_Envelope req) = true) as ->.
      { unfold real in Hreal. destruct (str_eqb _ "") eqn:E; [done|].
        destruct (env_IsDummy _); [done|]. go_bool. by destruct Hreal. }
      split; [done|]. exists hd. split; [by eapply reach_idle|]. apply tracks_other; [naive_solver|done].
  - rewrite Hst. split; [done|]. eexists. split; [by apply (reach_sweep t hd)|].
    apply (tracks_other g ttl h hd (SweptShard now i)) in Ht; [|done].
    intros n key w. rewrite elem_of_app, (Ht n key w), list_elem_of_singleton. naive_solver.
  - rewrite Hst. split; [done|]. exists hd. split; [by eapply reach_idle|done].
Qed.
End Histories.

(** ** Properties of the gateway *)

Section GatewayProperties.
Context `{UnicodeTables} {B : Type} `{NodeStore B} {F : Type} `{CoreForwarder F} {W : Type}.
Implicit Types (g : Gateway W) (st : GwState B F W) (req : SendRequest).

(** C5: Every envelope leaves a trace in the audit log.  With an auditing policy
    engine, a call with an idempotency key appends exactly one entry, followed by
    one settlement entry for iso20022 traffic where finality is configured, and
    nothing else; the log keeps verifying.  The entry carries the decision the
    caller receives (DUMMY for dummy traffic), and the root hash in the response
    is the root of the log after the call. *)
Theorem SendEnvelope_audited g c req st :
  env_IdempotencyKey (sr_Envelope req) <> ""%string -> en_auditing (gs_policy st) = true ->
  let st' := (SendEnvelope g c req st).2 in
  (Verify (gs_audit st) = None -> Verify (gs_audit st') = None)
  /\ exists e final,
      log_entries (gs_audit st') = log_entries (gs_audit st) ++ e :: final
      /\ finality_only g (normalised req) final
      /\ forall r, (SendEnvelope g c req st).1 = Ok r ->
           rs_AuditRootHash r = RootHash (gs_audit st')
           /\ ae_Decision e = (if env_IsDummy (sr_Envelope req) then DecisionDummy else rs_Decision r).
Proof.
  intros Hk Ha. cbn zeta. rewrite !Verify_None.
  destruct (env_IsDummy (sr_Envelope req)) eqn:Hd.
  { destruct (SendEnvelope_dummy g c req st Hk Hd) as ((r & Hr & Hdec & Hroot) & ->). cbn [gs_audit].
    split; [eauto with mrmi|]. rewrite Append_entries. eexists _, []. split; [done|]. split; [by left|].
    intros r' Hr'. rewrite Hr in Hr'. injection Hr' as <-. done. }
  destruct (freshKey g c req st) eqn:Hf.
  2: { destruct (SendEnvelope_duplicate g c req st Hk Hd Hf) as ((r & Hr & Hdec & Hroot) & -> & _).
    split; [eauto with mrmi|]. rewrite Append_entries. eexists _, []. split; [done|]. split; [by left|].
    intros r' Hr'. rewrite Hr in Hr'. injection Hr' as <-. by rewrite Hdec. }
  pose proof (SendEnvelope_fresh g c req st Hk Hd Hf) as Hfresh. cbn zeta in Hfresh.
  rewrite Evaluate_log in Hfresh. set (ev := (Evaluate _ _ _ _ _).1) in *.
  destruct (appendAudit_entries (ck_audit c) (gs_policy st) (en_cfg (gs_policy st)) ev
              (policyRequest (normalised req)) (gs_audit st) Ha) as (entry & He & Hdec & Hwf).
  set (log := appendAudit _ _ _ _ _ _) in *.
  destruct Hfresh as [(Hallow & Hrest & _)|(Hdeny & (r & Hr & Hrd & _ & Hroot) & -> & _)].
  - destruct (forwardAllowed _ _ _ _ _) as [[[ph f'] log']|] eqn:Efw.
    + destruct Hrest as ((r & Hr & Hrd & Hroot & _) & -> & _).
      apply forwardAllowed_entries in Efw as (Hwf' & final & He' & Hfin). split; [auto|].
      exists entry, final. rewrite He', He, <- (assoc_L app). split; [done|]. split; [done|].
      intros r' Hr'. rewrite Hr in Hr'. injection Hr' as <-. split; [done|]. congruence.
    + destruct Hrest as [Hr ->]. split; [auto|]. exists entry, []. split; [done|]. split; [by left|].
      intros r' Hr'. by rewrite Hr in Hr'.
  - split; [auto|]. exists entry, []. split; [done|]. split; [by left|].
    intros r' Hr'. rewrite Hr in Hr'. injection Hr' as <-. split; [done|]. congruence.
Qed.

(** C1: At-most-once processing.  Along any history of the gateway (calls, shard
    sweeps and arbitrary activity of the other components in between), a call is
    answered DUPLICATE if and only if an earlier envelope with the same
    idempotency key was accepted and its deduplication window has not ended.  In
    particular no key is accepted twice within its window, whatever the decision
    on the first envelope was. *)
Theorem gateway_at_most_once g ttl t h st c req :
  gw_reach g ttl t h st -> t <= ck_dedup c -> real req ->
  (exists r, (SendEnvelope g c req st).1 = Ok r /\ rs_Decision r = DecisionDuplicate) <->
  exists now1 req1 res1, Sent now1 req1 res1 ∈ h /\ real req1
    /\ env_IdempotencyKey (sr_Envelope req1) = env_IdempotencyKey (sr_Envelope req)
    /\ accepted res1 /\ ck_dedup c < now1 + window g ttl (normalised req1).
Proof.
  intros (Httl & hd & Hr & Ht)%gw_reach_index Hle Hreal.
  pose proof (SendEnvelope_accepted g c req st Hreal) as Hacc. unfold freshKey in Hacc. go_bool.
  pose proof (reach_seen_iff t hd (gs_dedup st) (ck_dedup c) (env_IdempotencyKey (sr_Envelope req))
                (window g ttl (normalised req)) Hr Hle) as Hseen.
  rewrite <- Httl in Hseen at 1. change (env_IdempotencyKey (sr_Envelope req))
    with (env_IdempotencyKey (normalised req)) in Hseen at 1. rewrite <- dedupCheck_window in Hseen.
  transitivity ((dedupCheck g c (normalised req) (gs_dedup st)).1 = true).
  - destruct Hreal as [Hk Hd]. split.
    + intros (r & Hres & Hdec). apply not_false_is_true. intros Hfresh. apply Hacc in Hfresh.
      rewrite Hres in Hfresh. by cbn in Hfresh.
    + intros Hdup. destruct (SendEnvelope_duplicate g c req st Hk Hd) as ((r & Hres & Hdec & _) & _); [|eauto].
      unfold freshKey. by rewrite Hdup.
  - rewrite Hseen. split.
    + intros (now1 & w & Hin & Hlt). apply Ht in Hin as (req1 & res1 & Hin & Hq & Hkey & Ha & ->). eauto 10.
    + intros (now1 & req1 & res1 & Hin & Hq & Hkey & Ha & Hlt). exists now1, (window g ttl (normalised req1)).
      split; [|done]. apply Ht. eauto 10.
Qed.

(** C3: Only permitted envelopes get out.  For real traffic the answer is ALLOW
    only if the key was fresh and the envelope satisfies the policy
    specification; whenever the call does not end with ALLOW, the forwarder is
    untouched and neither the inbox callback nor the webhooks ran: the world saw
    at most the callback for denials or for duplicates. *)
Theorem only_permitted_leave g c req st :
  real req ->
  match (SendEnvelope g c req st).1 with
  | Ok r =>
      if str_eqb (rs_Decision r) DecisionAllow
      then freshKey g c req st = true
           /\ Permitted (en_cfg (gs_policy st))
                (revokedSender (gs_policy st) (gs_crl st) (policyRequest (normalised req)))
                (policyRequest (normalised req))
      else gs_fwd (SendEnvelope g c req st).2 = gs_fwd st
           /\ (gs_world (SendEnvelope g c req st).2 = call (gw_onDeny g) (rs_Reason r) (gs_world st)
               \/ gs_world (SendEnvelope g c req st).2
                  = match gw_onDuplicate g with Some f => f (gs_world st) | None => gs_world st end)
  | Err _ => True
  end.
Proof.
  intros [Hk Hd]. destruct (freshKey g c req st) eqn:Hf.
  - pose proof (SendEnvelope_fresh g c req st Hk Hd Hf) as Hfresh. cbn zeta in Hfresh.
    destruct Hfresh as [(Ha & Hrest & _)|(Ha & (r & -> & Hr & Hreason & _) & _ & Hfwd & Hw)].
    + destruct (forwardAllowed _ _ _ _ _) as [[[ph f'] log']|]; [|by destruct Hrest as [-> _]].
      destruct Hrest as ((r & -> & Hr & _) & _). rewrite Hr, str_eqb_refl. split; [done|].
      by eapply Evaluate_allow_Permitted.
    + rewrite Hr. change (str_eqb DecisionDeny DecisionAllow) with false. rewrite Hreason. split; [exact Hfwd | by left].
  - destruct (SendEnvelope_duplicate g c req st Hk Hd Hf) as ((r & -> & Hr & _) & _ & Hfwd & Hw).
    rewrite Hr. change (str_eqb DecisionDuplicate DecisionAllow) with false. split; [exact Hfwd | by right].
Qed.

(** C6: An allowed envelope is never lost between the gateway and its
    forwarder.  When the gateway has a forwarder that keeps the promise of its
    interface, an ALLOW answer to real traffic means that the padded envelope was
    delivered (and the response carries the peer's root hash), or is retained
    for later, or that no peer serves its region, or that the caller's context
    ended during the jitter. *)
Theorem allowed_not_lost g c req st r :
  real req -> gw_forwarder g = true -> cf_inv (gs_fwd st) ->
  (SendEnvelope g c req st).1 = Ok r -> rs_Decision r = DecisionAllow ->
  applyJitter c (pf_TimingJitterMax (cfg_Profile (gw_cfg g))) = false
  \/ exists padded,
      applyPadding (normalised req) (pf_PaddingBucket (cfg_Profile (gw_cfg g))) = Some padded
      /\ ((cf_forward padded (gs_fwd st)).1 = Ok (rs_PeerAuditRootHash r)
          \/ cf_retained padded (gs_fwd (SendEnvelope g c req st).2)
          \/ cf_unroutable padded (gs_fwd st)).
Proof.
  intros [Hk Hd] Hfw Hinv Hres Hdec. destruct (freshKey g c req st) eqn:Hf.
  2: { destruct (SendEnvelope_duplicate g c req st Hk Hd Hf) as ((r' & Hr' & Hdup & _) & _).
       rewrite Hres in Hr'. injection Hr' as <-. by rewrite Hdec in Hdup. }
  pose proof (SendEnvelope_fresh g c req st Hk Hd Hf) as Hfresh. cbn zeta in Hfresh.
  destruct Hfresh as [(_ & Hrest & _)|(_ & (r' & Hr' & Hdeny & _) & _)].
  2: { rewrite Hres in Hr'. injection Hr' as <-. by rewrite Hdec in Hdeny. }
  unfold forwardAllowed in Hrest. rewrite Hfw in Hrest. cbn [negb] in Hrest. cbn zeta in Hrest.
  destruct (applyJitter _ _) eqn:Ej; [right|by left]. cbn [negb] in Hrest.
  destruct (applyPadding _ _) as [padded|]; [|by destruct Hrest as [Hr _]; rewrite Hres in Hr].
  exists padded. split; [done|]. destruct (cf_forward padded (gs_fwd st)) as [[ph|err] f'] eqn:Ef.
  - destruct Hrest as ((r' & Hr' & _ & _ & Hph) & _). rewrite Hres in Hr'. injection Hr' as <-.
    left. cbn. by rewrite Hph.
  - destruct Hrest as (_ & _ & ->). right. by eapply cf_keeps.
Qed.
End GatewayProperties.

(** ** The forwarder of [Delivery] keeps the promise *)

Section DeliveryForwarder.
Context (LoadLocation : string -> option Location) {R : Type} `{Runtime R} (f : Forwarder).
Context (attempts_pos : 1 <= rp_MaxAttempts (fw_retryPolicy f)).

(** The envelope waits in the transit cache or in the dead-letter queue. *)
Definition held (env : Envelope) (st : FwdState R) : Prop :=
  (exists c k e, fs_transit st = Some c /\ tc_entries c !! k = Some e /\ te_Env e = env)
  \/ (exists d e, fs_dlq st = Some d /\ e ∈ dlq_entries d /\ dl_Envelope e = env).

Definition noPeer (env : Envelope) (st : FwdState R) : Prop :=
  PeersFor (pc_AllowVia (cfg_Policy (fw_cfg f)))
    (rt_peers (net_Peers (cfg_Network (fw_cfg f))) (fs_world st)) (env_RecipientRegion env) = [].

Lemma deadLettered_held env reason (st st' : FwdState R) :
  is_Some (fs_dlq st) -> deadLettered env reason (fs_dlq st) (fs_dlq st') -> held env st'.
Proof.
  intros [q Hq] Hd. rewrite Hq in Hd. cbn in Hd. destruct (fs_dlq st') as [q'|] eqn:Eq; [|done].
  destruct Hd as (e & He & Henv & _). right. exists q', e. split_and!; [done| |done].
  rewrite He. set_solver.
Qed.

Lemma Forward_keeps_dlq env (st : FwdState R) :
  is_Some (fs_dlq st) -> is_Some (fs_dlq (Forward LoadLocation f env st).2).
Proof.
  intros Hq. unfold Forward. cbn zeta.
  destruct (if str_eqb _ Iso20022 then _ else _) as [no [err|]]; cbn; [by apply fmap_is_Some|].
  destruct (negb _); [done|]. destruct (tryPeers _ _ _ _) as [[]]; [done|].
  destruct (fs_transit st); cbn; [done|]. by apply fmap_is_Some.
Qed.

Definition delivery_forwarder : CoreForwarder (FwdState R).
Proof using All.
  refine {| cf_forward := Forward LoadLocation f; cf_inv := fun st => is_Some (fs_dlq st);
            cf_retained := held; cf_unroutable := noPeer;
            cf_inv_forward := Forward_keeps_dlq |}.
  intros env st e st' Hinv Heq. pose proof (Forward_fate LoadLocation f env st attempts_pos) as Hf.
  rewrite Heq in Hf. cbn in Hf. unfold noPeer.
  destruct e; try done; try (left; eapply deadLettered_held; [exact Hinv|]; by apply Hf).
  - right. apply Hf.
  - left. destruct Hf as (_ & _ & c & c' & e & _ & Hc' & He & Henv). left. exists c', (env_IdempotencyKey env), e.
    auto.
Defined.
End DeliveryForwarder.

(** Padding hides the payload's length up to the bucket and nothing else.
    With a positive bucket and a non-empty payload (and no overflow of a 64-bit
    int), the padded payload is the payload followed by zero bytes, its length is
    the least multiple of the bucket that holds the payload, [PaddedTo] is that
    length as long as it fits 32 bits, and every other field is unchanged. *)
Theorem applyPadding_bucket env bucket :
  let n := Z.of_nat (slice_len (env_Payload env)) in
  0 < bucket -> 0 < n -> n + bucket <= 2 ^ 32 ->
  exists env' k,
    applyPadding env bucket = Some env'
    /\ env_Payload env' = Some (append (slice_of (env_Payload env)) (zeros k))
    /\ Z.of_nat (slice_len (env_Payload env')) = env_PaddedTo env'
    /\ (bucket | env_PaddedTo env') /\ n <= env_PaddedTo env' < n + bucket
    /\ env' = with_padding (slice_of (env_Payload env')) (env_PaddedTo env') env.
Proof.
  cbn zeta. intros Hb Hn Hmax. rewrite applyPadding_rounds by lia.
  pose proof (roundUp_spec _ bucket Hb Hn) as [Hr Hdiv].
  set (n := Z.of_nat (slice_len (env_Payload env))) in *.
  assert (wrap_u32 (roundUp n bucket) = roundUp n bucket) as Hw by (apply wrap_u32_id; unfold in_u32; lia).
  do 2 eexists. split; [reflexivity|]. cbn [env_Payload env_PaddedTo with_padding slice_of default]. rewrite Hw.
  split_and!; try done; try lia.
  unfold slice_len at 1. cbn. rewrite length_append_str, length_zeros. fold (slice_len (env_Payload env)). lia.
Qed.

(** The deduplication window of iso20022 traffic is at least 72 hours: it is
    the configured number of hours, or 72 when less is configured, exactly, for
    every setting up to 2,562,047 hours (the last one whose nanoseconds fit a
    64-bit duration). *)
Theorem iso_window_floor cfg :
  let hours := iso_DedupTTLH (sr_Iso20022 (cfg_SchemaRegistry cfg)) in
  hours <= 2562047 -> isoTTL cfg = Z.max 72 hours * Hour /\ 72 * Hour <= isoTTL cfg.
Proof.
  cbn zeta. intros Hh. unfold isoTTL, mul_duration. set (h := iso_DedupTTLH _) in *.
  assert (Hour = 3600000000000) as HH by reflexivity.
  assert ((if h <? 72 then 72 else h) = Z.max 72 h) as -> by (case_guards; go_bool; lia).
  rewrite wrap_i64_id by (unfold in_i64; rewrite HH; lia). rewrite HH. lia.
Qed.

(** ** A running gateway *)

(** The gateway of the balanced profile over the demonstration network of
    [Delivery], where only the addresses in [up] answer. *)
Definition demo_up (a : string) : bool := str_eqb a "gl:7777".

#[export] Instance demo_core_forwarder : CoreForwarder (FwdState Z) :=
  delivery_forwarder (H := demo_runtime demo_up) utc_db demo_forwarder ltac:(by vm_compute).

(** The world of the callbacks: the keys they saw. *)
Definition demo_gateway (cfg : Config) : Gateway (list string) :=
  SetOnAllow (fun env w => w ++ [env_IdempotencyKey env]) (NewGateway cfg true).

Definition demo_gwstate (cfg : Config) : GwState unit (FwdState Z) (list string) := {|
  gs_policy := {| en_cfg := cfg; en_auditing := true; en_hasCRL := true |};
  gs_crl := New; gs_audit := NewLog; gs_dedup := NewIndex (pf_DedupTTL (cfg_Profile cfg));
  gs_fwd := demo_state; gs_world := [] |}.

Definition demo_call (t : Z) : CallEnv :=
  {| ck_dedup := t; ck_audit := t; ck_final := t; ck_jitter := 0; ck_cancel := None; ck_tie := false |}.

Definition demo_req (key schema : string) : SendRequest := {| sr_Envelope := mkEnvelope key "RS" "RU" schema |}.

Definition demo_cfg : Config := DefaultConfigForProfile "balanced".

Definition demo_send (st : GwState unit (FwdState Z) (list string)) (t : Z) (key schema : string) :=
  SendEnvelope (demo_gateway demo_cfg) (demo_call t) (demo_req key schema) st.

Lemma SendEnvelope_audited_witness :
  Verify (gs_audit (demo_send (demo_gwstate demo_cfg) 0 "k" "messaging").2) = None.
Proof.
  refine (proj1 (SendEnvelope_audited (demo_gateway demo_cfg) (demo_call 0) (demo_req "k" "messaging")
            (demo_gwstate demo_cfg) _ _) _).
  - discriminate.
  - reflexivity.
  - vm_compute. reflexivity.
Defined.

Lemma gateway_at_most_once_witness :
  exists r, (demo_send (demo_send (demo_gwstate demo_cfg) 0 "k" "messaging").2 Hour "k" "messaging").1 = Ok r
    /\ rs_Decision r = DecisionDuplicate.
Proof.
  refine (proj2 (gateway_at_most_once (demo_gateway demo_cfg) (24 * Hour) 0
    ([] ++ [Sent 0 (demo_req "k" "messaging") (demo_send (demo_gwstate demo_cfg) 0 "k" "messaging").1])
    (demo_send (demo_gwstate demo_cfg) 0 "k" "messaging").2 (demo_call Hour) (demo_req "k" "messaging") _ _ _) _).
  - apply (gw_send _ _ 0 [] (demo_gwstate demo_cfg) (demo_call 0)); [|cbn; lia]. by apply gw_new.
  - vm_compute. discriminate.
  - by split.
  - eexists _, _, _. split; [by left|]. split; [by split|]. split; [done|]. split; [by vm_compute|].
    vm_compute. reflexivity.
Defined.

Lemma demo_real key schema : key <> ""%string -> real (demo_req key schema).
Proof. done. Qed.

(** The response of the first call. *)
Definition demo_response : SendResponse :=
  match (demo_send (demo_gwstate demo_cfg) 0 "k" "messaging").1 with
  | Ok r => r
  | Err _ => {| rs_Decision := ""; rs_Reason := ""; rs_Profile := ""; rs_NodeID := ""; rs_AuditRootHash := "";
                rs_PeerAuditRootHash := "" |}
  end.

Lemma demo_response_ok : (demo_send (demo_gwstate demo_cfg) 0 "k" "messaging").1 = Ok demo_response.
Proof. vm_compute. reflexivity. Qed.

Lemma demo_response_allow : rs_Decision demo_response = DecisionAllow.
Proof. vm_compute. reflexivity. Qed.

Lemma only_permitted_leave_witness :
  freshKey (demo_gateway demo_cfg) (demo_call 0) (demo_req "k" "messaging") (demo_gwstate demo_cfg) = true.
Proof.
  pose proof (only_permitted_leave (demo_gateway demo_cfg) (demo_call 0) (demo_req "k" "messaging")
                (demo_gwstate demo_cfg) (demo_real "k" "messaging" ltac:(discriminate))) as Hp.
  fold (demo_send (demo_gwstate demo_cfg) 0 "k" "messaging") in Hp.
  rewrite demo_response_ok, demo_response_allow, str_eqb_refl in Hp. exact (proj1 Hp).
Defined.

Lemma allowed_not_lost_witness :
  applyJitter (demo_call 0) (pf_TimingJitterMax (cfg_Profile (gw_cfg (demo_gateway demo_cfg)))) = false
  \/ exists padded,
      applyPadding (normalised (demo_req "k" "messaging")) (pf_PaddingBucket (cfg_Profile (gw_cfg (demo_gateway demo_cfg))))
        = Some padded
      /\ ((cf_forward padded (gs_fwd (demo_gwstate demo_cfg))).1 = Ok (rs_PeerAuditRootHash demo_response)
          \/ cf_retained padded (gs_fwd (demo_send (demo_gwstate demo_cfg) 0 "k" "messaging").2)
          \/ cf_unroutable padded (gs_fwd (demo_gwstate demo_cfg))).
Proof.
  exact (allowed_not_lost (demo_gateway demo_cfg) (demo_call 0) (demo_req "k" "messaging") (demo_gwstate demo_cfg)
           demo_response (demo_real "k" "messaging" ltac:(discriminate)) eq_refl
           (ex_intro _ NewDLQ eq_refl) demo_response_ok demo_response_allow).
Defined.

Lemma applyPadding_bucket_witness :
  exists env' k, applyPadding (with_padding "hello" 0 (mkEnvelope "k" "RS" "RU" "messaging")) 4 = Some env'
    /\ env_Payload env' = Some (append "hello" (zeros k)).
Proof.
  destruct (applyPadding_bucket (with_padding "hello" 0 (mkEnvelope "k" "RS" "RU" "messaging")) 4)
    as (env' & k & H1 & H2 & _); [vm_compute; reflexivity..|vm_compute; discriminate|].
  exists env', k. split; [exact H1 | exact H2].
Defined.

Lemma iso_window_floor_witness : isoTTL demo_cfg = 72 * Hour.
Proof. exact (proj1 (iso_window_floor demo_cfg ltac:(vm_compute; discriminate))). Defined.

(** The balanced configuration with a deduplication window of [h] hours for iso20022. *)
Definition iso_cfg (h : Z) : Config :=
  let c := demo_cfg in
  {| cfg_Node := cfg_Node c; cfg_Profile := cfg_Profile c; cfg_Policy := cfg_Policy c; cfg_Network := cfg_Network c;
     cfg_TLS := cfg_TLS c; cfg_API := cfg_API c; cfg_Storage := cfg_Storage c;
     cfg_SchemaRegistry := {| sr_Adapters := [];
       sr_Iso20022 := {| iso_DedupTTLH := h; iso_SettlementFinality := false; iso_RetainLong := false;
                         iso_CutoffWindows := ∅ |} |};
     cfg_Apps := cfg_Apps c |}.

Definition iso_twice (h : Z) : list string :=
  let g := demo_gateway (iso_cfg h) in
  let first := SendEnvelope g (demo_call 0) (demo_req "payment-1" "iso20022") (demo_gwstate (iso_cfg h)) in
  let second := SendEnvelope g (demo_call Hour) (demo_req "payment-1" "iso20022") first.2 in
  omap (fun r => match r with Ok r => Some (rs_Decision r) | Err _ => None end) [first.1; second.1].

(** One hour more than [iso_window_floor] allows and the window is gone: a
    configuration with a deduplication time of 2,562,048 hours passes validation,
    but the product overflows to a negative duration, so a payment repeated with
    the same idempotency key an hour later is processed a second time; with 72
    hours it is recognised. *)
Theorem iso_window_overflow :
  Validate (iso_cfg 2562048) = None
  /\ isoTTL (iso_cfg 2562048) < 0
  /\ iso_twice 2562048 = [DecisionAllow; DecisionAllow]
  /\ iso_twice 72 = [DecisionAllow; DecisionDuplicate].
Proof. split_and!; vm_compute; reflexivity. Qed.
