(* ===== verification/Conformance.v ===== *)
(** * Conformance with the protocol specification ([docs/PROTOCOL_SPEC.md])

    The repository has a normative specification of the protocol.  Its order of policy
    rules (section 4.3, with 4.4 and 4.5) and its hash chain (section 5.2) are written
    down here as the document has them, and compared with the gateway and the audit
    log: what agrees, and exactly where they differ. *)

From S2P Require Import Prelude GoStrings GoCrypto Core Config Schema Crl Store AuditLog Policy Dedup Transit Delivery Gateway.

(** ** Section 4.3: the order of the rules *)

(** A decision and its reason code. *)
Definition Verdict : Type := string * string.

Definition denies (code : string) : Verdict := ("DENY"%string, code).

(** The first rule that applies terminates the evaluation. *)
Fixpoint firstOf (rules : list (bool * Verdict)) (otherwise : Verdict) : Verdict :=
  match rules with
  | [] => otherwise
  | (applies, v) :: rest => if applies then v else firstOf rest otherwise
  end.

Section Rules.
Context `{UnicodeTables}.

(** Step 6 and section 4.5: the first rule for the schema type. *)
Definition specIsolation (cfg : Config) (req : Request) : list (bool * Verdict) :=
  match governingRule cfg (Normalize (rq_SchemaType req)) with
  | None => []
  | Some rule => [
      (nonempty (jr_AllowTiers rule) && negb (Contains (jr_AllowTiers rule) (nc_NodeScope (cfg_Node cfg))),
       denies "JURISDICTION_ISOLATION_TIER_DENIED");
      (nonempty (jr_AllowJurisdictions rule)
         && (negb (Contains (jr_AllowJurisdictions rule) (rq_SenderRegion req))
             || negb (Contains (jr_AllowJurisdictions rule) (rq_RecipientRegion req))),
       denies "JURISDICTION_ISOLATION_REGION_DENIED");
      (negb (str_eqb (jr_RequireProfile rule) "") && negb (EqualFold (pf_Name (cfg_Profile cfg)) (jr_RequireProfile rule)),
       denies "JURISDICTION_ISOLATION_PROFILE_MISMATCH")]
  end.

(** The seven steps; [seen]: the key was seen within its window, [revoked]: the sender
    is in the revocation list.  A node without a region has no region of its own. *)
Definition specVerdict (seen revoked : bool) (cfg : Config) (req : Request) : Verdict :=
  let outbound := pc_Outbound (cfg_Policy cfg) in
  let ownRegion := negb (str_eqb (nc_Region (cfg_Node cfg)) "") && str_eqb (rq_RecipientRegion req) (nc_Region (cfg_Node cfg)) in
  firstOf ([
    (seen, ("DUPLICATE", "DUPLICATE_IDEMPOTENCY_KEY")%string);
    (revoked, denies "NODE_REVOKED");
    (rq_TrustTier req <? ip_MinTrustTier (pc_Inbound (cfg_Policy cfg)), denies "TRUST_TIER_BELOW_MINIMUM");
    (Contains (op_DenyTo outbound) (rq_RecipientRegion req), denies "RECIPIENT_REGION_DENIED");
    (nonempty (op_AllowTo outbound) && negb (Contains (op_AllowTo outbound) (rq_RecipientRegion req)) && negb ownRegion,
     denies "RECIPIENT_REGION_NOT_IN_ALLOW_LIST")] ++ specIsolation cfg req)
    ("ALLOW", "POLICY_ACCEPTED")%string.

(** *** The engine *)

Definition verdict (r : Result) : Verdict := (res_Decision r, res_Reason r).

Lemma firstOf_app l k otherwise : firstOf (l ++ k) otherwise = firstOf l (firstOf k otherwise).
Proof. induction l as [|[[] v] l IH]; cbn; done. Qed.

Lemma isolationLoop_spec cfg req st rules otherwise :
  match isolationLoop cfg req st rules with Some r => verdict r | None => otherwise end
  = firstOf match governing st rules with
            | None => []
            | Some rule => [
                (nonempty (jr_AllowTiers rule) && negb (Contains (jr_AllowTiers rule) (nc_NodeScope (cfg_Node cfg))),
                 (DecisionDeny, ReasonJurisdictionIsolationTier));
                (nonempty (jr_AllowJurisdictions rule)
                   && (negb (Contains (jr_AllowJurisdictions rule) (rq_SenderRegion req))
                       || negb (Contains (jr_AllowJurisdictions rule) (rq_RecipientRegion req))),
                 (DecisionDeny, ReasonJurisdictionIsolationRegion));
                (negb (str_eqb (jr_RequireProfile rule) "") && negb (EqualFold (pf_Name (cfg_Profile cfg)) (jr_RequireProfile rule)),
                 (DecisionDeny, ReasonJurisdictionIsolationProfile))]
            end otherwise.
Proof.
  induction rules as [|r rs IH]; [done|]. rewrite governing_cons. cbn [isolationLoop]. case_decide as E.
  - rewrite E, str_eqb_refl. cbn [negb firstOf]. by case_guards.
  - by rewrite (proj2 (str_eqb_neq _ _)).
Qed.

Lemma isolation_spec cfg req otherwise :
  match evaluateJurisdictionIsolation cfg req with Some r => verdict r | None => otherwise end
  = firstOf (specIsolation cfg req) otherwise.
Proof.
  unfold specIsolation. change (governingRule cfg ?st) with (governing st (pc_Rules (cfg_Policy cfg))).
  unfold evaluateJurisdictionIsolation. destruct (nonempty (pc_Rules (cfg_Policy cfg))) eqn:E; cbn [negb].
  - apply isolationLoop_spec.
  - go_bool. by rewrite E.
Qed.

(** The checks the engine has and the specification has not. *)
Definition builtinDenial (req : Request) (v : Verdict) : Prop :=
  v.1 = DecisionDeny
  /\ (Normalize (rq_SchemaType req) = Hl7Fhir /\ v.2 ∈ [ReasonHl7FhirNonRegionalNode; ReasonHl7FhirRequiresStrictProfile]
      \/ Normalize (rq_SchemaType req) = Edifact /\ v.2 ∈ [ReasonEdifactNodeTierDenied; ReasonEdifactRequiresBalancedProfile]).

Lemma Evaluate_conforms {B} `{NodeStore B} now e crl req (log : Log B) :
  let v := verdict (Evaluate now e crl req log).1 in
  v = specVerdict false (revokedSender e crl req) (en_cfg e) req \/ builtinDenial req v.
Proof.
  cbn zeta. unfold specVerdict. rewrite firstOf_app, <- isolation_spec. cbn [firstOf]. unfold Evaluate. cbn zeta.
  fold (revokedSender e crl req). destruct (revokedSender e crl req); [by left|].
  destruct (_ <? _); [by left|]. destruct (Contains (op_DenyTo _) _); [by left|].
  rewrite <- (andb_assoc (negb (_ && _))), (andb_comm (negb (_ && _))). destruct (nonempty _ && _ && _); [by left|].
  destruct (if str_eqb _ Hl7Fhir then _ else _) as [r|] eqn:Eh.
  { right. destruct (str_eqb _ Hl7Fhir) eqn:Es; [|done]. go_bool. unfold enforceHl7FhirPolicy in Eh.
    revert Eh. case_guards; intros [= <-]; (split; [done|]; left; split; [done|]; set_solver). }
  destruct (if str_eqb _ Edifact && _ then _ else _) as [r|] eqn:Ee.
  { right. destruct (str_eqb _ Edifact) eqn:Es; [|done]. cbn [andb] in Ee. go_bool. unfold enforceEdifactDefaults in Ee. cbn zeta in Ee.
    revert Ee. case_guards; intros [= <-]; (split; [done|]; right; split; [done|]; set_solver). }
  left. by destruct (evaluateJurisdictionIsolation _ _).
Qed.
End Rules.

(** *** The gateway *)

Section GatewayConforms.
Context `{UnicodeTables} {B : Type} `{NodeStore B} {F : Type} `{CoreForwarder F} {W : Type}.
Implicit Types (g : Gateway W) (st : GwState B F W).

(** The entry of a call: its verdict, its schema type, and what the caller is told. *)
Lemma SendEnvelope_recorded g c req st :
  real req -> en_auditing (gs_policy st) = true ->
  let rq := policyRequest (normalised req) in
  let '(res, st') := SendEnvelope g c req st in
  (log_wf (gs_audit st) -> log_wf (gs_audit st'))
  /\ exists e final, log_entries (gs_audit st') = log_entries (gs_audit st) ++ e :: final
    /\ ((ae_Decision e, ae_Reason e)
          = specVerdict (negb (freshKey g c req st)) (revokedSender (gs_policy st) (gs_crl st) rq) (en_cfg (gs_policy st)) rq
        \/ builtinDenial rq (ae_Decision e, ae_Reason e))
    /\ (env_SchemaType (normalised req) = Iso20022 -> ae_RetainLong e = true)
    /\ forall r, res = Ok r ->
         rs_Decision r = ae_Decision e
         /\ rs_Reason r = (if freshKey g c req st then ae_Reason e else "idempotency_key already processed"%string).
Proof.
  intros [Hk Hd] Ha rq. unfold freshKey. unfold SendEnvelope. cbn zeta. fold (normalised req).
  rewrite (proj2 (str_eqb_neq _ _)) by done. change (env_IsDummy (normalised req)) with (env_IsDummy (sr_Envelope req)). rewrite Hd.
  destruct (dedupCheck _ _ _ _) as [[] idx]; cbn [fst snd negb].
  { split; [eauto with mrmi|]. eexists _, []. split; [apply Append_entries|]. split; [by left|].
    split; [by cbn; intros ->|]. by intros r [= <-]. }
  pose proof (Evaluate_conforms (ck_audit c) (gs_policy st) (gs_crl st) rq (gs_audit st)) as Hv. cbn zeta in Hv.
  pose proof (Evaluate_log (ck_audit c) (gs_policy st) (gs_crl st) rq (gs_audit st)) as Hl. fold rq.
  destruct (Evaluate _ _ _ _ _) as [result log]. cbn [fst snd] in *. unfold appendAudit in Hl. rewrite Ha in Hl. cbn [negb] in Hl.
  assert (exists e, (log_wf (gs_audit st) -> log_wf log) /\ log_entries log = log_entries (gs_audit st) ++ [e]
            /\ (ae_Decision e, ae_Reason e) = verdict result
            /\ (env_SchemaType (normalised req) = Iso20022 -> ae_RetainLong e = true)) as (e & Hwf & He & Hve & Hiso).
  { subst log. eexists. split; [eauto with mrmi|]. split; [apply Append_entries|]. split; [done|]. cbn. by intros ->. }
  rewrite <- Hve in Hv. pose proof Hve as [= Hdec Hrea]. destruct (str_eqb _ DecisionAllow).
  - destruct (forwardAllowed _ _ _ _ _) as [[[ph f'] log']|] eqn:Ef.
    + apply forwardAllowed_entries in Ef as (Hwf' & final & Hf & _). split; [auto|]. exists e, final. cbn [gs_audit].
      rewrite Hf, He, <- (assoc_L app). split; [done|]. split; [exact Hv|]. split; [done|]. by intros r [= <-].
    + split; [done|]. exists e, []. split; [exact He|]. split; [exact Hv|done].
  - split; [done|]. exists e, []. split; [exact He|]. split; [exact Hv|]. split; [done|]. by intros r [= <-].
Qed.

(** C14: The gateway decides as the specification says.  For every envelope with a key
    that is no dummy the audit log gets an entry with the decision and the reason code
    of the first rule of section 4.3 that applies, deduplication before all others; the
    only exceptions are denials of health data and of logistics data for which the
    engine has checks of its own.  So nothing is allowed that the specification denies.
    The caller gets the decision and the reason of the entry; for a duplicate it gets
    another text than the specified code. *)
Theorem gateway_conforms g c req st :
  real req -> en_auditing (gs_policy st) = true ->
  let rq := policyRequest (normalised req) in
  let '(res, st') := SendEnvelope g c req st in
  exists e final, log_entries (gs_audit st') = log_entries (gs_audit st) ++ e :: final
    /\ ((ae_Decision e, ae_Reason e)
          = specVerdict (negb (freshKey g c req st)) (revokedSender (gs_policy st) (gs_crl st) rq) (en_cfg (gs_policy st)) rq
        \/ builtinDenial rq (ae_Decision e, ae_Reason e))
    /\ forall r, res = Ok r ->
         rs_Decision r = ae_Decision e
         /\ rs_Reason r = (if freshKey g c req st then ae_Reason e else "idempotency_key already processed"%string).
Proof.
  intros Hreal Ha rq. pose proof (SendEnvelope_recorded g c req st Hreal Ha) as Hr. fold rq in Hr. destruct (SendEnvelope g c req st) as [res st'].
  destruct Hr as (_ & e & final & Hl & Hv & _ & Hres). eauto.
Qed.
End GatewayConforms.

(** ** Section 5.2: the hash chain *)

(** The members of the hashed object, in order. *)
Definition specFields (e : Entry) : list json_field := [
  field "seq" (itoa (ae_Seq e));
  field "timestamp" (itoa (ae_Timestamp e));
  field "decision" (json_string (ae_Decision e));
  field_omit "reason" (json_string (ae_Reason e)) (empty_str (ae_Reason e));
  field "trust_tier" (itoa (ae_TrustTier e));
  field "sender_region" (json_string (ae_SenderRegion e));
  field "recipient_region" (json_string (ae_RecipientRegion e));
  field "policy_version" (json_string (ae_PolicyVersion e));
  field "profile" (json_string (ae_Profile e));
  field "applicable_law" (json_string (ae_ApplicableLaw e));
  field "dedup_ttl_hours" (itoa (ae_DedupTTLHours e));
  field "node_scope" (json_string (ae_NodeScope e));
  field "alliance_id" (json_string (ae_AllianceID e));
  field "node_region" (json_string (ae_NodeRegion e));
  field_omit "schema_type" (json_string (ae_SchemaType e)) (empty_str (ae_SchemaType e));
  field_omit "schema_version" (json_string (ae_SchemaVersion e)) (empty_str (ae_SchemaVersion e));
  field "previous_hash" (json_string (ae_PreviousHash e)) ].

Definition specPayload (e : Entry) : string := json_object (specFields e).

Definition specHash (e : Entry) : string := append "sha256:" (hex_encode (Sum256 (specPayload e))).

Definition specInitial : string := "sha256:0000000000000000000000000000000000000000000000000000000000000000".

(** The walk of a verifier: the root hash, where the chain rule holds. *)
Fixpoint specWalk (previous : string) (entries : list Entry) : option string :=
  match entries with
  | [] => Some previous
  | e :: es =>
      if str_eqb (ae_PreviousHash e) previous && str_eqb (ae_EntryHash e) (specHash e) then specWalk (ae_EntryHash e) es
      else None
  end.

(** An entry without the two flags the specification does not know. *)
Definition plainEntry (e : Entry) : bool := negb (ae_RetainLong e) && negb (ae_SettlementFinal e).

(** The two payloads differ in the flags of the entry alone. *)
Definition flagFields (e : Entry) : list json_field :=
  base.filter (fun f => jf_omit f = false)
    [field_omit "retain_long" (json_bool (ae_RetainLong e)) (negb (ae_RetainLong e));
     field_omit "settlement_final" (json_bool (ae_SettlementFinal e)) (negb (ae_SettlementFinal e))].

Lemma payloads e :
  exists l f, let text fs := String "{"%char (append (json_members fs) "}") in
    l <> [] /\ specPayload e = text (l ++ [f]) /\ hashPayload e = text (l ++ flagFields e ++ [f]).
Proof.
  exists (base.filter (fun f => jf_omit f = false) (take 16 (specFields e))), (field "previous_hash" (json_string (ae_PreviousHash e))).
  unfold specPayload, hashPayload, json_object. split_and!; [done|..].
  - change (specFields e) with (take 16 (specFields e) ++ [field "previous_hash" (json_string (ae_PreviousHash e))]) at 1.
    by rewrite filter_app.
  - change (hashedFields e) with (take 16 (specFields e)
      ++ [field_omit "retain_long" (json_bool (ae_RetainLong e)) (negb (ae_RetainLong e));
          field_omit "settlement_final" (json_bool (ae_SettlementFinal e)) (negb (ae_SettlementFinal e))]).
    by rewrite !filter_app, <- (assoc_L app).
Qed.

Lemma flagFields_nil e : flagFields e = [] <-> plainEntry e = true.
Proof. unfold flagFields, plainEntry. by destruct (ae_RetainLong e), (ae_SettlementFinal e). Qed.

Lemma length_members f fs :
  fs <> [] -> String.length (json_members (f :: fs)) = (String.length (json_member f) + S (String.length (json_members fs)))%nat.
Proof. destruct fs; [done|]. intros _. cbn [json_members]. by rewrite length_append_str. Qed.

Lemma members_longer pre x post :
  pre <> [] -> (String.length (json_members (pre ++ post)) < String.length (json_members (pre ++ x :: post)))%nat.
Proof.
  induction pre as [|f pre IH]; [done|]. intros _. cbn [app]. rewrite (length_members f (pre ++ x :: post)) by by destruct pre.
  destruct pre as [|f' pre].
  - cbn [app]. destruct post as [|p post]; [cbn [json_members]; lia|]. rewrite (length_members f), (length_members x) by done. lia.
  - rewrite length_members by done. specialize (IH ltac:(done)). lia.
Qed.

Lemma members_longer_app pre mid post :
  pre <> [] -> mid <> [] -> (String.length (json_members (pre ++ post)) < String.length (json_members (pre ++ mid ++ post)))%nat.
Proof.
  intros Hp. induction mid as [|x mid IH]; [done|]. intros _. pose proof (members_longer pre x (mid ++ post) Hp). cbn [app].
  destruct mid as [|y mid]; [done|]. specialize (IH ltac:(done)). lia.
Qed.

Lemma specPayload_plain e : specPayload e = hashPayload e <-> plainEntry e = true.
Proof.
  rewrite <- flagFields_nil. destruct (payloads e) as (l & f & Hl & -> & ->). split; [|by intros ->].
  intros [= Heq%(f_equal String.length)]. rewrite !length_append_str in Heq. destruct (flagFields e) eqn:E; [done|].
  pose proof (members_longer_app l (flagFields e) [f] Hl) as Hlt. rewrite E in Hlt. specialize (Hlt ltac:(done)). lia.
Qed.

Lemma specHash_plain e : plainEntry e = true -> specHash e = hashEntry e.
Proof. unfold specHash, hashEntry, hashString. by intros ->%specPayload_plain. Qed.

(** The texts that a node and a verifier hash for these entries. *)
Definition hashedTexts (es : list Entry) : list string := (hashPayload <$> es) ++ (specPayload <$> es).

Lemma specHash_flagged texts e :
  hashes_apart texts = true -> hashPayload e ∈ texts -> specPayload e ∈ texts -> plainEntry e = false -> specHash e <> hashEntry e.
Proof.
  intros [_ Hi]%hashes_apart_spec Hh Hs Hf Heq. apply (Hi _ _ Hs Hh), specPayload_plain in Heq. congruence.
Qed.

Lemma specWalk_chain texts previous i es root :
  hashes_apart texts = true -> hashedTexts es ⊆ texts -> verifyChain previous i es = Ok root ->
  specWalk previous es = if forallb plainEntry es then Some root else None.
Proof.
  intros Ha. revert previous i. induction es as [|e es IH]; intros previous i Hin; cbn [verifyChain specWalk forallb]; [by intros [= ->]|].
  destruct (str_eqb (ae_PreviousHash e) previous); [|done]. cbn [negb andb].
  destruct (str_eqb (hashEntry e) (ae_EntryHash e)) eqn:Eh; [|done]. cbn [negb]. intros Hv. go_bool.
  unfold hashedTexts in *. rewrite !fmap_cons in Hin.
  destruct (plainEntry e) eqn:Ep; cbn [andb].
  - rewrite specHash_plain, <- Eh, str_eqb_refl by done. rewrite Eh. eapply IH; [|exact Hv].
    intros x Hx. apply Hin. rewrite elem_of_app in Hx. rewrite elem_of_app, !elem_of_cons. tauto.
  - destruct (str_eqb (ae_EntryHash e) (specHash e)) eqn:Es; [|done]. go_bool.
    destruct (specHash_flagged texts e Ha); [..|done|congruence]; apply Hin, elem_of_app; [left|right]; by left.
Qed.

Lemma specWalk_log {B} (l : Log B) :
  log_wf l -> hashes_apart (hashedTexts (log_entries l)) = true ->
  specWalk specInitial (log_entries l) = if forallb plainEntry (log_entries l) then Some (RootHash l) else None.
Proof.
  intros [Hc Hr] Ha. change specInitial with zeroHash. eapply (specWalk_chain _ _ 0); [exact Ha|done|].
  apply verifyChain_chain. split; [exact Hc|exact Hr].
Qed.

(** C38: A verifier built from the specification.  For a log that the node itself
    verifies, a verifier that walks the chain as section 5.2 says, with the members the
    section lists, ends with the published root if no entry has a flag for long
    retention or for settlement finality; as soon as one entry has, it rejects the log,
    because the node hashes members that the specification does not list.  SHA-256 has
    to tell the texts that the two hash for this log apart. *)
Theorem spec_verifier_exact {B} (l : Log B) :
  Verify l = None -> hashes_apart (hashedTexts (log_entries l)) = true ->
  specWalk specInitial (log_entries l) = if forallb plainEntry (log_entries l) then Some (RootHash l) else None.
Proof.
  intros Hl%Verify_None. by apply specWalk_log.
Qed.

(** One payment is enough.  After any iso20022 envelope with a key, whatever was decided
    about it, the log of an auditing node is rejected by such a verifier, although the
    node's own verification accepts it. *)
Theorem payments_break_conformance `{UnicodeTables} {B F W} `{NodeStore B} `{CoreForwarder F} (g : Gateway W) c req (st : GwState B F W) :
  real req -> env_SchemaType (normalised req) = Iso20022 -> en_auditing (gs_policy st) = true -> Verify (gs_audit st) = None ->
  let log := gs_audit (SendEnvelope g c req st).2 in
  hashes_apart (hashedTexts (log_entries log)) = true ->
  Verify log = None /\ specWalk specInitial (log_entries log) = None.
Proof.
  intros Hreal Hs Ha Hv%Verify_None. pose proof (SendEnvelope_recorded g c req st Hreal Ha) as Hr.
  destruct (SendEnvelope g c req st) as [res st']. cbn [snd]. cbv zeta. destruct Hr as (Hwf & e & final & Hl & _ & Hiso & _).
  intros Hap. split; [by apply Verify_None, Hwf|]. rewrite (specWalk_log (gs_audit st') (Hwf Hv) Hap).
  assert (plainEntry e = false) as He by (unfold plainEntry; by rewrite Hiso). rewrite Hl, forallb_app. cbn [forallb].
  by rewrite He, andb_false_r.
Qed.

(** ** Witnesses *)

Lemma gateway_conforms_witness :
  exists e, log_entries (gs_audit (demo_send (demo_gwstate demo_cfg) 0 "k" "messaging").2) = [e]
    /\ (ae_Decision e, ae_Reason e) = ("ALLOW", "POLICY_ACCEPTED")%string.
Proof.
  pose proof (gateway_conforms (demo_gateway demo_cfg) (demo_call 0) (demo_req "k" "messaging") (demo_gwstate demo_cfg)
                (demo_real "k" "messaging" ltac:(discriminate)) eq_refl) as Hc.
  fold (demo_send (demo_gwstate demo_cfg) 0 "k" "messaging") in Hc.
  assert (specVerdict false false demo_cfg (policyRequest (normalised (demo_req "k" "messaging"))) = ("ALLOW", "POLICY_ACCEPTED")%string)
    as Hs by (vm_compute; reflexivity).
  assert (length (log_entries (gs_audit (demo_send (demo_gwstate demo_cfg) 0 "k" "messaging").2)) = 1%nat) as Hn by (vm_compute; reflexivity).
  destruct (demo_send _ _ _ _) as [res st']. destruct Hc as (e & final & Hl & Hv & _). exists e. cbn [snd] in *.
  destruct final as [|x final]; [|by rewrite Hl in Hn]. split; [exact Hl|]. destruct Hv as [Hv|[_ [[Hx _]|[Hx _]]]].
  - rewrite Hv. exact Hs.
  - vm_compute in Hx. discriminate Hx.
  - vm_compute in Hx. discriminate Hx.
Defined.

Lemma spec_verifier_exact_witness :
  specWalk specInitial (log_entries demo_log) = Some (RootHash demo_log)
  /\ let paid := (Append 0 DefaultBalancedConfig DecisionAllow "POLICY_ACCEPTED" 1 "RS" "RU" Iso20022 "1.0.0" demo_log).2 in
     Verify paid = None /\ specWalk specInitial (log_entries paid) = None.
Proof.
  set (paid := (Append 0 DefaultBalancedConfig DecisionAllow "POLICY_ACCEPTED" 1 "RS" "RU" Iso20022 "1.0.0" demo_log).2).
  cbv zeta. split_and!.
  - exact (spec_verifier_exact demo_log ltac:(vm_compute; reflexivity) ltac:(vm_compute; reflexivity)).
  - vm_compute. reflexivity.
  - exact (spec_verifier_exact paid ltac:(vm_compute; reflexivity) ltac:(vm_compute; reflexivity)).
Defined.
