(* ===== verification/Background.v ===== *)
(** * Background tasks (packages [internal/dummy] and [internal/dnstxt], and their start in [app.go])

    The generator of dummy traffic and the publisher of root hashes, one tick of each
    timer at a time. *)

From S2P Require Import Prelude GoStrings GoCrypto Config Schema Crl Store AuditLog Policy Dedup Core Transit Delivery Gateway.

(** ** The dummy-traffic generator *)

Record Generator := { dg_cfg : Config; dg_counter : Z }.

Definition NewGenerator (cfg : Config) : Generator := {| dg_cfg := cfg; dg_counter := 0 |}.

(** The guard at the head of [Run]. *)
Definition generates (g : Generator) (peers : list PeerConfig) : bool :=
  negb ((pf_DummyTrafficRate (cfg_Profile (dg_cfg g)) <=? 0) || negb (nonempty peers)).

Definition dummyEnvelope (cfg : Config) (counter now : Z) (peer : PeerConfig) : Envelope :=
  let bucket := pf_PaddingBucket (cfg_Profile cfg) in {|
  env_IdempotencyKey := append "dummy-" (append (nc_NodeID (cfg_Node cfg)) (append "-" (itoa counter)));
  env_SenderNodeID := ""; env_SenderIdentity := None; env_RecipientIdentity := None;
  env_SenderRegion := nc_Region (cfg_Node cfg); env_RecipientRegion := peer_Region peer; env_TrustTier := 0;
  env_SequenceNumber := 0;
  env_Payload := if 0 <? bucket then Some (zeros (Z.to_nat bucket)) else None;
  env_PaddedTo := if 0 <? bucket then wrap_u32 bucket else 0;
  env_Timestamp := UnixMilli now; env_Signature := None; env_IsDummy := true; env_SchemaType := "";
  env_SchemaVersion := ""; env_RoutingHint := "" |}.

(** One tick: an envelope for each peer; [clk] is the clock at each of them. *)
Fixpoint dummyTick (clk : nat -> Z) (peers : list PeerConfig) (g : Generator) : list Envelope * Generator :=
  match peers with
  | [] => ([], g)
  | peer :: peers' =>
      let n := wrap_u64 (dg_counter g + 1) in
      let (envs, g') := dummyTick (fun i => clk (S i)) peers' {| dg_cfg := dg_cfg g; dg_counter := n |} in
      (dummyEnvelope (dg_cfg g) n (clk O) peer :: envs, g')
  end.

(** ** The publisher *)

Record Publisher := { pb_nodeID : string; pb_applicableLaw : string; pb_interval : Z }.

(** The line of one tick. *)
Definition txtRecord (p : Publisher) (now : Z) (rootHash : string) : string :=
  append "v=1 ts=" (append (itoa (Unix now)) (append " root=" (append rootHash
    (append " node=" (append (pb_nodeID p) (append " law=" (append (pb_applicableLaw p) (String (chr 10) EmptyString)))))))).

(** What [Run] of [app.go] starts: the publisher, where there is an interval. *)
Definition publisherOf (cfg : Config) : option Publisher :=
  let a := pc_Audit (cfg_Policy cfg) in
  if ap_DNSTXTPublish a && negb (ap_DNSTXTInterval a =? 0)
  then Some {| pb_nodeID := nc_NodeID (cfg_Node cfg); pb_applicableLaw := nc_ApplicableLaw (cfg_Node cfg);
               pb_interval := ap_DNSTXTInterval a |}
  else None.

Section Traffic.
Context `{UnicodeTables} {B : Type} `{NodeStore B} {F : Type} `{CoreForwarder F} {W : Type}.
Implicit Types (gw : Gateway W) (st : GwState B F W).

(** The function the generator sends with: [gw.SendEnvelope]. *)
Definition sendDummies gw (calls : list (CallEnv * Envelope)) st : GwState B F W :=
  foldl (fun st c => (SendEnvelope gw c.1 {| sr_Envelope := c.2 |} st).2) st calls.

Lemma dummyEnvelope_real cfg n now peer :
  env_IsDummy (dummyEnvelope cfg n now peer) = true /\ env_IdempotencyKey (dummyEnvelope cfg n now peer) <> ""%string.
Proof. split; [done|]. cbn. done. Qed.

Lemma dummyTick_dummies clk peers g :
  length (dummyTick clk peers g).1 = length peers
  /\ Forall (fun e => env_IsDummy e = true /\ env_IdempotencyKey e <> ""%string) (dummyTick clk peers g).1.
Proof.
  revert clk g. induction peers as [|p peers IH]; intros clk g; [split; [done|constructor]|]. cbn [dummyTick].
  specialize (IH (fun i => clk (S i)) {| dg_cfg := dg_cfg g; dg_counter := wrap_u64 (dg_counter g + 1) |}) as [IHl IHf].
  destruct (dummyTick _ peers _) as [envs g']. cbn in *. split; [lia|]. constructor; [by apply dummyEnvelope_real|done].
Qed.

Lemma sendDummies_local gw calls st :
  Forall (fun c => env_IsDummy c.2 = true /\ env_IdempotencyKey c.2 <> ""%string) calls ->
  exists es, length es = length calls /\ Forall (fun e => ae_Decision e = DecisionDummy) es
    /\ log_entries (gs_audit (sendDummies gw calls st)) = log_entries (gs_audit st) ++ es
    /\ gs_fwd (sendDummies gw calls st) = gs_fwd st /\ gs_world (sendDummies gw calls st) = gs_world st
    /\ gs_dedup (sendDummies gw calls st) = gs_dedup st.
Proof.
  intros Hc. revert st. induction Hc as [|[c env] calls [Hd Hk] Hc IH]; intros st.
  { exists []. rewrite app_nil_r. done. }
  cbn [sendDummies foldl fst snd] in *.
  destruct (SendEnvelope_dummy gw c {| sr_Envelope := env |} st Hk Hd) as [_ Hst].
  destruct (IH (SendEnvelope gw c {| sr_Envelope := env |} st).2) as (es & Hl & Hf & He & Hfwd & Hw & Hi).
  fold (sendDummies gw calls (SendEnvelope gw c {| sr_Envelope := env |} st).2).
  rewrite Hst in He, Hfwd, Hw, Hi |- *. cbn [gs_audit gs_fwd gs_world gs_dedup] in *. rewrite Append_entries in He.
  match type of He with _ = (_ ++ [?x]) ++ es => exists (x :: es) end. split_and!; [cbn; by rewrite Hl| | |done..].
  - constructor; [|done]. reflexivity.
  - rewrite He, <- app_assoc. done.
Qed.

(** Dummy traffic never leaves the node.  Every envelope of a tick goes to the
    node's own gateway, which answers dummy traffic before it reaches the forwarder:
    the audit log gains one dummy entry per peer, and the forwarder (its queue and
    transit cache included), the callbacks and the deduplication index stay as they
    are.  So nothing is sent to a peer, and an observer of the network sees no
    difference between silence and activity being masked. *)
Theorem dummy_traffic_stays_home gw clk peers g (cs : list CallEnv) st :
  length cs = length peers ->
  let st' := sendDummies gw (zip cs (dummyTick clk peers g).1) st in
  exists es, length es = length peers /\ Forall (fun e => ae_Decision e = DecisionDummy) es
    /\ log_entries (gs_audit st') = log_entries (gs_audit st) ++ es
    /\ gs_fwd st' = gs_fwd st /\ gs_world st' = gs_world st /\ gs_dedup st' = gs_dedup st.
Proof.
  intros Hcs st'. destruct (dummyTick_dummies clk peers g) as [Hl Hf].
  destruct (sendDummies_local gw (zip cs (dummyTick clk peers g).1) st) as (es & Hes & Hrest).
  - apply Forall_forall. intros [c e] Hin. rewrite Forall_forall in Hf. apply Hf. by eapply elem_of_zip_r.
  - exists es. split; [|done]. rewrite Hes, length_zip_with. lia.
Qed.
End Traffic.

(** ** Witness *)

Definition demo_peers : list PeerConfig :=
  [{| peer_Region := "RU"; peer_Addr := "ru:7777"; peer_NodeScope := "regional"; peer_Regions := [] |};
   {| peer_Region := "US"; peer_Addr := "us:7777"; peer_NodeScope := "global"; peer_Regions := [] |}].

Lemma dummy_traffic_stays_home_witness :
  gs_fwd (sendDummies (demo_gateway demo_cfg)
    (zip [demo_call 0; demo_call 0] (dummyTick (fun _ => 0) demo_peers (NewGenerator demo_cfg)).1) (demo_gwstate demo_cfg))
  = gs_fwd (demo_gwstate demo_cfg).
Proof.
  destruct (dummy_traffic_stays_home (demo_gateway demo_cfg) (fun _ => 0) demo_peers (NewGenerator demo_cfg)
    [demo_call 0; demo_call 0] (demo_gwstate demo_cfg) eq_refl) as (es & _ & _ & _ & Hf & _). exact Hf.
Defined.

Example txtRecord_ex :
  txtRecord {| pb_nodeID := "rs-node-01"; pb_applicableLaw := "RS-GDPR"; pb_interval := Hour |} (5 * Second) "sha256:ab"
  = append "v=1 ts=5 root=sha256:ab node=rs-node-01 law=RS-GDPR" (String (chr 10) "").
Proof. vm_compute. reflexivity. Qed.
