(* ===== verification/Builders.v ===== *)
(** * Constructors of envelopes (package [internal/schema/builders])

    One constructor per built-in domain: the payload, the schema type and its
    version; the financial one also keeps the routing hint.  The remaining fields
    are left to the caller. *)

From S2P Require Import Prelude GoStrings GoCrypto Config Schema Crl Store AuditLog Policy Core Dedup Transit Delivery Gateway.

Definition builtEnvelope (payload : bytes) (schemaType hint : string) : Envelope := {|
  env_IdempotencyKey := ""; env_SenderNodeID := ""; env_SenderIdentity := None; env_RecipientIdentity := None;
  env_SenderRegion := ""; env_RecipientRegion := ""; env_TrustTier := 0; env_SequenceNumber := 0;
  env_Payload := payload; env_PaddedTo := 0; env_Timestamp := 0; env_Signature := None; env_IsDummy := false;
  env_SchemaType := schemaType; env_SchemaVersion := "1.0.0"; env_RoutingHint := hint |}.

Definition NewMessagingEnvelope (payload : bytes) : Envelope := builtEnvelope payload Messaging "".

Definition NewHl7FhirEnvelope (payload : bytes) : Envelope := builtEnvelope payload Hl7Fhir "".

Definition NewEdifactEnvelope (payload : bytes) : Envelope := builtEnvelope payload Edifact "".

Definition NewIso20022Envelope (payload : bytes) (bicPrefix : string) : Envelope :=
  let env := builtEnvelope payload Iso20022 "" in
  if negb (str_eqb bicPrefix "") then builtEnvelope (env_Payload env) (env_SchemaType env) bicPrefix else env.

(** What the caller still has to set. *)
Definition address (key src dst : string) (e : Envelope) : Envelope := {|
  env_IdempotencyKey := key; env_SenderNodeID := env_SenderNodeID e; env_SenderIdentity := env_SenderIdentity e;
  env_RecipientIdentity := env_RecipientIdentity e; env_SenderRegion := src; env_RecipientRegion := dst;
  env_TrustTier := env_TrustTier e; env_SequenceNumber := env_SequenceNumber e; env_Payload := env_Payload e;
  env_PaddedTo := env_PaddedTo e; env_Timestamp := env_Timestamp e; env_Signature := env_Signature e;
  env_IsDummy := env_IsDummy e; env_SchemaType := env_SchemaType e; env_SchemaVersion := env_SchemaVersion e;
  env_RoutingHint := env_RoutingHint e |}.

Inductive Domain := DMessaging | DHl7Fhir | DEdifact | DIso20022 (bicPrefix : string).

Definition build (d : Domain) (payload : bytes) : Envelope :=
  match d with
  | DMessaging => NewMessagingEnvelope payload
  | DHl7Fhir => NewHl7FhirEnvelope payload
  | DEdifact => NewEdifactEnvelope payload
  | DIso20022 bic => NewIso20022Envelope payload bic
  end.

Lemma NewIso20022Envelope_hint payload bic : NewIso20022Envelope payload bic = builtEnvelope payload Iso20022 bic.
Proof. unfold NewIso20022Envelope. destruct (str_eqb bic "") eqn:E; [|done]. go_bool. by subst bic. Qed.

Definition domainSchema (d : Domain) : string :=
  match d with DMessaging => Messaging | DHl7Fhir => Hl7Fhir | DEdifact => Edifact | DIso20022 _ => Iso20022 end.

Definition domainHint (d : Domain) : string := match d with DIso20022 bic => bic | _ => ""%string end.

Lemma build_spec d payload : build d payload = builtEnvelope payload (domainSchema d) (domainHint d).
Proof. destruct d; try reflexivity. apply NewIso20022Envelope_hint. Qed.

(** The gateway takes a built envelope for what its constructor says. *)
Lemma built_normalised d payload key src dst :
  normalised {| sr_Envelope := address key src dst (build d payload) |} = address key src dst (build d payload)
  /\ slice_of (env_Payload (build d payload)) = slice_of payload.
Proof. rewrite build_spec. unfold normalised. destruct d; done. Qed.

(** What a built envelope needs to be allowed: health data the fixed floor, and
    everything the audit policy of its node. *)
Theorem built_health_floor {B} `{NodeStore B} `{UnicodeTables} now e crl payload key src dst (log : Log B) :
  res_Decision (Evaluate now e crl (policyRequest (address key src dst (NewHl7FhirEnvelope payload))) log).1 = DecisionAllow ->
  nc_NodeScope (cfg_Node (en_cfg e)) = "regional"%string
  /\ EqualFold (pf_Name (cfg_Profile (en_cfg e))) "strict" = true.
Proof. apply hl7fhir_floor. reflexivity. Qed.

Lemma reorderByHint_absent peers hint :
  Forall (fun p => peer_Region p <> hint) peers -> reorderByHint peers hint = peers.
Proof.
  intros Hp. unfold reorderByHint. destruct (list_find _ peers) as [[i p]|] eqn:E; [|done].
  apply list_find_Some in E as (Hl & Hr & _). apply list_elem_of_lookup_2 in Hl. rewrite Forall_forall in Hp. by destruct (Hp p Hl).
Qed.

(** The routing hint of a payment has no effect where regions are country codes: a
    hint is the first six characters of a BIC, and the forwarder looks for a peer
    whose region equals it. *)
Theorem bic_hint_never_matches payload bic peers :
  String.length bic = 6%nat -> Forall (fun p => String.length (peer_Region p) <> 6%nat) peers ->
  reorderByHint peers (env_RoutingHint (NewIso20022Envelope payload bic)) = peers.
Proof.
  intros Hb Hp. rewrite NewIso20022Envelope_hint. apply reorderByHint_absent. eapply Forall_impl; [exact Hp|].
  intros p Hl. cbn. congruence.
Qed.

Lemma bic_hint_never_matches_witness :
  reorderByHint
    [{| peer_Region := "RS"; peer_Addr := "rs:7777"; peer_NodeScope := "regional"; peer_Regions := [] |};
     {| peer_Region := "RU"; peer_Addr := "ru:7777"; peer_NodeScope := "regional"; peer_Regions := [] |}]
    (env_RoutingHint (NewIso20022Envelope None "SABRRU"))
  = [{| peer_Region := "RS"; peer_Addr := "rs:7777"; peer_NodeScope := "regional"; peer_Regions := [] |};
     {| peer_Region := "RU"; peer_Addr := "ru:7777"; peer_NodeScope := "regional"; peer_Regions := [] |}].
Proof. apply bic_hint_never_matches; [reflexivity|]. repeat constructor; discriminate. Defined.
