(* ===== verification/GoText.v ===== *)
(** * Text in and out of the command line (standard library)

    What the operator's commands use of [strings] (fields, cutting at a separator),
    [strconv] and [time] (durations read and rounded, RFC 3339), and
    [text/tabwriter].  All of it is executable on byte strings. *)

From Stdlib Require Import SpecFloat.
From S2P Require Import Prelude GoStrings GoCrypto Utf8 Json Delivery.

(** ** [strings.Fields]

    [word] is the current field, last byte first. *)
Definition flush (word : list ascii) (rest : list string) : list string :=
  match word with [] => rest | _ => string_of_list_ascii (rev word) :: rest end.

Fixpoint fields_from (word l : list ascii) : list string :=
  match l with
  | [] => flush word []
  | a :: l1 =>
      if space1 a then flush word (fields_from [] l1) else
      match l1 with
      | b :: l2 =>
          if space2 a b then flush word (fields_from [] l2) else
          match l2 with
          | c :: l3 => if space3 a b c then flush word (fields_from [] l3) else fields_from (a :: word) l1
          | [] => fields_from (a :: word) l1
          end
      | [] => fields_from (a :: word) l1
      end
  end.

Definition Fields (s : string) : list string := fields_from [] (list_ascii_of_string s).

(** [strings.SplitN(s, sep, 2)] for a one-byte separator: the two parts, or [None]
    for a slice of one element. *)
Fixpoint cut (sep : ascii) (s : string) : option (string * string) :=
  match s with
  | EmptyString => None
  | String a s' =>
      if Ascii.eqb a sep then Some (""%string, s')
      else match cut sep s' with Some (l, r) => Some (String a l, r) | None => None end
  end.

(** ** [strconv.ParseBool] *)

Definition ParseBool (s : string) : option bool :=
  if Contains ["1"; "t"; "T"; "TRUE"; "true"; "True"]%string s then Some true
  else if Contains ["0"; "f"; "F"; "FALSE"; "false"; "False"]%string s then Some false else None.

(** ** [time.ParseDuration] *)

Definition unitMap (u : list Z) : option Z :=
  if bool_decide (u = codes "ns") then Some Nanosecond
  else if bool_decide (u = codes "us" \/ u = [0xC2; 0xB5; 115] \/ u = [0xCE; 0xBC; 115]) then Some 1000
  else if bool_decide (u = codes "ms") then Some Millisecond
  else if bool_decide (u = codes "s") then Some Second
  else if bool_decide (u = codes "m") then Some Minute
  else if bool_decide (u = codes "h") then Some Hour else None.

Fixpoint leadingInt (x : Z) (l : list Z) : option (Z * list Z) :=
  match l with
  | c :: l' =>
      if is_digit c then
        if 2 ^ 63 / 10 <? x then None else
        let y := x * 10 + (c - 48) in
        if 2 ^ 63 <? y then None else leadingInt y l'
      else Some (x, l)
  | [] => Some (x, [])
  end.

(** The digits after a point, and the power of ten they are to be divided by. *)
Fixpoint leadingFraction (x scale : Z) (overflow : bool) (l : list Z) : Z * Z * list Z :=
  match l with
  | c :: l' =>
      if is_digit c then
        if overflow || ((2 ^ 63 - 1) / 10 <? x) then leadingFraction x scale true l' else
        let y := x * 10 + (c - 48) in
        if 2 ^ 63 <? y then leadingFraction x scale true l' else leadingFraction y (scale * 10) false l'
      else (x, scale, l)
  | [] => (x, scale, [])
  end.

Fixpoint span_unit (l : list Z) : list Z * list Z :=
  match l with
  | c :: l' => if (c =? 46) || is_digit c then ([], l) else let (u, rest) := span_unit l' in (c :: u, rest)
  | [] => ([], [])
  end.

(** One number with its unit: the nanoseconds and what follows. *)
Definition durationPart (l : list Z) : option (Z * list Z) :=
  match l with
  | c :: _ =>
      if negb ((c =? 46) || is_digit c) then None else
      match leadingInt 0 l with
      | None => None
      | Some (v, l1) =>
          let pre := negb (Nat.eqb (length l) (length l1)) in
          let '(f, scale, l2, post) :=
            match l1 with
            | 46 :: l1' => let '(f, scale, l2) := leadingFraction 0 1 false l1' in
                           (f, scale, l2, negb (Nat.eqb (length l1') (length l2)))
            | _ => (0, 1, l1, false)
            end in
          if negb (pre || post) then None else
          let (u, l3) := span_unit l2 in
          match unitMap u with
          | None => None
          | Some unit_ =>
              if 2 ^ 63 / unit_ <? v then None else
              let v := v * unit_ in
              let v := if 0 <? f
                       then v + int64_of_float (fun _ => 0) (fmul (float64_of_int f)
                                  (SFdiv 53 1024 (float64_of_int unit_) (float64_of_int scale)))
                       else v in
              if 2 ^ 63 <? v then None else Some (v, l3)
          end
      end
  | [] => None
  end.

(** Every part takes at least one byte, so the number of bytes is enough fuel. *)
Fixpoint durationParts (fuel : nat) (d : Z) (l : list Z) : option Z :=
  match l, fuel with
  | [], _ => Some d
  | _, O => None
  | _, S fuel' =>
      match durationPart l with
      | None => None
      | Some (v, l') => let d := d + v in if 2 ^ 63 <? d then None else durationParts fuel' d l'
      end
  end.

Definition ParseDuration (s : string) : option Z :=
  let l := codes s in
  let (neg, l) := match l with 45 :: l' => (true, l') | 43 :: l' => (false, l') | _ => (false, l) end in
  if bool_decide (l = [48]) then Some 0 else
  if negb (nonempty l) then None else
  match durationParts (length l) 0 l with
  | None => None
  | Some d => if neg : bool then Some (- d) else if 2 ^ 63 - 1 <? d then None else Some d
  end.

(** [int(d.Hours())], [int(d.Minutes())] and [int(d.Seconds())]: whole units plus a
    fraction, as binary64 numbers, truncated. *)
Definition intUnits (d unit_ : Z) : Z :=
  int64_of_float (fun _ => 0)
    (SFadd 53 1024 (float64_of_int (Z.quot d unit_))
      (SFdiv 53 1024 (float64_of_int (Z.rem d unit_)) (float64_of_int unit_))).

(** ** [t.UTC().Format(time.RFC3339)] for [t = time.Unix(sec, 0)] *)

Definition pad (n : nat) (z : Z) : string :=
  let s := itoa z in append (string_of_list_ascii (replicate (n - String.length s) "0"%char)) s.

(** The date of a number of days after 1 January 1970; years of the computation
    start on 1 March. *)
Definition civil (days : Z) : Z * Z * Z :=
  let z := days + 719468 in
  let era := z / 146097 in
  let doe := z mod 146097 in
  let yoe := (doe - doe / 1460 + doe / 36524 - doe / 146096) / 365 in
  let doy := doe - (365 * yoe + yoe / 4 - yoe / 100) in
  let mp := (5 * doy + 2) / 153 in
  let month := if mp <? 10 then mp + 3 else mp - 9 in
  (yoe + era * 400 + (if month <=? 2 then 1 else 0), month, doy - (153 * mp + 2) / 5 + 1).

Definition FormatRFC3339 (sec : Z) : string :=
  let '(year, month, day) := civil (sec / 86400) in
  let s := sec mod 86400 in
  let y := if year <? 0 then append "-" (pad 4 (- year)) else pad 4 year in
  append y (append "-" (append (pad 2 month) (append "-" (append (pad 2 day) (append "T" (append (pad 2 (s / 3600))
    (append ":" (append (pad 2 (s / 60 mod 60)) (append ":" (append (pad 2 (s mod 60)) "Z")))))))))).

(** ** [strconv.Quote]: the verb [%q]

    Which runes from 0x80 on are printable is a table of the Go distribution. *)

Class PrintTable := print_hi : Z -> bool.

Definition IsPrint `{PrintTable} (r : Z) : bool :=
  if r <? 0x80 then (32 <=? r) && (r <? 127) else print_hi r.

(** The last [n] hexadecimal digits. *)
Fixpoint hexDigits (n : nat) (r : Z) : string :=
  match n with O => "" | S n' => append (hexDigits n' (r / 16)) (String (hex_digit (r mod 16)) "") end.

Definition quoteRune `{PrintTable} (r : Z) : string :=
  if (r =? 34) || (r =? 92) then String backslash (String (chr r) "")
  else if IsPrint r then encode_rune r
  else if r =? 7 then String backslash "a" else if r =? 8 then String backslash "b"
  else if r =? 12 then String backslash "f" else if r =? 10 then String backslash "n"
  else if r =? 13 then String backslash "r" else if r =? 9 then String backslash "t"
  else if r =? 11 then String backslash "v"
  else if (r <? 32) || (r =? 127) then String backslash (append "x" (hexDigits 2 r))
  else if r <? 0x10000 then String backslash (append "u" (hexDigits 4 r))
  else String backslash (append "U" (hexDigits 8 r)).

(** The items of a string next to its bytes: an invalid byte is written as such. *)
Fixpoint quoteItems `{PrintTable} (items : list rune_item) (l : list ascii) : string :=
  match items with
  | [] => ""
  | Rune r :: items' => append (quoteRune r) (quoteItems items' (drop (String.length (encode_rune r)) l))
  | BadByte :: items' =>
      append (String backslash (append "x" (hexDigits 2 (default 0 (byteZ <$> head l))))) (quoteItems items' (drop 1 l))
  end.

Definition Quote `{PrintTable} (s : string) : string :=
  String quote_char (append (quoteItems (decode s) (list_ascii_of_string s)) (String quote_char "")).

(** ** [text/tabwriter] with [NewWriter(w, 0, 0, 2, ' ', 0)] *)

Definition newline : string := String (chr 10) "".
Definition tab : string := String (chr 9) "".

(** The text cut at each byte [sep]; there is always a last part. *)
Fixpoint split_at (sep : ascii -> bool) (s : string) : list string :=
  match s with
  | EmptyString => [""%string]
  | String a s' =>
      if sep a then ""%string :: split_at sep s' else
      match split_at sep s' with l :: ls => String a l :: ls | [] => [String a ""] end
  end.

Definition is_tab (a : ascii) : bool := (byteZ a =? 9) || (byteZ a =? 11).
Definition is_newline (a : ascii) : bool := byteZ a =? 10.
Definition is_feed (a : ascii) : bool := byteZ a =? 12.

Definition cellWidth (c : string) : nat := length (runes c).
Definition padding : nat := 2.

Definition spaces (n : nat) : string := string_of_list_ascii (replicate n " "%char).

(** A line under the column widths found so far; the cell after the last tab is not
    padded. *)
Fixpoint writeLine (widths : list nat) (cells : list string) : string :=
  match cells, widths with
  | [], _ => ""%string
  | c :: cells', w :: widths' => append c (append (spaces (w - cellWidth c)) (writeLine widths' cells'))
  | c :: cells', [] => append c (writeLine [] cells')
  end.

(** Whether a line has a tab-terminated cell in a column. *)
Definition hasColumn (column : nat) (line : list string) : bool := Nat.ltb column (length line - 1).

Definition columnWidth (column : nat) (lines : list (list string)) : nat :=
  foldr (fun line w => Nat.max (cellWidth (nth column line ""%string) + padding) w) O lines.

(** The lines of the column block at the head, and the others. *)
Fixpoint blockSpan (column : nat) (lines : list (list string)) : list (list string) * list (list string) :=
  match lines with
  | line :: lines' =>
      if hasColumn column line then let (b, rest) := blockSpan column lines' in (line :: b, rest) else ([], lines)
  | [] => ([], [])
  end.

(** [format]: every call either leaves a line or adds a column, so the number of
    lines plus the number of cells is enough fuel. *)
Fixpoint formatLines (fuel : nat) (widths : list nat) (lines : list (list string)) : list string :=
  match fuel with
  | O => []
  | S fuel' =>
      match lines with
      | [] => []
      | line :: lines' =>
          match blockSpan (length widths) lines with
          | ([], _) => writeLine widths line :: formatLines fuel' widths lines'
          | (block, rest) =>
              formatLines fuel' (widths ++ [columnWidth (length widths) block]) block ++ formatLines fuel' widths rest
          end
      end
  end.

Definition lineFuel (lines : list (list string)) : nat := foldr (fun l n => (S (length l) + n)%nat) 1%nat lines.

Fixpoint concat_with (sep : string) (l : list string) : string :=
  match l with [] => "" | [x] => x | x :: l' => append x (append sep (concat_with sep l')) end.

Definition tabText (s : string) : string :=
  let lines := split_at is_tab <$> split_at is_newline s in
  concat_with newline (formatLines (lineFuel lines) [] lines).

(** The text [Flush] has written; a form feed ends a table. *)
Definition tabwrite (s : string) : string := concat_with newline (tabText <$> split_at is_feed s).

(** ** Fields of text without blanks *)

(** Text without blanks: visible ASCII. *)
Definition visible (a : ascii) : bool := (33 <=? byteZ a) && (byteZ a <? 127).
Definition word (s : string) : bool := forallb visible (list_ascii_of_string s).

Lemma visible_no_space a : visible a = true -> space1 a = false /\ (forall b, space2 a b = false) /\ (forall b c, space3 a b c = false).
Proof.
  unfold visible, space1, space2, space3. intros [H1%Z.leb_le H2%Z.ltb_lt]%andb_true_iff. split_and!.
  - by byte_tests.
  - intros b. by byte_tests.
  - intros b c. by byte_tests.
Qed.

Lemma fields_from_word w acc l :
  forallb visible w = true -> fields_from acc (w ++ l) = fields_from (rev w ++ acc) l.
Proof.
  revert acc. induction w as [|a w IH]; intros acc Hw; [done|]. cbn [forallb] in Hw. apply andb_true_iff in Hw as [Ha Hw].
  destruct (visible_no_space a Ha) as (H1 & H2 & H3).
  assert (fields_from acc ((a :: w) ++ l) = fields_from (a :: acc) (w ++ l)) as ->.
  { cbn [app fields_from]. rewrite H1. destruct (w ++ l) as [|b [|c l3]]; [done|by rewrite H2|by rewrite H2, H3]. }
  rewrite IH by done. cbn [rev]. by rewrite <- app_assoc.
Qed.

(** A word of the text that ends at a blank is a field. *)
Lemma fields_blank s sep t :
  word s = true -> s <> ""%string -> space1 sep = true ->
  Fields (append s (String sep t)) = s :: Fields t.
Proof.
  intros Hs Hne Hsep. unfold Fields. rewrite list_ascii_app, fields_from_word by done. cbn [list_ascii_of_string fields_from].
  rewrite Hsep, app_nil_r. unfold flush. destruct (rev (list_ascii_of_string s)) as [|a l] eqn:E.
  - apply (f_equal (@rev ascii)) in E. rewrite rev_involutive in E. by destruct s.
  - by rewrite <- E, rev_involutive, string_of_list_ascii_of_string.
Qed.

Lemma word_append s t : word (append s t) = word s && word t.
Proof. unfold word. by rewrite list_ascii_app, forallb_app. Qed.

Lemma itoa_word z : - 10 ^ 20 < z < 10 ^ 20 -> word (itoa z) = true.
Proof.
  intros Hz. assert (forall n, 0 <= n < 10 ^ 20 -> word (digits_fuel 20 n "") = true) as Hd.
  { intros n Hn. destruct (digits_fuel_spec 20 n "" Hn ltac:(lia)) as (ds & Hl & Hds & _). unfold word. rewrite Hl, app_nil_r.
    apply forallb_forall. intros a Ha. apply list_elem_of_In, list_elem_of_fmap in Ha as (c & -> & Hc).
    rewrite Forall_forall in Hds. specialize (Hds c Hc). cbn beta in Hds. unfold visible. rewrite byteZ_chr by lia. by byte_tests. }
  unfold itoa. destruct (z <? 0) eqn:E; go_bool; [|apply Hd; lia]. rewrite word_append, Hd by lia. done.
Qed.

(** ** Tests *)

#[export] Instance ascii_prints : PrintTable := fun _ => false.

#[local] Open Scope string_scope.

Example Quote_ex :
  Quote (String (chr 10) (append "a" (String (chr 34) (append (encode [0xE9]) (String (chr 255) "z")))))
  = append (String quote_char (String backslash "na")) (append (String backslash (String quote_char ""))
      (append (String backslash "u00e9") (append (String backslash "xffz") (String quote_char "")))).
Proof. vm_compute. reflexivity. Qed.

Example Fields_ex : Fields (append "  v=1 ts=5" (append newline "root=a=b ")) = ["v=1"; "ts=5"; "root=a=b"].
Proof. vm_compute. reflexivity. Qed.

Example ParseDuration_ex :
  ParseDuration <$> ["24h"; "1h30m"; "-1.5s"; "1.5"; "0"; ""; "2562048h"; ".5ms"; "1d"]
  = [Some (24 * Hour); Some (90 * Minute); Some (- 1500 * Millisecond); None; Some 0; None; None; Some 500000; None].
Proof. vm_compute. reflexivity. Qed.

Example FormatRFC3339_ex :
  FormatRFC3339 <$> [0; 1700000000; 951782399; -1] =
  ["1970-01-01T00:00:00Z"; "2023-11-14T22:13:20Z"; "2000-02-28T23:59:59Z"; "1969-12-31T23:59:59Z"].
Proof. vm_compute. reflexivity. Qed.

Example tabwrite_ex :
  tabwrite (append "A" (append tab (append "B" (append newline (append "long" (append tab (append "x" newline)))))))
  = append "A     B" (append newline (append "long  x" newline)).
Proof. vm_compute. reflexivity. Qed.
