(* ===== verification/GoFlag.v ===== *)
(** * Flags of a command (standard library, package [flag])

    A flag set parses its arguments from the left: names with one or two dashes,
    values after [=] or in the next argument, up to the first argument that is no
    flag or to [--].  The last assignment to a flag counts.  A set created with
    [ContinueOnError] returns the error. *)

From S2P Require Import Prelude GoStrings GoCrypto Utf8 Json JsonFields Delivery GoText.

Inductive FlagValue := FString (s : string) | FBool (b : bool) | FDuration (d : Z).

#[export] Instance FlagValue_eq_dec : EqDecision FlagValue.
Proof. solve_decision. Defined.

(** A set: the names with their values, at first the defaults. *)
Notation FlagSet := (gmap string FlagValue).

Inductive FlagError :=
| ErrHelp
| BadSyntax (arg : string)
| NotDefined (name : string)
| InvalidBoolean (name value : string)
| InvalidValue (name value : string)
| NeedsArgument (name : string).

(** [Value.Set] on a flag of the given kind. *)
Definition setFlag (name value : string) (old : FlagValue) : outcome FlagError FlagValue :=
  match old with
  | FString _ => Ok (FString value)
  | FBool _ => match ParseBool value with Some b => Ok (FBool b) | None => Err (InvalidBoolean name value) end
  | FDuration _ => match ParseDuration value with Some d => Ok (FDuration d) | None => Err (InvalidValue name value) end
  end.

(** An argument as [parseOne] takes it apart: no flag, the end of the flags, or a
    name with perhaps a value. *)
Inductive Argument := NoFlag | EndOfFlags | Malformed | Named (name : string) (value : option string).

Definition nameOf (s : string) : Argument :=
  match s with
  | EmptyString => Malformed
  | String a s' =>
      if Ascii.eqb a "-" || Ascii.eqb a "=" then Malformed else
      match cut "=" s' with Some (l, r) => Named (String a l) (Some r) | None => Named s None end
  end.

Definition argument (s : string) : Argument :=
  match s with
  | String "-" (String "-" EmptyString) => EndOfFlags
  | String "-" (String "-" s') => nameOf s'
  | String "-" EmptyString => NoFlag
  | String "-" s' => nameOf s'
  | _ => NoFlag
  end.

Section Parse.
#[local] Open Scope go_scope.

(** [Parse]: the set after the flags, and the arguments that remain. *)
Fixpoint parseFlags (fs : FlagSet) (args : list string) : outcome FlagError (FlagSet * list string) :=
  match args with
  | [] => Ok (fs, [])
  | s :: args' =>
      match argument s with
      | NoFlag => Ok (fs, args)
      | EndOfFlags => Ok (fs, args')
      | Malformed => Err (BadSyntax s)
      | Named name value =>
          match fs !! name with
          | None => Err (if str_eqb name "help" || str_eqb name "h" then ErrHelp else NotDefined name)
          | Some (FBool b) =>
              let! v := setFlag name (default "true"%string value) (FBool b) in parseFlags (<[name := v]> fs) args'
          | Some old =>
              match value, args' with
              | Some v, _ => let! v := setFlag name v old in parseFlags (<[name := v]> fs) args'
              | None, v :: args'' => let! v := setFlag name v old in parseFlags (<[name := v]> fs) args''
              | None, [] => Err (NeedsArgument name)
              end
          end
      end
  end.
End Parse.

(** The value of a flag. *)
Definition stringFlag (fs : FlagSet) (name : string) : string :=
  match fs !! name with Some (FString s) => s | _ => ""%string end.

Definition boolFlag (fs : FlagSet) (name : string) : bool :=
  match fs !! name with Some (FBool b) => b | _ => false end.

Definition durationFlag (fs : FlagSet) (name : string) : Z :=
  match fs !! name with Some (FDuration d) => d | _ => 0 end.

(** Parsing keeps the kinds of the flags. *)
Definition kind (v : FlagValue) : nat := match v with FString _ => 0 | FBool _ => 1 | FDuration _ => 2 end.

Lemma setFlag_kind name value old v : setFlag name value old = Ok v -> kind v = kind old.
Proof. destruct old; cbn; [by intros [= <-]|..]; case_match; try done; by intros [= <-]. Qed.

Lemma insert_kind (fs : FlagSet) name old v :
  fs !! name = Some old -> kind v = kind old -> kind <$> <[name := v]> fs = kind <$> fs.
Proof. intros Hl Hk. rewrite fmap_insert, Hk. apply insert_id. by rewrite lookup_fmap, Hl. Qed.

Lemma parseFlags_kinds fs args fs' rest :
  parseFlags fs args = Ok (fs', rest) -> kind <$> fs' = kind <$> fs.
Proof.
  remember (length args) as n eqn:Hn. revert fs args Hn. induction n as [n IH] using lt_wf_ind. intros fs args -> Hp.
  destruct args as [|s args]; cbn [parseFlags] in Hp; [by injection Hp as <- <-|].
  destruct (argument s) as [| | |name value]; [by injection Hp as <- <-..|done|].
  destruct (fs !! name) as [old|] eqn:Hl; [|done].
  assert (forall v args', (length args' <= length args)%nat ->
    (let! v := setFlag name v old in parseFlags (<[name := v]> fs) args')%go = Ok (fs', rest) -> kind <$> fs' = kind <$> fs) as Hset.
  { intros v args' Hle Hs. apply obind_Ok in Hs as (v' & Hs & Hr). apply setFlag_kind in Hs.
    rewrite (IH (length args') ltac:(cbn; lia) _ _ eq_refl Hr). by eapply insert_kind. }
  destruct old as [|b|]; [|by apply (Hset _ args (Nat.le_refl _) Hp)|]; (destruct value as [v|]; [by apply (Hset v args)|]);
    (destruct args as [|v args]; [done|]); apply (Hset v args); done || (cbn; lia).
Qed.

(** ** Tests *)

Definition demo_flags : FlagSet := {["url" := FString ""; "local" := FBool false; "ttl" := FDuration Hour]}%string.

Example parseFlags_ex :
  (fun a => match parseFlags demo_flags a with
            | Ok (fs, rest) => Some (stringFlag fs "url", boolFlag fs "local", durationFlag fs "ttl", rest)
            | Err _ => None end)
    <$> [["--url"; "http://n"; "-local"; "--ttl=30m"; "x"]; ["--local=no"]; ["-local"; "--"; "--url"]; ["--url"]]%string
  = [Some ("http://n"%string, true, 30 * Minute, ["x"%string]); None; Some (""%string, true, Hour, ["--url"%string]); None].
Proof. vm_compute. reflexivity. Qed.
