(* ===== verification/Tls.v ===== *)
(** * TLS material (package [internal/tlsutil])

    Which TLS configuration a server and a client get.  Loading a key pair, reading a
    file and parsing certificates are parameters. *)

From S2P Require Import Prelude GoStrings Config.

Inductive ClientAuthType := NoClientCert | RequireAndVerifyClientCert.

Definition VersionTLS13 : Z := 0x0304.

Inductive TLSError := HalfPair | BadKeyPair | CAUnreadable | NoCertificates (path : string).

Section Tls.
Context {Certificate CertPool : Type}.
Context (LoadX509KeyPair : string -> string -> option Certificate).
Context (ReadFile : string -> option string) (CertsFromPEM : string -> option CertPool).

(** [*tls.Config], the fields the code sets. *)
Record TLSSettings := {
  ts_MinVersion : Z; ts_ClientAuth : ClientAuthType; ts_Certificates : list Certificate;
  ts_RootCAs : option CertPool; ts_ClientCAs : option CertPool }.

(** The key pair, where one is configured. *)
Definition keyPair (cert key : string) : outcome TLSError (list Certificate) :=
  if str_eqb cert "" && str_eqb key "" then Ok [] else
  if str_eqb cert "" || str_eqb key "" then Err HalfPair else
  match LoadX509KeyPair cert key with None => Err BadKeyPair | Some c => Ok [c] end.

Definition caPool (ca : string) : outcome TLSError (option CertPool) :=
  if str_eqb ca "" then Ok None else
  match ReadFile ca with
  | None => Err CAUnreadable
  | Some pem => match CertsFromPEM pem with None => Err (NoCertificates ca) | Some pool => Ok (Some pool) end
  end.

Open Scope go_scope.

Definition buildTLSConfig (cfg : TLSConfig) (clientAuth : ClientAuthType) : outcome TLSError TLSSettings :=
  let! certs := keyPair (tls_Cert cfg) (tls_Key cfg) in
  let! pool := caPool (tls_CA cfg) in
  Ok {| ts_MinVersion := VersionTLS13; ts_ClientAuth := clientAuth; ts_Certificates := certs;
        ts_RootCAs := pool; ts_ClientCAs := pool |}.

Definition LoadServerTLS (cfg : TLSConfig) : outcome TLSError (option TLSSettings) :=
  if tls_Insecure cfg then Ok None else
  if str_eqb (tls_Cert cfg) "" && str_eqb (tls_Key cfg) "" then Ok None else
  let! s := buildTLSConfig cfg RequireAndVerifyClientCert in Ok (Some s).

Definition LoadClientTLS (cfg : TLSConfig) : outcome TLSError (option TLSSettings) :=
  if tls_Insecure cfg then Ok None else
  if str_eqb (tls_Cert cfg) "" && str_eqb (tls_Key cfg) "" && str_eqb (tls_CA cfg) "" then Ok None else
  let! s := buildTLSConfig cfg NoClientCert in Ok (Some s).

Lemma keyPair_Ok cert key certs : keyPair cert key = Ok certs ->
  (certs = [] /\ cert = ""%string /\ key = ""%string)
  \/ exists c, certs = [c] /\ cert <> ""%string /\ key <> ""%string /\ LoadX509KeyPair cert key = Some c.
Proof.
  unfold keyPair. destruct (str_eqb cert "") eqn:E1, (str_eqb key "") eqn:E2; go_bool; cbn; try done.
  - intros [= <-]. by left.
  - destruct (LoadX509KeyPair cert key) as [c|] eqn:E; [|done]. intros [= <-]. right. eauto.
Qed.

(** A server that serves TLS asks every client for a certificate, speaks version 1.3
    and holds the pair of its two paths; a server without TLS is one that is declared
    insecure or has no pair, even where certificate authorities are configured. *)
Theorem server_tls_is_mutual cfg r :
  LoadServerTLS cfg = Ok r ->
  match r with
  | None => tls_Insecure cfg = true \/ (tls_Cert cfg = ""%string /\ tls_Key cfg = ""%string)
  | Some s =>
      tls_Insecure cfg = false /\ ts_MinVersion s = VersionTLS13 /\ ts_ClientAuth s = RequireAndVerifyClientCert
      /\ (exists c, ts_Certificates s = [c] /\ LoadX509KeyPair (tls_Cert cfg) (tls_Key cfg) = Some c)
      /\ caPool (tls_CA cfg) = Ok (ts_ClientCAs s)
  end.
Proof.
  unfold LoadServerTLS. destruct (tls_Insecure cfg); [intros [= <-]; by left|].
  destruct (str_eqb (tls_Cert cfg) "" && str_eqb (tls_Key cfg) "") eqn:E.
  { go_bool. intros [= <-]. right. tauto. }
  unfold buildTLSConfig. rewrite !obind_Ok. intros (s & Hs & [= <-]). apply obind_Ok in Hs as (certs & Hc & Hs).
  apply obind_Ok in Hs as (pool & Hp & [= <-]). cbn. split_and!; try done.
  apply keyPair_Ok in Hc as [(-> & H1 & H2)|(c & -> & _ & _ & Hl)]; [|by exists c].
  by rewrite H1, H2 in E.
Qed.
End Tls.
