(* ===== verification/Session.v ===== *)
(** * Sequence tracking (package [internal/session])

    Per-sender sequence numbers: [NextSeq] for outgoing traffic, [Validate] for
    incoming traffic.  Out-of-order envelopes are reported, not refused. *)

From S2P Require Import Prelude.

(** The map [next]; a missing sender counts as 0. *)
Record Tracker := { tr_next : gmap string Z }.

Inductive SeqError := OutOfOrder (sender : string) (got expected : Z).

Definition NewTracker : Tracker := {| tr_next := ∅ |}.

Definition lastSeq (t : Tracker) (senderID : string) : Z := default 0 (tr_next t !! senderID).

Definition setSeq (senderID : string) (seq : Z) (t : Tracker) : Tracker :=
  {| tr_next := <[senderID := seq]> (tr_next t) |}.

Definition NextSeq (senderID : string) (t : Tracker) : Z * Tracker :=
  let seq := wrap_u64 (lastSeq t senderID + 1) in (seq, setSeq senderID seq t).

Definition ValidateSeq (senderID : string) (seq : Z) (t : Tracker) : option SeqError * Tracker :=
  let expected := wrap_u64 (lastSeq t senderID + 1) in
  if seq =? expected then (None, setSeq senderID seq t)
  else (Some (OutOfOrder senderID seq expected),
        if lastSeq t senderID <? seq then setSeq senderID seq t else t).

(** A run of incoming envelopes: the answers, in order, and the tracker. *)
Fixpoint validateAll (calls : list (string * Z)) (t : Tracker) : list (option SeqError) * Tracker :=
  match calls with
  | [] => ([], t)
  | (s, q) :: cs =>
      let (e, t1) := ValidateSeq s q t in
      let (es, t2) := validateAll cs t1 in (e :: es, t2)
  end.

(** ** Lemmas *)

(** The largest sequence number a list of calls has for a sender. *)
Definition highest (sender : string) (calls : list (string * Z)) (start : Z) : Z :=
  foldl (fun m c => if decide (c.1 = sender) then Z.max m c.2 else m) start calls.

Lemma lastSeq_set s q t s' : lastSeq (setSeq s q t) s' = if decide (s' = s) then q else lastSeq t s'.
Proof. unfold lastSeq, setSeq. cbn. rewrite lookup_insert. repeat case_decide; naive_solver. Qed.

(** No sequence number has reached the end of the 64-bit range. *)
Definition below_max (q : Z) : Prop := 0 <= q < 2 ^ 64 - 1.

Lemma ValidateSeq_max s q t s' :
  below_max (lastSeq t s) -> below_max q ->
  lastSeq (ValidateSeq s q t).2 s' = if decide (s' = s) then Z.max (lastSeq t s) q else lastSeq t s'.
Proof.
  intros Hl Hq. unfold ValidateSeq. cbn zeta. unfold below_max in *.
  rewrite wrap_u64_id by (unfold in_u64; lia). destruct (q =? lastSeq t s + 1) eqn:E; go_bool; cbn [snd].
  - rewrite lastSeq_set. case_decide; lia.
  - destruct (lastSeq t s <? q) eqn:E2; go_bool; [rewrite lastSeq_set|]; case_decide; subst; lia.
Qed.

Lemma validateAll_highest calls t s :
  (forall s, below_max (lastSeq t s)) -> Forall (fun c => below_max c.2) calls ->
  lastSeq (validateAll calls t).2 s = highest s calls (lastSeq t s)
  /\ forall s, below_max (lastSeq (validateAll calls t).2 s).
Proof.
  revert t. induction calls as [|[s1 q] calls IH]; intros t Hl Hc; [done|].
  apply Forall_cons in Hc as [Hq Hc]. cbn [validateAll highest foldl fst snd] in *.
  pose proof (fun s' => ValidateSeq_max s1 q t s' (Hl s1) Hq) as Hv.
  destruct (ValidateSeq s1 q t) as [e t1]. cbn [fst snd] in Hv.
  assert (forall s', below_max (lastSeq t1 s')) as Hl1.
  { intros s'. rewrite Hv. case_decide; [|apply Hl]. pose proof (Hl s1). unfold below_max in *. lia. }
  destruct (IH t1 Hl1 Hc) as [Hh Hb]. destruct (validateAll calls t1) as [es t2]. cbn [fst snd] in *.
  split; [|done]. rewrite Hh, Hv. unfold highest. f_equal. repeat case_decide; subst; done.
Qed.

(** ** Properties *)

(** The tracker is a high-water mark.  After any run of incoming envelopes
    whose sequence numbers stay below the last 64-bit value, the tracker stores for
    each sender the largest number seen, whatever the order of arrival, and the
    next envelope passes without a warning exactly when its number is that maximum
    plus one; a gap never blocks the sender. *)
Theorem tracker_high_water calls s q :
  Forall (fun c => below_max c.2) calls ->
  let t := (validateAll calls NewTracker).2 in
  lastSeq t s = highest s calls 0
  /\ ((ValidateSeq s q t).1 = None <-> q = highest s calls 0 + 1).
Proof.
  intros Hc. cbn zeta. destruct (validateAll_highest calls NewTracker s) as [Hh Hb]; [|done|].
  - intros s'. unfold lastSeq. cbn. rewrite lookup_empty. unfold below_max. cbn. lia.
  - assert (lastSeq NewTracker s = 0) as Hz by (unfold lastSeq; cbn; by rewrite lookup_empty).
    rewrite Hz in Hh. split; [done|]. specialize (Hb s). unfold ValidateSeq. cbn zeta. rewrite Hh in *.
    unfold below_max in Hb. rewrite wrap_u64_id by (unfold in_u64; lia).
    destruct (q =? _) eqn:E; go_bool; cbn; naive_solver.
Qed.

Lemma tracker_high_water_witness :
  lastSeq (validateAll [("RS", 1); ("RS", 5); ("RU", 1); ("RS", 3)]%string NewTracker).2 "RS" = 5.
Proof.
  refine (proj1 (tracker_high_water [("RS", 1); ("RS", 5); ("RU", 1); ("RS", 3)]%string "RS" 6 _)).
  repeat constructor; vm_compute; congruence.
Defined.
