(* ===== verification/Token.v ===== *)
(** * Discovery tokens (package [internal/token])

    Opaque tokens kept as the SHA-256 hash of their text.  The random bytes of a
    new token are an argument of [Issue] ([None] when [rand.Read] fails). *)

From S2P Require Import Prelude GoCrypto.

Record tokenEntry := { tk_appID : string; tk_originNodeID : string; tk_expires : Z }.

Record TokenStore := { ts_entries : gmap string tokenEntry }.

Definition NewTokenStore : TokenStore := {| ts_entries := ∅ |}.

Definition hashToken (token : string) : string := hex_encode (Sum256 token).

Definition Issue (raw : option string) (now : Z) (appID originNodeID : string) (ttl : Z) (s : TokenStore)
  : option string * TokenStore :=
  match raw with
  | None => (None, s)
  | Some bytes =>
      let token := hex_encode bytes in
      (Some token,
       {| ts_entries := <[hashToken token := {| tk_appID := appID; tk_originNodeID := originNodeID;
                           tk_expires := now + ttl |}]> (ts_entries s) |})
  end.

Definition dropToken (hash : string) (s : TokenStore) : TokenStore :=
  {| ts_entries := delete hash (ts_entries s) |}.

(** [None] stands for [ErrNotFound]. *)
Definition Resolve (now : Z) (token : string) (s : TokenStore) : option (string * string) * TokenStore :=
  let hash := hashToken token in
  match ts_entries s !! hash with
  | Some e => if tk_expires e <? now then (None, dropToken hash s)
              else (Some (tk_appID e, tk_originNodeID e), s)
  | None => (None, dropToken hash s)
  end.

Definition Evict (token : string) (s : TokenStore) : TokenStore := dropToken (hashToken token) s.

Definition active (now : Z) (originNodeID : string) (e : tokenEntry) : Prop :=
  tk_originNodeID e = originNodeID /\ now < tk_expires e.

#[export] Instance active_dec now o e : Decision (active now o e).
Proof. unfold active. apply _. Defined.

Definition HasActiveToken (now : Z) (originNodeID : string) (s : TokenStore) : bool :=
  bool_decide (Exists (fun kv => active now originNodeID kv.2) (map_to_list (ts_entries s))).

Definition PurgeTokens (now : Z) (s : TokenStore) : TokenStore :=
  {| ts_entries := filter (fun kv => ~ (tk_expires kv.2 < now)) (ts_entries s) |}.

(** ** Runs *)

Inductive token_op :=
| OpIssue (raw : option string) (now : Z) (appID originNodeID : string) (ttl : Z)
| OpResolve (now : Z) (token : string)
| OpEvict (token : string)
| OpPurge (now : Z).

Definition token_step (s : TokenStore) (op : token_op) : TokenStore :=
  match op with
  | OpIssue raw now a o ttl => (Issue raw now a o ttl s).2
  | OpResolve now t => (Resolve now t s).2
  | OpEvict t => Evict t s
  | OpPurge now => PurgeTokens now s
  end.

(** The operation issues a token with the given hash. *)
Definition issues (hash : string) (op : token_op) : Prop :=
  match op with OpIssue (Some raw) _ _ _ _ => hashToken (hex_encode raw) = hash | _ => False end.

(** The operation looks the token with the given hash up too late, sweeps it
    or evicts it. *)
Definition drops (hash : string) (expires : Z) (op : token_op) : Prop :=
  match op with
  | OpIssue _ _ _ _ _ => False
  | OpResolve now t => hashToken t = hash /\ expires < now
  | OpEvict t => hashToken t = hash
  | OpPurge now => expires < now
  end.

(** ** Lemmas *)

Lemma token_step_absent hash s op :
  ts_entries s !! hash = None -> ~ issues hash op -> ts_entries (token_step s op) !! hash = None.
Proof.
  intros Hn Hi. destruct op as [[raw|] now a o ttl|now t|t|now]; cbn in *.
  - rewrite lookup_insert_ne by done. done.
  - done.
  - unfold Resolve. cbn zeta. case_guards; cbn; [|done|]; rewrite lookup_delete; by case_decide.
  - rewrite lookup_delete. by case_decide.
  - by rewrite map_lookup_filter, Hn.
Qed.

Lemma token_step_present hash e s op :
  ts_entries s !! hash = Some e -> ~ issues hash op -> ~ drops hash (tk_expires e) op ->
  ts_entries (token_step s op) !! hash = Some e.
Proof.
  intros Hs Hi Hd. destruct op as [[raw|] now a o ttl|now t|t|now]; cbn in *.
  - by rewrite lookup_insert_ne.
  - done.
  - unfold Resolve. cbn zeta. destruct (decide (hashToken t = hash)) as [<-|Hne].
    + rewrite Hs. rewrite (proj2 (Z.ltb_ge _ _)) by (apply Z.nlt_ge; naive_solver). done.
    + case_guards; cbn; [by rewrite lookup_delete_ne|done|by rewrite lookup_delete_ne].
  - by rewrite lookup_delete_ne.
  - rewrite map_lookup_filter, Hs. cbn. by rewrite option_guard_True.
Qed.

Lemma token_run_absent hash ops s :
  ts_entries s !! hash = None -> Forall (fun op => ~ issues hash op) ops ->
  ts_entries (foldl token_step s ops) !! hash = None.
Proof.
  revert s. induction ops as [|op ops IH]; intros s Hn Hf; [done|]. apply Forall_cons in Hf as [Ho Hf].
  apply IH; [by apply token_step_absent|done].
Qed.

Lemma token_run_present hash e ops s :
  ts_entries s !! hash = Some e ->
  Forall (fun op => ~ issues hash op /\ ~ drops hash (tk_expires e) op) ops ->
  ts_entries (foldl token_step s ops) !! hash = Some e.
Proof.
  revert s. induction ops as [|op ops IH]; intros s Hs Hf; [done|]. apply Forall_cons in Hf as [[Hi Hd] Hf].
  apply IH; [by apply token_step_present|done].
Qed.

Lemma HasActiveToken_true now o s :
  HasActiveToken now o s = true <-> exists h e, ts_entries s !! h = Some e /\ active now o e.
Proof.
  unfold HasActiveToken. rewrite bool_decide_eq_true, Exists_exists. split.
  - intros ([h e] & Hin & Ha). apply elem_of_map_to_list in Hin. eauto.
  - intros (h & e & Hs & Ha). exists (h, e). split; [by apply elem_of_map_to_list|done].
Qed.

(** ** Properties *)

(** The life of a token.  A token just issued resolves to its application and
    node until its time to live ends, through any operations that neither issue a
    token with the same hash, nor evict it, nor look it up or sweep after its
    expiry.  Once evicted, as every successful handshake does, it never resolves
    again, whatever happens later, unless a token with the same SHA-256 hash is
    issued: tokens are single use. *)
Theorem token_lifecycle raw now appID node ttl s ops :
  let token := hex_encode raw in
  let s1 := (Issue (Some raw) now appID node ttl s).2 in
  (Forall (fun op => ~ issues (hashToken token) op /\ ~ drops (hashToken token) (now + ttl) op) ops ->
   forall later, later <= now + ttl ->
     (Resolve later token (foldl token_step s1 ops)).1 = Some (appID, node))
  /\ (Forall (fun op => ~ issues (hashToken token) op) ops ->
      forall later, (Resolve later token (foldl token_step (Evict token s1) ops)).1 = None).
Proof.
  cbn zeta. split.
  - intros Hf later Hl. unfold Resolve. cbn zeta.
    rewrite (token_run_present _ {| tk_appID := appID; tk_originNodeID := node; tk_expires := now + ttl |});
      [|by cbn; rewrite lookup_insert_eq|done].
    cbn. by rewrite (proj2 (Z.ltb_ge _ _)).
  - intros Hf later. unfold Resolve. cbn zeta. rewrite token_run_absent; [done| |done].
    cbn. by rewrite lookup_delete_eq.
Qed.
