(* ===== verification/Identity.v ===== *)
(** * Envelope signatures (package [internal/identity])

    The canonical JSON text of an envelope and its Ed25519 signature.  Package
    [crypto/ed25519] is a parameter, with the documented relation between signing
    and verifying as its law. *)

From S2P Require Import Prelude GoStrings GoCrypto Core.

(** Signing and verification; keys and signatures are byte strings. *)
Class Ed25519 := {
  ed_PrivateKey : Type;
  ed_Public : ed_PrivateKey -> string;
  ed_Sign : ed_PrivateKey -> string -> string;
  ed_Verify : string -> string -> string -> bool;
  ed_sign_length : forall k m, String.length (ed_Sign k m) = 64%nat;
  ed_verify_sign : forall k m, ed_Verify (ed_Public k) m (ed_Sign k m) = true }.

Inductive IdentityError := ErrInvalidSignature | ErrMissingSignature.

Definition canonicalPayload (env : Envelope) : string := json_object [
  field "idempotency_key" (json_string (env_IdempotencyKey env));
  field "sender_region" (json_string (env_SenderRegion env));
  field "recipient_region" (json_string (env_RecipientRegion env));
  field "trust_tier" (itoa (env_TrustTier env));
  field "sequence_number" (itoa (env_SequenceNumber env));
  field "payload" (json_bytes (env_Payload env));
  field "padded_to" (itoa (env_PaddedTo env));
  field "timestamp" (itoa (env_Timestamp env)) ].

Section Identity.
Context `{Ed25519}.

(** [ed25519.GenerateKey(rand.Reader)]: [rand] gives a private key or fails. *)
Definition GenerateKey (rand : option ed_PrivateKey) : option (ed_PrivateKey * string) :=
  match rand with Some k => Some (k, ed_Public k) | None => None end.

Definition Sign (privKey : ed_PrivateKey) (env : Envelope) : bytes :=
  Some (ed_Sign privKey (canonicalPayload env)).

(** [None] is the nil error. *)
Definition VerifySig (pubKey : string) (env : Envelope) (sig : bytes) : option IdentityError :=
  if Nat.eqb (slice_len sig) 0 then Some ErrMissingSignature
  else if negb (ed_Verify pubKey (canonicalPayload env) (slice_of sig)) then Some ErrInvalidSignature
  else None.
End Identity.

(** The fields under the signature. *)
Definition signed_fields (e : Envelope) :=
  (env_IdempotencyKey e, env_SenderRegion e, env_RecipientRegion e, env_TrustTier e,
   env_SequenceNumber e, env_Payload e, env_PaddedTo e, env_Timestamp e).

Lemma canonicalPayload_fields e1 e2 :
  signed_fields e1 = signed_fields e2 -> canonicalPayload e1 = canonicalPayload e2.
Proof. unfold signed_fields, canonicalPayload. intros [= -> -> -> -> -> -> -> ->]. reflexivity. Qed.

Lemma VerifySig_Sign `{Ed25519} k env : VerifySig (ed_Public k) env (Sign k env) = None.
Proof.
  unfold VerifySig, Sign, slice_len. cbn [slice_of default]. cbn. rewrite ed_sign_length. cbn.
  by rewrite ed_verify_sign.
Qed.
