(* ===== verification/Terminal.v ===== *)
(** * What an operator's command acts on

    A command writes to the standard output and error, reads and writes files, sends
    HTTP requests and asks the DNS; it is a computation over that state which ends
    with a value or with the text of an error.  What answers from the outside is a
    record of functions. *)

From S2P Require Import Prelude GoStrings GoCrypto Utf8 Json JsonFields Delivery GoText GoFlag Identity.

(** ** The outside *)

Record ClientRequest := {
  cq_Method : string; cq_URL : string; cq_Header : list (string * string); cq_Body : string }.

(** A response: its status, and its body or the error of reading it. *)
Definition ClientResponse : Type := Z * outcome string string.

Record Outside := {
  o_parseURL : string -> option string;                      (** the error of [http.NewRequest] *)
  o_http : ClientRequest -> outcome string ClientResponse;   (** [Client.Do] *)
  o_lookupTXT : string -> outcome string (list string);      (** [net.LookupTXT] *)
  o_openError : string -> string;                            (** the error of opening a file that is not there *)
  o_writeError : string -> option string;                    (** why a file cannot be written *)
  o_umask : Z }.

Record File := { fl_mode : Z; fl_data : string }.

Record Term := {
  tm_out : string; tm_err : string; tm_files : gmap string File; tm_sent : list ClientRequest }.

(** ** Commands *)

Definition Cmd (A : Type) : Type := Term -> outcome string A * Term.

Definition ret {A} (a : A) : Cmd A := fun t => (Ok a, t).
Definition throw {A} (e : string) : Cmd A := fun t => (Err e, t).
Definition lift {A} (m : outcome string A) : Cmd A := fun t => (m, t).

Definition bind {A B} (m : Cmd A) (k : A -> Cmd B) : Cmd B :=
  fun t => match m t with (Ok a, t') => k a t' | (Err e, t') => (Err e, t') end.

Declare Scope cmd_scope.
Delimit Scope cmd_scope with cmd.
Notation "'let*' x := m 'in' k" := (bind m (fun x => k))
  (at level 200, x name, m at level 100, k at level 200) : cmd_scope.
Notation "m ;; k" := (bind m (fun _ => k)) (at level 100, k at level 200, right associativity) : cmd_scope.

(** [fmt.Printf] and [fmt.Fprint(os.Stderr, ...)] of a text. *)
Definition say (s : string) : Cmd unit := fun t =>
  (Ok (), {| tm_out := append (tm_out t) s; tm_err := tm_err t; tm_files := tm_files t; tm_sent := tm_sent t |}).

Definition warn (s : string) : Cmd unit := fun t =>
  (Ok (), {| tm_out := tm_out t; tm_err := append (tm_err t) s; tm_files := tm_files t; tm_sent := tm_sent t |}).

(** A conversion of an error: [fmt.Errorf("...: %w", err)]. *)
Definition wrap_err {A} (prefix : string) (m : Cmd A) : Cmd A :=
  fun t => match m t with (Ok a, t') => (Ok a, t') | (Err e, t') => (Err (append prefix e), t') end.

(** The result of [m] as a value, for a caller that prints the error. *)
Definition try {A} (m : Cmd A) : Cmd (outcome string A) := fun t => let (r, t') := m t in (Ok r, t').

Section Outside.
Context (o : Outside).

(** [os.ReadFile] *)
Definition readFile (path : string) : Cmd string := fun t =>
  (match tm_files t !! path with Some f => Ok (fl_data f) | None => Err (o_openError o path) end, t).

(** [os.WriteFile]: the mode counts only for a file that did not exist. *)
Definition writeFile (path data : string) (mode : Z) : Cmd unit := fun t =>
  match o_writeError o path with
  | Some e => (Err e, t)
  | None =>
      let m := match tm_files t !! path with Some f => fl_mode f | None => Z.land mode (Z.lnot (o_umask o)) end in
      (Ok (), {| tm_out := tm_out t; tm_err := tm_err t;
                 tm_files := <[path := {| fl_mode := m; fl_data := data |}]> (tm_files t); tm_sent := tm_sent t |})
  end.

(** [http.NewRequest] and [Client.Do] with the request it built. *)
Definition newRequest (method url body : string) : Cmd ClientRequest :=
  match o_parseURL o url with
  | Some e => throw e
  | None => ret {| cq_Method := method; cq_URL := url; cq_Header := []; cq_Body := body |}
  end.

Definition withHeader (k v : string) (r : ClientRequest) : ClientRequest :=
  {| cq_Method := cq_Method r; cq_URL := cq_URL r; cq_Header := (k, v) :: cq_Header r; cq_Body := cq_Body r |}.

Definition doRequest (r : ClientRequest) : Cmd ClientResponse := fun t =>
  (o_http o r, {| tm_out := tm_out t; tm_err := tm_err t; tm_files := tm_files t; tm_sent := tm_sent t ++ [r] |}).

Definition lookupTXT (name : string) : Cmd (list string) := lift (o_lookupTXT o name).
End Outside.

(** [io.ReadAll(resp.Body)] *)
Definition readAll (r : ClientResponse) : Cmd string := wrap_err "read response: " (lift r.2).

(** [fmt.Sprintf] of texts. *)
Definition text (l : list string) : string := foldr append ""%string l.

(** The error of a flag set; what package [flag] prints itself is not modelled. *)
Definition flagErrorText `{PrintTable} (e : FlagError) : string :=
  match e with
  | ErrHelp => "flag: help requested"
  | BadSyntax a => text ["bad flag syntax: "; a]%string
  | NotDefined n => text ["flag provided but not defined: -"; n]%string
  | InvalidBoolean n v => text ["invalid boolean value "; Quote v; " for -"; n; ": parse error"]%string
  | InvalidValue n v => text ["invalid value "; Quote v; " for flag -"; n; ": parse error"]%string
  | NeedsArgument n => text ["flag needs an argument: -"; n]%string
  end.

Definition parseArgs `{PrintTable} (fs : FlagSet) (args : list string) : Cmd FlagSet :=
  match parseFlags fs args with Ok (fs', _) => ret fs' | Err e => throw (flagErrorText e) end.

(** ** PEM files with keys *)

(** [pem.EncodeToMemory]: base64 in lines of 64 characters. *)
Fixpoint b64_lines (n : nat) (s : string) : string :=
  match s with
  | EmptyString => if Nat.eqb n 64 then ""%string else newline
  | String a s' => match n with
                   | O => append newline (String a (b64_lines 63 s'))
                   | S n' => String a (b64_lines n' s')
                   end
  end.

Definition pemEncode (type der : string) : string :=
  text ["-----BEGIN "; type; "-----"; newline; b64_lines 64 (b64_encode (bytes_of der)); "-----END "; type; "-----"; newline]%string.

(** The DER prefix of an Ed25519 public key (RFC 8410). *)
Definition pkixPublic (pub : string) : string :=
  append (of_bytes [0x30; 0x2a; 0x30; 0x05; 0x06; 0x03; 0x2b; 0x65; 0x70; 0x03; 0x21; 0x00]) pub.

Definition pemPublic (pub : string) : string := pemEncode "PUBLIC KEY" (pkixPublic pub).

(** Packages [encoding/pem] and [crypto/x509]: the bytes of the first block of a
    file; the key of a PKIX structure, [Ok None] for one that is not Ed25519; the
    PKCS #8 form of a private key, with its error. *)
Class KeyFormat `{Ed25519} := {
  pem_Decode : string -> option string;
  x509_ParsePKIXPublicKey : string -> outcome string (option string);
  x509_MarshalPKCS8 : ed_PrivateKey -> outcome string string;
  (** A block is found after text that ends a line and opens no other block. *)
  pem_decode_public : forall pre pub,
    StringsContains pre "-----BEGIN" = false ->
    pem_Decode (append pre (append newline (pemPublic pub))) = Some (pkixPublic pub);
  x509_parse_pkix : forall pub, String.length pub = 32%nat -> x509_ParsePKIXPublicKey (pkixPublic pub) = Ok (Some pub) }.

(** ** Lemmas *)

Lemma bind_ok {A B} (m : Cmd A) (k : A -> Cmd B) t a t' : m t = (Ok a, t') -> bind m k t = k a t'.
Proof. unfold bind. by intros ->. Qed.

Lemma bind_inv {A B} (m : Cmd A) (k : A -> Cmd B) t b t' :
  bind m k t = (Ok b, t') -> exists a t1, m t = (Ok a, t1) /\ k a t1 = (Ok b, t').
Proof. unfold bind. destruct (m t) as [[a|e] t1]; [by eauto|done]. Qed.

Lemma lift_inv {A} (m : outcome string A) t a t' : lift m t = (Ok a, t') -> m = Ok a /\ t' = t.
Proof. unfold lift. by intros [= -> ->]. Qed.
