(* ===== verification/Connect.v ===== *)
(** * Connect requests (package [internal/connect])

    The resolver that answers a connect request from the [policy.connect] section
    of its configuration. *)

From S2P Require Import Prelude GoStrings Config.

Definition StatusAccepted : string := "ACCEPTED".
Definition StatusPending : string := "PENDING".
Definition StatusDenied : string := "DENIED".

Record ConnRequest := {
  cr_OriginNodeID : string; cr_OriginAppID : string; cr_RecipientAppID : string; cr_MutualDiscovery : bool }.

Record Resolver := { rv_cfg : Config }.

Definition NewResolver (cfg : Config) : Resolver := {| rv_cfg := cfg |}.

Definition ReloadResolver (cfg : Config) (_ : Resolver) : Resolver := {| rv_cfg := cfg |}.

Section Resolver.
Context `{UnicodeTables}.

Definition connectMode (cfg : Config) : string :=
  let mode := ToUpper (TrimSpace (cp_AutoAccept (pc_Connect (cfg_Policy cfg)))) in
  if str_eqb mode "" then "MANUAL" else mode.

Definition ResolveConnect (r : Resolver) (req : ConnRequest) : string :=
  let cfg := rv_cfg r in
  let mode := connectMode cfg in
  if str_eqb mode "AUTO_ALL" then StatusAccepted
  else if str_eqb mode "AUTO_WHITELIST" then
    if Contains (cp_TrustedNodes (pc_Connect (cfg_Policy cfg))) (cr_OriginNodeID req)
    then StatusAccepted else StatusPending
  else if str_eqb mode "AUTO_MUTUAL" then
    if cr_MutualDiscovery req then StatusAccepted else StatusPending
  else StatusPending.

(** When a request is accepted without an operator. *)
Definition autoAccepts (cfg : Config) (req : ConnRequest) : Prop :=
  connectMode cfg = "AUTO_ALL"%string
  \/ (connectMode cfg = "AUTO_WHITELIST"%string
      /\ cr_OriginNodeID req ∈ cp_TrustedNodes (pc_Connect (cfg_Policy cfg)))
  \/ (connectMode cfg = "AUTO_MUTUAL"%string /\ cr_MutualDiscovery req = true).

Lemma ResolveConnect_spec r req :
  (ResolveConnect r req = StatusAccepted <-> autoAccepts (rv_cfg r) req)
  /\ (ResolveConnect r req = StatusPending <-> ~ autoAccepts (rv_cfg r) req).
Proof.
  unfold ResolveConnect, autoAccepts. cbn zeta.
  destruct (str_eqb _ "AUTO_ALL") eqn:E1; go_bool; [naive_solver|].
  destruct (str_eqb _ "AUTO_WHITELIST") eqn:E2; go_bool.
  { rewrite E2 in *. case_guards; go_bool; naive_solver. }
  destruct (str_eqb _ "AUTO_MUTUAL") eqn:E3; go_bool; [|naive_solver].
  rewrite E3 in *. case_guards; naive_solver.
Qed.
End Resolver.
