(* ===== verification/PeerDiscovery.v ===== *)
(** * Peers learned by gossip (packages [internal/peerdiscovery], [internal/peercache],
    [internal/trustdecay])

    The registry of discovered peers, the cache of their audit root hashes and
    the timer that lowers the trust tier of peers not validated recently. *)

From S2P Require Import Prelude.

Record PeerInfo := { pi_NodeID : string; pi_Addr : string; pi_NodeScope : string; pi_Region : string; pi_LastSeen : Z }.

(** The registry: the map [peers], keyed by node id. *)
Record PeerRegistry := { pr_peers : gmap string PeerInfo }.

Definition NewPeerRegistry : PeerRegistry := {| pr_peers := ∅ |}.

Definition Announce (now : Z) (peer : PeerInfo) (r : PeerRegistry) : PeerRegistry :=
  {| pr_peers := <[pi_NodeID peer := {| pi_NodeID := pi_NodeID peer; pi_Addr := pi_Addr peer;
       pi_NodeScope := pi_NodeScope peer; pi_Region := pi_Region peer; pi_LastSeen := now |}]> (pr_peers r) |}.

Definition EvictPeer (nodeID : string) (r : PeerRegistry) : PeerRegistry :=
  {| pr_peers := delete nodeID (pr_peers r) |}.

(** [order] is the order in which Go visits the map. *)
Definition Known (order : list (string * PeerInfo)) : list PeerInfo := order.*2.

Definition EvictStale (now maxAge : Z) (r : PeerRegistry) : PeerRegistry :=
  let cutoff := now + wrap_i64 (- maxAge) in
  {| pr_peers := filter (fun kv => ~ (pi_LastSeen kv.2 < cutoff)) (pr_peers r) |}.

(** The cache of root hashes. *)
Record RootEntry := { re_RootHash : string; re_Timestamp : Z }.

Record PeerCache := { pcache_entries : gmap string RootEntry }.

Definition NewPeerCache : PeerCache := {| pcache_entries := ∅ |}.

Definition StoreRoot (nodeID rootHash : string) (timestamp : Z) (c : PeerCache) : PeerCache :=
  {| pcache_entries := <[nodeID := {| re_RootHash := rootHash; re_Timestamp := timestamp |}]> (pcache_entries c) |}.

Definition AllRoots (c : PeerCache) : gmap string RootEntry := pcache_entries c.

(** The trust-decay timer. *)
Record Timer := { tm_lastValidated : gmap string Z; tm_DecayWindow : Z }.

Definition NewTimer (decayWindow : Z) : Timer :=
  {| tm_lastValidated := ∅; tm_DecayWindow := if decayWindow <=? 0 then 30 * 24 * Hour else decayWindow |}.

Definition RecordValidation (now : Z) (peerID : string) (t : Timer) : Timer :=
  {| tm_lastValidated := <[peerID := now]> (tm_lastValidated t); tm_DecayWindow := tm_DecayWindow t |}.

Definition EffectiveTier (now : Z) (peerID : string) (announcedTier : Z) (t : Timer) : Z :=
  if match tm_lastValidated t !! peerID with
     | Some last => tm_DecayWindow t <? now - last
     | None => true
     end
  then if 0 <? announcedTier then announcedTier - 1 else 0
  else announcedTier.

(** One step of a timer's life. *)
Definition timer_step (t : Timer) (v : Z * string) : Timer := RecordValidation v.1 v.2 t.

(** The last validation of a peer in a list of events. *)
Definition lastOf (peer : string) (events : list (Z * string)) : option Z :=
  fst <$> last (base.filter (fun v => v.2 = peer) events).

Lemma timer_run_last w events peer :
  tm_lastValidated (foldl timer_step (NewTimer w) events) !! peer = lastOf peer events
  /\ tm_DecayWindow (foldl timer_step (NewTimer w) events) = tm_DecayWindow (NewTimer w).
Proof.
  induction events as [|[now p] events IH] using rev_ind; [by cbn|].
  rewrite foldl_app. cbn. destruct IH as [IH ->]. split; [|done]. unfold lastOf.
  rewrite filter_app, filter_cons, filter_nil. rewrite lookup_insert. cbn.
  repeat case_decide; try done; [by rewrite last_snoc|]. by rewrite app_nil_r.
Qed.

(** Trust decays without validation and recovers with it.  After any sequence
    of cross-validations the tier used for a peer is the announced one if the
    peer's last validation is at most one decay window old (30 days unless
    configured); otherwise, and for a peer never validated, it is one less, and
    never below 0. *)
Theorem trust_decay w events now peer tier :
  0 <= tier ->
  let window := if w <=? 0 then 30 * 24 * Hour else w in
  EffectiveTier now peer tier (foldl timer_step (NewTimer w) events)
  = match lastOf peer events with
    | Some t => if now - t <=? window then tier else Z.max 0 (tier - 1)
    | None => Z.max 0 (tier - 1)
    end.
Proof.
  intros Ht. cbn zeta. destruct (timer_run_last w events peer) as [Hl Hw]. unfold EffectiveTier. rewrite Hl, Hw.
  cbn [tm_DecayWindow NewTimer]. set (window := if w <=? 0 then _ else _).
  assert ((if 0 <? tier then tier - 1 else 0) = Z.max 0 (tier - 1)) as -> by (case_guards; go_bool; lia).
  destruct (lastOf peer events) as [t|]; [|done]. by rewrite Z.leb_antisym, if_negb.
Qed.

Lemma trust_decay_witness :
  EffectiveTier (31 * 24 * Hour) "ru-node-01" 2 (foldl timer_step (NewTimer 0) [(0, "ru-node-01"%string)]) = 1.
Proof.
  rewrite (trust_decay 0 [(0, "ru-node-01"%string)] (31 * 24 * Hour) "ru-node-01" 2 ltac:(lia)).
  vm_compute. reflexivity.
Defined.
