(* ===== verification/Discovery.v ===== *)
(** * Discovery fan-out (package [internal/discovery])

    The broadcaster forwards a discovery request to every peer once: stale
    requests, requests already seen and requests without hops left stop here.
    Dialling a peer and calling it is an argument over a world [W]. *)

From S2P Require Import Prelude GoCrypto Dedup.

Definition staleness : Z := 30 * Second.

Record DRequest := {
  dq_QueryHash : string; dq_QueryType : string; dq_OriginNodeID : string; dq_OriginAppID : string;
  dq_HopLimit : Z; dq_RequestID : string; dq_Timestamp : Z }.

Record DResponse := {
  dn_NodeID : string; dn_AppID : string; dn_OpaqueToken : string; dn_DisplayHint : string;
  dn_MatchType : string; dn_TokenExpires : Z }.

(** [dedup] is shared and therefore not part of the record. *)
Record Broadcaster := { bc_peers : gmap string string }.

Section Broadcast.
Context {W : Type}.
(** Dial the address and call it: [None] when dialling or the call fails, or
    the answer is nil. *)
Context (ask : string -> DRequest -> W -> option DResponse * W).

Definition nextHop (req : DRequest) : DRequest :=
  {| dq_QueryHash := dq_QueryHash req; dq_QueryType := dq_QueryType req; dq_OriginNodeID := dq_OriginNodeID req;
     dq_OriginAppID := dq_OriginAppID req; dq_HopLimit := wrap_u32 (dq_HopLimit req - 1);
     dq_RequestID := dq_RequestID req; dq_Timestamp := dq_Timestamp req |}.

Fixpoint askAll (forward : DRequest) (addrs : list string) (w : W) : list DResponse * W :=
  match addrs with
  | [] => ([], w)
  | addr :: rest =>
      let (resp, w1) := ask addr forward w in
      let (results, w2) := askAll forward rest w1 in
      (match resp with
       | Some r => if negb (str_eqb (dn_OpaqueToken r) "") then r :: results else results
       | None => results
       end, w2)
  end.

(** The deduplication index is shared: a peer that is asked may ask back
    before the fan-out ends, and finds the request registered. *)
Context (seenIdx : W -> Index) (setSeen : Index -> W -> W).

Definition stale (now : Z) (req : DRequest) : bool :=
  (0 <? dq_Timestamp req) && (Z.quot staleness Millisecond <? wrap_i64 (UnixMilli now - dq_Timestamp req)).

(** [now] at the staleness check, [nowD] at the deduplication; [order] the
    visit of the peer map. *)
Definition Broadcast (now nowD : Z) (order : list (string * string)) (req : DRequest) (w : W)
  : list DResponse * W :=
  if stale now req then ([], w) else
  let (seen, idx1) := SeenOrAdd nowD (dq_RequestID req) (seenIdx w) in
  let w1 := setSeen idx1 w in
  if seen then ([], w1) else
  if dq_HopLimit req =? 0 then ([], w1) else
  askAll (nextHop req) order.*2 w1.

(** ** Lemmas *)

(** The peers are contacted only for fresh requests with hops left. *)
Definition contacts (now nowD : Z) (req : DRequest) (w : W) : bool :=
  negb (stale now req) && negb (SeenOrAdd nowD (dq_RequestID req) (seenIdx w)).1 && negb (dq_HopLimit req =? 0).

Lemma Broadcast_contacts now nowD order req w :
  contacts now nowD req w = true ->
  Broadcast now nowD order req w
  = askAll (nextHop req) order.*2 (setSeen (SeenOrAdd nowD (dq_RequestID req) (seenIdx w)).2 w).
Proof.
  unfold Broadcast, contacts. destruct (stale now req); [done|]. cbn [negb andb].
  destruct (SeenOrAdd nowD (dq_RequestID req) (seenIdx w)) as [[] idx1]; [done|]. cbn [fst snd negb andb].
  by destruct (dq_HopLimit req =? 0).
Qed.

Lemma Broadcast_silent now nowD order req w :
  contacts now nowD req w = false ->
  (Broadcast now nowD order req w).1 = []
  /\ ((Broadcast now nowD order req w).2 = w
      \/ (Broadcast now nowD order req w).2 = setSeen (SeenOrAdd nowD (dq_RequestID req) (seenIdx w)).2 w).
Proof.
  unfold Broadcast, contacts. destruct (stale now req); [auto|]. cbn [negb andb].
  destruct (SeenOrAdd nowD (dq_RequestID req) (seenIdx w)) as [[] idx1]; [auto|]. cbn [fst snd negb andb].
  destruct (dq_HopLimit req =? 0); [auto|done].
Qed.

(** A forwarded request has one hop less. *)
Lemma nextHop_limit req : in_u32 (dq_HopLimit req) -> dq_HopLimit req <> 0 ->
  dq_HopLimit (nextHop req) = dq_HopLimit req - 1 /\ in_u32 (dq_HopLimit (nextHop req)).
Proof.
  intros Hh Hn. cbn. rewrite wrap_u32_id by (unfold in_u32 in *; lia). unfold in_u32 in *. lia.
Qed.

(** What every single call keeps, the fan-out keeps. *)
Lemma askAll_keeps (P : W -> Prop) forward addrs w :
  P w -> (forall addr w, addr ∈ addrs -> P w -> P (ask addr forward w).2) -> P (askAll forward addrs w).2.
Proof.
  revert w. induction addrs as [|a addrs IH]; intros w Hw Ha; cbn; [done|].
  pose proof (Ha a w (list_elem_of_here _ _) Hw) as H1. destruct (ask a forward w) as [resp w1]. cbn [snd] in H1.
  pose proof (IH w1 H1 (fun addr w Hin => Ha addr w (list_elem_of_further _ _ _ Hin))) as H2.
  destruct (askAll forward addrs w1) as [rs w2]. done.
Qed.

Lemma askAll_tokens forward addrs w : Forall (fun r => dn_OpaqueToken r <> ""%string) (askAll forward addrs w).1.
Proof.
  revert w. induction addrs as [|a addrs IH]; intros w; cbn; [constructor|].
  destruct (ask a forward w) as [resp w1]. specialize (IH w1). destruct (askAll forward addrs w1) as [rs w2].
  destruct resp as [r|]; [|done]. destruct (str_eqb (dn_OpaqueToken r) "") eqn:E; cbn; [done|]. go_bool.
  by constructor.
Qed.
End Broadcast.
