(* ===== verification/RateLimit.v ===== *)
(** * The rate limiter (package [internal/ratelimit])

    Token buckets per key, on IEEE 754 binary64 numbers as in the code. *)

From S2P Require Import Prelude.
From Stdlib Require Import SpecFloat.

Definition f64 := spec_float.
Definition f64_int (z : Z) : f64 := binary_normalize 53 1024 z 0 false.
Definition fadd : f64 -> f64 -> f64 := SFadd 53 1024.
Definition fsub : f64 -> f64 -> f64 := SFsub 53 1024.
Definition f_mul : f64 -> f64 -> f64 := SFmul 53 1024.
Definition fdiv : f64 -> f64 -> f64 := SFdiv 53 1024.

(** [Duration.Seconds()] *)
Definition Seconds (d : Z) : f64 :=
  fadd (f64_int (Z.quot d Second)) (fdiv (f64_int (Z.rem d Second)) (f64_int 1000000000)).

Definition defaultRate : f64 := f64_int 10.
Definition defaultBurst : Z := 20.
Definition idleEvictAfter : Z := 5 * Minute.

Record bucket := { bk_tokens : f64; bk_capacity : f64; bk_rate : f64; bk_lastSeen : Z }.

Definition allow (now : Z) (b : bucket) : bool * bucket :=
  let elapsed := Seconds (now - bk_lastSeen b) in
  let tokens := fadd (bk_tokens b) (f_mul elapsed (bk_rate b)) in
  let tokens := if SFltb (bk_capacity b) tokens then bk_capacity b else tokens in
  if SFltb tokens (f64_int 1)
  then (false, {| bk_tokens := tokens; bk_capacity := bk_capacity b; bk_rate := bk_rate b; bk_lastSeen := now |})
  else (true, {| bk_tokens := fsub tokens (f64_int 1); bk_capacity := bk_capacity b; bk_rate := bk_rate b;
                 bk_lastSeen := now |}).

Record Limiter := { lm_buckets : gmap string bucket; lm_rate : f64; lm_burst : f64 }.

Definition NewLimiter (rate : f64) (burst : Z) : Limiter :=
  let rate := if SFleb rate (f64_int 0) then defaultRate else rate in
  let burst := if burst <=? 0 then defaultBurst else burst in
  {| lm_buckets := ∅; lm_rate := rate; lm_burst := f64_int burst |}.

Definition Allow (now : Z) (key : string) (l : Limiter) : bool * Limiter :=
  let b := match lm_buckets l !! key with
           | Some b => b
           | None => {| bk_tokens := lm_burst l; bk_capacity := lm_burst l; bk_rate := lm_rate l; bk_lastSeen := now |}
           end in
  let (ok, b') := allow now b in
  (ok, {| lm_buckets := <[key := b']> (lm_buckets l); lm_rate := lm_rate l; lm_burst := lm_burst l |}).

Definition LimiterLen (l : Limiter) : nat := size (lm_buckets l).

(** One tick of the cleanup loop. *)
Definition cleanupTick (now : Z) (l : Limiter) : Limiter :=
  {| lm_buckets := filter (fun kv => ~ (idleEvictAfter < now - bk_lastSeen kv.2)) (lm_buckets l);
     lm_rate := lm_rate l; lm_burst := lm_burst l |}.

(** A run of calls for one key at the given times. *)
Fixpoint allowRun (times : list Z) (key : string) (l : Limiter) : list bool * Limiter :=
  match times with
  | [] => ([], l)
  | t :: ts => let (ok, l1) := Allow t key l in let (oks, l2) := allowRun ts key l1 in (ok :: oks, l2)
  end.

(** Keys are limited independently. *)
Theorem Allow_independent now key l k :
  k <> key -> lm_buckets (Allow now key l).2 !! k = lm_buckets l !! k.
Proof.
  intros Hk. unfold Allow. cbn zeta. destruct (allow now _) as [ok b']. cbn. by rewrite lookup_insert_ne.
Qed.

(** With the defaults a key may burst twenty calls and no more; a tenth of a
    second later there is room for exactly one more. *)
Theorem default_burst :
  (allowRun (repeat 0 21 ++ repeat (100 * Millisecond) 2) "node" (NewLimiter (f64_int 0) 0)).1
  = repeat true 20 ++ [false; true; false].
Proof. vm_compute. reflexivity. Qed.
