(* ===== verification/Metrics.v ===== *)
(** * The metrics registry (package [internal/metrics])

    The counters of a node and their text exposition.  Counters are atomic
    64-bit integers; the gauges are read by the callbacks given to [New]. *)

From S2P Require Import Prelude.

Record MetricsRegistry := {
  mr_allowTotal : Z;
  mr_duplicateTotal : Z;
  mr_rateLimitDenyTotal : Z;
  mr_denyByReason : gmap string Z }.

Definition NewMetrics : MetricsRegistry :=
  {| mr_allowTotal := 0; mr_duplicateTotal := 0; mr_rateLimitDenyTotal := 0; mr_denyByReason := ∅ |}.

Definition IncAllow (r : MetricsRegistry) : MetricsRegistry :=
  {| mr_allowTotal := wrap_i64 (mr_allowTotal r + 1); mr_duplicateTotal := mr_duplicateTotal r;
     mr_rateLimitDenyTotal := mr_rateLimitDenyTotal r; mr_denyByReason := mr_denyByReason r |}.

Definition IncDuplicate (r : MetricsRegistry) : MetricsRegistry :=
  {| mr_allowTotal := mr_allowTotal r; mr_duplicateTotal := wrap_i64 (mr_duplicateTotal r + 1);
     mr_rateLimitDenyTotal := mr_rateLimitDenyTotal r; mr_denyByReason := mr_denyByReason r |}.

Definition IncRateLimitDeny (r : MetricsRegistry) : MetricsRegistry :=
  {| mr_allowTotal := mr_allowTotal r; mr_duplicateTotal := mr_duplicateTotal r;
     mr_rateLimitDenyTotal := wrap_i64 (mr_rateLimitDenyTotal r + 1); mr_denyByReason := mr_denyByReason r |}.

(** The counter of a reason is created at zero when it is first needed. *)
Definition IncDeny (reason : string) (r : MetricsRegistry) : MetricsRegistry :=
  {| mr_allowTotal := mr_allowTotal r; mr_duplicateTotal := mr_duplicateTotal r;
     mr_rateLimitDenyTotal := mr_rateLimitDenyTotal r;
     mr_denyByReason := <[reason := wrap_i64 (default 0 (mr_denyByReason r !! reason) + 1)]> (mr_denyByReason r) |}.

(** The gauges of [Handler] are read through [readGauge]. *)
Definition readGauge (fn : option nat) : nat := default O fn.

(** ** Lemmas *)

Definition sumZ (l : list Z) : Z := foldr Z.add 0 l.

(** All denials, whatever their reason. *)
Definition denyTotal (r : MetricsRegistry) : Z := sumZ (map_to_list (mr_denyByReason r)).*2.

Lemma sumZ_perm l1 l2 : l1 ≡ₚ l2 -> sumZ l1 = sumZ l2.
Proof. unfold sumZ. induction 1; cbn; lia. Qed.

Lemma sumZ_nonneg l : Forall (fun n => 0 <= n) l -> 0 <= sumZ l.
Proof. unfold sumZ. induction 1; cbn; lia. Qed.

Lemma sum_insert (m : gmap string Z) k v :
  sumZ (map_to_list (<[k := v]> m)).*2 = sumZ (map_to_list m).*2 - default 0 (m !! k) + v.
Proof.
  assert (forall v', sumZ (map_to_list (<[k := v']> m)).*2 = v' + sumZ (map_to_list (delete k m)).*2) as Hd.
  { intros v'. rewrite <- insert_delete_eq. by rewrite (sumZ_perm _ _ (fmap_Permutation snd _ _
      (map_to_list_insert (delete k m) k v' (lookup_delete_eq _ _)))). }
  destruct (m !! k) as [v0|] eqn:E; cbn; [|rewrite Hd, delete_id by done; lia].
  pose proof (Hd v0) as H0. rewrite insert_id in H0 by done. rewrite Hd. lia.
Qed.

(** Below the width of the counter a denial adds one to the total. *)
Lemma IncDeny_total reason r :
  in_i64 (default 0 (mr_denyByReason r !! reason) + 1) ->
  denyTotal (IncDeny reason r) = denyTotal r + 1.
Proof.
  intros Hr. unfold denyTotal. cbn. rewrite sum_insert, wrap_i64_id by done.
  destruct (mr_denyByReason r !! reason); cbn; lia.
Qed.
