(* ===== verification/Exposition.v ===== *)
(** * What a node shows of itself (packages [internal/metrics], the handler, and [internal/logger])

    The text of [/metrics], in the format of Prometheus, and the choices of the
    logger. *)

From S2P Require Import Prelude GoStrings GoCrypto Utf8 GoText Metrics.

(** ** The page *)

(** The three gauges are read through callbacks that may be nil. *)
Record Gauges := { ga_dlq : option nat; ga_transit : option nat; ga_peersKnown : option nat }.

Definition metricHead (name kind help : string) : list string :=
  [append "# HELP " (append name (append " " help)); append "# TYPE " (append name (append " " kind))].

Definition metricLine (name : string) (value : Z) : string := append name (append " " (itoa value)).

(** A counter or a gauge with one value. *)
Definition metric (name kind help : string) (value : Z) : list string := metricHead name kind help ++ [metricLine name value].

Definition denyLine `{PrintTable} (rn : string * Z) : string :=
  append "mrmi_envelope_deny_total{reason=" (append (Quote rn.1) (append "} " (itoa rn.2))).

(** The lines of the page; [visit]: the counters by reason in the order in which Go
    visits its copy of the map. *)
Definition metricsLines `{PrintTable} (visit : list (string * Z)) (g : Gauges) (r : MetricsRegistry) : list string :=
  metric "mrmi_envelope_allow_total" "counter" "Envelopes with ALLOW decision" (mr_allowTotal r) ++ [""%string]
  ++ metricHead "mrmi_envelope_deny_total" "counter" "Envelopes with DENY decision" ++ (denyLine <$> visit) ++ [""%string]
  ++ metric "mrmi_envelope_duplicate_total" "counter" "Envelopes rejected as duplicates" (mr_duplicateTotal r) ++ [""%string]
  ++ metric "mrmi_dlq_len" "gauge" "Current DLQ depth" (Z.of_nat (readGauge (ga_dlq g))) ++ [""%string]
  ++ metric "mrmi_transit_cache_len" "gauge" "Current transit cache depth" (Z.of_nat (readGauge (ga_transit g))) ++ [""%string]
  ++ metric "mrmi_rate_limit_deny_total" "counter" "Discovery requests rejected by rate limiter" (mr_rateLimitDenyTotal r) ++ [""%string]
  ++ metric "mrmi_peer_count" "gauge" "Live peers in registry" (Z.of_nat (readGauge (ga_peersKnown g))).

(** What [Handler] writes: every line ends. *)
Definition metricsPage `{PrintTable} (visit : list (string * Z)) (g : Gauges) (r : MetricsRegistry) : string :=
  concat_with "" ((fun l => append l newline) <$> metricsLines visit g r).

(** ** The logger *)

Inductive LogLevel := LevelDebug | LevelInfo | LevelWarn | LevelError.
Inductive LogHandler := JSONHandler | TextHandler.

Definition logLevel (level : string) : LogLevel :=
  if str_eqb level "debug" then LevelDebug else if str_eqb level "warn" then LevelWarn
  else if str_eqb level "error" then LevelError else LevelInfo.

Definition logHandler (format : string) : LogHandler := if str_eqb format "json" then JSONHandler else TextHandler.

(** [slog.Level] values: a record is written where its level is at least the handler's. *)
Definition levelValue (l : LogLevel) : Z :=
  match l with LevelDebug => -4 | LevelInfo => 0 | LevelWarn => 4 | LevelError => 8 end.

Definition logs (level : string) (record : LogLevel) : bool := levelValue (logLevel level) <=? levelValue record.

(** ** One line each *)

Definition one_line (s : string) : bool := forallb (fun a => negb (is_newline a)) (list_ascii_of_string s).

Lemma one_line_append s t : one_line (append s t) = one_line s && one_line t.
Proof. unfold one_line. by rewrite list_ascii_app, forallb_app. Qed.

Lemma one_line_cons a s : one_line (String a s) = negb (is_newline a) && one_line s.
Proof. done. Qed.

Lemma chr_one_line z : 0 <= z < 256 -> z <> 10 -> is_newline (chr z) = false.
Proof. intros Hz Hn. unfold is_newline. rewrite byteZ_chr by done. by apply Z.eqb_neq. Qed.

Lemma encode_rune_one_line r : valid_rune r -> r <> 10 -> one_line (encode_rune r) = true.
Proof.
  intros Hr Hn. unfold encode_rune. destruct (r <? 0) eqn:E0; go_bool; [unfold valid_rune in Hr; lia|].
  destruct (r <? 0x80) eqn:E1; go_bool; [cbn; by rewrite chr_one_line by lia|].
  destruct (r <? 0x800) eqn:E2; go_bool.
  { rewrite bits6_mod, Z.shiftr_div_pow2 by lia. change (2 ^ 6) with 64. rewrite lor_0xC0, lor_0x80 by div64.
    cbn. by rewrite !chr_one_line by div64. }
  destruct ((0xD800 <=? r) && (r <=? 0xDFFF)) eqn:E3; [unfold valid_rune in Hr; go_bool; lia|].
  destruct (r <? 0x10000) eqn:E4; go_bool.
  { rewrite !bits6_mod, !Z.shiftr_div_pow2 by lia. change (2 ^ 12) with 4096. change (2 ^ 6) with 64.
    rewrite lor_0xE0, !lor_0x80 by div64. cbn. by rewrite !chr_one_line by div64. }
  destruct (r <=? 0x10FFFF) eqn:E5; go_bool; [|unfold valid_rune in Hr; lia].
  rewrite !bits6_mod, !Z.shiftr_div_pow2 by lia. change (2 ^ 18) with 262144. change (2 ^ 12) with 4096. change (2 ^ 6) with 64.
  rewrite lor_0xF0, !lor_0x80 by div64. cbn. by rewrite !chr_one_line by div64.
Qed.

Lemma hexDigits_one_line n r : one_line (hexDigits n r) = true.
Proof.
  revert r. induction n as [|n IH]; intros r; [done|]. cbn [hexDigits]. rewrite one_line_append, IH, one_line_cons. cbn.
  unfold hex_digit. pose proof (Z.mod_pos_bound r 16 ltac:(lia)). destruct (_ <? 10) eqn:E; go_bool; by rewrite chr_one_line by lia.
Qed.

Lemma quoteRune_one_line `{PrintTable} r : valid_rune r -> one_line (quoteRune r) = true.
Proof.
  intros Hr. unfold quoteRune. destruct ((r =? 34) || (r =? 92)) eqn:E.
  { rewrite one_line_cons. cbn. rewrite chr_one_line; [done|..]; apply orb_true_iff in E as [E|E]; go_bool; lia. }
  destruct (IsPrint r) eqn:Ep.
  { apply encode_rune_one_line; [done|]. intros ->. unfold IsPrint in Ep. by cbn in Ep. }
  repeat (case_match; [rewrite ?one_line_cons, ?one_line_append, ?hexDigits_one_line; done|]).
  rewrite one_line_cons, one_line_append, hexDigits_one_line. done.
Qed.

(** A quoted text is one line, whatever it quotes. *)
Lemma Quote_one_line `{PrintTable} s : one_line (Quote s) = true.
Proof.
  unfold Quote. rewrite one_line_cons, one_line_append. apply andb_true_intro. split; [done|].
  apply andb_true_intro. split; [|done]. pose proof (runes_valid s) as Hv. unfold runes in Hv.
  generalize (list_ascii_of_string s). induction (decode s) as [|[r|] items IH]; intros l; [done|..]; cbn [quoteItems];
    cbn in Hv; apply Forall_cons in Hv as [Hr Hv]; rewrite one_line_append.
  - by rewrite quoteRune_one_line, IH.
  - rewrite one_line_cons, one_line_append, hexDigits_one_line, IH by done. done.
Qed.

Lemma split_at_line s t : one_line s = true -> split_at is_newline (append s (append newline t)) = s :: split_at is_newline t.
Proof.
  induction s as [|a s IH]; intros Hs; [reflexivity|]. rewrite one_line_cons in Hs. apply andb_true_iff in Hs as [Ha Hs].
  cbn [append split_at]. apply negb_true_iff in Ha. change (split_at is_newline (String a (append s (append newline t))) = String a s :: split_at is_newline t).
  cbn [split_at]. rewrite Ha. rewrite IH by done. done.
Qed.

Lemma split_at_lines ls :
  Forall (fun l => one_line l = true) ls ->
  split_at is_newline (concat_with "" ((fun l => append l newline) <$> ls)) = ls ++ [""%string].
Proof.
  induction 1 as [|l ls Hl Hls IH]; [done|]. destruct ls as [|l' ls].
  - cbn [fmap list_fmap concat_with]. rewrite <- (append_empty_str newline), split_at_line by done. done.
  - cbn [fmap list_fmap concat_with] in *. rewrite <- append_assoc_str, split_at_line by done. cbn [append app]. by f_equal.
Qed.

Lemma digits_one_line f n acc : one_line acc = true -> one_line (digits_fuel f n acc) = true.
Proof.
  revert n acc. induction f as [|f IH]; intros n acc Ha; [done|]. cbn [digits_fuel].
  assert (one_line (String (chr (48 + n mod 10)) acc) = true) as Hd.
  { rewrite one_line_cons, Ha. pose proof (Z.mod_pos_bound n 10 ltac:(lia)). by rewrite chr_one_line by lia. }
  destruct (n <? 10); [done|]. by apply IH.
Qed.

Lemma itoa_one_line z : one_line (itoa z) = true.
Proof. unfold itoa. destruct (z <? 0); [rewrite one_line_append|]; by rewrite digits_one_line. Qed.

Lemma metric_one_line name kind help value :
  one_line name = true -> one_line kind = true -> one_line help = true ->
  Forall (fun l => one_line l = true) (metric name kind help value).
Proof.
  intros Hn Hk Hh. unfold metric, metricHead, metricLine. repeat constructor; rewrite !one_line_append, ?Hn, ?Hk, ?Hh, ?itoa_one_line; done.
Qed.

(** Where the lines of interest are. *)
Lemma in_tail {A} (x : A) l1 l2 : x ∈ l2 -> x ∈ l1 ++ l2.
Proof. rewrite elem_of_app. by right. Qed.

Lemma in_head {A} (x : A) l1 l2 : x ∈ l1 -> x ∈ l1 ++ l2.
Proof. rewrite elem_of_app. by left. Qed.

Lemma metric_value name kind help value : metricLine name value ∈ metric name kind help value.
Proof. apply in_tail. left. Qed.

Lemma metricsLines_allow `{PrintTable} visit g r :
  metricLine "mrmi_envelope_allow_total" (mr_allowTotal r) ∈ metricsLines visit g r.
Proof. apply in_head, metric_value. Qed.

Lemma metricsLines_deny `{PrintTable} visit g r rn : rn ∈ visit -> denyLine rn ∈ metricsLines visit g r.
Proof. intros Hrn. do 3 apply in_tail. apply in_head. apply list_elem_of_fmap. eauto. Qed.

Lemma metricsLines_duplicate `{PrintTable} visit g r :
  metricLine "mrmi_envelope_duplicate_total" (mr_duplicateTotal r) ∈ metricsLines visit g r.
Proof. do 5 apply in_tail. apply in_head, metric_value. Qed.

(** The page has one line for each counter, each reason and each gauge, whatever
    text a reason is: read line by line it is the list of its lines. *)
Theorem metrics_page_lines `{PrintTable} visit g r :
  split_at is_newline (metricsPage visit g r) = metricsLines visit g r ++ [""%string].
Proof.
  apply split_at_lines. unfold metricsLines. rewrite !Forall_app. split_and!; try (by apply metric_one_line);
    try (by repeat constructor). apply Forall_fmap, Forall_true. intros [reason n]. unfold compose, denyLine. cbn [fst snd].
  rewrite !one_line_append, Quote_one_line, itoa_one_line. done.
Qed.

Example metrics_page_ex `{PrintTable} :
  metricsLines [("RULE_0"%string, 2)] {| ga_dlq := Some 1%nat; ga_transit := None; ga_peersKnown := Some 3%nat |}
    {| mr_allowTotal := 5; mr_duplicateTotal := 1; mr_rateLimitDenyTotal := 0; mr_denyByReason := ∅ |} !! 6%nat
  = Some (append "mrmi_envelope_deny_total{reason=" (append (Quote "RULE_0") "} 2")).
Proof. reflexivity. Qed.
