(* ===== verification/ConnPool.v ===== *)
(** * The connection pool (package [internal/transport/grpc], [client.go] and [connpool.go])

    One connection per peer address, shared by the calls that forward envelopes.  A
    call holds the pool's lock twice, before and after it dials; the model interleaves
    calls at these points.  A connection is a parameter: what the code relies on is
    that closing a connection, and nothing else, shuts it down. *)

From S2P Require Import Prelude.

Inductive ConnState := Idle | Connecting | Ready | TransientFailure | Shutdown.

#[export] Instance ConnState_dec : EqDecision ConnState.
Proof. solve_decision. Defined.

(** [*grpc.ClientConn]: its state and [Close]. *)
Class GrpcConn := {
  Conn : Type;
  GetState : Conn -> ConnState;
  conn_Close : Conn -> Conn;
  conn_Close_shutdown c : GetState (conn_Close c) = Shutdown }.

(** Transport credentials: TLS with the settings, or nothing. *)
Inductive Credentials (S : Type) := TLSCredentials (s : S) | InsecureCredentials.
Arguments TLSCredentials {S} s.
Arguments InsecureCredentials {S}.

(** [if tlsCfg != nil { credentials.NewTLS(tlsCfg) } else { insecure.NewCredentials() }] *)
Definition credentials {S} (tlsCfg : option S) : Credentials S :=
  match tlsCfg with Some s => TLSCredentials s | None => InsecureCredentials end.

(** A client is known by its address in memory: [ClientId]. *)
Definition ClientId : Type := nat.

Inductive DialError := DialShutdown | DialContext.

Section Pool.
Context `{GrpcConn}.

Record GrpcClient := { cl_conn : Conn; cl_pooled : bool }.

(** The loop of [Dial] over the connection as it is seen at each round, with whether
    [WaitForStateChange] saw a change before the context ended; the context, of ten
    seconds, ends after the last of them. *)
Fixpoint dialLoop (seen : list (Conn * bool)) : outcome DialError GrpcClient :=
  match seen with
  | [] => Err DialContext
  | (c, changed) :: seen' =>
      if decide (GetState c = Ready) then Ok {| cl_conn := c; cl_pooled := false |}
      else if decide (GetState c = Shutdown) then Err DialShutdown
      else if changed then dialLoop seen' else Err DialContext
  end.

(** The connection as the loop leaves it. *)
Fixpoint dialLast (c : Conn) (seen : list (Conn * bool)) : Conn :=
  match seen with
  | [] => c
  | (c', changed) :: seen' =>
      if decide (GetState c' = Ready) then c' else if decide (GetState c' = Shutdown) then c'
      else if changed then dialLast c' seen' else c'
  end.

Inductive DialFailure := NotCreated (err : string) | NotConnected (e : DialError).

(** [Dial]: [newClient] is [grpc.NewClient] with the credentials and the JSON codec
    forced, [seen] what the loop sees of a connection.  Besides the client, the
    connection that is closed on the way out. *)
Definition Dial {S} (newClient : Credentials S -> outcome string Conn) (seen : Conn -> list (Conn * bool)) (tlsCfg : option S)
  : outcome DialFailure GrpcClient * option Conn :=
  match newClient (credentials tlsCfg) with
  | Err err => (Err (NotCreated err), None)
  | Ok c =>
      match dialLoop (seen c) with
      | Ok client => (Ok client, None)
      | Err e => (Err (NotConnected e), Some (conn_Close (dialLast c (seen c))))
      end
  end.

(** [Client.Close]. *)
Definition clientClose (c : GrpcClient) : GrpcClient :=
  if cl_pooled c then c else {| cl_conn := conn_Close (cl_conn c); cl_pooled := cl_pooled c |}.

(** [c.pooled = false; c.conn.Close()] *)
Definition drop_client (c : GrpcClient) : GrpcClient := {| cl_conn := conn_Close (cl_conn c); cl_pooled := false |}.

(** The pool and the clients in memory. *)
Record ConnPool := { cp_conns : gmap string ClientId; cp_heap : gmap ClientId GrpcClient }.

Definition NewConnPool : ConnPool := {| cp_conns := ∅; cp_heap := ∅ |}.

Definition on_heap (f : gmap ClientId GrpcClient -> gmap ClientId GrpcClient) (p : ConnPool) : ConnPool :=
  {| cp_conns := cp_conns p; cp_heap := f (cp_heap p) |}.

(** The first critical section of [Client]. *)
Definition poolLookup (addr : string) (p : ConnPool) : option ClientId * ConnPool :=
  match cp_conns p !! addr with
  | None => (None, p)
  | Some id =>
      match cp_heap p !! id with
      | Some c =>
          if decide (GetState (cl_conn c) = Shutdown)
          then (None, {| cp_conns := delete addr (cp_conns p); cp_heap := <[id := drop_client c]> (cp_heap p) |})
          else (Some id, p)
      | None => (None, p)
      end
  end.

(** After the dial, without the lock: a new client with [pooled] set. *)
Definition poolDialed (id : ClientId) (fresh : GrpcClient) (p : ConnPool) : ConnPool :=
  on_heap (insert id {| cl_conn := cl_conn fresh; cl_pooled := true |}) p.

(** The second critical section. *)
Definition poolInsert (addr : string) (fresh : ClientId) (p : ConnPool) : ClientId * ConnPool :=
  match cp_conns p !! addr with
  | Some existing => (existing, on_heap (alter drop_client fresh) p)
  | None => (fresh, {| cp_conns := <[addr := fresh]> (cp_conns p); cp_heap := cp_heap p |})
  end.

(** [Client], when no other call comes between. *)
Definition poolClient (addr : string) (id : ClientId) (dialed : outcome DialError GrpcClient) (p : ConnPool)
  : outcome DialError ClientId * ConnPool :=
  match poolLookup addr p with
  | (Some c, p') => (Ok c, p')
  | (None, p') =>
      match dialed with
      | Err e => (Err e, p')
      | Ok fresh => let (c, p'') := poolInsert addr id (poolDialed id fresh p') in (Ok c, p'')
      end
  end.

(** [ConnPool.Close]. *)
Definition poolClose (p : ConnPool) : ConnPool :=
  {| cp_conns := ∅; cp_heap := map_fold (fun _ id h => alter drop_client id h) (cp_heap p) (cp_conns p) |}.

(** ** Interleaved calls *)

Inductive PoolCall :=
| Dialing (addr : string)
| Dialed (addr : string) (fresh : ClientId)
| Got (addr : string) (id : ClientId)
| DialFailed.

(** The pool and the calls under way, by number. *)
Record PoolState := { po_pool : ConnPool; po_calls : gmap nat PoolCall }.

Inductive pool_step (st : PoolState) : PoolState -> Prop :=
| pool_found t addr id p :
    po_calls st !! t = None -> poolLookup addr (po_pool st) = (Some id, p) ->
    pool_step st {| po_pool := p; po_calls := <[t := Got addr id]> (po_calls st) |}
| pool_missing t addr p :
    po_calls st !! t = None -> poolLookup addr (po_pool st) = (None, p) ->
    pool_step st {| po_pool := p; po_calls := <[t := Dialing addr]> (po_calls st) |}
| pool_dialed t addr id seen fresh :
    po_calls st !! t = Some (Dialing addr) -> cp_heap (po_pool st) !! id = None -> dialLoop seen = Ok fresh ->
    pool_step st {| po_pool := poolDialed id fresh (po_pool st); po_calls := <[t := Dialed addr id]> (po_calls st) |}
| pool_dial_failed t addr seen e :
    po_calls st !! t = Some (Dialing addr) -> dialLoop seen = Err e ->
    pool_step st {| po_pool := po_pool st; po_calls := <[t := DialFailed]> (po_calls st) |}
| pool_inserted t addr fresh id p :
    po_calls st !! t = Some (Dialed addr fresh) -> poolInsert addr fresh (po_pool st) = (id, p) ->
    pool_step st {| po_pool := p; po_calls := <[t := Got addr id]> (po_calls st) |}
| pool_caller_closes t addr id :
    po_calls st !! t = Some (Got addr id) ->
    pool_step st {| po_pool := on_heap (alter clientClose id) (po_pool st); po_calls := po_calls st |}.

Definition pool_start : PoolState := {| po_pool := NewConnPool; po_calls := ∅ |}.

(** A client that is shared and open. *)
Definition shared (p : ConnPool) (id : ClientId) : Prop :=
  exists c, cp_heap p !! id = Some c /\ GetState (cl_conn c) <> Shutdown /\ cl_pooled c = true.

(** Clients that no call and no entry of the pool knows are closed. *)
Record pool_inv (st : PoolState) : Prop := {
  pi_conns : map_Forall (fun _ id => shared (po_pool st) id) (cp_conns (po_pool st));
  pi_dialed : forall t addr id, po_calls st !! t = Some (Dialed addr id) -> shared (po_pool st) id;
  pi_fresh : forall t addr id, po_calls st !! t = Some (Dialed addr id) ->
    (forall a, cp_conns (po_pool st) !! a <> Some id) /\ (forall t' a', po_calls st !! t' = Some (Dialed a' id) -> t' = t);
  pi_got : forall t addr id, po_calls st !! t = Some (Got addr id) -> cp_conns (po_pool st) !! addr = Some id;
  pi_one : forall a b id, cp_conns (po_pool st) !! a = Some id -> cp_conns (po_pool st) !! b = Some id -> a = b;
  pi_leak : forall id c, cp_heap (po_pool st) !! id = Some c -> GetState (cl_conn c) <> Shutdown ->
    (exists addr, cp_conns (po_pool st) !! addr = Some id) \/ exists t addr, po_calls st !! t = Some (Dialed addr id) }.

Lemma dialLoop_ready seen c : dialLoop seen = Ok c -> GetState (cl_conn c) = Ready.
Proof.
  induction seen as [|[x changed] seen IH]; [done|]. cbn [dialLoop].
  destruct (decide (GetState x = Ready)); [by intros [= <-]|]. destruct (decide _); [done|]. by destruct changed.
Qed.

(** A dial hands out a connection that is ready and belongs to its caller, or leaves
    none behind: one that was made but did not connect is shut down. *)
Theorem Dial_leaves_nothing {S} (newClient : Credentials S -> outcome string Conn) seen tlsCfg :
  match Dial newClient seen tlsCfg with
  | (Ok client, closed) => GetState (cl_conn client) = Ready /\ cl_pooled client = false /\ closed = None
  | (Err (NotCreated err), closed) => newClient (credentials tlsCfg) = Err err /\ closed = None
  | (Err (NotConnected _), closed) => exists c, closed = Some c /\ GetState c = Shutdown
  end.
Proof.
  unfold Dial. destruct (newClient _) as [c|err]; [|done]. destruct (dialLoop (seen c)) as [client|e] eqn:E.
  - split; [by eapply dialLoop_ready|]. split; [|done]. revert E. generalize (seen c). intros l.
    induction l as [|[x b] l IH]; cbn [dialLoop]; [done|]. repeat case_decide; [by intros [= <-]|done|]. by destruct b.
  - eexists. split; [done|]. apply conn_Close_shutdown.
Qed.

Lemma poolLookup_shared addr p :
  map_Forall (fun _ id => shared p id) (cp_conns p) -> poolLookup addr p = (cp_conns p !! addr, p).
Proof.
  intros Hp. unfold poolLookup. destruct (cp_conns p !! addr) as [id|] eqn:E; [|done].
  destruct (Hp addr id E) as (c & -> & Hs & _). by destruct (decide _).
Qed.

Lemma shared_insert p conns id c id' :
  shared p id' -> cp_heap p !! id = None -> shared {| cp_conns := conns; cp_heap := <[id := c]> (cp_heap p) |} id'.
Proof.
  intros (c' & Hc & Hs) Hid. exists c'. cbn. rewrite lookup_insert_ne by congruence. done.
Qed.

Lemma shared_alter p conns f id id' :
  shared p id' -> id' <> id -> shared {| cp_conns := conns; cp_heap := alter f id (cp_heap p) |} id'.
Proof. intros (c' & Hc & Hs) Hne. exists c'. cbn. by rewrite lookup_alter_ne. Qed.

(** A caller's [Close] leaves a shared client alone. *)
Lemma close_shared p id : shared p id -> alter clientClose id (cp_heap p) = cp_heap p.
Proof.
  intros (c & Hc & _ & Hp). apply map_eq. intros i. destruct (decide (i = id)) as [->|Hne].
  - rewrite lookup_alter_eq, Hc. cbn. unfold clientClose. by rewrite Hp.
  - by rewrite lookup_alter_ne.
Qed.

Lemma calls_insert (calls : gmap nat PoolCall) t v t' w :
  <[t := v]> calls !! t' = Some w -> (t' = t /\ w = v) \/ (t' <> t /\ calls !! t' = Some w).
Proof. rewrite lookup_insert_Some. naive_solver. Qed.

Ltac other_call := match goal with
  | Hx : <[_ := _]> _ !! _ = Some _ |- _ => apply calls_insert in Hx as [[-> ?]|[? Hx]]; [simplify_eq|]
  end.

Lemma call_inv st t v p' :
  pool_inv st -> p' = po_pool st -> (forall a id, po_calls st !! t <> Some (Dialed a id)) ->
  (forall a id, v <> Dialed a id) -> (forall a id, v = Got a id -> cp_conns (po_pool st) !! a = Some id) ->
  pool_inv {| po_pool := p'; po_calls := <[t := v]> (po_calls st) |}.
Proof.
  intros [] -> Ht Hd Hg. constructor; cbn [po_pool po_calls]; try done.
  - intros t' a id Hx. other_call; [naive_solver|eauto].
  - intros t' a id Hx. other_call; [naive_solver|]. destruct (pi_fresh0 t' a id Hx) as [H1 H2]. split; [done|].
    intros t'' a' Hx'. other_call; [naive_solver|eauto].
  - intros t' a id Hx. other_call; eauto.
  - intros id c Hc Hs. destruct (pi_leak0 id c Hc Hs) as [?|(t' & a & Hx)]; [by left|right].
    exists t', a. rewrite lookup_insert_ne; [done|]. intros ->. by apply Ht in Hx.
Qed.

Lemma dialed_inv st t addr id fresh :
  pool_inv st -> po_calls st !! t = Some (Dialing addr) -> cp_heap (po_pool st) !! id = None ->
  GetState (cl_conn fresh) = Ready ->
  pool_inv {| po_pool := poolDialed id fresh (po_pool st); po_calls := <[t := Dialed addr id]> (po_calls st) |}.
Proof.
  intros [] Ht Hid Hready.
  assert (forall id', shared (po_pool st) id' -> id' <> id) as Hne by (intros id' (c & Hc & _) ->; congruence).
  constructor; cbn [po_pool po_calls poolDialed on_heap cp_conns cp_heap]; try done.
  - intros a id' Hc. apply shared_insert; [by eapply pi_conns0|done].
  - intros t' a id' Hx. other_call; [|by apply shared_insert; [eapply pi_dialed0|]].
    exists {| cl_conn := cl_conn fresh; cl_pooled := true |}. cbn. rewrite lookup_insert_eq, Hready. done.
  - intros t' a id' Hx. other_call.
    + split; [intros a' Hc; by apply pi_conns0, Hne in Hc|]. intros t'' a' Hx. other_call; [done|].
      by apply pi_dialed0, Hne in Hx.
    + destruct (pi_fresh0 t' a id' Hx) as [H1 H2]. split; [done|]. intros t'' a' Hx'. other_call; [|eauto].
      by apply pi_dialed0, Hne in Hx.
  - intros t' a id' Hx. other_call. eauto.
  - intros id' c Hc Hs. apply lookup_insert_Some in Hc as [[<- <-]|[Hne' Hc]].
    + right. exists t, addr. by rewrite lookup_insert_eq.
    + destruct (pi_leak0 id' c Hc Hs) as [?|(t' & a & Hx)]; [by left|right]. exists t', a.
      rewrite lookup_insert_ne; [done|]. congruence.
Qed.

(** The loser of a race closes its own connection and takes the one in the pool. *)
Lemma lost_race_inv st t addr fresh id :
  pool_inv st -> po_calls st !! t = Some (Dialed addr fresh) -> cp_conns (po_pool st) !! addr = Some id ->
  pool_inv {| po_pool := on_heap (alter drop_client fresh) (po_pool st); po_calls := <[t := Got addr id]> (po_calls st) |}.
Proof.
  intros [] Ht Hid. destruct (pi_fresh0 t addr fresh Ht) as [Hout Hmine].
  constructor; cbn [po_pool po_calls on_heap cp_conns cp_heap]; try done.
  - intros a id' Hc. apply shared_alter; [by eapply pi_conns0|]. intros ->. by apply Hout in Hc.
  - intros t' a id' Hx. other_call. apply shared_alter; [by eapply pi_dialed0|]. intros ->. by apply Hmine in Hx.
  - intros t' a id' Hx. other_call. destruct (pi_fresh0 t' a id' Hx) as [H1 H2]. split; [done|].
    intros t'' a' Hx'. other_call. eauto.
  - intros t' a id' Hx. other_call; [done|eauto].
  - intros id' c Hc Hs. apply lookup_alter_Some in Hc as [(-> & c0 & Hc & ->)|[Hne Hc]].
    + by destruct (Hs (conn_Close_shutdown _)).
    + destruct (pi_leak0 id' c Hc Hs) as [?|(t' & a & Hx)]; [by left|right]. exists t', a.
      rewrite lookup_insert_ne; [done|]. congruence.
Qed.

Lemma inserted_inv st t addr fresh :
  pool_inv st -> po_calls st !! t = Some (Dialed addr fresh) -> cp_conns (po_pool st) !! addr = None ->
  pool_inv {| po_pool := {| cp_conns := <[addr := fresh]> (cp_conns (po_pool st)); cp_heap := cp_heap (po_pool st) |};
              po_calls := <[t := Got addr fresh]> (po_calls st) |}.
Proof.
  intros [] Ht Hnone. destruct (pi_fresh0 t addr fresh Ht) as [Hout Hmine].
  constructor; cbn [po_pool po_calls cp_conns cp_heap]; try done.
  - intros a id' [[<- <-]|[_ Hc]]%lookup_insert_Some; [by eapply pi_dialed0|by eapply pi_conns0].
  - intros t' a id' Hx. other_call. by eapply pi_dialed0.
  - intros t' a id' Hx. other_call. destruct (pi_fresh0 t' a id' Hx) as [H1 H2]. split.
    + intros a'. rewrite lookup_insert_Some. intros [[<- <-]|[_ Hc]]; [by apply Hmine in Hx|by apply H1 in Hc].
    + intros t'' a' Hx'. other_call. eauto.
  - intros t' a id' Hx. other_call; [by rewrite lookup_insert_eq|]. rewrite lookup_insert_ne; [eauto|]. intros ->.
    apply pi_got0 in Hx. congruence.
  - intros a b id'. rewrite !lookup_insert_Some. intros [[<- <-]|[_ Ha]] [[<- ?]|[_ Hb]]; try done; [by apply Hout in Hb|subst; by apply Hout in Ha|eauto].
  - intros id' c Hc Hs. destruct (pi_leak0 id' c Hc Hs) as [[a Ha]|(t' & a & Hx)].
    + left. exists a. rewrite lookup_insert_ne; [done|]. congruence.
    + destruct (decide (t' = t)) as [->|Hne]; [left; exists addr; rewrite lookup_insert_eq; congruence|].
      right. exists t', a. by rewrite lookup_insert_ne.
Qed.

Lemma pool_step_inv st st' : pool_step st st' -> pool_inv st -> pool_inv st'.
Proof.
  intros Hstep Hi. destruct Hstep as [t addr id p Ht Hl|t addr p Ht Hl|t addr id seen fresh Ht Hid Hd
    |t addr seen e Ht Hd|t addr fresh id p Ht Hins|t addr id Ht].
  - rewrite poolLookup_shared in Hl by apply Hi. injection Hl as Hl <-. apply call_inv; try done; naive_solver.
  - rewrite poolLookup_shared in Hl by apply Hi. injection Hl as Hl <-. apply call_inv; try done; naive_solver.
  - apply dialed_inv; try done. by eapply dialLoop_ready.
  - apply call_inv; try done; naive_solver.
  - unfold poolInsert in Hins. destruct (cp_conns (po_pool st) !! addr) as [ex|] eqn:E; injection Hins as <- <-.
    + by eapply lost_race_inv.
    + by eapply inserted_inv.
  - assert (on_heap (alter clientClose id) (po_pool st) = po_pool st) as ->.
    { unfold on_heap. rewrite close_shared; [by destruct (po_pool st)|]. eapply pi_conns; [done|]. by eapply pi_got. }
    by destruct st.
Qed.

(** What [Close] leaves of the clients: shut down, or not in the pool. *)
Lemma poolClose_heap p id c :
  cp_heap (poolClose p) !! id = Some c ->
  GetState (cl_conn c) = Shutdown \/ (cp_heap p !! id = Some c /\ forall addr, cp_conns p !! addr <> Some id).
Proof.
  cbn [poolClose cp_heap]. revert c.
  apply (map_fold_weak_ind (fun h m => forall c, h !! id = Some c ->
    GetState (cl_conn c) = Shutdown \/ (cp_heap p !! id = Some c /\ forall addr, m !! addr <> Some id))).
  - intros c Hc. right. split; [done|]. intros addr. by rewrite lookup_empty.
  - intros addr id' m h Hnone IH c Hc. apply lookup_alter_Some in Hc as [(-> & c0 & Hc & ->)|[Hne Hc]].
    + left. apply conn_Close_shutdown.
    + destruct (IH c Hc) as [?|[Hheap Hm]]; [by left|right]. split; [done|]. intros addr'.
      rewrite lookup_insert_Some. intros [[_ ->]|[_ Hx]]; [done|by apply Hm in Hx].
Qed.

(** C39: Calls that race for a peer share one open connection and leak none.  However
    the calls interleave and whatever their callers close, every call that got a
    client got the open, shared client of its address, the same as every other call
    for that address; a call that lost the race has closed the connection it
    dialled; every open connection is in the pool or in the hands of a call that is
    about to hand it in; and closing the pool while no call is dialling closes every
    connection. *)
Theorem pool_shares_connections st :
  rtc pool_step pool_start st ->
  (forall t addr id, po_calls st !! t = Some (Got addr id) ->
     cp_conns (po_pool st) !! addr = Some id /\ shared (po_pool st) id)
  /\ (forall t t' addr id id', po_calls st !! t = Some (Got addr id) -> po_calls st !! t' = Some (Got addr id') -> id = id')
  /\ (forall id c, cp_heap (po_pool st) !! id = Some c -> GetState (cl_conn c) <> Shutdown ->
       (exists addr, cp_conns (po_pool st) !! addr = Some id) \/ exists t addr, po_calls st !! t = Some (Dialed addr id))
  /\ ((forall t addr id, po_calls st !! t <> Some (Dialed addr id)) ->
      map_Forall (fun _ c => GetState (cl_conn c) = Shutdown) (cp_heap (poolClose (po_pool st)))).
Proof.
  intros Hrun. assert (pool_inv st) as [].
  { assert (pool_inv pool_start) as H0 by (constructor; cbn; try done; apply map_Forall_empty). revert H0.
    induction Hrun as [|st1 st2 st3 H12 _ IH]; [done|]. intros H0. by eapply IH, pool_step_inv. }
  split_and!; [|intros t t' addr id id' Ht%pi_got0 Ht'%pi_got0; congruence|done|].
  - intros t addr id Ht. split; [eauto|]. by eapply pi_conns0, pi_got0.
  - intros Hno id c Hc. destruct (poolClose_heap _ _ _ Hc) as [?|[Hheap Hout]]; [done|].
    destruct (decide (GetState (cl_conn c) = Shutdown)) as [|Hs]; [done|].
    destruct (pi_leak0 id c Hheap Hs) as [[addr Ha]|(t & addr & Ht)]; [by apply Hout in Ha|by apply Hno in Ht].
Qed.
End Pool.

(** ** A connection that is only open or closed, for concrete evaluations *)

#[export] Instance toy_conn : GrpcConn := {|
  Conn := bool; GetState := fun open => if open then Ready else Shutdown; conn_Close := fun _ => false;
  conn_Close_shutdown := fun _ => eq_refl |}.

Definition open_client : GrpcClient := {| cl_conn := true; cl_pooled := false |}.

(** Two calls for one peer that both dial: the second loses. *)
Definition demo_race : PoolState :=
  let p1 := poolDialed 0%nat open_client NewConnPool in
  let p2 := poolDialed 1%nat open_client p1 in
  let p3 := (poolInsert "peer:1" 0%nat p2).2 in
  let p4 := (poolInsert "peer:1" 1%nat p3).2 in
  {| po_pool := p4; po_calls := <[1%nat := Got "peer:1" 0%nat]> (<[0%nat := Got "peer:1" 0%nat]> ∅) |}.

Lemma demo_race_runs : rtc pool_step pool_start demo_race.
Proof.
  eapply rtc_l; [apply (pool_missing _ 0%nat "peer:1"); reflexivity|].
  eapply rtc_l; [apply (pool_missing _ 1%nat "peer:1"); reflexivity|].
  eapply rtc_l; [apply (pool_dialed (H := toy_conn) _ 0%nat "peer:1" 0%nat [(true, true)] open_client); reflexivity|].
  eapply rtc_l; [apply (pool_dialed (H := toy_conn) _ 1%nat "peer:1" 1%nat [(true, true)] open_client); reflexivity|].
  eapply rtc_l; [eapply (pool_inserted _ 0%nat); reflexivity|].
  eapply rtc_l; [eapply (pool_inserted _ 1%nat); reflexivity|].
  match goal with |- rtc _ ?a ?b => replace a with b by (vm_compute; reflexivity) end. apply rtc_refl.
Qed.

Lemma pool_shares_connections_witness :
  cp_conns (po_pool demo_race) !! "peer:1"%string = Some 0%nat /\ shared (po_pool demo_race) 0%nat.
Proof.
  destruct (pool_shares_connections demo_race demo_race_runs) as (Hgot & _ & _ & _).
  apply (Hgot 1%nat "peer:1"%string 0%nat). reflexivity.
Defined.

(** A call that is dialling while the pool closes puts its connection into the closed
    pool, where nothing closes it any more. *)
Theorem close_misses_dialling_call :
  let dialling := poolDialed 0%nat open_client NewConnPool in
  let p := (poolInsert "peer:1" 0%nat (poolClose dialling)).2 in
  cp_conns p !! "peer:1"%string = Some 0%nat /\ shared p 0%nat.
Proof. split; [reflexivity|]. eexists. split; [reflexivity|]. vm_compute. done. Qed.
