(* ===== verification/Webhook.v ===== *)
(** * Webhooks (package [internal/webhook])

    The notification of the registered applications: its body, its HMAC-SHA256
    signature and the two attempts to deliver it.  Sending a request is an argument
    over a world [W]. *)

From S2P Require Import Prelude GoStrings GoCrypto Utf8 Json JsonFields Config Core.

(** ** HMAC-SHA256 ([crypto/hmac]) *)

Definition xor_pad (pad : Z) (key : list Z) : list Z :=
  (fun b => Z.lxor b pad) <$> (key ++ replicate (64 - length key) 0).

Definition hmac_sha256 (secret body : string) : string :=
  let key := if Nat.ltb 64 (String.length secret) then bytes_of (Sum256 secret) else bytes_of secret in
  Sum256 (append (of_bytes (xor_pad 0x5C key)) (Sum256 (append (of_bytes (xor_pad 0x36 key)) body))).

(** Test vectors of RFC 4231. *)
Example hmac_ex1 :
  hex_encode (hmac_sha256 (of_bytes (replicate 20 0x0B)) "Hi There")
  = "b0344c61d8db38535ca8afceaf0bf12b881dc200c9833da726e9376c2e32cff7"%string.
Proof. vm_compute. reflexivity. Qed.

Example hmac_ex2 :
  hex_encode (hmac_sha256 (of_bytes (replicate 131 0xAA)) "Test Using Larger Than Block-Size Key - Hash Key First")
  = "60e431591ee0b67f0d8a26aacbf5b77f8e0bc6213728c5140546040f0ee37f54"%string.
Proof. vm_compute. reflexivity. Qed.

(** ** The request *)

Definition sign (body secret : string) : string := hex_encode (hmac_sha256 secret body).

#[global] Arguments sign : simpl never.

Definition VerifySignature (body secret header : string) : bool := str_eqb (append "sha256=" (sign body secret)) header.

(** [json.Marshal(payload{...})] *)
Definition webhookPayload (cfg : Config) (appID : string) (env : Envelope) : json := struct
  [("node_id"%string, JStr (nc_NodeID (cfg_Node cfg)), false); ("app_id"%string, JStr appID, false);
   ("idempotency_key"%string, JStr (env_IdempotencyKey env), false);
   ("sender_region"%string, JStr (env_SenderRegion env), false);
   ("recipient_region"%string, JStr (env_RecipientRegion env), false);
   ("timestamp"%string, JInt (env_Timestamp env), false)].

(** A POST request: where, what, with which signature header, within which time. *)
Record WebhookRequest := {
  wq_URL : string; wq_Body : string; wq_Signature : option string; wq_Timeout : Z }.

Definition webhookTimeout (app : AppConfig) : Z :=
  let timeout := mul_duration (ac_WebhookTimeout app) Second in
  if timeout <=? 0 then 5 * Second else timeout.

Definition webhookRequest (cfg : Config) (appID : string) (app : AppConfig) (env : Envelope) : WebhookRequest :=
  let body := render (webhookPayload cfg appID env) in
  {| wq_URL := ac_WebhookURL app; wq_Body := body;
     wq_Signature := if str_eqb (ac_WebhookSecret app) "" then None
                     else Some (append "sha256=" (sign body (ac_WebhookSecret app)));
     wq_Timeout := webhookTimeout app |}.

Inductive WebhookError := BuildRequest | PostFailed | RetryFailed.

Section Notify.
Context {W : Type}.
(** Whether a request can be built for a URL, and sending one: its status, or
    [None] when the transport fails or the time is over. *)
Context (buildable : string -> bool) (post : WebhookRequest -> W -> option Z * W).

Definition notify (cfg : Config) (appID : string) (app : AppConfig) (env : Envelope) (w : W)
  : option WebhookError * W :=
  let req := webhookRequest cfg appID app env in
  if negb (buildable (wq_URL req)) then (Some BuildRequest, w) else
  match post req w with
  | (None, w1) => (Some PostFailed, w1)
  | (Some status, w1) =>
      if 500 <=? status then
        match post req w1 with
        | (None, w2) => (Some RetryFailed, w2)
        | (Some _, w2) => (None, w2)
        end
      else (None, w1)
  end.

(** The goroutines [NotifyAll] starts, in the order Go visits the applications. *)
Definition notified (visit : list (string * AppConfig)) : list (string * AppConfig) :=
  base.filter (fun a => ac_WebhookURL a.2 <> ""%string) visit.

(** The notifications of one envelope run one after the other here; they share
    nothing but the world. *)
Fixpoint NotifyAll (cfg : Config) (visit : list (string * AppConfig)) (env : Envelope) (w : W) : W :=
  match visit with
  | [] => w
  | (appID, app) :: rest =>
      if str_eqb (ac_WebhookURL app) "" then NotifyAll cfg rest env w
      else NotifyAll cfg rest env (notify cfg appID app env w).2
  end.
End Notify.

(** A world that records the requests, and answers from a script. *)
Definition recorder (answer : nat -> option Z) (r : WebhookRequest) (w : list WebhookRequest)
  : option Z * list WebhookRequest := (answer (length w), w ++ [r]).

(** Webhooks are delivered with one retry, and an application can check
    them.  A notification is posted once, and a second time, byte for byte the same,
    exactly when the first answer is a server error; it fails exactly when a post
    fails.  The header of every signed request passes [VerifySignature] for the
    body it travels with, and its body is the JSON of the envelope's identifiers. *)
Theorem notify_posts answer cfg appID app env w :
  let req := webhookRequest cfg appID app env in
  let r := notify (fun _ => true) (recorder answer) cfg appID app env w in
  r.2 = w ++ (match answer (length w) with
              | Some status => if 500 <=? status then [req; req] else [req]
              | None => [req]
              end)
  /\ (r.1 = None <-> exists status, answer (length w) = Some status
        /\ (500 <= status -> is_Some (answer (S (length w)))))
  /\ (forall h, wq_Signature req = Some h -> VerifySignature (wq_Body req) (ac_WebhookSecret app) h = true)
  /\ (json_wf (webhookPayload cfg appID env) -> unmarshal (wq_Body req) = Some (webhookPayload cfg appID env)).
Proof.
  cbn zeta. split_and!.
  - unfold notify, recorder. cbn zeta. generalize (webhookRequest cfg appID app env). intros req. cbn [negb].
    destruct (answer (length w)) as [status|]; [|done].
    destruct (500 <=? status); [|done]. rewrite length_app, <- app_assoc. by destruct (answer _).
  - unfold notify, recorder. cbn zeta. generalize (webhookRequest cfg appID app env). intros req. cbn [negb].
    destruct (answer (length w)) as [status|]; [|split; [done|by intros (? & ? & _)]].
    destruct (500 <=? status) eqn:E; go_bool.
    + rewrite length_app. cbn [length]. replace (length w + 1)%nat with (S (length w)) by lia.
      destruct (answer (S (length w))); split; try done.
      * intros _. exists status. split; [done|]. intros _. by eexists.
      * intros (st & [= ->] & Hs). by destruct (Hs E).
    + split; [|done]. intros _. exists status. split; [done|]. lia.
  - intros h. unfold webhookRequest. cbn [wq_Signature wq_Body]. destruct (str_eqb _ ""); [done|]. intros [= <-]. unfold VerifySignature. apply str_eqb_refl.
  - apply unmarshal_render.
Qed.

(** Every application with a webhook is notified once, in the order of the
    visit, and the others never. *)
Lemma NotifyAll_all cfg visit env w :
  NotifyAll (fun _ => true) (recorder (fun _ => Some 200)) cfg visit env w
  = w ++ ((fun a => webhookRequest cfg a.1 a.2 env) <$> notified visit).
Proof.
  unfold notified. revert w. induction visit as [|[appID app] visit IH]; intros w; cbn [NotifyAll].
  { by rewrite app_nil_r. }
  destruct (str_eqb (ac_WebhookURL app) "") eqn:E; go_bool.
  - rewrite filter_cons_False by (cbn; naive_solver). apply IH.
  - rewrite filter_cons_True by done. rewrite IH. cbn. by rewrite <- app_assoc.
Qed.
