(* ===== verification/Adapter.v ===== *)
(** * The gRPC adapter (package [internal/transport/grpc], [messages.go] and [adapter.go])

    The translation between wire messages and the domain, with the optional
    components of [gatewayAdapter] as options of its state.  [SendEnvelope],
    [GetNodeInfo], [ShareRootHash], [Connect] and [ExchangePeers] are here;
    [BroadcastDiscovery], which calls other nodes, is in [AdapterDiscovery]. *)

From S2P Require Import Prelude GoStrings GoCrypto Core Config Crl Store AuditLog Policy Dedup Transit Delivery Gateway Session Token Identity Connect PeerDiscovery RateLimit.

(** ** Messages *)

Record WireEnvelope := {
  we_IdempotencyKey : string;
  we_SenderNodeID : string;
  we_SenderIdentity : bytes;
  we_RecipientIdentity : bytes;
  we_SenderRegion : string;
  we_RecipientRegion : string;
  we_TrustTier : Z;
  we_SequenceNumber : Z;
  we_Payload : bytes;
  we_PaddedTo : Z;
  we_Timestamp : Z;
  we_Signature : bytes;
  we_IsDummy : bool;
  we_SchemaType : string;
  we_SchemaVersion : string;
  we_RoutingHint : string }.

Record SendEnvelopeResponse := {
  wr_Decision : string; wr_Reason : string; wr_Profile : string; wr_NodeID : string;
  wr_AuditRootHash : string; wr_PeerAuditRootHash : string }.

Record RootHashMessage := { rh_NodeID : string; rh_RootHash : string; rh_Timestamp : Z; rh_Signature : bytes }.

Record ConnectRequest := {
  cq_OpaqueToken : string; cq_OriginNodeID : string; cq_OriginAppID : string; cq_RequestID : string }.

Record ConnectAck := { ca_Status : string; ca_SessionID : string; ca_ExpiresAt : Z; ca_Reason : string }.

Record PeerEntry := {
  pe_NodeID : string; pe_Addr : string; pe_NodeScope : string; pe_Region : string; pe_LastSeen : Z }.

Record PeerListRequest := { pl_SenderNodeID : string; pl_KnownPeers : list PeerEntry }.

(** gRPC status codes. *)
Inductive StatusError := InvalidArgument (e : SendError) | Internal (e : SendError).

(** ** The state of the adapter *)

(** [gatewayAdapter]: [None] for the nil pointers; the gateway and the policy
    engine are part of the gateway's state.  Of the broadcaster, its index of seen
    requests is state. *)
Record AdapterState (B F W : Type) := {
  as_gw : GwState B F W;
  as_seqRecv : Tracker;
  as_peerCache : option PeerCache;
  as_tokenStore : option TokenStore;
  as_peerRegistry : option PeerRegistry;
  as_seen : option Index;
  as_limiter : option Limiter }.
Arguments Build_AdapterState {B F W}.
Arguments as_gw {B F W}.
Arguments as_seqRecv {B F W}.
Arguments as_peerCache {B F W}.
Arguments as_tokenStore {B F W}.
Arguments as_peerRegistry {B F W}.
Arguments as_seen {B F W}.
Arguments as_limiter {B F W}.

(** The peers of the broadcaster, whether there is a policy engine, and how the
    metrics registry, which the gateway's callbacks share, counts a rate-limited
    request. *)
Record GatewayAdapter (W : Type) := {
  ga_gw : Gateway W;
  ga_verifyKey : option string;
  ga_connectRes : option Resolver;
  ga_nodeCfg : Config;
  ga_peers : gmap string string;
  ga_hasPolicy : bool;
  ga_metrics : option (W -> W) }.
Arguments ga_gw {W}.
Arguments ga_verifyKey {W}.
Arguments ga_connectRes {W}.
Arguments ga_nodeCfg {W}.
Arguments ga_peers {W}.
Arguments ga_hasPolicy {W}.
Arguments ga_metrics {W}.

(** The envelope [identity.Verify] is called on. *)
Definition verifiedEnvelope (e : WireEnvelope) : Envelope := {|
  env_IdempotencyKey := we_IdempotencyKey e; env_SenderNodeID := ""; env_SenderIdentity := None;
  env_RecipientIdentity := None; env_SenderRegion := we_SenderRegion e;
  env_RecipientRegion := we_RecipientRegion e; env_TrustTier := we_TrustTier e;
  env_SequenceNumber := we_SequenceNumber e; env_Payload := we_Payload e; env_PaddedTo := we_PaddedTo e;
  env_Timestamp := we_Timestamp e; env_Signature := None; env_IsDummy := false;
  env_SchemaType := we_SchemaType e; env_SchemaVersion := we_SchemaVersion e;
  env_RoutingHint := we_RoutingHint e |}.

(** The envelope handed to the gateway. *)
Definition coreEnvelope (e : WireEnvelope) : Envelope := {|
  env_IdempotencyKey := we_IdempotencyKey e; env_SenderNodeID := we_SenderNodeID e;
  env_SenderIdentity := we_SenderIdentity e; env_RecipientIdentity := we_RecipientIdentity e;
  env_SenderRegion := we_SenderRegion e; env_RecipientRegion := we_RecipientRegion e;
  env_TrustTier := we_TrustTier e; env_SequenceNumber := we_SequenceNumber e;
  env_Payload := we_Payload e; env_PaddedTo := we_PaddedTo e; env_Timestamp := we_Timestamp e;
  env_Signature := we_Signature e; env_IsDummy := we_IsDummy e; env_SchemaType := we_SchemaType e;
  env_SchemaVersion := we_SchemaVersion e; env_RoutingHint := we_RoutingHint e |}.

Definition invalidSignature : SendEnvelopeResponse :=
  {| wr_Decision := "DENY"; wr_Reason := "INVALID_SIGNATURE"; wr_Profile := ""; wr_NodeID := "";
     wr_AuditRootHash := ""; wr_PeerAuditRootHash := "" |}.

Definition wireResponse (r : SendResponse) : SendEnvelopeResponse :=
  {| wr_Decision := rs_Decision r; wr_Reason := rs_Reason r; wr_Profile := rs_Profile r; wr_NodeID := rs_NodeID r;
     wr_AuditRootHash := rs_AuditRootHash r; wr_PeerAuditRootHash := rs_PeerAuditRootHash r |}.

Section Adapter.
Context `{UnicodeTables} `{Ed25519} {B : Type} `{NodeStore B} {F : Type} `{CoreForwarder F} {W : Type}.
Implicit Types (a : GatewayAdapter W) (st : AdapterState B F W).

Definition with_gw (g : GwState B F W) st : AdapterState B F W :=
  {| as_gw := g; as_seqRecv := as_seqRecv st; as_peerCache := as_peerCache st;
     as_tokenStore := as_tokenStore st; as_peerRegistry := as_peerRegistry st;
     as_seen := as_seen st; as_limiter := as_limiter st |}.

Definition with_tokens (t : TokenStore) st : AdapterState B F W :=
  {| as_gw := as_gw st; as_seqRecv := as_seqRecv st; as_peerCache := as_peerCache st;
     as_tokenStore := Some t; as_peerRegistry := as_peerRegistry st; as_seen := as_seen st;
     as_limiter := as_limiter st |}.

(** The sequence check only logs a warning. *)
Definition checkSequence (e : WireEnvelope) (t : Tracker) : Tracker :=
  if 0 <? we_SequenceNumber e then (ValidateSeq (we_SenderRegion e) (we_SequenceNumber e) t).2 else t.

Definition AdapterSend a (c : CallEnv) (e : WireEnvelope) st
  : outcome StatusError SendEnvelopeResponse * AdapterState B F W :=
  let st := {| as_gw := as_gw st; as_seqRecv := checkSequence e (as_seqRecv st); as_peerCache := as_peerCache st;
               as_tokenStore := as_tokenStore st; as_peerRegistry := as_peerRegistry st;
     as_seen := as_seen st; as_limiter := as_limiter st |} in
  if match ga_verifyKey a with
     | Some key => match VerifySig key (verifiedEnvelope e) (we_Signature e) with Some _ => true | None => false end
     | None => false
     end
  then (Ok invalidSignature, st) else
  let (res, gst) := SendEnvelope (ga_gw a) c {| sr_Envelope := coreEnvelope e |} (as_gw st) in
  (match res with
   | Err ErrEmptyIdempotencyKey => Err (InvalidArgument ErrEmptyIdempotencyKey)
   | Err err => Err (Internal err)
   | Ok r => Ok (wireResponse r)
   end, with_gw gst st).

Definition AdapterNodeInfo a : NodeInfo := GetNodeInfo (ga_gw a).

Definition ShareRootHash (m : RootHashMessage) st : bool * AdapterState B F W :=
  (true,
   {| as_gw := as_gw st; as_seqRecv := as_seqRecv st;
      as_peerCache := StoreRoot (rh_NodeID m) (rh_RootHash m) (rh_Timestamp m) <$> as_peerCache st;
      as_tokenStore := as_tokenStore st; as_peerRegistry := as_peerRegistry st;
     as_seen := as_seen st; as_limiter := as_limiter st |}).

Definition deniedAck (reason : string) : ConnectAck :=
  {| ca_Status := StatusDenied; ca_SessionID := ""; ca_ExpiresAt := 0; ca_Reason := reason |}.

(** [Connect] takes the lock of the token store three times: to look the token up, to
    evict it, and to ask for another one.  What a lookup at [now] finds is the
    application of the token, or the answer of the call. *)
Definition connectLookup (now : Z) (req : ConnectRequest) (ts : TokenStore) : outcome ConnectAck string * TokenStore :=
  match Resolve now (cq_OpaqueToken req) ts with
  | (None, ts1) => (Err (deniedAck "invalid or expired token"), ts1)
  | (Some (appID, originNodeID), ts1) =>
      if negb (str_eqb originNodeID (cq_OriginNodeID req))
      then (Err (deniedAck "token not issued for this node"), ts1)
      else (Ok appID, ts1)
  end.

(** The answer, after the eviction: [nowM] is the clock at the mutual-discovery check,
    [nowA] at the acknowledgement; [uuid] the new session id. *)
Definition connectAnswer a (nowM nowA : Z) (uuid : string) (req : ConnectRequest) (appID : string) (ts : TokenStore)
  : ConnectAck :=
  let status :=
    match ga_connectRes a with
    | Some res => ResolveConnect res {| cr_OriginNodeID := cq_OriginNodeID req;
        cr_OriginAppID := cq_OriginAppID req; cr_RecipientAppID := appID;
        cr_MutualDiscovery := HasActiveToken nowM (cq_OriginNodeID req) ts |}
    | None => StatusPending
    end in
  if str_eqb status StatusAccepted
  then {| ca_Status := status; ca_SessionID := uuid; ca_ExpiresAt := UnixMilli (nowA + 24 * Hour); ca_Reason := "" |}
  else {| ca_Status := status; ca_SessionID := ""; ca_ExpiresAt := 0; ca_Reason := "" |}.

(** A call with nothing in between; [Handshake] interleaves calls. *)
Definition Connect a (now nowM nowA : Z) (uuid : string) (req : ConnectRequest) st
  : ConnectAck * AdapterState B F W :=
  match as_tokenStore st with
  | None => (deniedAck "discovery not enabled", st)
  | Some ts =>
      let (r, ts1) := connectLookup now req ts in
      match r with
      | Err ack => (ack, with_tokens ts1 st)
      | Ok appID =>
          let ts2 := Evict (cq_OpaqueToken req) ts1 in
          (connectAnswer a nowM nowA uuid req appID ts2, with_tokens ts2 st)
      end
  end.

Definition peerInfo (p : PeerEntry) : PeerInfo :=
  {| pi_NodeID := pe_NodeID p; pi_Addr := pe_Addr p; pi_NodeScope := pe_NodeScope p; pi_Region := pe_Region p;
     pi_LastSeen := zeroTime |}.

(** [clk i] is the clock reading of the [i]-th announcement. *)
Fixpoint announceAll (clk : nat -> Z) (ps : list PeerEntry) (r : PeerRegistry) : PeerRegistry :=
  match ps with
  | [] => r
  | p :: ps' => announceAll (fun i => clk (S i)) ps' (Announce (clk O) (peerInfo p) r)
  end.

Definition mergePeers (clk : nat -> Z) (nodeID : string) (req : PeerListRequest) (r : PeerRegistry) : PeerRegistry :=
  let r := announceAll clk (pl_KnownPeers req) r in
  if negb (str_eqb (pl_SenderNodeID req) "") && negb (str_eqb (pl_SenderNodeID req) nodeID)
  then announceAll (fun i => clk (length (pl_KnownPeers req) + i)%nat) (base.filter (fun p => pe_NodeID p = pl_SenderNodeID req) (pl_KnownPeers req)) r
  else r.

Definition peerEntry (p : PeerInfo) : PeerEntry :=
  {| pe_NodeID := pi_NodeID p; pe_Addr := pi_Addr p; pe_NodeScope := pi_NodeScope p; pe_Region := pi_Region p;
     pe_LastSeen := Unix (pi_LastSeen p) |}.

(** [visit] gives the order in which Go visits the registry. *)
Definition ExchangePeers a (clk : nat -> Z) (visit : gmap string PeerInfo -> list (string * PeerInfo))
    (req : PeerListRequest) st : list PeerEntry * AdapterState B F W :=
  match as_peerRegistry st with
  | None => ([], st)
  | Some r =>
      let r' := mergePeers clk (nc_NodeID (cfg_Node (ga_nodeCfg a))) req r in
      (peerEntry <$> Known (visit (pr_peers r')),
       {| as_gw := as_gw st; as_seqRecv := as_seqRecv st; as_peerCache := as_peerCache st;
          as_tokenStore := as_tokenStore st; as_peerRegistry := Some r'; as_seen := as_seen st;
          as_limiter := as_limiter st |})
  end.
End Adapter.

(** ** Lemmas *)

(** The same wire envelope with the dummy flag raised. *)
Definition raiseDummy (e : WireEnvelope) : WireEnvelope := {|
  we_IdempotencyKey := we_IdempotencyKey e; we_SenderNodeID := we_SenderNodeID e;
  we_SenderIdentity := we_SenderIdentity e; we_RecipientIdentity := we_RecipientIdentity e;
  we_SenderRegion := we_SenderRegion e; we_RecipientRegion := we_RecipientRegion e;
  we_TrustTier := we_TrustTier e; we_SequenceNumber := we_SequenceNumber e; we_Payload := we_Payload e;
  we_PaddedTo := we_PaddedTo e; we_Timestamp := we_Timestamp e; we_Signature := we_Signature e;
  we_IsDummy := true; we_SchemaType := we_SchemaType e; we_SchemaVersion := we_SchemaVersion e;
  we_RoutingHint := we_RoutingHint e |}.

(** The wire form of a signed envelope. *)
Definition toWire (sig : bytes) (e : Envelope) : WireEnvelope := {|
  we_IdempotencyKey := env_IdempotencyKey e; we_SenderNodeID := env_SenderNodeID e;
  we_SenderIdentity := env_SenderIdentity e; we_RecipientIdentity := env_RecipientIdentity e;
  we_SenderRegion := env_SenderRegion e; we_RecipientRegion := env_RecipientRegion e;
  we_TrustTier := env_TrustTier e; we_SequenceNumber := env_SequenceNumber e; we_Payload := env_Payload e;
  we_PaddedTo := env_PaddedTo e; we_Timestamp := env_Timestamp e; we_Signature := sig;
  we_IsDummy := env_IsDummy e; we_SchemaType := env_SchemaType e; we_SchemaVersion := env_SchemaVersion e;
  we_RoutingHint := env_RoutingHint e |}.

Section AdapterProperties.
Context `{UnicodeTables} `{Ed25519} {B : Type} `{NodeStore B} {F : Type} `{CoreForwarder F} {W : Type}.
Implicit Types (a : GatewayAdapter W) (st : AdapterState B F W).

Lemma AdapterSend_runs a c e st :
  (forall key, ga_verifyKey a = Some key -> VerifySig key (verifiedEnvelope e) (we_Signature e) = None) ->
  as_gw (AdapterSend a c e st).2 = (SendEnvelope (ga_gw a) c {| sr_Envelope := coreEnvelope e |} (as_gw st)).2
  /\ (AdapterSend a c e st).1
     = match (SendEnvelope (ga_gw a) c {| sr_Envelope := coreEnvelope e |} (as_gw st)).1 with
       | Err ErrEmptyIdempotencyKey => Err (InvalidArgument ErrEmptyIdempotencyKey)
       | Err err => Err (Internal err)
       | Ok r => Ok (wireResponse r)
       end.
Proof.
  intros Hv. unfold AdapterSend. cbn zeta. destruct (ga_verifyKey a) as [key|].
  - rewrite (Hv key) by done. cbn [as_gw]. by destruct (SendEnvelope _ _ _ _).
  - cbn [as_gw]. by destruct (SendEnvelope _ _ _ _).
Qed.

Lemma connectAnswer_status a nowM nowA uuid req appID ts :
  ca_Status (connectAnswer a nowM nowA uuid req appID ts)
  = match ga_connectRes a with
    | None => StatusPending
    | Some res => ResolveConnect res {| cr_OriginNodeID := cq_OriginNodeID req; cr_OriginAppID := cq_OriginAppID req;
        cr_RecipientAppID := appID; cr_MutualDiscovery := HasActiveToken nowM (cq_OriginNodeID req) ts |}
    end.
Proof. unfold connectAnswer. cbv zeta. by destruct (str_eqb _ StatusAccepted). Qed.

(** A connect request that is not denied. *)
Lemma Connect_inv a now nowM nowA uuid req st :
  ca_Status (Connect a now nowM nowA uuid req st).1 <> StatusDenied ->
  exists ts appID ts1, as_tokenStore st = Some ts
    /\ Resolve now (cq_OpaqueToken req) ts = (Some (appID, cq_OriginNodeID req), ts1)
    /\ (Connect a now nowM nowA uuid req st).2 = with_tokens (Evict (cq_OpaqueToken req) ts1) st
    /\ match ga_connectRes a with
       | None => ca_Status (Connect a now nowM nowA uuid req st).1 = StatusPending
       | Some res => exists creq, cr_OriginNodeID creq = cq_OriginNodeID req
           /\ (Connect a now nowM nowA uuid req st).1
              = if str_eqb (ResolveConnect res creq) StatusAccepted
                then {| ca_Status := ResolveConnect res creq; ca_SessionID := uuid;
                        ca_ExpiresAt := UnixMilli (nowA + 24 * Hour); ca_Reason := "" |}
                else {| ca_Status := ResolveConnect res creq; ca_SessionID := ""; ca_ExpiresAt := 0; ca_Reason := "" |}
       end.
Proof.
  unfold Connect, connectLookup. destruct (as_tokenStore st) as [ts|]; [|done].
  destruct (Resolve now (cq_OpaqueToken req) ts) as [[[appID origin]|] ts1] eqn:Er; [|done].
  destruct (str_eqb origin (cq_OriginNodeID req)) eqn:Eo; cbn [negb]; [|done]. go_bool. subst origin.
  intros _. exists ts, appID, ts1. split; [done|]. split; [done|]. split; [done|].
  unfold connectAnswer. destruct (ga_connectRes a) as [res|]; [|done]. eexists. split; [|reflexivity]. done.
Qed.

(** ** Properties *)

(** With a verification key the gateway only sees authenticated envelopes.
    Whatever the sender signed with the private key reaches the gateway and gets
    its answer; an envelope whose signature is missing or does not verify over
    the canonical payload is answered DENY with INVALID_SIGNATURE, and no part of
    the gateway's state changes, its audit log included. *)
Theorem AdapterSend_authenticated a c st priv :
  ga_verifyKey a = Some (ed_Public priv) ->
  (forall env, let e := toWire (Sign priv env) env in
     as_gw (AdapterSend a c e st).2 = (SendEnvelope (ga_gw a) c {| sr_Envelope := coreEnvelope e |} (as_gw st)).2)
  /\ (forall e, VerifySig (ed_Public priv) (verifiedEnvelope e) (we_Signature e) <> None ->
     (AdapterSend a c e st).1 = Ok invalidSignature /\ as_gw (AdapterSend a c e st).2 = as_gw st).
Proof.
  intros Hk. split.
  - intros env. apply AdapterSend_runs. intros key Hk'. rewrite Hk in Hk'. injection Hk' as <-.
    cbn [we_Signature toWire]. pose proof (VerifySig_Sign priv env) as Hs. unfold VerifySig in *.
    by rewrite (canonicalPayload_fields (verifiedEnvelope (toWire (Sign priv env) env)) env).
  - intros e Hv. unfold AdapterSend. cbn zeta. rewrite Hk. by destruct (VerifySig _ _ _).
Qed.

(** The signature does not cover the dummy flag.  Raising [IsDummy] on a
    signed envelope in transit keeps its signature valid, and the receiving node
    answers ALLOW without consulting its policy, whatever that policy is, without
    registering the key and without delivering or forwarding the envelope. *)
Theorem signed_dummy_bypass a c e st priv :
  ga_verifyKey a = Some (ed_Public priv) ->
  VerifySig (ed_Public priv) (verifiedEnvelope e) (we_Signature e) = None -> we_IdempotencyKey e <> ""%string ->
  (exists r, (AdapterSend a c (raiseDummy e) st).1 = Ok r /\ wr_Decision r = DecisionAllow)
  /\ gs_dedup (as_gw (AdapterSend a c (raiseDummy e) st).2) = gs_dedup (as_gw st)
  /\ gs_fwd (as_gw (AdapterSend a c (raiseDummy e) st).2) = gs_fwd (as_gw st)
  /\ gs_world (as_gw (AdapterSend a c (raiseDummy e) st).2) = gs_world (as_gw st).
Proof.
  intros Hk Hv Hid. destruct (AdapterSend_runs a c (raiseDummy e) st) as [-> ->].
  { intros key Hk'. rewrite Hk in Hk'. injection Hk' as <-. exact Hv. }
  destruct (SendEnvelope_dummy (ga_gw a) c {| sr_Envelope := coreEnvelope (raiseDummy e) |} (as_gw st) Hid eq_refl)
    as ((r & -> & Hr & _) & ->). split; [|done]. exists (wireResponse r). by split.
Qed.

(** A handshake with nothing in between uses its token up.  Unless the request is denied,
    the token resolved to the requesting node, and an immediate second request with it is
    denied.  The request is accepted only if the connect policy accepts it without an
    operator.  Concurrent handshakes are in [Handshake]. *)
Theorem Connect_sequential a now nowM nowA uuid req st :
  ca_Status (Connect a now nowM nowA uuid req st).1 <> StatusDenied ->
  (exists ts appID, as_tokenStore st = Some ts
     /\ (Resolve now (cq_OpaqueToken req) ts).1 = Some (appID, cq_OriginNodeID req))
  /\ (forall now' nowM' nowA' uuid' req', cq_OpaqueToken req' = cq_OpaqueToken req ->
       ca_Status (Connect a now' nowM' nowA' uuid' req' (Connect a now nowM nowA uuid req st).2).1 = StatusDenied)
  /\ (ca_Status (Connect a now nowM nowA uuid req st).1 = StatusAccepted ->
       ca_SessionID (Connect a now nowM nowA uuid req st).1 = uuid
       /\ exists res creq, ga_connectRes a = Some res /\ cr_OriginNodeID creq = cq_OriginNodeID req
          /\ autoAccepts (rv_cfg res) creq).
Proof.
  intros (ts & appID & ts1 & Ets & Er & Hst & Hack)%Connect_inv. split_and!.
  - exists ts, appID. by rewrite Er.
  - intros now' nowM' nowA' uuid' req' Htok. rewrite Hst. unfold Connect, connectLookup. cbn [with_tokens as_tokenStore].
    rewrite Htok. unfold Resolve, Evict, dropToken. cbn [ts_entries]. by rewrite lookup_delete_eq.
  - intros Hacc. destruct (ga_connectRes a) as [res|]; [|by rewrite Hack in Hacc].
    destruct Hack as (creq & Horigin & Hack). rewrite Hack in Hacc |- *.
    destruct (ResolveConnect_spec res creq) as [Ha _].
    destruct (str_eqb (ResolveConnect res creq) StatusAccepted) eqn:Es; go_bool; [|done].
    split; [done|]. exists res, creq. split; [done|]. split; [done|]. by apply Ha.
Qed.
End AdapterProperties.

(** ** A concrete node *)

(** A toy signature scheme with the law of the interface. *)
#[export] Instance toy_ed25519 : Ed25519.
Proof.
  refine {| ed_PrivateKey := string; ed_Public := id; ed_Sign := fun k m => hex_encode (Sum256 (append k m));
            ed_Verify := fun k m s => str_eqb s (hex_encode (Sum256 (append k m))) |}.
  - intros k m. by rewrite length_hex_encode, length_Sum256.
  - intros k m. apply str_eqb_refl.
Defined.

Definition demo_resolver (mode : string) : Resolver :=
  let c := demo_cfg in let p := cfg_Policy c in
  NewResolver {| cfg_Node := cfg_Node c; cfg_Profile := cfg_Profile c;
     cfg_Policy := {| pc_Outbound := pc_Outbound p; pc_Inbound := pc_Inbound p; pc_Audit := pc_Audit p;
       pc_AllowVia := pc_AllowVia p; pc_Discovery := pc_Discovery p;
       pc_Connect := {| cp_AutoAccept := mode; cp_TrustedNodes := [] |}; pc_Rules := pc_Rules p |};
     cfg_Network := cfg_Network c; cfg_TLS := cfg_TLS c; cfg_API := cfg_API c; cfg_Storage := cfg_Storage c;
     cfg_SchemaRegistry := cfg_SchemaRegistry c; cfg_Apps := cfg_Apps c |}.

Definition demo_adapter (mode : string) : GatewayAdapter (list string) :=
  {| ga_gw := demo_gateway demo_cfg; ga_verifyKey := Some "secret"%string;
     ga_connectRes := Some (demo_resolver mode); ga_nodeCfg := demo_cfg; ga_peers := ∅;
     ga_hasPolicy := true; ga_metrics := None |}.

Definition demo_tokens : TokenStore := (Issue (Some "seed"%string) 0 "chat" "ru-node-01" (5 * Minute) NewTokenStore).2.

Definition demo_adapter_state : AdapterState unit (FwdState Z) (list string) :=
  {| as_gw := demo_gwstate demo_cfg; as_seqRecv := NewTracker; as_peerCache := Some NewPeerCache;
     as_tokenStore := Some demo_tokens; as_peerRegistry := Some NewPeerRegistry;
     as_seen := Some (NewIndex (30 * Second)); as_limiter := Some (NewLimiter (f64_int 10) 20) |}.

Definition demo_connect : ConnectRequest :=
  {| cq_OpaqueToken := hex_encode "seed"; cq_OriginNodeID := "ru-node-01"; cq_OriginAppID := "chat";
     cq_RequestID := "r1" |}.

Definition demo_wire : WireEnvelope :=
  let env := mkEnvelope "k" "RS" "US" "messaging" in toWire (Sign "secret"%string env) env.

Lemma AdapterSend_authenticated_witness :
  (AdapterSend (demo_adapter "AUTO_ALL") (demo_call 0) (toWire None (mkEnvelope "k" "RS" "RU" "messaging"))
     demo_adapter_state).1 = Ok invalidSignature.
Proof.
  refine (proj1 (proj2 (AdapterSend_authenticated (demo_adapter "AUTO_ALL") (demo_call 0) demo_adapter_state
    "secret"%string _) (toWire None (mkEnvelope "k" "RS" "RU" "messaging")) _)).
  - reflexivity.
  - vm_compute. discriminate.
Defined.

Lemma signed_dummy_bypass_witness :
  exists r, (AdapterSend (demo_adapter "AUTO_ALL") (demo_call 0) (raiseDummy demo_wire) demo_adapter_state).1 = Ok r
    /\ wr_Decision r = DecisionAllow.
Proof.
  refine (proj1 (signed_dummy_bypass (demo_adapter "AUTO_ALL") (demo_call 0) demo_wire demo_adapter_state
    "secret"%string _ _ _)).
  - reflexivity.
  - vm_compute. reflexivity.
  - vm_compute. discriminate.
Defined.

Lemma Connect_sequential_witness :
  ca_Status (Connect (demo_adapter "AUTO_ALL") 2 2 2 "s2" demo_connect
               (Connect (demo_adapter "AUTO_ALL") 1 1 1 "s1" demo_connect demo_adapter_state).2).1 = StatusDenied.
Proof.
  refine (proj1 (proj2 (Connect_sequential (demo_adapter "AUTO_ALL") 1 1 1 "s1" demo_connect demo_adapter_state _))
    2 2 2 "s2"%string demo_connect eq_refl).
  vm_compute. discriminate.
Defined.

(** AUTO_MUTUAL does not recognise the token it was given.  The handshake
    evicts the presented token before it asks whether the requester holds an active
    one, so a node that discovered this one, and connects with the only token it
    received, stays PENDING; only a second, unused token gets it accepted. *)
Theorem auto_mutual_needs_second_token :
  HasActiveToken 1 "ru-node-01" demo_tokens = true
  /\ ca_Status (Connect (demo_adapter "AUTO_MUTUAL") 1 1 1 "s1" demo_connect demo_adapter_state).1 = StatusPending
  /\ ca_Status (Connect (demo_adapter "AUTO_MUTUAL") 1 1 1 "s1" demo_connect
       (with_tokens (Issue (Some "other"%string) 0 "chat" "ru-node-01" (5 * Minute) demo_tokens).2
          demo_adapter_state)).1 = StatusAccepted.
Proof. split_and!; vm_compute; reflexivity. Qed.
