(* ===== verification/Handshake.v ===== *)
(** * Concurrent handshakes (package [internal/transport/grpc], [Connect])

    gRPC serves every call in a goroutine of its own, and [Connect] takes the lock of
    the token store three times.  Here calls of [Connect] interleave between these
    critical sections, with each other and with whatever else happens to the store. *)

From S2P Require Import Prelude GoStrings GoCrypto Core Config Crl Store AuditLog Policy Dedup Transit Delivery Gateway Session Token Identity Connect PeerDiscovery RateLimit Adapter.

(** A call: asked, its token found, its token evicted, answered. *)
Inductive ConnectCall :=
| Asked (req : ConnectRequest)
| Found (req : ConnectRequest) (appID : string)
| Evicted (req : ConnectRequest) (appID : string)
| Replied (req : ConnectRequest) (ack : ConnectAck).

(** The token store, the calls and the clock. *)
Record Handshakes := { hk_tokens : TokenStore; hk_calls : gmap nat ConnectCall; hk_clock : Z }.

Definition hk_set (i : nat) (c : ConnectCall) (ts : TokenStore) (st : Handshakes) : Handshakes :=
  {| hk_tokens := ts; hk_calls := <[i := c]> (hk_calls st); hk_clock := hk_clock st |}.

(** The call after its lookup. *)
Definition looked (req : ConnectRequest) (r : outcome ConnectAck string) : ConnectCall :=
  match r with Ok appID => Found req appID | Err ack => Replied req ack end.

Section Steps.
Context `{UnicodeTables} {W : Type} (a : GatewayAdapter W).

(** [others] are the operations of the rest of the node. *)
Inductive hk_step (others : token_op -> Prop) (st : Handshakes) : Handshakes -> Prop :=
| hk_asked i req :
    hk_calls st !! i = None -> hk_step others st (hk_set i (Asked req) (hk_tokens st) st)
| hk_lookup i req r ts :
    hk_calls st !! i = Some (Asked req) -> connectLookup (hk_clock st) req (hk_tokens st) = (r, ts) ->
    hk_step others st (hk_set i (looked req r) ts st)
| hk_evict i req appID :
    hk_calls st !! i = Some (Found req appID) ->
    hk_step others st (hk_set i (Evicted req appID) (Evict (cq_OpaqueToken req) (hk_tokens st)) st)
| hk_answer i req appID nowA uuid :
    hk_calls st !! i = Some (Evicted req appID) ->
    hk_step others st
      (hk_set i (Replied req (connectAnswer a (hk_clock st) nowA uuid req appID (hk_tokens st))) (hk_tokens st) st)
| hk_other op :
    others op -> hk_step others st {| hk_tokens := token_step (hk_tokens st) op; hk_calls := hk_calls st; hk_clock := hk_clock st |}
| hk_tick t : hk_step others st {| hk_tokens := hk_tokens st; hk_calls := hk_calls st; hk_clock := t |}.

(** [Connect] is such a call with nothing but the clock in between. *)
Lemma Connect_steps `{Ed25519} {B} `{NodeStore B} {F} `{CoreForwarder F} now nowM nowA uuid req
    (st : AdapterState B F W) ts calls i others :
  as_tokenStore st = Some ts -> calls !! i = None ->
  exists ts' t, as_tokenStore (Connect a now nowM nowA uuid req st).2 = Some ts'
    /\ rtc (hk_step others) {| hk_tokens := ts; hk_calls := calls; hk_clock := now |}
         {| hk_tokens := ts'; hk_calls := <[i := Replied req (Connect a now nowM nowA uuid req st).1]> calls; hk_clock := t |}.
Proof.
  intros Hts Hi. unfold Connect. rewrite Hts. destruct (connectLookup now req ts) as [[appID|ack] ts1] eqn:El; cbn [fst snd].
  - eexists _, nowM. split; [reflexivity|].
    eapply rtc_l; [by apply (hk_asked _ _ i req)|]. eapply rtc_l; [eapply (hk_lookup _ _ i); [apply lookup_insert_eq|exact El]|].
    eapply rtc_l; [eapply (hk_evict _ _ i); apply lookup_insert_eq|]. eapply rtc_l; [apply (hk_tick _ _ nowM)|].
    eapply rtc_l; [eapply (hk_answer _ _ i _ _ nowA uuid); apply lookup_insert_eq|].
    unfold hk_set. cbn. rewrite !insert_insert_eq. apply rtc_refl.
  - eexists _, now. split; [reflexivity|].
    eapply rtc_l; [by apply (hk_asked _ _ i req)|]. eapply rtc_l; [eapply (hk_lookup _ _ i); [apply lookup_insert_eq|exact El]|].
    unfold hk_set. cbn. rewrite !insert_insert_eq. apply rtc_refl.
Qed.

(** ** What a call is answered *)

(** A session exactly where the connect policy accepts. *)
Definition ack_ok (req : ConnectRequest) (ack : ConnectAck) : Prop :=
  if str_eqb (ca_Status ack) StatusAccepted
  then exists res creq, ga_connectRes a = Some res /\ cr_OriginNodeID creq = cq_OriginNodeID req /\ autoAccepts (rv_cfg res) creq
  else (ca_Status ack = StatusDenied \/ ca_Status ack = StatusPending) /\ ca_SessionID ack = ""%string /\ ca_ExpiresAt ack = 0.

Lemma connectAnswer_ok nowM nowA uuid req appID ts :
  ack_ok req (connectAnswer a nowM nowA uuid req appID ts)
  /\ ca_Status (connectAnswer a nowM nowA uuid req appID ts) <> StatusDenied.
Proof.
  unfold connectAnswer. cbv zeta. destruct (ga_connectRes a) as [res|] eqn:Er; [|by split; [split; [right|]|]].
  set (creq := {| cr_OriginNodeID := _ |}). destruct (ResolveConnect_spec res creq) as [Ha Hp].
  destruct (str_eqb (ResolveConnect res creq) StatusAccepted) eqn:E; unfold ack_ok; cbn [ca_Status ca_SessionID ca_ExpiresAt]; rewrite E; go_bool.
  - split; [|by rewrite E]. exists res, creq. split_and!; [done..|by apply Ha].
  - assert (ResolveConnect res creq = StatusPending) as Hpend by (apply Hp; by rewrite <- Ha). rewrite Hpend. split; [|done]. split; [by right|done].
Qed.

(** What the connect policy is asked about. *)
Definition asked (nowM : Z) (req : ConnectRequest) (appID : string) (ts : TokenStore) : ConnRequest :=
  {| cr_OriginNodeID := cq_OriginNodeID req; cr_OriginAppID := cq_OriginAppID req; cr_RecipientAppID := appID;
     cr_MutualDiscovery := HasActiveToken nowM (cq_OriginNodeID req) ts |}.

Lemma connectAnswer_accepts nowM nowA uuid req appID ts :
  let ack := connectAnswer a nowM nowA uuid req appID ts in
  (ca_Status ack = StatusAccepted
     <-> exists res, ga_connectRes a = Some res /\ autoAccepts (rv_cfg res) (asked nowM req appID ts))
  /\ (ca_Status ack = StatusAccepted -> ca_SessionID ack = uuid /\ ca_ExpiresAt ack = UnixMilli (nowA + 24 * Hour)).
Proof.
  cbv zeta. rewrite connectAnswer_status. split.
  - destruct (ga_connectRes a) as [res|]; [|split; [done|by intros (? & ? & _)]].
    destruct (ResolveConnect_spec res (asked nowM req appID ts)) as [Ha _]. unfold asked in *. rewrite Ha. naive_solver.
  - unfold connectAnswer. cbv zeta. intros Hs. by rewrite (proj2 (str_eqb_eq _ _) Hs).
Qed.

Lemma connectLookup_spec now req ts r ts1 :
  connectLookup now req ts = (r, ts1) ->
  ts1 = token_step ts (OpResolve now (cq_OpaqueToken req))
  /\ match r with
     | Ok appID => exists e, ts_entries ts !! hashToken (cq_OpaqueToken req) = Some e /\ tk_appID e = appID
                     /\ tk_originNodeID e = cq_OriginNodeID req /\ now <= tk_expires e
     | Err ack => ca_Status ack = StatusDenied /\ ack_ok req ack
     end.
Proof.
  unfold connectLookup, token_step. destruct (Resolve now (cq_OpaqueToken req) ts) as [[[appID origin]|] ts2] eqn:Er.
  - destruct (str_eqb origin (cq_OriginNodeID req)) eqn:Eo; cbn [negb]; intros [= <- <-]; (split; [done|]); [|by split; [|split; [left|]]].
    go_bool. subst origin. unfold Resolve in Er. cbv zeta in Er. destruct (ts_entries ts !! _) as [e|] eqn:Ee; [|done].
    destruct (Z.ltb_spec (tk_expires e) now); [done|]. injection Er as <- <- _. by exists e.
  - intros [= <- <-]. split; [done|]. by split; [|split; [left|]].
Qed.

(** ** A token that is gone *)

Definition request (c : ConnectCall) : ConnectRequest :=
  match c with Asked req | Found req _ | Evicted req _ | Replied req _ => req end.

(** The call looked its token up and was not denied. *)
Definition holding (c : ConnectCall) : Prop :=
  match c with Asked _ => False | Found _ _ | Evicted _ _ => True | Replied _ ack => ca_Status ack <> StatusDenied end.

(** Nobody issues the token again. *)
Definition unissued (hash : string) (others : token_op -> Prop) (op : token_op) : Prop := others op /\ ~ issues hash op.

(** The token is not in the store, and the calls that hold it held it in [st0]. *)
Definition gone (hash : string) (st0 st : Handshakes) : Prop :=
  ts_entries (hk_tokens st) !! hash = None
  /\ forall i c, hk_calls st !! i = Some c -> hashToken (cq_OpaqueToken (request c)) = hash -> holding c ->
       exists c0, hk_calls st0 !! i = Some c0 /\ holding c0 /\ request c0 = request c.

Lemma gone_set hash st0 st i c c' ts :
  gone hash st0 st -> ts_entries ts !! hash = None -> hk_calls st !! i = Some c -> request c' = request c ->
  (hashToken (cq_OpaqueToken (request c)) = hash -> holding c' -> holding c) -> gone hash st0 (hk_set i c' ts st).
Proof.
  intros [_ Hg] Hts Hi Hreq Hhold. split; [done|]. intros j d. cbn [hk_set hk_calls]. rewrite lookup_insert_Some.
  intros [[<- <-]|[_ Hj]]; [|by apply Hg]. rewrite Hreq. intros Hh Hd. by apply Hg; [|done|apply Hhold].
Qed.

Lemma gone_step hash others st0 st st' : gone hash st0 st -> hk_step (unissued hash others) st st' -> gone hash st0 st'.
Proof.
  intros Hg Hstep. pose proof Hg as [Habs Hcalls].
  destruct Hstep as [i req Hi|i req r ts Hi Hl|i req appID Hi|i req appID nowA uuid Hi|op [_ Hop]|t].
  - split; [done|]. intros j c. cbn [hk_set hk_calls]. rewrite lookup_insert_Some. intros [[_ <-]|[_ Hj]]; [by intros _ []|by apply Hcalls].
  - destruct (connectLookup_spec _ _ _ _ _ Hl) as [-> Hr]. eapply gone_set; [done| |exact Hi|by destruct r|].
    + apply token_step_absent; [done|by intros []].
    + cbn [request]. intros Hh. destruct r as [appID|ack]; [|by destruct Hr as [Hd _]]. destruct Hr as (e & He & _). congruence.
  - eapply gone_set; [done| |exact Hi|done|done]. apply (token_step_absent hash _ (OpEvict (cq_OpaqueToken req))); [done|by intros []].
  - by eapply gone_set; [done..|exact Hi|done|done].
  - split; [by apply token_step_absent|exact Hcalls].
  - exact Hg.
Qed.

Lemma gone_run hash others st0 st : gone hash st0 st0 -> rtc (hk_step (unissued hash others)) st0 st -> gone hash st0 st.
Proof. intros Hg Hr. pattern st. eapply rtc_ind_r; [exact Hg| |exact Hr]. intros y z _ Hs Hy. by eapply gone_step. Qed.

(** ** Answers along a run *)

Definition acks_ok (st : Handshakes) : Prop := forall i req ack, hk_calls st !! i = Some (Replied req ack) -> ack_ok req ack.

Lemma acks_set st i c ts : acks_ok st -> (forall req ack, c = Replied req ack -> ack_ok req ack) -> acks_ok (hk_set i c ts st).
Proof. intros Ha Hc j req ack. cbn [hk_set hk_calls]. rewrite lookup_insert_Some. intros [[_ E]|[_ Hj]]; [by apply Hc|by eapply Ha]. Qed.

Lemma acks_step others st st' : acks_ok st -> hk_step others st st' -> acks_ok st'.
Proof.
  intros Ha. destruct 1 as [i req Hi|i req r ts Hi Hl|i req appID Hi|i req appID nowA uuid Hi|op Hop|t]; try exact Ha;
    apply acks_set; try done.
  - destruct (connectLookup_spec _ _ _ _ _ Hl) as [_ Hr]. intros req' ack. destruct r; [done|]. cbn. intros [= <- <-]. apply Hr.
  - intros req' ack [= <- <-]. apply connectAnswer_ok.
Qed.

Lemma acks_run others st st' : acks_ok st -> rtc (hk_step others) st st' -> acks_ok st'.
Proof. intros Ha Hr. pattern st'. eapply rtc_ind_r; [exact Ha| |exact Hr]. intros y z _ Hs Hy. by eapply acks_step. Qed.

(** C20: A connect handshake uses its token up, however calls interleave.  In any run
    from a node without calls, with any other use of the token store: a call finds a
    token only if the store has it, unexpired, for the node that asks; the call that
    evicts it leaves it absent; and whatever happens later, unless a token with the same
    hash is issued, only calls that had found the token before that eviction are not
    denied: no later call, and no call that looks the token up later, gets anywhere
    with it.  A call that has evicted its token is accepted exactly where the connect
    policy accepts without an operator, then with the new session for 24 hours; denied
    and pending calls get no session. *)
Theorem Connect_single_use others ts now st :
  rtc (hk_step others) {| hk_tokens := ts; hk_calls := ∅; hk_clock := now |} st ->
  (forall i req ack, hk_calls st !! i = Some (Replied req ack) -> ack_ok req ack)
  /\ (forall st' i req appID, hk_step others st st' ->
        hk_calls st !! i = Some (Asked req) -> hk_calls st' !! i = Some (Found req appID) ->
        exists e, ts_entries (hk_tokens st) !! hashToken (cq_OpaqueToken req) = Some e /\ tk_appID e = appID
          /\ tk_originNodeID e = cq_OriginNodeID req /\ hk_clock st <= tk_expires e)
  /\ (forall st' i req appID, hk_step others st st' ->
        hk_calls st !! i = Some (Found req appID) -> hk_calls st' !! i = Some (Evicted req appID) ->
        let hash := hashToken (cq_OpaqueToken req) in
        ts_entries (hk_tokens st') !! hash = None
        /\ forall later, rtc (hk_step (unissued hash others)) st' later ->
             forall j req' ack, hk_calls later !! j = Some (Replied req' ack) ->
               hashToken (cq_OpaqueToken req') = hash -> ca_Status ack <> StatusDenied ->
               exists c, hk_calls st !! j = Some c /\ holding c /\ request c = req')
  /\ (forall i req appID nowA uuid, hk_calls st !! i = Some (Evicted req appID) ->
        let ack := connectAnswer a (hk_clock st) nowA uuid req appID (hk_tokens st) in
        hk_step others st (hk_set i (Replied req ack) (hk_tokens st) st)
        /\ (ca_Status ack = StatusAccepted <-> exists res, ga_connectRes a = Some res
              /\ autoAccepts (rv_cfg res) (asked (hk_clock st) req appID (hk_tokens st)))
        /\ (ca_Status ack = StatusAccepted -> ca_SessionID ack = uuid /\ ca_ExpiresAt ack = UnixMilli (nowA + 24 * Hour))).
Proof.
  intros Hrun. split_and!.
  - refine (acks_run _ _ _ _ Hrun). intros i req ack. cbn [hk_calls]. by rewrite lookup_empty.
  - intros st' i req appID Hstep Hi Hi'. destruct Hstep as [j r0 Hj|j r0 r ts' Hj Hl|j r0 app Hj|j r0 app nowA uuid Hj|op Hop|t];
      cbn [hk_set hk_calls] in Hi'; rewrite ?lookup_insert_Some in Hi'; try congruence; destruct Hi' as [[-> Hc]|[_ Hc]]; try congruence.
    rewrite Hi in Hj. injection Hj as <-. destruct r as [app|ack]; [|done]. injection Hc as <-.
    by destruct (connectLookup_spec _ _ _ _ _ Hl) as [_ Hr].
  - intros st' i req appID Hstep Hi Hi' hash.
    assert (st' = hk_set i (Evicted req appID) (Evict (cq_OpaqueToken req) (hk_tokens st)) st) as ->.
    { destruct Hstep as [j r0 Hj|j r0 r ts' Hj Hl|j r0 app Hj|j r0 app nowA uuid Hj|op Hop|t];
        cbn [hk_set hk_calls] in Hi'; rewrite ?lookup_insert_Some in Hi'; try congruence;
        destruct Hi' as [[-> Hc]|[_ Hc]]; try congruence; by destruct r. }
    assert (ts_entries (Evict (cq_OpaqueToken req) (hk_tokens st)) !! hash = None) as Habs by apply lookup_delete_eq.
    split; [exact Habs|]. intros later Hl j req' ack Hj Hh Hd.
    apply (gone_run _ _ (hk_set i (Evicted req appID) (Evict (cq_OpaqueToken req) (hk_tokens st)) st)) in Hl as [_ Hg];
      [|split; [exact Habs|by eauto]].
    destruct (Hg j _ Hj Hh Hd) as (c & Hc & Hhold & Hreq). cbn [hk_set hk_calls] in Hc. apply lookup_insert_Some in Hc as [[<- <-]|[_ Hc]].
    + exists (Found req appID). by split_and!.
    + by exists c.
  - intros i req appID nowA uuid Hi ack. split; [by apply hk_answer|apply connectAnswer_accepts].
Qed.
End Steps.

(** ** Two calls with one token *)

Definition demo_start : Handshakes := {| hk_tokens := demo_tokens; hk_calls := ∅; hk_clock := 1 |}.

(** Both calls look the token up before one of them evicts it. *)
Definition demo_both_found : Handshakes :=
  hk_set 1 (Found demo_connect "chat") demo_tokens
    (hk_set 0 (Found demo_connect "chat") demo_tokens
      (hk_set 1 (Asked demo_connect) demo_tokens (hk_set 0 (Asked demo_connect) demo_tokens demo_start))).

Definition demo_evicted (st : Handshakes) (i : nat) : Handshakes :=
  hk_set i (Evicted demo_connect "chat") (Evict (cq_OpaqueToken demo_connect) (hk_tokens st)) st.

Definition demo_answered (st : Handshakes) (i : nat) (uuid : string) : Handshakes :=
  hk_set i (Replied demo_connect
              (connectAnswer (demo_adapter "AUTO_ALL") (hk_clock st) 1 uuid demo_connect "chat" (hk_tokens st))) (hk_tokens st) st.

Definition nothing_else (op : token_op) : Prop := False.

Lemma demo_run_found : rtc (hk_step (demo_adapter "AUTO_ALL") nothing_else) demo_start demo_both_found.
Proof.
  eapply rtc_l; [by apply (hk_asked _ _ _ 0%nat demo_connect)|]. eapply rtc_l; [by apply (hk_asked _ _ _ 1%nat demo_connect)|].
  eapply rtc_l; [apply (hk_lookup _ _ _ 0%nat demo_connect (Ok "chat"%string) demo_tokens); vm_compute; reflexivity|].
  eapply rtc_l; [apply (hk_lookup _ _ _ 1%nat demo_connect (Ok "chat"%string) demo_tokens); vm_compute; reflexivity|].
  apply rtc_refl.
Qed.

(** Single use holds only for calls that do not overlap: two calls with the same token
    can both be accepted, each with a session of its own. *)
Theorem token_used_twice :
  exists st ack1 ack2, rtc (hk_step (demo_adapter "AUTO_ALL") nothing_else) demo_start st
    /\ hk_calls st !! 0%nat = Some (Replied demo_connect ack1) /\ hk_calls st !! 1%nat = Some (Replied demo_connect ack2)
    /\ ca_Status ack1 = StatusAccepted /\ ca_Status ack2 = StatusAccepted
    /\ ca_SessionID ack1 = "s1"%string /\ ca_SessionID ack2 = "s2"%string.
Proof.
  set (st := demo_answered (demo_answered (demo_evicted (demo_evicted demo_both_found 0) 1) 0 "s1") 1 "s2").
  exists st. eexists _, _. split.
  - etrans; [exact demo_run_found|].
    eapply rtc_l; [by apply (hk_evict _ _ _ 0%nat demo_connect "chat")|]. eapply rtc_l; [by apply (hk_evict _ _ _ 1%nat demo_connect "chat")|].
    eapply rtc_l; [by apply (hk_answer _ _ _ 0%nat demo_connect "chat" 1 "s1")|].
    eapply rtc_l; [by apply (hk_answer _ _ _ 1%nat demo_connect "chat" 1 "s2")|]. apply rtc_refl.
  - split_and!; [reflexivity|reflexivity|vm_compute; reflexivity..].
Qed.

(** After the first call has evicted the token, the second one is still accepted: it had
    found the token before. *)
Definition demo_second_accepted : Handshakes :=
  demo_answered (demo_evicted (demo_evicted demo_both_found 0) 1) 1 "s2".

Lemma Connect_single_use_witness :
  ts_entries (hk_tokens (demo_evicted demo_both_found 0)) !! hashToken (cq_OpaqueToken demo_connect) = None
  /\ exists c, hk_calls demo_both_found !! 1%nat = Some c /\ holding c /\ request c = demo_connect.
Proof.
  destruct (Connect_single_use (demo_adapter "AUTO_ALL") nothing_else demo_tokens 1 demo_both_found demo_run_found) as (_ & _ & Hev & _).
  destruct (Hev (demo_evicted demo_both_found 0) 0%nat demo_connect "chat"%string) as [Habs Hlater].
  - apply hk_evict. reflexivity.
  - reflexivity.
  - reflexivity.
  - split; [exact Habs|].
    refine (Hlater demo_second_accepted _ 1%nat demo_connect _ eq_refl eq_refl _); [|vm_compute; discriminate].
    eapply rtc_l; [by apply (hk_evict _ _ _ 1%nat demo_connect "chat")|].
    eapply rtc_l; [by apply (hk_answer _ _ _ 1%nat demo_connect "chat" 1 "s2")|]. apply rtc_refl.
Defined.
