(* ===== verification/Codec.v ===== *)
(** * The wire format (package [internal/transport/grpc], [codec.go] and the tags of [messages.go])

    Messages between nodes are JSON texts.  The envelope that arrives is the
    envelope that was sent: nothing the receiver verifies or decides on is lost on
    the way. *)

From S2P Require Import Prelude GoStrings GoCrypto Utf8 Json JsonFields Core Config Crl Store AuditLog Policy Dedup Transit Delivery Gateway Session Token Identity Connect PeerDiscovery RateLimit Adapter.

(** [jsonCodec.Marshal] of a [SendEnvelopeRequest]. *)
Definition envelopeStruct (e : WireEnvelope) : list jfield :=
  [("idempotency_key"%string, JStr (we_IdempotencyKey e), false);
   ("sender_node_id"%string, JStr (we_SenderNodeID e), str_eqb (we_SenderNodeID e) ""%string);
   ("sender_identity"%string, json_of_bytes (we_SenderIdentity e), no_bytes (we_SenderIdentity e));
   ("recipient_identity"%string, json_of_bytes (we_RecipientIdentity e), no_bytes (we_RecipientIdentity e));
   ("sender_region"%string, JStr (we_SenderRegion e), false);
   ("recipient_region"%string, JStr (we_RecipientRegion e), false);
   ("trust_tier"%string, JInt (we_TrustTier e), false);
   ("sequence_number"%string, JInt (we_SequenceNumber e), false);
   ("payload"%string, json_of_bytes (we_Payload e), no_bytes (we_Payload e));
   ("padded_to"%string, JInt (we_PaddedTo e), false);
   ("timestamp"%string, JInt (we_Timestamp e), false);
   ("signature"%string, json_of_bytes (we_Signature e), no_bytes (we_Signature e));
   ("is_dummy"%string, JBool (we_IsDummy e), negb (we_IsDummy e));
   ("schema_type"%string, JStr (we_SchemaType e), str_eqb (we_SchemaType e) ""%string);
   ("schema_version"%string, JStr (we_SchemaVersion e), str_eqb (we_SchemaVersion e) ""%string);
   ("routing_hint"%string, JStr (we_RoutingHint e), str_eqb (we_RoutingHint e) ""%string)].

Definition Marshal (e : WireEnvelope) : string := render (JObj [("envelope"%string, struct (envelopeStruct e))]).

Definition envelopeFields : list string :=
  ["idempotency_key"; "sender_node_id"; "sender_identity"; "recipient_identity"; "sender_region"; "recipient_region";
   "trust_tier"; "sequence_number"; "payload"; "padded_to"; "timestamp"; "signature"; "is_dummy"; "schema_type";
   "schema_version"; "routing_hint"]%string.

Section Unmarshal.
Context `{UnicodeTables}.

Definition as_envelope (v : json) (old : WireEnvelope) : option WireEnvelope :=
  ms ← members v;
  let get {A} n (read : json -> A -> option A) old := collect envelopeFields n read ms old in
  key ← get "idempotency_key"%string as_string (we_IdempotencyKey old);
  node ← get "sender_node_id"%string as_string (we_SenderNodeID old);
  sender ← get "sender_identity"%string as_bytes (we_SenderIdentity old);
  recipient ← get "recipient_identity"%string as_bytes (we_RecipientIdentity old);
  sregion ← get "sender_region"%string as_string (we_SenderRegion old);
  rregion ← get "recipient_region"%string as_string (we_RecipientRegion old);
  tier ← get "trust_tier"%string as_uint32 (we_TrustTier old);
  seqno ← get "sequence_number"%string as_uint64 (we_SequenceNumber old);
  payload ← get "payload"%string as_bytes (we_Payload old);
  padded ← get "padded_to"%string as_uint32 (we_PaddedTo old);
  ts ← get "timestamp"%string as_int64 (we_Timestamp old);
  sig ← get "signature"%string as_bytes (we_Signature old);
  dummy ← get "is_dummy"%string as_bool (we_IsDummy old);
  stype ← get "schema_type"%string as_string (we_SchemaType old);
  sver ← get "schema_version"%string as_string (we_SchemaVersion old);
  hint ← get "routing_hint"%string as_string (we_RoutingHint old);
  Some {| we_IdempotencyKey := key; we_SenderNodeID := node; we_SenderIdentity := sender;
          we_RecipientIdentity := recipient; we_SenderRegion := sregion; we_RecipientRegion := rregion;
          we_TrustTier := tier; we_SequenceNumber := seqno; we_Payload := payload; we_PaddedTo := padded;
          we_Timestamp := ts; we_Signature := sig; we_IsDummy := dummy; we_SchemaType := stype;
          we_SchemaVersion := sver; we_RoutingHint := hint |}.

Definition zeroEnvelope : WireEnvelope := {|
  we_IdempotencyKey := ""; we_SenderNodeID := ""; we_SenderIdentity := None; we_RecipientIdentity := None;
  we_SenderRegion := ""; we_RecipientRegion := ""; we_TrustTier := 0; we_SequenceNumber := 0; we_Payload := None;
  we_PaddedTo := 0; we_Timestamp := 0; we_Signature := None; we_IsDummy := false; we_SchemaType := "";
  we_SchemaVersion := ""; we_RoutingHint := "" |}.

(** [jsonCodec.Unmarshal] into a new [SendEnvelopeRequest]. *)
Definition Unmarshal (data : string) : option WireEnvelope :=
  v ← unmarshal data;
  ms ← members v;
  collect ["envelope"%string] "envelope"%string as_envelope ms zeroEnvelope.
End Unmarshal.

(** ** The round trip *)

(** An envelope as Go can hold it, with valid UTF-8 in its strings. *)
Record envelope_ok (e : WireEnvelope) : Prop := {
  eo_key : utf8 (we_IdempotencyKey e);
  eo_node : utf8 (we_SenderNodeID e);
  eo_sregion : utf8 (we_SenderRegion e);
  eo_rregion : utf8 (we_RecipientRegion e);
  eo_type : utf8 (we_SchemaType e);
  eo_version : utf8 (we_SchemaVersion e);
  eo_hint : utf8 (we_RoutingHint e);
  eo_tier : in_u32 (we_TrustTier e);
  eo_seq : in_u64 (we_SequenceNumber e);
  eo_padded : in_u32 (we_PaddedTo e);
  eo_ts : in_i64 (we_Timestamp e) }.

(** Empty byte slices arrive as nil. *)
Definition received (e : WireEnvelope) : WireEnvelope := {|
  we_IdempotencyKey := we_IdempotencyKey e; we_SenderNodeID := we_SenderNodeID e;
  we_SenderIdentity := nonempty_bytes (we_SenderIdentity e);
  we_RecipientIdentity := nonempty_bytes (we_RecipientIdentity e); we_SenderRegion := we_SenderRegion e;
  we_RecipientRegion := we_RecipientRegion e; we_TrustTier := we_TrustTier e;
  we_SequenceNumber := we_SequenceNumber e; we_Payload := nonempty_bytes (we_Payload e);
  we_PaddedTo := we_PaddedTo e; we_Timestamp := we_Timestamp e; we_Signature := nonempty_bytes (we_Signature e);
  we_IsDummy := we_IsDummy e; we_SchemaType := we_SchemaType e; we_SchemaVersion := we_SchemaVersion e;
  we_RoutingHint := we_RoutingHint e |}.

Section RoundTrip.
Context `{UnicodeTables}.

#[local] Notation got e n read old := (collect envelopeFields n read (present (envelopeStruct e)) old).

(** Each field of a received envelope comes from the one member that has its name. *)
Lemma envelope_fields e : envelope_ok e ->
  got e "idempotency_key"%string as_string ""%string = Some (we_IdempotencyKey e)
  /\ got e "sender_node_id"%string as_string ""%string = Some (we_SenderNodeID e)
  /\ got e "sender_identity"%string as_bytes None = Some (nonempty_bytes (we_SenderIdentity e))
  /\ got e "recipient_identity"%string as_bytes None = Some (nonempty_bytes (we_RecipientIdentity e))
  /\ got e "sender_region"%string as_string ""%string = Some (we_SenderRegion e)
  /\ got e "recipient_region"%string as_string ""%string = Some (we_RecipientRegion e)
  /\ got e "trust_tier"%string as_uint32 0 = Some (we_TrustTier e)
  /\ got e "sequence_number"%string as_uint64 0 = Some (we_SequenceNumber e)
  /\ got e "payload"%string as_bytes None = Some (nonempty_bytes (we_Payload e))
  /\ got e "padded_to"%string as_uint32 0 = Some (we_PaddedTo e)
  /\ got e "timestamp"%string as_int64 0 = Some (we_Timestamp e)
  /\ got e "signature"%string as_bytes None = Some (nonempty_bytes (we_Signature e))
  /\ got e "is_dummy"%string as_bool false = Some (we_IsDummy e)
  /\ got e "schema_type"%string as_string ""%string = Some (we_SchemaType e)
  /\ got e "schema_version"%string as_string ""%string = Some (we_SchemaVersion e)
  /\ got e "routing_hint"%string as_string ""%string = Some (we_RoutingHint e).
Proof.
  intros [].
  assert (forall A n (read : json -> A -> option A) old, got e n read old
    = match field_value n (envelopeStruct e) with Some v => read v old | None => Some old end) as Hc.
  { intros A n read old. apply collect_struct; [vm_compute; reflexivity|].
    change (fst ∘ fst <$> envelopeStruct e) with envelopeFields. apply (bool_decide_eq_true_1 _). vm_compute. reflexivity. }
  split_and!; read_field Hc envelopeStruct.
Qed.

Lemma as_envelope_struct e : envelope_ok e -> as_envelope (struct (envelopeStruct e)) zeroEnvelope = Some (received e).
Proof.
  intros He. unfold as_envelope. eapply bind_some; [reflexivity|]. cbv zeta.
  destruct (envelope_fields e He) as (H1 & H2 & H3 & H4 & H5 & H6 & H7 & H8 & H9 & H10 & H11 & H12 & H13 & H14 & H15 & H16).
  do 16 (eapply bind_some; [eassumption|]). reflexivity.
Qed.

Lemma envelopeStruct_wf e : envelope_ok e -> json_wf (struct (envelopeStruct e)).
Proof.
  intros []. apply struct_wf. unfold envelopeStruct, in_u32, in_u64, in_i64 in *.
  rewrite !Forall_cons, Forall_nil. cbn [fst snd json_wf]. split_and!; try done; intros _.
  all: split; [vm_compute; reflexivity|]; first [done | apply json_of_bytes_wf | lia].
Qed.

Lemma Unmarshal_Marshal e : envelope_ok e -> Unmarshal (Marshal e) = Some (received e).
Proof.
  intros He. unfold Unmarshal, Marshal. rewrite unmarshal_render.
  - cbn [mbind option_bind members collect]. rewrite bool_decide_eq_true_2 by (vm_compute; reflexivity).
    by rewrite as_envelope_struct.
  - cbn [json_wf foldr fst snd]. split_and!; [vm_compute; reflexivity| |done]. by apply envelopeStruct_wf.
Qed.

(** The receiver's check of an honest signature. *)
Lemma received_verifies `{Ed25519} e priv :
  we_Signature e = Sign priv (verifiedEnvelope e) -> we_Payload e <> Some ""%string ->
  VerifySig (ed_Public priv) (verifiedEnvelope (received e)) (we_Signature (received e)) = None.
Proof.
  intros Hs Hp. assert (nonempty_bytes (we_Payload e) = we_Payload e) as Hpay.
  { destruct (we_Payload e) as [p|]; [|done]. cbn. destruct (str_eqb p "") eqn:E; [go_bool; congruence|done]. }
  assert (we_Signature (received e) = we_Signature e) as ->.
  { cbn. rewrite Hs. unfold Sign. cbn. destruct (str_eqb _ "") eqn:E; [|done]. go_bool.
    pose proof (ed_sign_length priv (canonicalPayload (verifiedEnvelope e))) as Hl. by rewrite E in Hl. }
  pose proof (VerifySig_Sign priv (verifiedEnvelope e)) as Hv. unfold VerifySig in *. rewrite Hs.
  rewrite (canonicalPayload_fields (verifiedEnvelope (received e)) (verifiedEnvelope e)); [done|].
  unfold signed_fields, verifiedEnvelope, received. cbn. by rewrite Hpay.
Qed.

(** C26: Envelopes survive the wire.  What a node marshals for a peer, the peer
    unmarshals to the same envelope, through the JSON text (escapes, UTF-8, base64 and
    omitted fields included), except that an empty byte slice arrives as nil.  The
    condition [envelope_ok]: the texts are UTF-8 and the integers fit their types.  The
    receiver verifies what the sender signed, provided the payload is nil or not empty:
    a signature over an empty, non-nil payload does not survive
    ([empty_payload_rejected] below). *)
Theorem wire_roundtrip `{Ed25519} e :
  envelope_ok e ->
  Unmarshal (Marshal e) = Some (received e)
  /\ (forall priv, we_Signature e = Sign priv (verifiedEnvelope e) -> we_Payload e <> Some ""%string ->
      VerifySig (ed_Public priv) (verifiedEnvelope (received e)) (we_Signature (received e)) = None).
Proof. intros He. split; [by apply Unmarshal_Marshal|]. intros priv. apply received_verifies. Qed.
End RoundTrip.

(** ** Witnesses *)

Definition demo_signed (payload : string) : WireEnvelope :=
  let env := with_padding payload 0 (mkEnvelope "k" "RS" "RU" "messaging") in toWire (Sign "secret"%string env) env.

Lemma demo_signed_ok payload : envelope_ok (demo_signed payload).
Proof. constructor; try (vm_compute; reflexivity); split; vm_compute; congruence. Qed.

Lemma wire_roundtrip_witness :
  Unmarshal (Marshal (demo_signed "hello")) = Some (demo_signed "hello")
  /\ VerifySig (ed_Public (Ed25519 := toy_ed25519) "secret"%string) (verifiedEnvelope (demo_signed "hello"))
       (we_Signature (demo_signed "hello")) = None.
Proof.
  destruct (wire_roundtrip _ (demo_signed_ok "hello")) as [Hr Hv]. split; [exact Hr|].
  apply (Hv "secret"%string); [vm_compute; reflexivity|discriminate].
Defined.

(** A signed envelope with an empty payload does not survive verification.
    The sender signs the empty string where the receiver, after the wire dropped the
    empty slice, checks [null]: the honest signature is rejected. *)
Theorem empty_payload_rejected :
  let e := demo_signed "" in
  VerifySig (ed_Public (Ed25519 := toy_ed25519) "secret"%string) (verifiedEnvelope e) (we_Signature e) = None
  /\ option_map (fun e' => VerifySig (ed_Public "secret"%string) (verifiedEnvelope e') (we_Signature e'))
       (Unmarshal (Marshal e)) = Some (Some ErrInvalidSignature).
Proof. vm_compute. done. Qed.
