(* ===== verification/Service.v ===== *)
(** * Remote calls (package [internal/transport/grpc], [service.go] and [client.go])

    The table of methods a node serves, the handlers that decode a request and call
    the service, and the client's methods that invoke them.  The gRPC library in
    between finds a method by its path and carries texts; the codec of the messages is
    a parameter, which [Messages] gives. *)

From S2P Require Import Prelude GoStrings GoCrypto Utf8 Json JsonFields Core Config Crl Store AuditLog Policy Dedup Transit Delivery Gateway Session Token Identity Connect PeerDiscovery Discovery RateLimit Adapter Codec.

(** What a call fails with: [codes.InvalidArgument] for a request that does not
    decode, [codes.Internal] for a request of another type, or the service's error. *)
Inductive RpcError (E : Type) :=
| DecodeFailed (what : string)
| UnexpectedType
| ServiceError (e : E).
Arguments DecodeFailed {E} what.
Arguments UnexpectedType {E}.
Arguments ServiceError {E} e.

(** The requests and responses as values of type [any]. *)
Inductive AnyRequest :=
| SendEnvelopeReq (e : WireEnvelope) | GetNodeInfoReq | RootHashReq (m : RootHashMessage)
| DiscoveryReq (r : DRequest) | ConnectReq (r : ConnectRequest) | PeerListReq (r : PeerListRequest).

Inductive AnyResponse :=
| SendEnvelopeRes (r : SendEnvelopeResponse) | GetNodeInfoRes (n : NodeInfo) | RootHashAckRes (ok : bool)
| DiscoveryRes (r : DResponse) | ConnectAckRes (a : ConnectAck) | PeerListRes (l : list PeerEntry).

(** The interface [GatewayService], over the state of its implementation. *)
Record GatewayService (S E : Type) := {
  svc_SendEnvelope : WireEnvelope -> S -> outcome E SendEnvelopeResponse * S;
  svc_GetNodeInfo : S -> outcome E NodeInfo * S;
  svc_ShareRootHash : RootHashMessage -> S -> outcome E bool * S;
  svc_BroadcastDiscovery : DRequest -> S -> outcome E DResponse * S;
  svc_Connect : ConnectRequest -> S -> outcome E ConnectAck * S;
  svc_ExchangePeers : PeerListRequest -> S -> outcome E (list PeerEntry) * S }.
Arguments svc_SendEnvelope {S E}.
Arguments svc_GetNodeInfo {S E}.
Arguments svc_ShareRootHash {S E}.
Arguments svc_BroadcastDiscovery {S E}.
Arguments svc_Connect {S E}.
Arguments svc_ExchangePeers {S E}.

(** The codec of the messages: texts to values and back. *)
Record MessageCodec := {
  mc_decode : string -> string -> option AnyRequest;   (* by method *)
  mc_encode : AnyRequest -> string }.

Definition ServiceName : string := "mrmi.v1.GatewayService".

Definition fullMethod (name : string) : string := append "/" (append ServiceName (append "/" name)).

Section Service.
Context {S E : Type} (svc : GatewayService S E).

Definition RpcResult : Type := outcome (RpcError E) AnyResponse * S.

(** [grpc.UnaryServerInterceptor]: the full method, the request and the handler. *)
Definition Interceptor : Type := string -> AnyRequest -> (AnyRequest -> S -> RpcResult) -> S -> RpcResult.

Definition answer {A} (wrap : A -> AnyResponse) (r : outcome E A * S) : RpcResult :=
  (match r.1 with Ok a => Ok (wrap a) | Err e => Err (ServiceError e) end, r.2).

(** The calls of the service on a request of the right type, [None] otherwise. *)
Definition callSendEnvelope (req : AnyRequest) (s : S) : option RpcResult :=
  match req with SendEnvelopeReq e => Some (answer SendEnvelopeRes (svc_SendEnvelope svc e s)) | _ => None end.
Definition callGetNodeInfo (req : AnyRequest) (s : S) : option RpcResult :=
  match req with GetNodeInfoReq => Some (answer GetNodeInfoRes (svc_GetNodeInfo svc s)) | _ => None end.
Definition callShareRootHash (req : AnyRequest) (s : S) : option RpcResult :=
  match req with RootHashReq m => Some (answer RootHashAckRes (svc_ShareRootHash svc m s)) | _ => None end.
Definition callBroadcastDiscovery (req : AnyRequest) (s : S) : option RpcResult :=
  match req with DiscoveryReq r => Some (answer DiscoveryRes (svc_BroadcastDiscovery svc r s)) | _ => None end.
Definition callConnect (req : AnyRequest) (s : S) : option RpcResult :=
  match req with ConnectReq r => Some (answer ConnectAckRes (svc_Connect svc r s)) | _ => None end.
Definition callExchangePeers (req : AnyRequest) (s : S) : option RpcResult :=
  match req with PeerListReq r => Some (answer PeerListRes (svc_ExchangePeers svc r s)) | _ => None end.

(** The shape all handlers have: decode, then call the service, through the
    interceptor where there is one. *)
Definition unaryHandler (what name : string) (call : AnyRequest -> S -> option RpcResult)
    (decoded : option AnyRequest) (interceptor : option Interceptor) (s : S) : RpcResult :=
  let handler req s := match call req s with Some r => r | None => (Err UnexpectedType, s) end in
  match decoded with
  | None => (Err (DecodeFailed what), s)
  | Some request =>
      match interceptor with
      | None => handler request s
      | Some i => i (fullMethod name) request handler s
      end
  end.

Definition sendEnvelopeHandler := unaryHandler "decode send envelope request" "SendEnvelope" callSendEnvelope.
Definition getNodeInfoHandler := unaryHandler "decode get node info request" "GetNodeInfo" callGetNodeInfo.
Definition shareRootHashHandler := unaryHandler "decode share root hash request" "ShareRootHash" callShareRootHash.
Definition broadcastDiscoveryHandler := unaryHandler "decode discovery request" "BroadcastDiscovery" callBroadcastDiscovery.
Definition connectHandler := unaryHandler "decode connect request" "Connect" callConnect.
Definition exchangePeersHandler := unaryHandler "decode peer list request" "ExchangePeers" callExchangePeers.

(** The table of [RegisterGatewayService]. *)
Definition gatewayMethods : list (string * (option AnyRequest -> option Interceptor -> S -> RpcResult)) :=
  [("SendEnvelope", sendEnvelopeHandler); ("GetNodeInfo", getNodeInfoHandler); ("ShareRootHash", shareRootHashHandler);
   ("BroadcastDiscovery", broadcastDiscoveryHandler); ("Connect", connectHandler);
   ("ExchangePeers", exchangePeersHandler)]%string.

(** What the library does with a call: it finds the method of the path and gives it
    the decoder of the request. *)
Definition serveCall (codec : MessageCodec) (interceptor : option Interceptor) (path text : string) (s : S)
  : option RpcResult :=
  m ← snd <$> list_find (fun m => fullMethod m.1 = path) gatewayMethods;
  Some (m.2 (mc_decode codec m.1 text) interceptor s).
End Service.

(** ** The client *)

(** The path each method of [Client] invokes. *)
Definition clientPath (req : AnyRequest) : string :=
  match req with
  | SendEnvelopeReq _ => "/mrmi.v1.GatewayService/SendEnvelope"
  | GetNodeInfoReq => "/mrmi.v1.GatewayService/GetNodeInfo"
  | RootHashReq _ => "/mrmi.v1.GatewayService/ShareRootHash"
  | DiscoveryReq _ => "/mrmi.v1.GatewayService/BroadcastDiscovery"
  | ConnectReq _ => "/mrmi.v1.GatewayService/Connect"
  | PeerListReq _ => "/mrmi.v1.GatewayService/ExchangePeers"
  end.

(** A method of [Client]: [conn.Invoke] with its path and request. *)
Definition clientCall {N R} (Invoke : string -> string -> N -> R * N) (codec : MessageCodec) (req : AnyRequest) (n : N)
  : R * N := Invoke (clientPath req) (mc_encode codec req) n.

(** ** A call between two nodes *)

(** The method of the service that a request is for. *)
Definition serviceCall {S E} (svc : GatewayService S E) (req : AnyRequest) (s : S) : RpcResult (S := S) (E := E) :=
  match req with
  | SendEnvelopeReq e => answer SendEnvelopeRes (svc_SendEnvelope svc e s)
  | GetNodeInfoReq => answer GetNodeInfoRes (svc_GetNodeInfo svc s)
  | RootHashReq m => answer RootHashAckRes (svc_ShareRootHash svc m s)
  | DiscoveryReq r => answer DiscoveryRes (svc_BroadcastDiscovery svc r s)
  | ConnectReq r => answer ConnectAckRes (svc_Connect svc r s)
  | PeerListReq r => answer PeerListRes (svc_ExchangePeers svc r s)
  end.

(** The name of the method of a request. *)
Definition methodName (req : AnyRequest) : string :=
  match req with
  | SendEnvelopeReq _ => "SendEnvelope" | GetNodeInfoReq => "GetNodeInfo" | RootHashReq _ => "ShareRootHash"
  | DiscoveryReq _ => "BroadcastDiscovery" | ConnectReq _ => "Connect" | PeerListReq _ => "ExchangePeers"
  end.

(** The gRPC library as a network of one node: a call that finds no method fails. *)
Definition invokeNode {S E} (svc : GatewayService S E) (codec : MessageCodec) (path text : string) (s : S)
  : option (outcome (RpcError E) AnyResponse) * S :=
  match serveCall svc codec None path text s with Some (r, s') => (Some r, s') | None => (None, s) end.

(** The handler in the table for a request's method. *)
Definition methodOf {S E} (svc : GatewayService S E) (req : AnyRequest) : option AnyRequest -> option Interceptor -> S -> RpcResult :=
  match req with
  | SendEnvelopeReq _ => sendEnvelopeHandler svc | GetNodeInfoReq => getNodeInfoHandler svc
  | RootHashReq _ => shareRootHashHandler svc | DiscoveryReq _ => broadcastDiscoveryHandler svc
  | ConnectReq _ => connectHandler svc | PeerListReq _ => exchangePeersHandler svc
  end.

Lemma serveCall_found {S E} (svc : GatewayService S E) codec i req text s :
  serveCall svc codec i (clientPath req) text s = Some (methodOf svc req (mc_decode codec (methodName req) text) i s).
Proof. destruct req; reflexivity. Qed.

(** Every client method reaches the service's method of the same name.  The path a
    client invokes is in the server's table, the handler found there decodes the
    request with the decoder of its method and calls exactly the service's method for
    it; a text that does not decode is answered with an error that names the request,
    and the service is not called. *)
Theorem clients_reach_their_method {S E} (svc : GatewayService S E) codec req s :
  clientCall (invokeNode svc codec) codec req s
  = match mc_decode codec (methodName req) (mc_encode codec req) with
    | None => (Some (Err (DecodeFailed (match req with
        | SendEnvelopeReq _ => "decode send envelope request" | GetNodeInfoReq => "decode get node info request"
        | RootHashReq _ => "decode share root hash request" | DiscoveryReq _ => "decode discovery request"
        | ConnectReq _ => "decode connect request" | PeerListReq _ => "decode peer list request" end))), s)
    | Some req' =>
        if str_eqb (methodName req') (methodName req)
        then let r := serviceCall svc req' s in (Some r.1, r.2)
        else (Some (Err UnexpectedType), s)
    end.
Proof.
  unfold clientCall, invokeNode. rewrite serveCall_found. unfold methodOf, unaryHandler.
  destruct req; cbn [methodName]; destruct (mc_decode _ _ _) as [[]|]; reflexivity.
Qed.

(** Sending an envelope to a node is a call of its service with the envelope as it
    arrives: the client's text, the server's table and the decoder together. *)
Theorem envelope_reaches_service `{UnicodeTables} {S E} (svc : GatewayService S E) codec e s :
  mc_encode codec (SendEnvelopeReq e) = Marshal e ->
  (forall text, mc_decode codec "SendEnvelope" text = SendEnvelopeReq <$> Unmarshal text) -> envelope_ok e ->
  clientCall (invokeNode svc codec) codec (SendEnvelopeReq e) s
  = let r := answer SendEnvelopeRes (svc_SendEnvelope svc (received e) s) in (Some r.1, r.2).
Proof.
  intros Henc Hdec He. unfold clientCall, invokeNode. rewrite serveCall_found. cbn [methodName methodOf].
  rewrite Henc, Hdec, Unmarshal_Marshal by done. reflexivity.
Qed.
