(* ===== verification/Messages.v ===== *)
(** * The messages of the remote calls (package [internal/transport/grpc], [messages.go])

    The JSON text of every request and response, as the codec writes and reads it, and
    remote calls through these texts: a client's call is the call of the service. *)

From S2P Require Import Prelude GoStrings GoCrypto Utf8 Json JsonFields Core Config Crl Store AuditLog Policy Dedup Transit Delivery Gateway Session Token Identity Connect PeerDiscovery Discovery RateLimit Adapter Codec Service.

(** ** Encoding *)

Definition sendEnvelopeResponseJSON (r : SendEnvelopeResponse) : json := struct [
  ("decision"%string, JStr (wr_Decision r), false); ("reason"%string, JStr (wr_Reason r), false);
  ("profile"%string, JStr (wr_Profile r), false); ("node_id"%string, JStr (wr_NodeID r), false);
  ("audit_root_hash"%string, JStr (wr_AuditRootHash r), false);
  ("peer_audit_root_hash"%string, JStr (wr_PeerAuditRootHash r), str_eqb (wr_PeerAuditRootHash r) "")].

Definition nodeInfoJSON (n : NodeInfo) : json := struct [
  ("node_id"%string, JStr (ni_NodeID n), false); ("node_scope"%string, JStr (ni_NodeScope n), false);
  ("region"%string, JStr (ni_Region n), false); ("applicable_law"%string, JStr (ni_ApplicableLaw n), false);
  ("profile"%string, JStr (ni_Profile n), false)].

Definition rootHashJSON (m : RootHashMessage) : json := struct [
  ("node_id"%string, JStr (rh_NodeID m), false); ("root_hash"%string, JStr (rh_RootHash m), false);
  ("timestamp"%string, JInt (rh_Timestamp m), false);
  ("signature"%string, json_of_bytes (rh_Signature m), no_bytes (rh_Signature m))].

Definition rootHashAckJSON (accepted : bool) : json := struct [("accepted"%string, JBool accepted, false)].

Definition discoveryRequestJSON (r : DRequest) : json := struct [
  ("query_hash"%string, JStr (dq_QueryHash r), false); ("query_type"%string, JStr (dq_QueryType r), false);
  ("origin_node_id"%string, JStr (dq_OriginNodeID r), false); ("origin_app_id"%string, JStr (dq_OriginAppID r), false);
  ("hop_limit"%string, JInt (dq_HopLimit r), false); ("request_id"%string, JStr (dq_RequestID r), false);
  ("timestamp"%string, JInt (dq_Timestamp r), false)].

Definition discoveryResponseJSON (r : DResponse) : json := struct [
  ("node_id"%string, JStr (dn_NodeID r), false); ("app_id"%string, JStr (dn_AppID r), false);
  ("opaque_token"%string, JStr (dn_OpaqueToken r), false); ("display_hint"%string, JStr (dn_DisplayHint r), false);
  ("match_type"%string, JStr (dn_MatchType r), false); ("token_expires"%string, JInt (dn_TokenExpires r), false)].

Definition connectRequestJSON (r : ConnectRequest) : json := struct [
  ("opaque_token"%string, JStr (cq_OpaqueToken r), false); ("origin_node_id"%string, JStr (cq_OriginNodeID r), false);
  ("origin_app_id"%string, JStr (cq_OriginAppID r), false); ("request_id"%string, JStr (cq_RequestID r), false)].

Definition connectAckJSON (a : ConnectAck) : json := struct [
  ("status"%string, JStr (ca_Status a), false); ("session_id"%string, JStr (ca_SessionID a), str_eqb (ca_SessionID a) "");
  ("expires_at"%string, JInt (ca_ExpiresAt a), ca_ExpiresAt a =? 0); ("reason"%string, JStr (ca_Reason a), str_eqb (ca_Reason a) "")].

Definition peerEntryJSON (p : PeerEntry) : json := struct [
  ("node_id"%string, JStr (pe_NodeID p), false); ("addr"%string, JStr (pe_Addr p), false);
  ("node_scope"%string, JStr (pe_NodeScope p), false); ("region"%string, JStr (pe_Region p), false);
  ("last_seen"%string, JInt (pe_LastSeen p), false)].

Definition peerListRequestJSON (r : PeerListRequest) : json := struct [
  ("sender_node_id"%string, JStr (pl_SenderNodeID r), false);
  ("known_peers"%string, JArr (peerEntryJSON <$> pl_KnownPeers r), false)].

Definition peerListResponseJSON (l : list PeerEntry) : json := struct [("peers"%string, JArr (peerEntryJSON <$> l), false)].

(** ** Decoding into a new message *)

Section Decode.
Context `{UnicodeTables}.

Definition as_sendEnvelopeResponse (v : json) : option SendEnvelopeResponse :=
  ms ← members v;
  let get n := collect ["decision"; "reason"; "profile"; "node_id"; "audit_root_hash"; "peer_audit_root_hash"]%string
                 n as_string ms ""%string in
  decision ← get "decision"%string; reason ← get "reason"%string; profile ← get "profile"%string;
  node ← get "node_id"%string; root ← get "audit_root_hash"%string; peer ← get "peer_audit_root_hash"%string;
  Some {| wr_Decision := decision; wr_Reason := reason; wr_Profile := profile; wr_NodeID := node;
          wr_AuditRootHash := root; wr_PeerAuditRootHash := peer |}.

Definition as_nodeInfo (v : json) : option NodeInfo :=
  ms ← members v;
  let get n := collect ["node_id"; "node_scope"; "region"; "applicable_law"; "profile"]%string n as_string ms ""%string in
  node ← get "node_id"%string; scope ← get "node_scope"%string; region ← get "region"%string;
  law ← get "applicable_law"%string; profile ← get "profile"%string;
  Some {| ni_NodeID := node; ni_NodeScope := scope; ni_Region := region; ni_ApplicableLaw := law; ni_Profile := profile |}.

Definition as_rootHash (v : json) : option RootHashMessage :=
  ms ← members v;
  let get {A} n (read : json -> A -> option A) zero :=
    collect ["node_id"; "root_hash"; "timestamp"; "signature"]%string n read ms zero in
  node ← get "node_id"%string as_string ""%string; root ← get "root_hash"%string as_string ""%string;
  ts ← get "timestamp"%string as_int64 0; sig ← get "signature"%string as_bytes None;
  Some {| rh_NodeID := node; rh_RootHash := root; rh_Timestamp := ts; rh_Signature := sig |}.

Definition as_rootHashAck (v : json) : option bool :=
  ms ← members v; collect ["accepted"%string] "accepted"%string as_bool ms false.

Definition as_discoveryRequest (v : json) : option DRequest :=
  ms ← members v;
  let get {A} n (read : json -> A -> option A) zero :=
    collect ["query_hash"; "query_type"; "origin_node_id"; "origin_app_id"; "hop_limit"; "request_id"; "timestamp"]%string
      n read ms zero in
  hash ← get "query_hash"%string as_string ""%string; type ← get "query_type"%string as_string ""%string;
  node ← get "origin_node_id"%string as_string ""%string; app ← get "origin_app_id"%string as_string ""%string;
  hops ← get "hop_limit"%string as_uint32 0; id ← get "request_id"%string as_string ""%string;
  ts ← get "timestamp"%string as_int64 0;
  Some {| dq_QueryHash := hash; dq_QueryType := type; dq_OriginNodeID := node; dq_OriginAppID := app;
          dq_HopLimit := hops; dq_RequestID := id; dq_Timestamp := ts |}.

Definition as_discoveryResponse (v : json) : option DResponse :=
  ms ← members v;
  let get {A} n (read : json -> A -> option A) zero :=
    collect ["node_id"; "app_id"; "opaque_token"; "display_hint"; "match_type"; "token_expires"]%string n read ms zero in
  node ← get "node_id"%string as_string ""%string; app ← get "app_id"%string as_string ""%string;
  token ← get "opaque_token"%string as_string ""%string; hint ← get "display_hint"%string as_string ""%string;
  type ← get "match_type"%string as_string ""%string; exp ← get "token_expires"%string as_int64 0;
  Some {| dn_NodeID := node; dn_AppID := app; dn_OpaqueToken := token; dn_DisplayHint := hint; dn_MatchType := type;
          dn_TokenExpires := exp |}.

Definition as_connectRequest (v : json) : option ConnectRequest :=
  ms ← members v;
  let get n := collect ["opaque_token"; "origin_node_id"; "origin_app_id"; "request_id"]%string n as_string ms ""%string in
  token ← get "opaque_token"%string; node ← get "origin_node_id"%string; app ← get "origin_app_id"%string;
  id ← get "request_id"%string;
  Some {| cq_OpaqueToken := token; cq_OriginNodeID := node; cq_OriginAppID := app; cq_RequestID := id |}.

Definition as_connectAck (v : json) : option ConnectAck :=
  ms ← members v;
  let get {A} n (read : json -> A -> option A) zero :=
    collect ["status"; "session_id"; "expires_at"; "reason"]%string n read ms zero in
  status ← get "status"%string as_string ""%string; session ← get "session_id"%string as_string ""%string;
  exp ← get "expires_at"%string as_int64 0; reason ← get "reason"%string as_string ""%string;
  Some {| ca_Status := status; ca_SessionID := session; ca_ExpiresAt := exp; ca_Reason := reason |}.

Definition as_peerEntry (v : json) : option PeerEntry :=
  ms ← members v;
  let get {A} n (read : json -> A -> option A) zero :=
    collect ["node_id"; "addr"; "node_scope"; "region"; "last_seen"]%string n read ms zero in
  node ← get "node_id"%string as_string ""%string; addr ← get "addr"%string as_string ""%string;
  scope ← get "node_scope"%string as_string ""%string; region ← get "region"%string as_string ""%string;
  seen ← get "last_seen"%string as_int64 0;
  Some {| pe_NodeID := node; pe_Addr := addr; pe_NodeScope := scope; pe_Region := region; pe_LastSeen := seen |}.

(** A slice of peers, nil and empty alike. *)
Definition as_peers (v : json) (old : list PeerEntry) : option (list PeerEntry) :=
  match v with JArr l => as_elems as_peerEntry l | JNull => Some [] | _ => None end.

Definition as_peerListRequest (v : json) : option PeerListRequest :=
  ms ← members v;
  node ← collect ["sender_node_id"; "known_peers"]%string "sender_node_id"%string as_string ms ""%string;
  peers ← collect ["sender_node_id"; "known_peers"]%string "known_peers"%string as_peers ms [];
  Some {| pl_SenderNodeID := node; pl_KnownPeers := peers |}.

Definition as_peerListResponse (v : json) : option (list PeerEntry) :=
  ms ← members v; collect ["peers"%string] "peers"%string as_peers ms [].

(** ** The codec *)

Definition requestJSON (req : AnyRequest) : json :=
  match req with
  | SendEnvelopeReq e => JObj [("envelope"%string, struct (envelopeStruct e))]
  | GetNodeInfoReq => JObj []
  | RootHashReq m => rootHashJSON m
  | DiscoveryReq r => discoveryRequestJSON r
  | ConnectReq r => connectRequestJSON r
  | PeerListReq r => peerListRequestJSON r
  end.

Definition responseJSON (res : AnyResponse) : json :=
  match res with
  | SendEnvelopeRes r => sendEnvelopeResponseJSON r
  | GetNodeInfoRes n => nodeInfoJSON n
  | RootHashAckRes b => rootHashAckJSON b
  | DiscoveryRes r => discoveryResponseJSON r
  | ConnectAckRes a => connectAckJSON a
  | PeerListRes l => peerListResponseJSON l
  end.

(** The request a method decodes a value to. *)
Definition as_request (name : string) (v : json) : option AnyRequest :=
  if str_eqb name "SendEnvelope" then
    ms ← members v; SendEnvelopeReq <$> collect ["envelope"%string] "envelope"%string as_envelope ms zeroEnvelope
  else if str_eqb name "GetNodeInfo" then _ ← members v; Some GetNodeInfoReq
  else if str_eqb name "ShareRootHash" then RootHashReq <$> as_rootHash v
  else if str_eqb name "BroadcastDiscovery" then DiscoveryReq <$> as_discoveryRequest v
  else if str_eqb name "Connect" then ConnectReq <$> as_connectRequest v
  else if str_eqb name "ExchangePeers" then PeerListReq <$> as_peerListRequest v
  else None.

(** The response a client's method decodes a value to. *)
Definition as_response (req : AnyRequest) (v : json) : option AnyResponse :=
  match req with
  | SendEnvelopeReq _ => SendEnvelopeRes <$> as_sendEnvelopeResponse v
  | GetNodeInfoReq => GetNodeInfoRes <$> as_nodeInfo v
  | RootHashReq _ => RootHashAckRes <$> as_rootHashAck v
  | DiscoveryReq _ => DiscoveryRes <$> as_discoveryResponse v
  | ConnectReq _ => ConnectAckRes <$> as_connectAck v
  | PeerListReq _ => PeerListRes <$> as_peerListResponse v
  end.

Definition jsonCodec : MessageCodec := {|
  mc_decode := fun name text => v ← unmarshal text; as_request name v;
  mc_encode := fun req => render (requestJSON req) |}.

(** A call over the network: the client's text to the server, the server's text back.
    [None] is a call that finds no method, or a response that does not decode. *)
Definition remoteCall {S E} (svc : GatewayService S E) (req : AnyRequest) (s : S)
  : option (outcome (RpcError E) AnyResponse) * S :=
  match clientCall (invokeNode svc jsonCodec) jsonCodec req s with
  | (Some (Ok res), s') =>
      (match unmarshal (render (responseJSON res)) ≫= as_response req with Some r => Some (Ok r) | None => None end, s')
  | (Some (Err e), s') => (Some (Err e), s')
  | (None, s') => (None, s')
  end.
End Decode.

(** ** Messages as Go can hold them, with valid UTF-8 in their strings *)

Definition peer_ok (p : PeerEntry) : Prop :=
  Forall utf8 [pe_NodeID p; pe_Addr p; pe_NodeScope p; pe_Region p] /\ in_i64 (pe_LastSeen p).

Definition request_ok (req : AnyRequest) : Prop :=
  match req with
  | SendEnvelopeReq e => envelope_ok e
  | GetNodeInfoReq => True
  | RootHashReq m => Forall utf8 [rh_NodeID m; rh_RootHash m] /\ in_i64 (rh_Timestamp m)
  | DiscoveryReq r =>
      Forall utf8 [dq_QueryHash r; dq_QueryType r; dq_OriginNodeID r; dq_OriginAppID r; dq_RequestID r]
      /\ in_u32 (dq_HopLimit r) /\ in_i64 (dq_Timestamp r)
  | ConnectReq r => Forall utf8 [cq_OpaqueToken r; cq_OriginNodeID r; cq_OriginAppID r; cq_RequestID r]
  | PeerListReq r => utf8 (pl_SenderNodeID r) /\ Forall peer_ok (pl_KnownPeers r)
  end.

Definition response_ok (res : AnyResponse) : Prop :=
  match res with
  | SendEnvelopeRes r => Forall utf8 [wr_Decision r; wr_Reason r; wr_Profile r; wr_NodeID r; wr_AuditRootHash r; wr_PeerAuditRootHash r]
  | GetNodeInfoRes n => Forall utf8 [ni_NodeID n; ni_NodeScope n; ni_Region n; ni_ApplicableLaw n; ni_Profile n]
  | RootHashAckRes _ => True
  | DiscoveryRes r =>
      Forall utf8 [dn_NodeID r; dn_AppID r; dn_OpaqueToken r; dn_DisplayHint r; dn_MatchType r] /\ in_i64 (dn_TokenExpires r)
  | ConnectAckRes a => Forall utf8 [ca_Status a; ca_SessionID a; ca_Reason a] /\ in_i64 (ca_ExpiresAt a)
  | PeerListRes l => Forall peer_ok l
  end.

(** What arrives: empty byte slices are nil. *)
Definition arrived (req : AnyRequest) : AnyRequest :=
  match req with
  | SendEnvelopeReq e => SendEnvelopeReq (received e)
  | RootHashReq m => RootHashReq {| rh_NodeID := rh_NodeID m; rh_RootHash := rh_RootHash m; rh_Timestamp := rh_Timestamp m;
                                    rh_Signature := nonempty_bytes (rh_Signature m) |}
  | _ => req
  end.

(** The responses a method gives. *)
Definition answers (req : AnyRequest) (res : AnyResponse) : Prop :=
  match req, res with
  | SendEnvelopeReq _, SendEnvelopeRes _ | GetNodeInfoReq, GetNodeInfoRes _ | RootHashReq _, RootHashAckRes _
  | DiscoveryReq _, DiscoveryRes _ | ConnectReq _, ConnectAckRes _ | PeerListReq _, PeerListRes _ => True
  | _, _ => False
  end.

Section RoundTrip.
Context `{UnicodeTables}.

(** Opens a list of facts about strings. *)
Ltac open_ok := repeat match goal with
  | H : Forall utf8 _ |- _ => let H' := fresh H in apply Forall_cons in H as [H' H]
  | H : _ /\ _ |- _ => destruct H
  end.

Lemma as_peerEntry_JSON p : peer_ok p -> as_peerEntry (peerEntryJSON p) = Some p.
Proof.
  intros [_ Hp]. unfold as_peerEntry, peerEntryJSON. cbv zeta. eapply bind_some; [reflexivity|].
  repeat read_struct_field. by destruct p.
Qed.

Lemma peerEntryJSON_wf p : peer_ok p -> json_wf (peerEntryJSON p).
Proof. intros [Hs Hp]. open_ok. struct_fields. Qed.

Lemma as_peers_JSON l : Forall peer_ok l -> as_elems as_peerEntry (peerEntryJSON <$> l) = Some l.
Proof. induction 1 as [|p l Hp Hl IH]; cbn [fmap list_fmap as_elems]; [done|]. by rewrite as_peerEntry_JSON, IH. Qed.

Lemma peers_wf l : Forall peer_ok l -> json_wf (JArr (peerEntryJSON <$> l)).
Proof. intros Hl. apply foldr_wf, Forall_fmap. eapply Forall_impl; [exact Hl|]. apply peerEntryJSON_wf. Qed.

Lemma requestJSON_wf req : request_ok req -> json_wf (requestJSON req).
Proof.
  destruct req as [e| |m|r|r|r]; cbn [request_ok requestJSON]; intros Hok.
  - cbn [json_wf foldr fst snd]. split_and!; [vm_compute; reflexivity| |done]. by apply envelopeStruct_wf.
  - done.
  - open_ok. struct_fields.
  - open_ok. struct_fields.
  - open_ok. struct_fields.
  - destruct Hok as [Hn Hp]. apply struct_wf. repeat constructor; try (by apply plain_utf8); [done|]. by apply peers_wf.
Qed.

Lemma responseJSON_wf res : response_ok res -> json_wf (responseJSON res).
Proof.
  destruct res as [r|n|b|r|a|l]; cbn [response_ok responseJSON]; intros Hok; open_ok; try (by struct_fields).
  apply struct_wf. repeat constructor; try (by apply plain_utf8). by apply peers_wf.
Qed.

Lemma as_request_JSON req : request_ok req -> as_request (methodName req) (requestJSON req) = Some (arrived req).
Proof.
  destruct req as [e| |m|r|r|r]; cbn [request_ok]; intros Hok; unfold as_request; cbn [methodName]; str_compute; cbn iota.
  - cbn [requestJSON members mbind option_bind collect]. rewrite bool_decide_eq_true_2 by (vm_compute; reflexivity).
    by rewrite as_envelope_struct.
  - reflexivity.
  - assert (as_rootHash (rootHashJSON m) = Some {| rh_NodeID := rh_NodeID m; rh_RootHash := rh_RootHash m;
      rh_Timestamp := rh_Timestamp m; rh_Signature := nonempty_bytes (rh_Signature m) |}) as Hm.
    { open_ok. unfold as_rootHash, rootHashJSON. cbv zeta. eapply bind_some; [reflexivity|]. repeat read_struct_field. reflexivity. }
    cbn [requestJSON]. by rewrite Hm.
  - assert (as_discoveryRequest (discoveryRequestJSON r) = Some r) as Hr.
    { open_ok. unfold as_discoveryRequest, discoveryRequestJSON. cbv zeta. eapply bind_some; [reflexivity|].
      repeat read_struct_field. by destruct r. }
    cbn [requestJSON]. by rewrite Hr.
  - assert (as_connectRequest (connectRequestJSON r) = Some r) as Hr.
    { unfold as_connectRequest, connectRequestJSON. cbv zeta. eapply bind_some; [reflexivity|]. repeat read_struct_field. by destruct r. }
    cbn [requestJSON]. by rewrite Hr.
  - assert (as_peerListRequest (peerListRequestJSON r) = Some r) as Hr.
    { destruct Hok as [_ Hp]. unfold as_peerListRequest, peerListRequestJSON. eapply bind_some; [reflexivity|].
      read_struct_field. eapply bind_some.
      { rewrite collect_settled by first [ vm_compute; reflexivity | apply (bool_decide_eq_true_1 _); vm_compute; reflexivity ].
        cbn [field_value]. str_compute. cbn iota. cbn [as_peers]. by apply as_peers_JSON. }
      by destruct r. }
    cbn [requestJSON]. by rewrite Hr.
Qed.

Lemma as_response_JSON req res : response_ok res -> answers req res -> as_response req (responseJSON res) = Some res.
Proof.
  intros Hok Ha. destruct req, res; try done; cbn [response_ok as_response responseJSON] in *; open_ok.
  - assert (as_sendEnvelopeResponse (sendEnvelopeResponseJSON r) = Some r) as ->; [|done].
    unfold as_sendEnvelopeResponse, sendEnvelopeResponseJSON. cbv zeta. eapply bind_some; [reflexivity|].
    repeat read_struct_field. by destruct r.
  - assert (as_nodeInfo (nodeInfoJSON n) = Some n) as ->; [|done].
    unfold as_nodeInfo, nodeInfoJSON. cbv zeta. eapply bind_some; [reflexivity|]. repeat read_struct_field. by destruct n.
  - match goal with |- context [as_discoveryResponse (discoveryResponseJSON ?x)] =>
      assert (as_discoveryResponse (discoveryResponseJSON x) = Some x) as ->; [|done]; rename x into res end.
    unfold as_discoveryResponse, discoveryResponseJSON. cbv zeta. eapply bind_some; [reflexivity|].
    repeat read_struct_field. by destruct res.
  - assert (as_connectAck (connectAckJSON a) = Some a) as ->; [|done].
    unfold as_connectAck, connectAckJSON. cbv zeta. eapply bind_some; [reflexivity|]. repeat read_struct_field. by destruct a.
  - assert (as_peerListResponse (peerListResponseJSON l) = Some l) as ->; [|done].
    unfold as_peerListResponse, peerListResponseJSON. eapply bind_some; [reflexivity|].
    rewrite collect_settled by first [ vm_compute; reflexivity | apply (bool_decide_eq_true_1 _); vm_compute; reflexivity ].
    cbn [field_value]. str_compute. cbn iota. cbn [as_peers]. by apply as_peers_JSON.
Qed.
End RoundTrip.

(** ** Remote calls *)

Lemma serviceCall_answers {S E} (svc : GatewayService S E) req s res :
  (serviceCall svc (arrived req) s).1 = Ok res -> answers req res.
Proof. destruct req; cbn; unfold answer; case_match; cbn; try done; by intros [= <-]. Qed.

(** What the client reads of an answer. *)
Definition heard `{UnicodeTables} {E} (req : AnyRequest) (r : outcome (RpcError E) AnyResponse)
  : option (outcome (RpcError E) AnyResponse) :=
  match r with
  | Ok res => match unmarshal (render (responseJSON res)) ≫= as_response req with Some r => Some (Ok r) | None => None end
  | Err e => Some (Err e)
  end.

(** A request arrives at the service whatever its answer is; the client then reads
    the answer's text. *)
Lemma remoteCall_reaches `{UnicodeTables} {S E} (svc : GatewayService S E) req s :
  request_ok req ->
  let r := serviceCall svc (arrived req) s in remoteCall svc req s = (heard req r.1, r.2).
Proof.
  intros Hreq r. unfold remoteCall, clientCall, invokeNode. rewrite serveCall_found.
  cbn [mc_decode mc_encode jsonCodec]. rewrite unmarshal_render by by apply requestJSON_wf.
  cbn [mbind option_bind]. rewrite as_request_JSON by done.
  assert (methodOf svc req (Some (arrived req)) None s = r) as -> by (unfold r; destruct req; reflexivity).
  by destruct r as [[res|e] s'].
Qed.

Lemma heard_ok `{UnicodeTables} {E} req res :
  response_ok res -> answers req res -> heard (E := E) req (Ok res) = Some (Ok res).
Proof.
  intros Hok Ha. unfold heard. rewrite unmarshal_render by by apply responseJSON_wf. cbn [mbind option_bind].
  by rewrite as_response_JSON.
Qed.

(** C19: A remote call is a call of the service.  Through the JSON text of its request and
    of its answer, with the path, the table and the decoders in between, every method
    of the client returns what the service's method of the same name returns for the
    request, and leaves the service as that method does; a request only loses the
    difference between an empty and a nil byte slice. *)
Theorem remote_calls_faithful `{UnicodeTables} {S E} (svc : GatewayService S E) req s :
  request_ok req ->
  let r := serviceCall svc (arrived req) s in
  (forall res, r.1 = Ok res -> response_ok res) ->
  remoteCall svc req s = (Some r.1, r.2).
Proof.
  intros Hreq r Hres. rewrite remoteCall_reaches by done. fold r. f_equal.
  pose proof (serviceCall_answers svc req s) as Ha. fold r in Ha. destruct r.1 as [res|e]; [|done].
  apply heard_ok; auto.
Qed.

(** ** Witness *)

(** A service that answers with its name, and counts its calls. *)
Definition counting_service : GatewayService Z unit := {|
  svc_SendEnvelope := fun e n => (Ok {| wr_Decision := "ALLOW"; wr_Reason := we_SchemaType e; wr_Profile := ""; wr_NodeID := "n";
                                        wr_AuditRootHash := ""; wr_PeerAuditRootHash := "" |}, n + 1);
  svc_GetNodeInfo := fun n => (Err (), n + 1);
  svc_ShareRootHash := fun m n => (Ok (str_eqb (rh_NodeID m) "n"), n + 1);
  svc_BroadcastDiscovery := fun r n => (Ok {| dn_NodeID := dq_OriginNodeID r; dn_AppID := ""; dn_OpaqueToken := "";
                                            dn_DisplayHint := ""; dn_MatchType := "NONE"; dn_TokenExpires := 0 |}, n + 1);
  svc_Connect := fun r n => (Ok {| ca_Status := "PENDING"; ca_SessionID := cq_RequestID r; ca_ExpiresAt := n; ca_Reason := "" |}, n + 1);
  svc_ExchangePeers := fun r n => (Ok (pl_KnownPeers r), n + 1) |}.

Definition demo_peer_list : AnyRequest :=
  PeerListReq {| pl_SenderNodeID := "rs-node-01"; pl_KnownPeers :=
    [{| pe_NodeID := "ru-node-01"; pe_Addr := "ru:7777"; pe_NodeScope := "regional"; pe_Region := "RU"; pe_LastSeen := 1700000000 |}] |}.

Lemma remote_calls_faithful_witness :
  remoteCall counting_service demo_peer_list 4
  = (Some (Ok (PeerListRes [{| pe_NodeID := "ru-node-01"; pe_Addr := "ru:7777"; pe_NodeScope := "regional"; pe_Region := "RU";
                               pe_LastSeen := 1700000000 |}])), 5).
Proof.
  assert (peer_ok {| pe_NodeID := "ru-node-01"; pe_Addr := "ru:7777"; pe_NodeScope := "regional"; pe_Region := "RU";
                     pe_LastSeen := 1700000000 |}) as Hp.
  { split; [repeat constructor; by apply plain_utf8|vm_compute; split; congruence]. }
  apply (remote_calls_faithful counting_service demo_peer_list 4).
  - split; [by apply plain_utf8|]. constructor; [exact Hp|constructor].
  - intros res [= <-]. constructor; [exact Hp|constructor].
Defined.

Example remote_calls_ex :
  (remoteCall counting_service (SendEnvelopeReq (demo_signed "hi")) 0).2 = 1
  /\ (remoteCall counting_service GetNodeInfoReq 0).1 = Some (Err (ServiceError ()))
  /\ (remoteCall counting_service (RootHashReq {| rh_NodeID := "n"; rh_RootHash := "r"; rh_Timestamp := 5; rh_Signature := None |}) 0).1
     = Some (Ok (RootHashAckRes true)).
Proof. vm_compute. done. Qed.
