(* ===== verification/AdapterDiscovery.v ===== *)
(** * BroadcastDiscovery (package [internal/transport/grpc], [adapter.go])

    The handler of a discovery request: rate limit, isolation policy, fan-out to
    the peers, search of the node's own users.  While it asks its peers the
    handler holds no lock, and a peer may call this node again before the answer
    arrives: the handler works on a world [V] that holds the state of this node
    (read and written through [get] and [put]) and of whatever the peers change. *)

From S2P Require Import Prelude GoStrings GoCrypto Core Config Crl Store AuditLog Policy Dedup Transit Delivery Gateway Session Token Identity Connect PeerDiscovery Discovery RateLimit Adapter.

(** The gRPC status of a request over the limit. *)
Inductive DiscoveryError := ResourceExhausted (node : string).

(** The zero [DiscoveryResponse]. *)
Definition noMatch : DResponse :=
  {| dn_NodeID := ""; dn_AppID := ""; dn_OpaqueToken := ""; dn_DisplayHint := ""; dn_MatchType := "";
     dn_TokenExpires := 0 |}.

(** What one call reads from the outside: the clock at the limiter, at the
    staleness check, at the deduplication and when a token is issued and its
    expiry computed; the random bytes of each token it issues; the order in which
    Go visits the applications (twice), the users and the peers. *)
Record DiscoveryEnv := {
  de_limit : Z; de_stale : Z; de_dedup : Z; de_issue : Z; de_expires : Z;
  de_rand : nat -> option string;
  de_apps : list (string * AppConfig);
  de_users : list (string * string * UserConfig);
  de_peers : list (string * string) }.

(** The visits are orders of the maps they visit. *)
Definition visits (cfg : Config) (peers : gmap string string) (d : DiscoveryEnv) : Prop :=
  de_apps d ≡ₚ map_to_list (cfg_Apps cfg)
  /\ de_users d ≡ₚ (map_to_list (cfg_Apps cfg) ≫= fun app =>
       (fun u => (app.1, u.1, u.2)) <$> map_to_list (ac_Users app.2))
  /\ de_peers d ≡ₚ map_to_list peers.

Section State.
Context {B F W : Type}.

Definition with_limiter (l : Limiter) (st : AdapterState B F W) : AdapterState B F W :=
  {| as_gw := as_gw st; as_seqRecv := as_seqRecv st; as_peerCache := as_peerCache st;
     as_tokenStore := as_tokenStore st; as_peerRegistry := as_peerRegistry st; as_seen := as_seen st;
     as_limiter := Some l |}.

Definition with_seen (i : Index) (st : AdapterState B F W) : AdapterState B F W :=
  {| as_gw := as_gw st; as_seqRecv := as_seqRecv st; as_peerCache := as_peerCache st;
     as_tokenStore := as_tokenStore st; as_peerRegistry := as_peerRegistry st; as_seen := Some i;
     as_limiter := as_limiter st |}.

(** A callback that acts on the world of the gateway's callbacks. *)
Definition on_world (f : W -> W) (st : AdapterState B F W) : AdapterState B F W :=
  with_gw {| gs_policy := gs_policy (as_gw st); gs_crl := gs_crl (as_gw st); gs_audit := gs_audit (as_gw st);
             gs_dedup := gs_dedup (as_gw st); gs_fwd := gs_fwd (as_gw st);
             gs_world := f (gs_world (as_gw st)) |} st.

(** The rate limit: whether the request may go on. *)
Definition limitDiscovery (a : GatewayAdapter W) (now : Z) (node : string) (st : AdapterState B F W)
  : bool * AdapterState B F W :=
  match as_limiter st with
  | None => (true, st)
  | Some l =>
      let (ok, l') := Allow now node l in
      let st' := with_limiter l' st in
      (ok, if ok then st' else match ga_metrics a with Some inc => on_world inc st' | None => st' end)
  end.

Definition tokenTTLOf (cfg : Config) : Z :=
  let ttl := nc_DiscoveryTokenTTL (cfg_Node cfg) in
  if ttl <=? 0 then 5 * Minute else ttl.

(** The search of the node's own users: the first one for which a token can
    be issued answers. *)
Fixpoint searchUsers (cfg : Config) (now nowE : Z) (rand : nat -> option string) (node : string)
    (users : list (string * string * UserConfig)) (ts : TokenStore) : DResponse * TokenStore :=
  match users with
  | [] => (noMatch, ts)
  | (appID, _, u) :: rest =>
      let ttl := tokenTTLOf cfg in
      match Issue (rand O) now appID node ttl ts with
      | (None, ts') => searchUsers cfg now nowE (fun i => rand (S i)) node rest ts'
      | (Some tok, ts') =>
          ({| dn_NodeID := nc_NodeID (cfg_Node cfg); dn_AppID := appID; dn_OpaqueToken := tok;
              dn_DisplayHint := uc_DisplayHint u; dn_MatchType := "exact";
              dn_TokenExpires := UnixMilli (nowE + ttl) |}, ts')
      end
  end.

(** [NewAdapterWithDiscovery] with the state the dependencies start from. *)
Definition NewAdapterWithDiscovery (gw : Gateway W) (gst : GwState B F W) (verifyKey : option string)
    (peerCache : option PeerCache) (tokens : option TokenStore) (peers : option (gmap string string * Index))
    (res : option Resolver) (hasPolicy : bool) (registry : option PeerRegistry) (limiter : option Limiter)
    (metrics : option (W -> W)) (cfg : Config) : GatewayAdapter W * AdapterState B F W :=
  ({| ga_gw := gw; ga_verifyKey := verifyKey; ga_connectRes := res; ga_nodeCfg := cfg;
      ga_peers := default ∅ (fst <$> peers); ga_hasPolicy := hasPolicy; ga_metrics := metrics |},
   {| as_gw := gst; as_seqRecv := NewTracker; as_peerCache := peerCache; as_tokenStore := tokens;
      as_peerRegistry := registry; as_seen := snd <$> peers; as_limiter := limiter |}).
End State.

Section BroadcastDiscovery.
Context `{UnicodeTables} {B F W V : Type}.
Context (get : V -> AdapterState B F W) (put : AdapterState B F W -> V -> V).
Context (ask : string -> DRequest -> V -> option DResponse * V).

(** The isolation policy, on the first application Go visits. *)
Definition isolated (a : GatewayAdapter W) (d : DiscoveryEnv) (e : Engine) (req : DRequest) : bool :=
  ga_hasPolicy a
  && str_eqb (res_Decision (EvaluateDiscovery e
       {| dr_OriginAppID := dq_OriginAppID req;
          dr_NodeAppID := match de_apps d with [] => "" | (app, _) :: _ => app end |})) DecisionDeny.

Definition fanOut (d : DiscoveryEnv) (req : DRequest) (v : V) : list DResponse * V :=
  match as_seen (get v) with
  | None => ([], v)
  | Some _ =>
      Broadcast ask (fun v => default (NewIndex 0) (as_seen (get v))) (fun i v => put (with_seen i (get v)) v)
        (de_stale d) (de_dedup d) (de_peers d) req v
  end.

Definition BroadcastDiscovery (a : GatewayAdapter W) (d : DiscoveryEnv) (req : DRequest) (v : V)
  : outcome DiscoveryError DResponse * V :=
  match as_tokenStore (get v) with
  | None => (Ok noMatch, v)
  | Some _ =>
      let (ok, st1) := limitDiscovery a (de_limit d) (dq_OriginNodeID req) (get v) in
      let v1 := put st1 v in
      if negb ok then (Err (ResourceExhausted (dq_OriginNodeID req)), v1) else
      if isolated a d (gs_policy (as_gw st1)) req then (Ok noMatch, v1) else
      let (forwarded, v2) := fanOut d req v1 in
      match forwarded with
      | r :: _ => (Ok r, v2)
      | [] =>
          match as_tokenStore (get v2) with
          | None => (Ok noMatch, v2)
          | Some ts =>
              let (r, ts') := searchUsers (ga_nodeCfg a) (de_issue d) (de_expires d) (de_rand d)
                                (dq_OriginNodeID req) (de_users d) ts in
              (Ok r, put (with_tokens ts' (get v2)) v2)
          end
      end
  end.
End BroadcastDiscovery.

(** ** Lemmas *)

Section DiscoveryLemmas.
Context `{UnicodeTables} {B F W V : Type}.
Context (get : V -> AdapterState B F W) (put : AdapterState B F W -> V -> V).

(** Nobody can tell two ways to ask apart that agree on the forwarded request. *)
Lemma askAll_ext (ask1 ask2 : string -> DRequest -> V -> option DResponse * V) forward addrs v :
  (forall addr v, ask1 addr forward v = ask2 addr forward v) ->
  askAll ask1 forward addrs v = askAll ask2 forward addrs v.
Proof.
  intros Heq. revert v. induction addrs as [|addr addrs IH]; intros v; cbn; [done|].
  rewrite Heq. destruct (ask2 addr forward v) as [resp v1]. by rewrite IH.
Qed.

Lemma BroadcastDiscovery_ext (ask1 ask2 : string -> DRequest -> V -> option DResponse * V) a d req v :
  (dq_HopLimit req <> 0 -> forall addr v, ask1 addr (nextHop req) v = ask2 addr (nextHop req) v) ->
  BroadcastDiscovery get put ask1 a d req v = BroadcastDiscovery get put ask2 a d req v.
Proof.
  intros Heq. unfold BroadcastDiscovery. destruct (as_tokenStore (get v)); [|done].
  destruct (limitDiscovery a (de_limit d) (dq_OriginNodeID req) (get v)) as [ok st1]. cbn zeta.
  destruct (negb ok); [done|]. destruct (isolated _ _ _ _); [done|].
  assert (fanOut get put ask1 d req (put st1 v) = fanOut get put ask2 d req (put st1 v)) as ->; [|done].
  unfold fanOut. destruct (as_seen (get (put st1 v))); [|done]. unfold Broadcast.
  destruct (stale _ _); [done|]. destruct (SeenOrAdd _ _ _) as [[] idx1]; [done|].
  destruct (dq_HopLimit req =? 0) eqn:E; [done|]. go_bool. by apply askAll_ext, Heq.
Qed.

(** What every step of the handler keeps, the handler keeps: the steps that
    leave the index of seen requests alone, and the fan-out. *)
Lemma BroadcastDiscovery_keeps (ask : string -> DRequest -> V -> option DResponse * V) (P : V -> Prop) a d req v :
  P v -> (forall st v, as_seen st = as_seen (get v) -> P v -> P (put st v)) ->
  (forall v, P v -> P (fanOut get put ask d req v).2) ->
  P (BroadcastDiscovery get put ask a d req v).2.
Proof.
  intros Hv Hput Hfan. unfold BroadcastDiscovery. destruct (as_tokenStore (get v)); [|done].
  assert (as_seen (limitDiscovery a (de_limit d) (dq_OriginNodeID req) (get v)).2 = as_seen (get v)) as Hs.
  { unfold limitDiscovery. destruct (as_limiter (get v)); [|done].
    destruct (Allow _ _ _) as [[] l']; [done|]. by destruct (ga_metrics a). }
  destruct (limitDiscovery a (de_limit d) (dq_OriginNodeID req) (get v)) as [ok st1]. cbn zeta. cbn [snd] in Hs.
  pose proof (Hput st1 v Hs Hv) as H1. destruct (negb ok); [done|]. destruct (isolated _ _ _ _); [done|].
  pose proof (Hfan _ H1) as H2. destruct (fanOut get put ask d req (put st1 v)) as [[|r rs] v2]; [|done].
  cbn [snd] in H2. destruct (as_tokenStore (get v2)); [|done]. destruct (searchUsers _ _ _ _ _ _ _) as [r ts'].
  cbn [snd]. apply Hput; done.
Qed.

(** The answer of the local search is a token of the store for the requester. *)
Lemma searchUsers_issued (cfg : Config) now nowE rand node users ts :
  (searchUsers cfg now nowE rand node users ts).1 <> noMatch ->
  exists appID u ts0 raw, (appID, u) ∈ ((fun x => (x.1.1, x.2)) <$> users)
    /\ (searchUsers cfg now nowE rand node users ts).2 = (Issue (Some raw) now appID node (tokenTTLOf cfg) ts0).2
    /\ (searchUsers cfg now nowE rand node users ts).1
       = {| dn_NodeID := nc_NodeID (cfg_Node cfg); dn_AppID := appID; dn_OpaqueToken := hex_encode raw;
            dn_DisplayHint := uc_DisplayHint u; dn_MatchType := "exact";
            dn_TokenExpires := UnixMilli (nowE + tokenTTLOf cfg) |}.
Proof.
  revert rand ts. induction users as [|[[appID user] u] rest IH]; intros rand ts; cbn; [done|].
  destruct (rand O) as [raw|] eqn:Er; cbn.
  - intros _. exists appID, u, ts, raw. split; [by left|]. done.
  - intros Hn. destruct (IH (fun i => rand (S i)) ts Hn) as (app & u' & ts0 & raw & Hin & H1 & H2).
    exists app, u', ts0, raw. split; [by right|]. done.
Qed.
End DiscoveryLemmas.

Section DiscoveryProperties.
Context `{UnicodeTables} {B F W V : Type}.
Context (get : V -> AdapterState B F W) (put : AdapterState B F W -> V -> V).
Context (get_put : forall s v, get (put s v) = s).
Context (ask : string -> DRequest -> V -> option DResponse * V).
Implicit Types (a : GatewayAdapter W) (d : DiscoveryEnv) (v : V).

(** The request passes the limiter and the isolation policy. *)
Definition admitted a d req v : bool :=
  (limitDiscovery a (de_limit d) (dq_OriginNodeID req) (get v)).1
  && negb (isolated a d (gs_policy (as_gw (limitDiscovery a (de_limit d) (dq_OriginNodeID req) (get v)).2)) req).

(** The world in which the peers are asked. *)
Definition admittedWorld a d req v : V :=
  put (limitDiscovery a (de_limit d) (dq_OriginNodeID req) (get v)).2 v.

(** No peer had an answer: the node searches its own users. *)
Lemma BroadcastDiscovery_local a d req v ts :
  is_Some (as_tokenStore (get v)) -> admitted a d req v = true ->
  (fanOut get put ask d req (admittedWorld a d req v)).1 = [] ->
  as_tokenStore (get (fanOut get put ask d req (admittedWorld a d req v)).2) = Some ts ->
  let found := searchUsers (ga_nodeCfg a) (de_issue d) (de_expires d) (de_rand d) (dq_OriginNodeID req)
                 (de_users d) ts in
  (BroadcastDiscovery get put ask a d req v).1 = Ok found.1
  /\ get (BroadcastDiscovery get put ask a d req v).2
     = with_tokens found.2 (get (fanOut get put ask d req (admittedWorld a d req v)).2).
Proof.
  unfold admitted, admittedWorld, BroadcastDiscovery. intros [ts0 ->].
  destruct (limitDiscovery a (de_limit d) (dq_OriginNodeID req) (get v)) as [[] st1]; cbn zeta; cbn [fst snd negb andb];
    [|done].
  destruct (isolated _ _ _ _); cbn [negb]; [done|]. intros _.
  destruct (fanOut get put ask d req (put st1 v)) as [fw v2]. cbn [fst snd]. intros -> ->.
  destruct (searchUsers _ _ _ _ _ _ _) as [r ts']. cbn [fst snd]. by rewrite get_put.
Qed.

(** Without a store there is no answer. *)
Lemma BroadcastDiscovery_storeless a d req v :
  admitted a d req v = true -> (fanOut get put ask d req (admittedWorld a d req v)).1 = [] ->
  as_tokenStore (get (fanOut get put ask d req (admittedWorld a d req v)).2) = None ->
  (BroadcastDiscovery get put ask a d req v).1 = Ok noMatch.
Proof.
  unfold admitted, admittedWorld, BroadcastDiscovery. destruct (as_tokenStore (get v)); [|done].
  destruct (limitDiscovery a (de_limit d) (dq_OriginNodeID req) (get v)) as [[] st1]; cbn zeta; cbn [fst snd negb andb];
    [|done].
  destruct (isolated _ _ _ _); cbn [negb]; [done|]. intros _.
  destruct (fanOut get put ask d req (put st1 v)) as [fw v2]. cbn [fst snd]. by intros -> ->.
Qed.

(** A request that is not admitted. *)
Lemma BroadcastDiscovery_refused a d req v :
  admitted a d req v = false ->
  (BroadcastDiscovery get put ask a d req v).1 = Ok noMatch
  \/ (BroadcastDiscovery get put ask a d req v).1 = Err (ResourceExhausted (dq_OriginNodeID req)).
Proof.
  unfold admitted, BroadcastDiscovery. destruct (as_tokenStore (get v)); [|by left].
  destruct (limitDiscovery a (de_limit d) (dq_OriginNodeID req) (get v)) as [[] st1]; cbn zeta; cbn [fst snd negb andb];
    [|by right].
  destruct (isolated _ _ _ _); [by left|done].
Qed.

Lemma limitDiscovery_tokens a now node (st : AdapterState B F W) :
  as_tokenStore (limitDiscovery a now node st).2 = as_tokenStore st.
Proof.
  unfold limitDiscovery. destruct (as_limiter st); [|done]. destruct (Allow now node l) as [[] l']; [done|].
  by destruct (ga_metrics a).
Qed.

(** What the fan-out itself leaves unchanged when it contacts nobody. *)
Lemma fanOut_silent d req v :
  stale (de_stale d) req = true ->
  fanOut get put ask d req v = ([], v).
Proof.
  intros Hs. unfold fanOut. destruct (as_seen (get v)); [|done]. unfold Broadcast. by rewrite Hs.
Qed.

(** Discovery leads to a connection, for the node that asked and for no
    other.  When the peers have no answer and the node answers from its own users,
    the token of the answer is in its store, bound to the application of the answer
    and to the requesting node: until its time to live ends a connect request of that
    node with it is decided by the resolver for that application, and a connect
    request of any other node is denied and does not use the token up. *)
Theorem discovery_then_connect `{Ed25519} `{NodeStore B} `{CoreForwarder F} a d req v r later nowM nowA uuid creq :
  is_Some (as_tokenStore (get v)) -> admitted a d req v = true ->
  (fanOut get put ask d req (admittedWorld a d req v)).1 = [] ->
  (BroadcastDiscovery get put ask a d req v).1 = Ok r -> r <> noMatch ->
  later <= de_issue d + tokenTTLOf (ga_nodeCfg a) -> cq_OpaqueToken creq = dn_OpaqueToken r ->
  let st := get (BroadcastDiscovery get put ask a d req v).2 in
  let ack := Connect a later nowM nowA uuid creq st in
  (cq_OriginNodeID creq = dq_OriginNodeID req ->
     ca_Status ack.1 = match ga_connectRes a with
       | None => StatusPending
       | Some res => ResolveConnect res {| cr_OriginNodeID := cq_OriginNodeID creq;
           cr_OriginAppID := cq_OriginAppID creq; cr_RecipientAppID := dn_AppID r;
           cr_MutualDiscovery := match as_tokenStore ack.2 with
             | Some ts => HasActiveToken nowM (cq_OriginNodeID creq) ts | None => false end |}
       end)
  /\ (cq_OriginNodeID creq <> dq_OriginNodeID req ->
     ack.1 = deniedAck "token not issued for this node" /\ as_tokenStore ack.2 = as_tokenStore st).
Proof.
  intros Hts Had Hf Hr Hn Hl Ht.
  destruct (as_tokenStore (get (fanOut get put ask d req (admittedWorld a d req v)).2)) as [ts|] eqn:Ets.
  2: { rewrite BroadcastDiscovery_storeless in Hr by done. congruence. }
  destruct (BroadcastDiscovery_local a d req v ts Hts Had Hf Ets) as [Hr' Hst]. rewrite Hr in Hr'. injection Hr' as ->.
  destruct (searchUsers_issued _ _ _ _ _ _ _ Hn) as (app & u & ts0 & raw & _ & Hts' & Hans).
  cbn zeta. rewrite Hst, Hans in *. cbn [dn_OpaqueToken dn_AppID] in *.
  set (ts1 := (Issue _ _ _ _ _ _).2) in Hts'. rewrite Hts'.
  assert (Resolve later (cq_OpaqueToken creq) ts1 = (Some (app, dq_OriginNodeID req), ts1)) as Hres.
  { rewrite Ht. unfold Resolve, ts1. cbn. rewrite lookup_insert_eq. cbn.
    by rewrite (proj2 (Z.ltb_ge _ _)) by done. }
  unfold Connect, connectLookup. cbn [as_tokenStore with_tokens]. rewrite Hres. split.
  - intros Ho. rewrite (proj2 (str_eqb_eq _ _) (eq_sym Ho)). cbn [negb fst snd with_tokens as_tokenStore].
    apply connectAnswer_status.
  - intros Hne. rewrite (proj2 (str_eqb_neq _ _)) by congruence. done.
Qed.

(** Staleness stops the fan-out, not the answer.  A request older than thirty
    seconds is not forwarded, and this node still searches its own users and issues a
    token for it: the answer and the tokens issued are those of a node without peers. *)
Theorem stale_request_answered a d req v ts :
  stale (de_stale d) req = true -> as_tokenStore (get v) = Some ts -> admitted a d req v = true ->
  let found := searchUsers (ga_nodeCfg a) (de_issue d) (de_expires d) (de_rand d) (dq_OriginNodeID req)
                 (de_users d) ts in
  (BroadcastDiscovery get put ask a d req v).1 = Ok found.1
  /\ as_tokenStore (get (BroadcastDiscovery get put ask a d req v).2) = Some found.2.
Proof.
  intros Hs Hts Had. cbn zeta.
  destruct (BroadcastDiscovery_local a d req v ts) as [Hr Hst]; [done|done| | |].
  - by rewrite fanOut_silent.
  - rewrite fanOut_silent by done. unfold admittedWorld. cbn [snd]. by rewrite get_put, limitDiscovery_tokens.
  - by rewrite Hr, Hst.
Qed.
End DiscoveryProperties.
