(* ===== verification/DiscoveryNet.v ===== *)
(** * The discovery flood

    [BroadcastDiscovery] calls its peers, which call theirs: the handlers of
    [AdapterDiscovery] composed through the client ([client.go]), the fan-out
    ([discovery.go]) and the handler of the node that is called ([adapter.go]).
    The network is a map from addresses to nodes; a call at an address nobody
    serves fails.  Calls nest, so the recursion is bounded by fuel; running out of
    it is recorded, and shown never to happen when there is one unit more than
    hops. *)

From S2P Require Import Prelude GoStrings GoCrypto Core Config Crl Store AuditLog Policy Dedup Transit Delivery Gateway Session Token Identity Connect PeerDiscovery Discovery RateLimit Adapter AdapterDiscovery.

Section Net.
Context `{UnicodeTables} {B F W : Type}.

(** The nodes that listen, and what their calls read from the outside: [env
    addr i] for the [i]-th call made in the network, at [addr]. *)
Context (nodes : gmap string (GatewayAdapter W)) (env : string -> nat -> DiscoveryEnv).

(** The states of the nodes, the calls made so far, and whether fuel ran out. *)
Record Net := {
  nt_state : gmap string (AdapterState B F W);
  nt_calls : list (string * DRequest);
  nt_cut : bool }.

Definition stateAt (addr : string) (dflt : AdapterState B F W) (n : Net) : AdapterState B F W :=
  default dflt (nt_state n !! addr).

Definition setAt (addr : string) (st : AdapterState B F W) (n : Net) : Net :=
  {| nt_state := <[addr := st]> (nt_state n); nt_calls := nt_calls n; nt_cut := nt_cut n |}.

Definition logCall (addr : string) (req : DRequest) (n : Net) : Net :=
  {| nt_state := nt_state n; nt_calls := nt_calls n ++ [(addr, req)]; nt_cut := nt_cut n |}.

Definition cut (n : Net) : Net := {| nt_state := nt_state n; nt_calls := nt_calls n; nt_cut := true |}.

(** [dialer] and [discoveryClientAdapter.BroadcastDiscovery]: dial the address,
    call the node there; an error of the handler is an error of the call. *)
Fixpoint callNode (fuel : nat) (addr : string) (req : DRequest) (n : Net) : option DResponse * Net :=
  match fuel with
  | O => (None, cut n)
  | S fuel' =>
      match nodes !! addr, nt_state n !! addr with
      | Some a, Some st =>
          match BroadcastDiscovery (stateAt addr st) (setAt addr) (callNode fuel') a
                  (env addr (length (nt_calls n))) req (logCall addr req n) with
          | (Ok r, n') => (Some r, n')
          | (Err _, n') => (None, n')
          end
      | _, _ => (None, n)
      end
  end.

(** ** Termination *)

(** Two amounts of fuel that both exceed the hops left are the same. *)
Lemma callNode_fuel f1 f2 addr req n :
  in_u32 (dq_HopLimit req) -> dq_HopLimit req < Z.of_nat f1 -> dq_HopLimit req < Z.of_nat f2 ->
  callNode f1 addr req n = callNode f2 addr req n.
Proof.
  revert f2 addr req n. induction f1 as [|f1 IH]; intros [|f2] addr req n Hu H1 H2; [unfold in_u32 in Hu; lia..|].
  cbn [callNode]. destruct (nodes !! addr) as [a|]; [|done]. destruct (nt_state n !! addr) as [st|]; [|done].
  rewrite (BroadcastDiscovery_ext _ _ (callNode f1) (callNode f2)); [done|]. intros Hn addr' n'.
  destruct (nextHop_limit req Hu Hn) as [Hh Hu']. apply IH; [done|lia..].
Qed.

(** With more fuel than hops nothing is cut off. *)
Lemma callNode_uncut f addr req n :
  in_u32 (dq_HopLimit req) -> dq_HopLimit req < Z.of_nat f -> nt_cut (callNode f addr req n).2 = nt_cut n.
Proof.
  revert addr req n. induction f as [|f IH]; intros addr req n Hu Hf; [unfold in_u32 in Hu; lia|].
  cbn [callNode]. destruct (nodes !! addr) as [a|]; [|done]. destruct (nt_state n !! addr) as [st|]; [|done].
  pose proof (BroadcastDiscovery_keeps (stateAt addr st) (setAt addr) (callNode f) (fun n' => nt_cut n' = nt_cut n) a
    (env addr (length (nt_calls n))) req (logCall addr req n)) as Hk.
  destruct (BroadcastDiscovery _ _ _ _ _ _ _) as [[r|e] n']; cbn [snd] in *; apply Hk; clear Hk; try done.
  all: intros n0 Hn0; unfold fanOut; destruct (as_seen _); [|done]; unfold Broadcast; destruct (stale _ _); [done|].
  all: destruct (SeenOrAdd _ _ _) as [[] idx1]; [done|]; destruct (dq_HopLimit req =? 0) eqn:E; [done|]; go_bool.
  all: destruct (nextHop_limit req Hu E) as [Hh Hu']; rewrite askAll_keeps with (P := fun n' => nt_cut n' = nt_cut n).
  all: done || (intros; rewrite IH; done || lia).
Qed.

(** ** The number of calls *)

(** The request of the flood, and a window of time for the deduplication. *)
Context (rid : string) (lo hi : Z).

(** What the environment of the flood promises: the clocks of the
    deduplication stay in the window, and each visit of the peer map is a visit of
    it. *)
Definition env_ok : Prop :=
  forall addr a i, nodes !! addr = Some a ->
    lo <= de_dedup (env addr i) < hi /\ de_peers (env addr i) ≡ₚ map_to_list (ga_peers a).

(** The indexes remember a request for the whole window. *)
Definition index_ok (idx : Index) : Prop := length (dx_shards idx) = numShards /\ hi - lo <= dx_ttl idx.

Definition net_ok (n : Net) : Prop :=
  forall addr st idx, nt_state n !! addr = Some st -> as_seen st = Some idx -> index_ok idx.

Definition registered (idx : Index) : bool :=
  match expiry idx rid with Some e => hi <=? e | None => false end.

(** The calls a node may still make for the request. *)
Definition budget1 (a : GatewayAdapter W) (st : AdapterState B F W) : nat :=
  match as_seen st with Some idx => if registered idx then O else size (ga_peers a) | None => O end.

Definition budgetAt (n : Net) (kv : string * GatewayAdapter W) : nat :=
  match nt_state n !! kv.1 with Some st => budget1 kv.2 st | None => O end.

Definition budget (n : Net) : nat := sum_list_with (budgetAt n) (map_to_list nodes).

Lemma sum_list_with_perm {A} (f : A -> nat) l1 l2 : l1 ≡ₚ l2 -> sum_list_with f l1 = sum_list_with f l2.
Proof. induction 1; cbn; lia. Qed.

Lemma budget_set addr a st st' n :
  nodes !! addr = Some a -> nt_state n !! addr = Some st ->
  (budget (setAt addr st' n) + budget1 a st = budget n + budget1 a st')%nat.
Proof.
  intros Ha Hs. unfold budget.
  pose proof (map_to_list_insert (delete addr nodes) addr a (lookup_delete_eq _ _)) as Hp.
  rewrite insert_delete_id in Hp by done.
  rewrite !(sum_list_with_perm _ _ _ Hp). cbn [sum_list_with].
  unfold budgetAt at 1 3. cbn. rewrite lookup_insert_eq, Hs.
  assert (sum_list_with (budgetAt (setAt addr st' n)) (map_to_list (delete addr nodes))
          = sum_list_with (budgetAt n) (map_to_list (delete addr nodes))) as ->; [|lia].
  assert (Forall (fun kv => kv.1 <> addr) (map_to_list (delete addr nodes))) as Hall.
  { apply Forall_forall. intros [k v] Hin%elem_of_map_to_list. cbn. intros ->. by rewrite lookup_delete_eq in Hin. }
  clear Hp.   induction Hall as [|[k v] l Hk Hall IH]; [done|]. cbn [sum_list_with]. rewrite IH.
  assert (budgetAt (setAt addr st' n) (k, v) = budgetAt n (k, v)) as ->; [|done].
  unfold budgetAt. cbn in *. by rewrite lookup_insert_ne.
Qed.

Lemma SeenOrAdd_registers now idx seen idx' :
  index_ok idx -> lo <= now < hi -> SeenOrAdd now rid idx = (seen, idx') ->
  index_ok idx' /\ if seen then idx' = idx else registered idx = false /\ registered idx' = true.
Proof.
  intros [Hl Ht] Hn. unfold SeenOrAdd. cbn zeta. unfold registered at 1. unfold expiry.
  destruct (match _ with Some exp => now <? exp | None => false end) eqn:E; intros [= <- <-]; [done|].
  split; [split; cbn; [by rewrite length_insert|done]|]. split.
  - destruct (entriesOf idx (shardFor rid) !! rid) as [e|]; [|done]. go_bool. apply Z.leb_gt. lia.
  - unfold registered, expiry, entriesOf. cbn. rewrite list_lookup_insert_eq by (rewrite Hl; apply shardFor_lt).
    cbn. rewrite lookup_insert_eq. apply Z.leb_le. lia.
Qed.

(** What a call keeps: the nodes, their indexes' shape, and the sum of the
    calls made and the calls still possible. *)
Definition within (D : gset string) (k : nat) (n : Net) : Prop :=
  dom (nt_state n) = D /\ net_ok n /\ (length (nt_calls n) + budget n <= k)%nat.

Lemma within_set D k addr a st st' n :
  nodes !! addr = Some a -> nt_state n !! addr = Some st ->
  (forall idx, as_seen st' = Some idx -> index_ok idx) ->
  within D k n -> within D (k + budget1 a st' - budget1 a st) (setAt addr st' n).
Proof.
  intros Ha Hs Hix (Hd & Hok & Hk). pose proof (budget_set addr a st st' n Ha Hs) as Hb. split_and!.
  - cbn. rewrite dom_insert_L. assert (addr ∈ dom (nt_state n)) by (apply elem_of_dom; eauto). set_solver.
  - intros addr' st0 idx. cbn. intros [[<- <-]|[Hne H0]]%lookup_insert_Some; eauto.
  - change (nt_calls (setAt addr st' n)) with (nt_calls n). lia.
Qed.

Lemma within_mono D k k' n : (k <= k')%nat -> within D k n -> within D k' n.
Proof. intros Hk (Hd & Hok & Hb). split_and!; [done|done|lia]. Qed.

(** A node of the network has a state as long as the nodes stay the same. *)
Lemma stateAt_some D addr dflt k n :
  addr ∈ D -> within D k n -> nt_state n !! addr = Some (stateAt addr dflt n).
Proof.
  intros Hin (<- & _ & _). apply elem_of_dom in Hin as [st Hst]. unfold stateAt. by rewrite Hst.
Qed.

(** The fan-out of a node spends what its index registers. *)
Lemma fanOut_within ask D k addr a dflt i req n :
  env_ok -> dq_RequestID req = rid -> nodes !! addr = Some a -> addr ∈ D ->
  (forall addr' k n, within D k n -> within D (S k) (ask addr' (nextHop req) n).2) ->
  within D k n -> within D k (fanOut (stateAt addr dflt) (setAt addr) ask (env addr i) req n).2.
Proof.
  intros Henv Hrid Ha HD Hask Hn. destruct (Henv addr a i Ha) as [Hclk Hperm].
  pose proof (stateAt_some D addr dflt k n HD Hn) as Hst. pose proof Hn as (_ & Hok & _).
  unfold fanOut. destruct (as_seen (stateAt addr dflt n)) as [idx|] eqn:Es; [|done].
  unfold Broadcast. destruct (stale _ _); [done|]. rewrite Es. cbn [default]. unfold id. rewrite Hrid.
  destruct (SeenOrAdd (de_dedup (env addr i)) rid idx) as [seen idx'] eqn:Ea.
  destruct (SeenOrAdd_registers _ _ _ _ (Hok _ _ _ Hst Es) Hclk Ea) as [Hix Hreg].
  pose proof (within_set D k addr a _ (with_seen idx' (stateAt addr dflt n)) n Ha Hst) as Hset.
  unfold budget1 in Hset. rewrite Es in Hset. cbn [with_seen as_seen] in Hset.
  specialize (Hset ltac:(intros ? [= <-]; done) Hn). destruct seen.
  { subst idx'. eapply within_mono; [|exact Hset]. lia. }
  destruct Hreg as [Hr0 Hr1]. rewrite Hr0, Hr1 in Hset.
  destruct (dq_HopLimit req =? 0); [eapply within_mono; [|exact Hset]; lia|].
  assert (size (ga_peers a) <= k)%nat as Hle.
  { destruct Hn as (_ & _ & Hb). pose proof (budget_set addr a _ (with_seen idx' (stateAt addr dflt n)) n Ha Hst) as Hb'.
    unfold budget1 in Hb'. rewrite Es in Hb'. cbn [with_seen as_seen] in Hb'. rewrite Hr0, Hr1 in Hb'. lia. }
  assert (forall addrs m k, within D k m -> within D (k + length addrs) (askAll ask (nextHop req) addrs m).2) as Hall.
  { induction addrs as [|x addrs IH]; intros m k' Hm; cbn; [by rewrite Nat.add_0_r|].
    pose proof (Hask x k' m Hm) as H1. destruct (ask x (nextHop req) m) as [resp m1]. cbn [snd] in H1.
    pose proof (IH m1 _ H1) as H2. destruct (askAll ask (nextHop req) addrs m1) as [rs m2]. cbn [snd] in *.
    eapply within_mono; [|exact H2]. lia. }
  eapply within_mono; [|apply Hall, Hset]. rewrite length_fmap, Hperm.
  rewrite length_map_to_list. lia.
Qed.

(** One call costs one, and leaves the rest to the budget. *)
Lemma callNode_within f D k addr req n :
  env_ok -> dq_RequestID req = rid -> within D k n -> within D (S k) (callNode f addr req n).2.
Proof.
  intros Henv. revert k addr req n. induction f as [|f IH]; intros k addr req n Hrid Hn.
  { cbn. destruct Hn as (Hd & Hok & Hb). split_and!; [done|done|]. cbn. change (budget (cut n)) with (budget n). lia. }
  cbn [callNode]. destruct (nodes !! addr) as [a|] eqn:Ha; [|by apply (within_mono D k (S k)); [lia|]].
  destruct (nt_state n !! addr) as [st|] eqn:Hst; [|by apply (within_mono D k (S k)); [lia|]].
  assert (addr ∈ D) as HD by (destruct Hn as (<- & _ & _); apply elem_of_dom; eauto).
  assert (within D (S k) (logCall addr req n)) as Hlog.
  { destruct Hn as (Hd & Hok & Hb). split_and!; [done|done|]. cbn. rewrite length_app. cbn.
    change (budget (logCall addr req n)) with (budget n). lia. }
  pose proof (BroadcastDiscovery_keeps (stateAt addr st) (setAt addr) (callNode f) (within D (S k)) a
    (env addr (length (nt_calls n))) req (logCall addr req n) Hlog) as Hk.
  destruct (BroadcastDiscovery _ _ _ _ _ _ _) as [[r|e] n']; cbn [snd] in *; apply Hk; clear Hk.
  all: try (intros n0 Hn0; apply fanOut_within with (a := a); try done; intros; by apply IH).
  all: intros st' n0 Hs Hn0; pose proof (stateAt_some D addr st _ _ HD Hn0) as Hst0.
  all: eapply within_mono; [|apply (within_set D (S k) addr a _ st' n0 Ha Hst0); [|done]].
  all: try (unfold budget1; rewrite Hs; lia).
  all: intros idx Hidx; destruct Hn0 as (_ & Hok & _); eapply Hok; [exact Hst0|congruence].
Qed.

(** ** Properties *)

(** C25: A discovery flood terminates, whatever the topology of the network,
    cycles included.  The nested calls end within one level more than the hops of the
    request: with that much fuel nothing is ever cut off, and more fuel changes
    neither the answer nor the state of any node. *)
Theorem flood_terminates f addr req n :
  in_u32 (dq_HopLimit req) -> dq_HopLimit req < Z.of_nat f ->
  nt_cut (callNode f addr req n).2 = nt_cut n
  /\ forall f', dq_HopLimit req < Z.of_nat f' -> callNode f' addr req n = callNode f addr req n.
Proof.
  intros Hu Hf. split; [by apply callNode_uncut|]. intros f' Hf'. by apply callNode_fuel.
Qed.

(** A flood is linear in the network.  The indexes of seen requests
    make every node fan a request out at most once: as long as the flood fits into the
    time the indexes remember a request, the number of calls it makes is at most one
    more than the peer entries of the nodes whose index does not have it yet,
    however many hops the request has and however often it comes back. *)
Theorem flood_bounded f addr req n :
  env_ok -> net_ok n -> dq_RequestID req = rid ->
  (length (nt_calls (callNode f addr req n).2) <= length (nt_calls n) + 1 + budget n)%nat
  /\ (budget n <= sum_list_with (fun kv => size (ga_peers kv.2)) (map_to_list nodes))%nat.
Proof.
  intros Henv Hok Hrid. split.
  - pose proof (callNode_within f (dom (nt_state n)) (length (nt_calls n) + budget n) addr req n Henv Hrid) as Hw.
    destruct Hw as (_ & _ & Hb); [by split_and!|]. lia.
  - unfold budget. induction (map_to_list nodes) as [|[k a] l IH]; cbn; [lia|].
    enough (budgetAt n (k, a) <= size (ga_peers a))%nat by lia. unfold budgetAt, budget1. cbn.
    destruct (nt_state n !! k); [|lia]. destruct (as_seen _); [|lia]. destruct (registered _); lia.
Qed.
End Net.

(** ** A network with a cycle: three nodes that all know each other *)

Definition demo_users : gmap string AppConfig :=
  {[ "chat"%string := {| ac_WebhookURL := ""; ac_WebhookSecret := ""; ac_WebhookTimeout := 0; ac_AutoAccept := "manual";
        ac_Users := {[ "u1"%string := {| uc_DisplayHint := "Ana"; uc_Region := "RS" |} ]} |} ]}.

Definition demo_disc_cfg : Config :=
  let c := demo_cfg in
  {| cfg_Node := cfg_Node c; cfg_Profile := cfg_Profile c; cfg_Policy := cfg_Policy c; cfg_Network := cfg_Network c;
     cfg_TLS := cfg_TLS c; cfg_API := cfg_API c; cfg_Storage := cfg_Storage c;
     cfg_SchemaRegistry := cfg_SchemaRegistry c; cfg_Apps := demo_users |}.

Definition demo_disc_node (peers : list (string * string)) : GatewayAdapter (list string) :=
  {| ga_gw := demo_gateway demo_cfg; ga_verifyKey := None; ga_connectRes := Some (demo_resolver "AUTO_ALL");
     ga_nodeCfg := demo_disc_cfg; ga_peers := list_to_map peers; ga_hasPolicy := true; ga_metrics := None |}.

Definition demo_nodes : gmap string (GatewayAdapter (list string)) :=
  list_to_map [("a", demo_disc_node [("B", "b"); ("C", "c")]); ("b", demo_disc_node [("A", "a"); ("C", "c")]);
               ("c", demo_disc_node [("A", "a"); ("B", "b")])]%string.

Definition demo_disc_env (a : GatewayAdapter (list string)) (i : nat) : DiscoveryEnv :=
  {| de_limit := 0; de_stale := 0; de_dedup := Z.of_nat (Nat.min i 100); de_issue := 0; de_expires := 0;
     de_rand := fun _ => Some (itoa (Z.of_nat i)); de_apps := map_to_list (cfg_Apps (ga_nodeCfg a));
     de_users := [("chat", "u1", {| uc_DisplayHint := "Ana"; uc_Region := "RS" |})]%string;
     de_peers := map_to_list (ga_peers a) |}.

Definition demo_net_env (addr : string) (i : nat) : DiscoveryEnv :=
  demo_disc_env (default (demo_disc_node []) (demo_nodes !! addr)) i.

Definition demo_net : Net (B := unit) (F := FwdState Z) (W := list string) :=
  {| nt_state := (fun _ => demo_adapter_state) <$> demo_nodes; nt_calls := []; nt_cut := false |}.

Definition demo_flood : DRequest :=
  {| dq_QueryHash := "h"; dq_QueryType := "display_hint"; dq_OriginNodeID := "ru-node-01"; dq_OriginAppID := "chat";
     dq_HopLimit := 20; dq_RequestID := "req-1"; dq_Timestamp := 0 |}.

(** Twenty hops, three nodes: seven calls. *)
Example demo_flood_calls :
  (fst <$> nt_calls (callNode demo_nodes demo_net_env 21 "a" demo_flood demo_net).2)
  = ["a"; "c"; "a"; "b"; "c"; "a"; "b"]%string.
Proof. vm_compute. reflexivity. Qed.

Lemma flood_terminates_witness :
  nt_cut (callNode demo_nodes demo_net_env 21 "a" demo_flood demo_net).2 = false.
Proof.
  refine (proj1 (flood_terminates demo_nodes demo_net_env 21 "a" demo_flood demo_net _ _)).
  - split; vm_compute; [discriminate|reflexivity].
  - vm_compute. reflexivity.
Defined.

Lemma flood_bounded_witness :
  (length (nt_calls (callNode demo_nodes demo_net_env 21 "a" demo_flood demo_net).2) <= 7)%nat.
Proof.
  eapply Nat.le_trans.
  - refine (proj1 (flood_bounded demo_nodes demo_net_env "req-1" 0 (30 * Second) 21 "a" demo_flood demo_net _ _ _)).
    + intros addr a i Ha. unfold demo_net_env. rewrite Ha. clear. unfold demo_disc_env. cbn [default de_dedup de_peers].
      split; [unfold Second, Millisecond; lia|done].
    + intros addr st idx. unfold demo_net. cbn [nt_state]. rewrite lookup_fmap.
      destruct (demo_nodes !! addr); [|done]. intros [= <-] [= <-]. split; [done|]. vm_compute. discriminate.
    + reflexivity.
  - vm_compute. reflexivity.
Defined.

(** A node alone: no peer answers. *)
Notation demo_alone := (AdapterState unit (FwdState Z) (list string)).
Definition demo_silent (addr : string) (req : DRequest) (v : demo_alone) : option DResponse * demo_alone := (None, v).

Definition demo_answer : outcome DiscoveryError DResponse * demo_alone :=
  BroadcastDiscovery (fun v => v) (fun st _ => st) demo_silent (demo_disc_node [])
    (demo_disc_env (demo_disc_node []) 0) demo_flood demo_adapter_state.

Lemma discovery_then_connect_witness :
  ca_Status (Connect (demo_disc_node []) 1 1 1 "s" {| cq_OpaqueToken := hex_encode (itoa 0);
    cq_OriginNodeID := "ru-node-01"; cq_OriginAppID := "chat"; cq_RequestID := "r" |} demo_answer.2).1 = StatusAccepted.
Proof.
  refine (proj1 (discovery_then_connect (fun v => v) (fun st _ => st) (fun _ _ => eq_refl) demo_silent
    (demo_disc_node []) (demo_disc_env (demo_disc_node []) 0) demo_flood demo_adapter_state
    {| dn_NodeID := "rs-node-01"; dn_AppID := "chat"; dn_OpaqueToken := hex_encode (itoa 0); dn_DisplayHint := "Ana";
       dn_MatchType := "exact"; dn_TokenExpires := 300000 |} 1 1 1 "s" _ _ _ _ _ _ _ _) _).
  - eexists. reflexivity.
  - vm_compute. reflexivity.
  - vm_compute. reflexivity.
  - vm_compute. reflexivity.
  - discriminate.
  - vm_compute. discriminate.
  - reflexivity.
  - reflexivity.
Defined.

Lemma stale_request_answered_witness :
  (BroadcastDiscovery (fun v => v) (fun st _ => st) demo_silent (demo_disc_node [])
    {| de_limit := 0; de_stale := 31 * Second; de_dedup := 0; de_issue := 0; de_expires := 0;
       de_rand := fun _ => Some (itoa 0); de_apps := map_to_list demo_users;
       de_users := [("chat", "u1", {| uc_DisplayHint := "Ana"; uc_Region := "RS" |})]%string; de_peers := [] |}
    {| dq_QueryHash := "h"; dq_QueryType := "display_hint"; dq_OriginNodeID := "ru-node-01"; dq_OriginAppID := "chat";
       dq_HopLimit := 3; dq_RequestID := "req-1"; dq_Timestamp := 1 |} demo_adapter_state).1
  = Ok {| dn_NodeID := "rs-node-01"; dn_AppID := "chat"; dn_OpaqueToken := hex_encode (itoa 0);
          dn_DisplayHint := "Ana"; dn_MatchType := "exact"; dn_TokenExpires := 300000 |}.
Proof.
  refine (proj1 (stale_request_answered (fun v => v) (fun st _ => st) (fun _ _ => eq_refl) demo_silent
    (demo_disc_node []) _ _ demo_adapter_state demo_tokens _ _ _)).
  - vm_compute. reflexivity.
  - reflexivity.
  - vm_compute. reflexivity.
Defined.

(** The application that decides isolation is the first one Go happens to
    visit: a node with two applications may answer a request or drop it, depending on
    the order of its map. *)
Definition demo_two_apps : gmap string AppConfig :=
  <["pay"%string := {| ac_WebhookURL := ""; ac_WebhookSecret := ""; ac_WebhookTimeout := 0; ac_AutoAccept := "manual";
        ac_Users := ∅ |}]> demo_users.

Theorem isolation_depends_on_visit :
  let env apps := {| de_limit := 0; de_stale := 0; de_dedup := 0; de_issue := 0; de_expires := 0;
    de_rand := fun _ => None; de_apps := apps; de_users := []; de_peers := [] |} in
  let decide apps := isolated (demo_disc_node []) (env apps) (gs_policy (demo_gwstate demo_cfg)) demo_flood in
  decide (map_to_list demo_two_apps) <> decide (rev (map_to_list demo_two_apps)).
Proof. vm_compute. discriminate. Qed.
