(* ===== verification/Registry.v ===== *)
(** * The user registry (package [internal/registry])

    Local discovery of registered users and the connect requests of the HTTP API,
    with their one-time tokens.  New identifiers ([uuid.NewString]) and the order
    in which Go visits the configured users are arguments. *)

From S2P Require Import Prelude GoStrings Config.

Record DiscoveryResult := {
  ds_NodeID : string; ds_AppID : string; ds_UserID : string; ds_DisplayHint : string; ds_Region : string;
  ds_OpaqueToken : string; ds_TokenExpires : Z }.

Record ConnectResult := { cn_Status : string; cn_SessionID : string; cn_ExpiresAt : Z }.

Record regToken := { rt_appID : string; rt_userID : string; rt_expires : Z }.

Record Registry := { rg_cfg : Config; rg_tokens : gmap string regToken }.

Definition tokenTTL : Z := 5 * Minute.

Definition NewRegistry (cfg : Config) : Registry := {| rg_cfg := cfg; rg_tokens := ∅ |}.

Definition setTokens (ts : gmap string regToken) (r : Registry) : Registry :=
  {| rg_cfg := rg_cfg r; rg_tokens := ts |}.

Section Registry.
Context `{UnicodeTables}.

Definition userMatches (query queryType appID : string) (u : UserConfig) : bool :=
  if str_eqb queryType "app_id" then EqualFold appID query
  else StringsContains (ToLower (uc_DisplayHint u)) (ToLower query).

(** [visit]: the users in the order of the loops; [uuid i]: the [i]-th new token. *)
Fixpoint discoverLoop (now : Z) (uuid : nat -> string) (query queryType : string)
    (visit : list (string * string * UserConfig)) (r : Registry) : list DiscoveryResult * Registry :=
  match visit with
  | [] => ([], r)
  | (appID, userID, u) :: rest =>
      if negb (userMatches query queryType appID u) then discoverLoop now uuid query queryType rest r else
      let token := uuid O in
      let expires := now + tokenTTL in
      let r1 := setTokens (<[token := {| rt_appID := appID; rt_userID := userID; rt_expires := expires |}]>
                             (rg_tokens r)) r in
      let (results, r2) := discoverLoop now (fun i => uuid (S i)) query queryType rest r1 in
      ({| ds_NodeID := nc_NodeID (cfg_Node (rg_cfg r)); ds_AppID := appID; ds_UserID := userID;
          ds_DisplayHint := uc_DisplayHint u; ds_Region := uc_Region u; ds_OpaqueToken := token;
          ds_TokenExpires := Unix expires |} :: results, r2)
  end.

Definition Discover (now : Z) (uuid : nat -> string) (visit : list (string * string * UserConfig))
    (query queryType : string) (r : Registry) : list DiscoveryResult * Registry :=
  discoverLoop now uuid query queryType visit r.

Definition connectStatus (cfg : Config) (app : AppConfig) (requesterID requesterRegion : string) : string :=
  let autoAccept := if str_eqb (ac_AutoAccept app) "" then "manual"%string else ac_AutoAccept app in
  if str_eqb autoAccept "auto_all" then "ACCEPTED"
  else if str_eqb autoAccept "auto_mutual" then
    if existsb (fun region => EqualFold region requesterRegion) (op_AllowTo (pc_Outbound (cfg_Policy cfg)))
    then "ACCEPTED" else "PENDING"
  else if str_eqb autoAccept "auto_whitelist" then
    match ac_Users app !! requesterID with Some _ => "ACCEPTED" | None => "PENDING" end
  else "PENDING".

Definition denied : ConnectResult := {| cn_Status := "DENIED"; cn_SessionID := ""; cn_ExpiresAt := 0 |}.

(** [now] is read at the lookup, [nowS] for the session's expiry. *)
Definition RegistryConnect (now nowS : Z) (uuid : string) (opaqueToken requesterID requesterRegion : string)
    (r : Registry) : ConnectResult * Registry :=
  let r' := setTokens (delete opaqueToken (rg_tokens r)) r in
  match rg_tokens r !! opaqueToken with
  | None => (denied, r')
  | Some entry =>
      if rt_expires entry <? now then (denied, r') else
      match cfg_Apps (rg_cfg r) !! rt_appID entry with
      | None => (denied, r')
      | Some app =>
          ({| cn_Status := connectStatus (rg_cfg r) app requesterID requesterRegion; cn_SessionID := uuid;
              cn_ExpiresAt := Unix (nowS + 24 * Hour) |}, r')
      end
  end.

(** ** Lemmas *)

Lemma discoverLoop_keeps now uuid query qt visit r t e :
  rg_tokens r !! t = Some e -> (forall i, uuid i <> t) ->
  rg_tokens (discoverLoop now uuid query qt visit r).2 !! t = Some e.
Proof.
  revert uuid r. induction visit as [|[[a u] uc] rest IH]; intros uuid r Ht Hu; cbn; [done|].
  destruct (negb _); [by apply IH|]. cbn zeta.
  pose proof (IH (fun i => uuid (S i)) (setTokens (<[uuid O := {| rt_appID := a; rt_userID := u;
    rt_expires := now + tokenTTL |}]> (rg_tokens r)) r)) as IH'. cbn [rg_tokens setTokens] in IH'.
  destruct (discoverLoop _ _ _ _ _ _) as [res r2]. apply IH'; [|done]. by rewrite lookup_insert_ne.
Qed.

(** Every result carries a token that the registry holds for its user until it expires. *)
Theorem Discover_tokens now uuid visit query qt r :
  (forall i j, uuid i = uuid j -> i = j) ->
  Forall (fun d => exists e, rg_tokens (Discover now uuid visit query qt r).2 !! ds_OpaqueToken d = Some e
            /\ rt_appID e = ds_AppID d /\ rt_userID e = ds_UserID d
            /\ ds_TokenExpires d = Unix (rt_expires e) /\ rt_expires e = now + tokenTTL)
    (Discover now uuid visit query qt r).1.
Proof.
  unfold Discover. revert uuid r. induction visit as [|[[a u] uc] rest IH]; intros uuid r Hinj; cbn; [constructor|].
  destruct (negb _); [by apply IH|]. cbn zeta.
  set (r1 := setTokens _ r). pose proof (IH (fun i => uuid (S i)) r1) as IH'.
  pose proof (discoverLoop_keeps now (fun i => uuid (S i)) query qt rest r1 (uuid O)
    {| rt_appID := a; rt_userID := u; rt_expires := now + tokenTTL |}) as Hk.
  destruct (discoverLoop _ _ _ _ _ _) as [res r2]. cbn [fst snd] in *. constructor.
  - eexists. split; [apply Hk|done].
    + unfold r1. cbn. by rewrite lookup_insert_eq.
    + intros i Heq%Hinj. lia.
  - apply IH'. intros i j Heq%Hinj. lia.
Qed.

(** A token is good for one connect request: whatever the first request with
    it was answered, any later one is denied until discovery issues it again. *)
Theorem RegistryConnect_once now nowS uuid t who region r now' nowS' uuid' who' region' :
  (RegistryConnect now' nowS' uuid' t who' region' (RegistryConnect now nowS uuid t who region r).2).1 = denied.
Proof.
  assert (rg_tokens (RegistryConnect now nowS uuid t who region r).2 !! t = None) as Hn.
  { unfold RegistryConnect. cbn zeta. case_guards; cbn; apply lookup_delete_eq. }
  unfold RegistryConnect at 1. by rewrite Hn.
Qed.
End Registry.
