(* ===== verification/Inbox.v ===== *)
(** * The inbox (package [internal/inbox])

    The fan-out to server-sent-event subscribers: a buffered channel per
    subscriber, and a publisher that never blocks.  A channel is the queue of the
    events sent and not yet received. *)

From S2P Require Import Prelude Core.

Record Event := {
  ib_IdempotencyKey : string; ib_SenderRegion : string; ib_RecipientRegion : string; ib_TrustTier : Z;
  ib_Payload : bytes; ib_Timestamp : Z }.

Definition subBufSize : nat := 64.

Record Inbox := { ib_subs : gmap Z (list Event); ib_next : Z }.

Definition NewInbox : Inbox := {| ib_subs := ∅; ib_next := 0 |}.

Definition Subscribe (b : Inbox) : Z * Inbox :=
  (ib_next b, {| ib_subs := <[ib_next b := []]> (ib_subs b); ib_next := wrap_u64 (ib_next b + 1) |}).

Definition Unsubscribe (id : Z) (b : Inbox) : Inbox :=
  {| ib_subs := delete id (ib_subs b); ib_next := ib_next b |}.

(** [select { case c <- e: default: }] *)
Definition offer (e : Event) (c : list Event) : list Event :=
  if Nat.ltb (length c) subBufSize then c ++ [e] else c.

Definition Publish (e : Event) (b : Inbox) : Inbox :=
  {| ib_subs := offer e <$> ib_subs b; ib_next := ib_next b |}.

(** A subscriber receives the oldest event of its channel. *)
Definition receive (id : Z) (b : Inbox) : option Event * Inbox :=
  match ib_subs b !! id with
  | Some (e :: rest) => (Some e, {| ib_subs := <[id := rest]> (ib_subs b); ib_next := ib_next b |})
  | _ => (None, b)
  end.

(** Slow subscribers are bounded and do not disturb the others: a subscriber
    with room gets every event in order, a full one skips the newest. *)
Theorem Publish_fanout es b id c :
  ib_subs b !! id = Some c -> (length c <= subBufSize)%nat ->
  ib_subs (foldl (fun b e => Publish e b) b es) !! id = Some (c ++ take (subBufSize - length c) es).
Proof.
  revert b c. induction es as [|e es IH]; intros b c Hc Hl; cbn [foldl].
  - by rewrite take_nil, app_nil_r.
  - assert (ib_subs (Publish e b) !! id = Some (offer e c)) as Hp by (cbn; by rewrite lookup_fmap, Hc).
    unfold offer in Hp. destruct (Nat.ltb (length c) subBufSize) eqn:E.
    + apply Nat.ltb_lt in E. rewrite (IH _ _ Hp) by (rewrite length_app; cbn; lia).
      rewrite length_app. cbn [length]. replace (subBufSize - length c)%nat with (S (subBufSize - (length c + 1))) by lia.
      cbn [take]. by rewrite <- (assoc_L app).
    + apply Nat.ltb_ge in E. rewrite (IH _ _ Hp) by lia. by replace (subBufSize - length c)%nat with O by lia.
Qed.
