(* ===== verification/Callbacks.v ===== *)
(** * The callbacks of a running node (package [internal/app], wiring in [app.go])

    The node connects the gateway to its metrics, to the inbox of its event
    streams and to its webhooks.  The world of the gateway's callbacks is these
    three. *)

From S2P Require Import Prelude GoStrings GoCrypto Core Config Schema Crl Store AuditLog Policy Dedup Transit Delivery Gateway Metrics Inbox Webhook.

Record World := {
  wd_metrics : MetricsRegistry;
  wd_inbox : Inbox;
  wd_webhooks : list WebhookRequest }.

Definition on_metrics (f : MetricsRegistry -> MetricsRegistry) (w : World) : World :=
  {| wd_metrics := f (wd_metrics w); wd_inbox := wd_inbox w; wd_webhooks := wd_webhooks w |}.

Definition on_inbox (f : Inbox -> Inbox) (w : World) : World :=
  {| wd_metrics := wd_metrics w; wd_inbox := f (wd_inbox w); wd_webhooks := wd_webhooks w |}.

Definition inboxEvent (env : Envelope) : Event :=
  {| ib_IdempotencyKey := env_IdempotencyKey env; ib_SenderRegion := env_SenderRegion env;
     ib_RecipientRegion := env_RecipientRegion env; ib_TrustTier := env_TrustTier env;
     ib_Payload := env_Payload env; ib_Timestamp := env_Timestamp env |}.

(** The closure given to [SetOnAllow]. *)
Definition onAllow (env : Envelope) (w : World) : World :=
  on_inbox (Publish (inboxEvent env)) (on_metrics IncAllow w).

(** The requests [NotifyAll] starts for an envelope; [visit] is the order of
    the applications. *)
Definition startWebhooks (cfg : Config) (visit : list (string * AppConfig)) (env : Envelope) (w : World) : World :=
  {| wd_metrics := wd_metrics w; wd_inbox := wd_inbox w;
     wd_webhooks := wd_webhooks w ++ ((fun a => webhookRequest cfg a.1 a.2 env) <$> notified visit) |}.

(** [gw.SetOnDeny], [gw.SetOnDuplicate], [gw.SetOnAllow] and, with
    applications, [gw.SetNotifier]. *)
Definition wireCallbacks (visit : list (string * AppConfig)) (g : Gateway World) : Gateway World :=
  let g := SetOnAllow onAllow (SetOnDuplicate (on_metrics IncDuplicate) (SetOnDeny (fun r => on_metrics (IncDeny r)) g)) in
  if nonempty visit then SetNotifier (startWebhooks (gw_cfg g) visit) g else g.

(** ** The metrics are the audit log's *)

Definition countD {B} (d : string) (l : Log B) : Z :=
  Z.of_nat (length (base.filter (fun e => ae_Decision e = d) (log_entries l))).

(** The counters agree with the entries of the log. *)
Definition counted {B F} (st : GwState B F World) : Prop :=
  let m := wd_metrics (gs_world st) in
  mr_allowTotal m = countD DecisionAllow (gs_audit st)
  /\ mr_duplicateTotal m = countD DecisionDuplicate (gs_audit st)
  /\ denyTotal m = countD DecisionDeny (gs_audit st)
  /\ map_Forall (fun _ n => 0 <= n) (mr_denyByReason m).

Lemma countD_app {B} d (l l' : Log B) es :
  log_entries l' = log_entries l ++ es ->
  countD d l' = countD d l + Z.of_nat (length (base.filter (fun e => ae_Decision e = d) es)).
Proof. intros He. unfold countD. rewrite He, filter_app, length_app. lia. Qed.

(** A reason's counter is part of the total. *)
Lemma denyTotal_bound m r :
  map_Forall (fun _ n => 0 <= n) (mr_denyByReason m) -> 0 <= default 0 (mr_denyByReason m !! r) <= denyTotal m.
Proof.
  intros Hpos. unfold denyTotal. pose proof (sum_insert (mr_denyByReason m) r 0) as Hs.
  assert (forall m' : gmap string Z, map_Forall (fun _ n => 0 <= n) m' -> 0 <= sumZ (map_to_list m').*2) as Hnn.
  { intros m' Hm. apply sumZ_nonneg, Forall_fmap, Forall_forall. intros [k n] Hin%elem_of_map_to_list. by apply (Hm k). }
  assert (0 <= sumZ (map_to_list (<[r := 0]> (mr_denyByReason m))).*2) by (apply Hnn, map_Forall_insert_2; [cbn; lia|done]).
  assert (0 <= default 0 (mr_denyByReason m !! r)).
  { destruct (mr_denyByReason m !! r) eqn:E; cbn; [by eapply Hpos|lia]. }
  lia.
Qed.

Section Counting.
Context `{UnicodeTables} {B : Type} `{NodeStore B} {F : Type} `{CoreForwarder F}.
Implicit Types (st : GwState B F World).

Lemma filter_single d e :
  Z.of_nat (length (base.filter (fun e => ae_Decision e = d) [e])) = if str_eqb (ae_Decision e) d then 1 else 0.
Proof.
  destruct (str_eqb (ae_Decision e) d) eqn:E; go_bool.
  - by rewrite filter_cons_True.
  - by rewrite filter_cons_False.
Qed.

(** The finality entry, if there is one, counts for none of the three. *)
Lemma finality_uncounted (g : Gateway World) env final d :
  finality_only g env final -> d ∈ [DecisionAllow; DecisionDuplicate; DecisionDeny] ->
  length (base.filter (fun e => ae_Decision e = d) final) = O.
Proof.
  intros [->|(f & -> & Hf & _)] Hd; [done|]. rewrite filter_cons_False; [done|]. rewrite Hf.
  rewrite !elem_of_cons in Hd. destruct Hd as [->|[->|[->|Hd]]]; try discriminate. by apply not_elem_of_nil in Hd.
Qed.

(** What the callbacks do to the metrics for a decision. *)
Definition metrics_of (d : string) (reason : string) (m : MetricsRegistry) : MetricsRegistry :=
  if str_eqb d DecisionAllow then IncAllow m
  else if str_eqb d DecisionDuplicate then IncDuplicate m
  else if str_eqb d DecisionDeny then IncDeny reason m else m.

(** The step only appends to the log, and keeps the counters right as long as
    the number of entries fits 63 bits. *)
Definition counts_on (st st' : GwState B F World) : Prop :=
  (exists more, log_entries (gs_audit st') = log_entries (gs_audit st) ++ more)
  /\ (Z.of_nat (length (log_entries (gs_audit st'))) < 2 ^ 63 -> counted st -> counted st').

(** One decision entry, its callback and possibly a finality entry. *)
Lemma counted_step (g : Gateway World) st st' e final env reason :
  log_entries (gs_audit st') = log_entries (gs_audit st) ++ e :: final -> finality_only g env final ->
  wd_metrics (gs_world st') = metrics_of (ae_Decision e) reason (wd_metrics (gs_world st)) ->
  counts_on st st'.
Proof.
  intros Hlog Hfin Hm. split; [by eexists|]. intros Hmax (Hal & Hdu & Hde & Hpos).
  assert (Z.of_nat (length (log_entries (gs_audit st))) + 1 < 2 ^ 63) as Hmax'
    by (rewrite Hlog, length_app in Hmax; cbn in Hmax; lia).
  assert (forall d, 0 <= countD d (gs_audit st) <= Z.of_nat (length (log_entries (gs_audit st)))) as Hcnt.
  { intros d. unfold countD. pose proof (length_filter (fun e => ae_Decision e = d) (log_entries (gs_audit st))). lia. }
  assert (forall d, d ∈ [DecisionAllow; DecisionDuplicate; DecisionDeny] ->
    countD d (gs_audit st') = countD d (gs_audit st) + if str_eqb (ae_Decision e) d then 1 else 0) as Hstep.
  { intros d Hd. rewrite (countD_app _ _ _ _ Hlog). change (e :: final) with ([e] ++ final).
    rewrite filter_app, length_app, (finality_uncounted _ _ _ _ Hfin Hd), Nat.add_0_r. by rewrite filter_single. }
  assert (forall d, d ∈ [DecisionAllow; DecisionDuplicate; DecisionDeny] ->
    wrap_i64 (countD d (gs_audit st) + 1) = countD d (gs_audit st) + 1) as Hwrap.
  { intros d _. apply wrap_i64_id. pose proof (Hcnt d). unfold in_i64. lia. }
  assert (DecisionAllow ∈ [DecisionAllow; DecisionDuplicate; DecisionDeny]) as I1 by left.
  assert (DecisionDuplicate ∈ [DecisionAllow; DecisionDuplicate; DecisionDeny]) as I2 by (right; left).
  assert (DecisionDeny ∈ [DecisionAllow; DecisionDuplicate; DecisionDeny]) as I3 by (right; right; left).
  pose proof (denyTotal_bound _ reason Hpos) as Hb. pose proof (Hcnt DecisionDeny) as Hcd.
  unfold counted. cbv zeta. rewrite Hm, !Hstep by done. unfold metrics_of.
  destruct (str_eqb (ae_Decision e) DecisionAllow) eqn:E1.
  { go_bool. rewrite E1. str_compute. rewrite !Z.add_0_r. cbn. rewrite Hal, Hwrap by done. done. }
  destruct (str_eqb (ae_Decision e) DecisionDuplicate) eqn:E2.
  { go_bool. rewrite E2. str_compute. rewrite !Z.add_0_r. cbn. rewrite Hdu, Hwrap by done. done. }
  rewrite !Z.add_0_r. destruct (str_eqb (ae_Decision e) DecisionDeny) eqn:E3; [|by rewrite Z.add_0_r].
  split_and!; [done|done| |].
  - rewrite IncDeny_total by (unfold in_i64; lia). lia.
  - cbn. apply map_Forall_insert_2; [|done]. rewrite wrap_i64_id by (unfold in_i64; lia). lia.
Qed.

Lemma wired_duplicate cfg fwd visit (w : World) :
  match gw_onDuplicate (wireCallbacks visit (NewGateway cfg fwd)) with Some f => f w | None => w end = on_metrics IncDuplicate w.
Proof. unfold wireCallbacks. cbv zeta. by destruct (nonempty visit). Qed.

Lemma wired_deny cfg fwd visit r (w : World) :
  call (gw_onDeny (wireCallbacks visit (NewGateway cfg fwd))) r w = on_metrics (IncDeny r) w.
Proof. unfold wireCallbacks. cbv zeta. by destruct (nonempty visit). Qed.

Lemma wired_allow cfg fwd visit env (w : World) :
  wd_metrics (call (gw_notifier (wireCallbacks visit (NewGateway cfg fwd))) env
                (call (gw_onAllow (wireCallbacks visit (NewGateway cfg fwd))) env w)) = IncAllow (wd_metrics w).
Proof. unfold wireCallbacks. cbv zeta. by destruct (nonempty visit). Qed.

(** Every call of a wired gateway. *)
Lemma SendEnvelope_counts cfg fwd visit c req st :
  en_auditing (gs_policy st) = true ->
  counts_on st (SendEnvelope (wireCallbacks visit (NewGateway cfg fwd)) c req st).2.
Proof.
  intros Ha. set (g := wireCallbacks visit (NewGateway cfg fwd)).
  destruct (str_eqb (env_IdempotencyKey (sr_Envelope req)) "") eqn:Hk; go_bool.
  { rewrite SendEnvelope_empty by done. split; [|done]. exists []. by rewrite app_nil_r. }
  destruct (env_IsDummy (sr_Envelope req)) eqn:Hd.
  { destruct (SendEnvelope_dummy g c req st Hk Hd) as (_ & ->).
    eapply (counted_step g st _ _ [] (normalised req) ""); [apply Append_entries|by left|done]. }
  destruct (freshKey g c req st) eqn:Hf.
  2: { destruct (SendEnvelope_duplicate g c req st Hk Hd Hf) as (_ & Hlog & _ & Hw).
    eapply (counted_step g st _ _ [] (normalised req) "");
      [rewrite Hlog; apply Append_entries|by left|rewrite Hw; unfold g; by rewrite wired_duplicate]. }
  pose proof (SendEnvelope_fresh g c req st Hk Hd Hf) as Hfresh. cbn zeta in Hfresh.
  rewrite Evaluate_log in Hfresh. set (ev := (Evaluate _ _ _ _ _).1) in *.
  destruct (appendAudit_entries (ck_audit c) (gs_policy st) (en_cfg (gs_policy st)) ev
              (policyRequest (normalised req)) (gs_audit st) Ha) as (entry & He & Hdec & _).
  set (log := appendAudit _ _ _ _ _ _) in *.
  destruct Hfresh as [(Hallow & Hrest & Hw)|(Hdeny & _ & Hlog & _ & Hw)].
  - destruct (forwardAllowed _ _ _ _ _) as [[[ph f'] log']|] eqn:Efw.
    + destruct Hrest as (_ & Hlog & _). apply forwardAllowed_entries in Efw as (_ & final & He' & Hfin).
      eapply (counted_step g st _ entry final (normalised req) ""); [|done|].
      * by rewrite Hlog, He', He, <- (assoc_L app).
      * rewrite Hw. unfold g. by rewrite wired_allow, Hdec, Hallow.
    + destruct Hrest as [_ Hlog].
      eapply (counted_step g st _ entry [] (normalised req) ""); [by rewrite Hlog|by left|].
      rewrite Hw. unfold g. by rewrite wired_allow, Hdec, Hallow.
  - eapply (counted_step g st _ entry [] (normalised req) (res_Reason ev)); [by rewrite Hlog|by left|].
    rewrite Hw. unfold g. by rewrite wired_deny, Hdec, Hdeny.
Qed.
End Counting.

(** ** A wired node *)

Definition demo_node_world : World := {| wd_metrics := NewMetrics; wd_inbox := NewInbox; wd_webhooks := [] |}.

Definition demo_node_state (cfg : Config) : GwState unit (FwdState Z) World := {|
  gs_policy := gs_policy (demo_gwstate cfg); gs_crl := New; gs_audit := NewLog;
  gs_dedup := gs_dedup (demo_gwstate cfg); gs_fwd := demo_state; gs_world := demo_node_world |}.
