(* ===== verification/Forwarding.v ===== *)
(** * Forwarding to a peer (package [internal/app], the closure in [app.go], and [client.go])

    The function the delivery layer calls to send an envelope: it numbers and signs
    the envelope, sends it over a pooled connection and interprets the answer.  The
    gRPC connection is a parameter; two nodes joined by it are studied at the end. *)

From S2P Require Import Prelude GoStrings GoCrypto Core Config Crl Store AuditLog Policy Dedup Transit Delivery Gateway Session Token Identity Connect PeerDiscovery RateLimit Adapter.

(** The sequence counters and everything beyond the connections. *)
Record NodeNet (N : Type) := { nn_seqSend : Tracker; nn_net : N }.
Arguments Build_NodeNet {N}.
Arguments nn_seqSend {N}.
Arguments nn_net {N}.

Definition with_sequence (seq : Z) (e : Envelope) : Envelope := {|
  env_IdempotencyKey := env_IdempotencyKey e; env_SenderNodeID := env_SenderNodeID e;
  env_SenderIdentity := env_SenderIdentity e; env_RecipientIdentity := env_RecipientIdentity e;
  env_SenderRegion := env_SenderRegion e; env_RecipientRegion := env_RecipientRegion e;
  env_TrustTier := env_TrustTier e; env_SequenceNumber := seq;
  env_Payload := env_Payload e; env_PaddedTo := env_PaddedTo e; env_Timestamp := env_Timestamp e;
  env_Signature := env_Signature e; env_IsDummy := env_IsDummy e; env_SchemaType := env_SchemaType e;
  env_SchemaVersion := env_SchemaVersion e; env_RoutingHint := env_RoutingHint e |}.

Section Forwarding.
Context `{Ed25519} {N : Type}.
(** [connPool.Client]: the error of connecting, if any. *)
Context (connect : string -> N -> option string * N).
(** [client.SendEnvelope]: the response, or the error of the call. *)
Context (sendEnvelope : string -> WireEnvelope -> N -> (string + SendEnvelopeResponse) * N).

(** The request built for a signed envelope. *)
Definition forwardRequest (cfg : Config) (sig : bytes) (env : Envelope) : WireEnvelope := {|
  we_IdempotencyKey := env_IdempotencyKey env; we_SenderNodeID := nc_NodeID (cfg_Node cfg);
  we_SenderIdentity := env_SenderIdentity env; we_RecipientIdentity := env_RecipientIdentity env;
  we_SenderRegion := env_SenderRegion env; we_RecipientRegion := env_RecipientRegion env;
  we_TrustTier := env_TrustTier env; we_SequenceNumber := env_SequenceNumber env; we_Payload := env_Payload env;
  we_PaddedTo := env_PaddedTo env; we_Timestamp := env_Timestamp env; we_Signature := sig;
  we_IsDummy := env_IsDummy env; we_SchemaType := ""; we_SchemaVersion := ""; we_RoutingHint := "" |}.

(** The closure given to [NewForwarder]. *)
Definition forwardEnvelope (cfg : Config) (signingKey : ed_PrivateKey) (addr : string) (env : Envelope) (w : NodeNet N)
  : string * option FwdError * NodeNet N :=
  let (seq, tr) := NextSeq (env_RecipientRegion env) (nn_seqSend w) in
  let env := with_sequence seq env in
  let req := forwardRequest cfg (Sign signingKey env) env in
  match connect addr (nn_net w) with
  | (Some err, n) =>
      (""%string, Some (TransportError (append "connect to " (append addr (append ": " err)))), {| nn_seqSend := tr; nn_net := n |})
  | (None, n) =>
      match sendEnvelope addr req n with
      | (inl err, n') => (""%string, Some (TransportError err), {| nn_seqSend := tr; nn_net := n' |})
      | (inr resp, n') =>
          (if str_eqb (wr_Decision resp) "DENY"
           then (""%string, Some (TransportError (append "peer denied envelope: " (wr_Reason resp))))
           else (wr_AuditRootHash resp, None), {| nn_seqSend := tr; nn_net := n' |})
      end
  end.
End Forwarding.

(** ** A peer behind the connection

    [demo_peer] answers every call like the adapter of a node, whose environment at
    each call comes from a list. *)
Section Peer.
Context `{UnicodeTables} `{Ed25519} {B : Type} `{NodeStore B} {F : Type} `{CoreForwarder F} {W : Type}.
Context (a : GatewayAdapter W) (statusText : StatusError -> string).

Definition PeerNet : Type := list CallEnv * AdapterState B F W.

Definition peerConnect (addr : string) (n : PeerNet) : option string * PeerNet := (None, n).

Definition peerSend (addr : string) (e : WireEnvelope) (n : PeerNet) : (string + SendEnvelopeResponse) * PeerNet :=
  match n with
  | (c :: cs, st) =>
      match AdapterSend a c e st with
      | (Ok resp, st') => (inr resp, (cs, st'))
      | (Err err, st') => (inl (statusText err), (cs, st'))
      end
  | ([], st) => (inl "unavailable"%string, n)
  end.

(** What the peer makes of an envelope: its gateway's call on the wire envelope. *)
Lemma peerSend_gateway addr e c cs st :
  ga_verifyKey a = None ->
  peerSend addr e (c :: cs, st)
  = let '(res, g) := SendEnvelope (ga_gw a) c {| sr_Envelope := coreEnvelope e |} (as_gw st) in
    (match res with Ok r => inr (wireResponse r)
     | Err ErrEmptyIdempotencyKey => inl (statusText (InvalidArgument ErrEmptyIdempotencyKey))
     | Err err => inl (statusText (Internal err)) end,
     (cs, (AdapterSend a c e st).2)).
Proof.
  intros Hk. unfold peerSend, AdapterSend. cbv zeta. rewrite Hk. cbn [as_gw].
  by destruct (SendEnvelope _ _ _ _) as [[r|[]] g].
Qed.

Lemma AdapterSend_gw c e st :
  ga_verifyKey a = None ->
  as_gw (AdapterSend a c e st).2 = (SendEnvelope (ga_gw a) c {| sr_Envelope := coreEnvelope e |} (as_gw st)).2.
Proof.
  intros Hk. unfold AdapterSend. cbv zeta. rewrite Hk. cbn [as_gw]. by destruct (SendEnvelope _ _ _ _) as [[r|[]] g].
Qed.
End Peer.

(** ** Two attempts at one envelope *)

Section Retry.
Context `{UnicodeTables} `{Ed25519} {B : Type} `{NodeStore B} {F : Type} `{CoreForwarder F} {W : Type}.
Context (a : GatewayAdapter W) (statusText : StatusError -> string).

#[local] Notation attempt := (forwardEnvelope peerConnect (peerSend a statusText)).

(** The wire envelope of the attempt numbered [seq]. *)
Definition attempted (cfg : Config) (key : ed_PrivateKey) (env : Envelope) (seq : Z) : WireEnvelope :=
  forwardRequest cfg (Sign key (with_sequence seq env)) (with_sequence seq env).

Definition attemptRequest cfg key env seq : SendRequest := {| sr_Envelope := coreEnvelope (attempted cfg key env seq) |}.

(** The gateway's answer to an attempt is what the attempt reports. *)
Lemma attempt_answer cfg key addr env tr c cs (st : AdapterState B F W) r :
  ga_verifyKey a = None ->
  let seq := (NextSeq (env_RecipientRegion env) tr).1 in
  (SendEnvelope (ga_gw a) c (attemptRequest cfg key env seq) (as_gw st)).1 = Ok r ->
  exists w', attempt cfg key addr env {| nn_seqSend := tr; nn_net := (c :: cs, st) |}
    = (if str_eqb (rs_Decision r) "DENY"
       then (""%string, Some (TransportError (append "peer denied envelope: " (rs_Reason r))))
       else (rs_AuditRootHash r, None), w')
    /\ nn_seqSend w' = (NextSeq (env_RecipientRegion env) tr).2
    /\ exists st', nn_net w' = (cs, st')
       /\ as_gw st' = (SendEnvelope (ga_gw a) c (attemptRequest cfg key env seq) (as_gw st)).2.
Proof.
  intros Hk. cbv zeta. intros Hr. unfold forwardEnvelope. cbn [nn_seqSend nn_net].
  destruct (NextSeq _ tr) as [seq tr'] eqn:En. cbn [fst snd] in *. unfold peerConnect.
  rewrite (peerSend_gateway a statusText addr) by done. fold (attempted cfg key env seq).
  pose proof (AdapterSend_gw a c (attempted cfg key env seq) st Hk) as Hg.
  change {| sr_Envelope := coreEnvelope (attempted cfg key env seq) |} with (attemptRequest cfg key env seq) in *.
  destruct (SendEnvelope _ _ _ _) as [res g]. cbn [fst snd] in *. subst res.
  eexists. split; [reflexivity|]. cbn. eauto.
Qed.

(** An answered key is a duplicate until its window ends. *)
Lemma answered_then_duplicate (g : Gateway W) c1 c2 req1 req2 (st : GwState B F W) :
  index_wf (gs_dedup st) -> real req1 -> real req2 -> freshKey g c1 req1 st = true ->
  env_IdempotencyKey (sr_Envelope req2) = env_IdempotencyKey (sr_Envelope req1) ->
  ck_dedup c2 < ck_dedup c1 + window g (dx_ttl (gs_dedup st)) (normalised req1) ->
  freshKey g c2 req2 (SendEnvelope g c1 req1 st).2 = false.
Proof.
  intros Hwf [Hk1 Hd1] [Hk2 Hd2] Hf Hkey Hlt. unfold freshKey in *. go_bool.
  rewrite SendEnvelope_dedup, (proj2 (str_eqb_neq _ _) Hk1), Hd1. cbn [orb].
  rewrite dedupCheck_window in *. rewrite dedupCheck_window. apply SeenOrAddWithTTL_dup.
  eexists. split; [|exact Hlt]. rewrite SeenOrAddWithTTL_expiry by done. rewrite Hf.
  change (env_IdempotencyKey (normalised req2)) with (env_IdempotencyKey (sr_Envelope req2)).
  change (env_IdempotencyKey (normalised req1)) with (env_IdempotencyKey (sr_Envelope req1)).
  by rewrite decide_True.
Qed.

(** C30: A denial turns into a delivery on the second attempt.  When a peer
    denies an envelope the forwarding function reports an error, and the delivery layer
    tries again; but the peer registered the idempotency key before it consulted its
    policy, so the second attempt is answered DUPLICATE, which the forwarding
    function takes for success: the sender counts the envelope as delivered (and
    records settlement finality for it) although the peer neither accepted nor
    processed it. *)
Theorem denial_becomes_delivery cfg key addr env tr c1 c2 cs (st : AdapterState B F W) r :
  ga_verifyKey a = None -> index_wf (gs_dedup (as_gw st)) ->
  env_IdempotencyKey env <> ""%string -> env_IsDummy env = false ->
  let req1 := attemptRequest cfg key env (NextSeq (env_RecipientRegion env) tr).1 in
  (SendEnvelope (ga_gw a) c1 req1 (as_gw st)).1 = Ok r -> rs_Decision r = DecisionDeny ->
  ck_dedup c2 < ck_dedup c1 + window (ga_gw a) (dx_ttl (gs_dedup (as_gw st))) (normalised req1) ->
  exists w1 w2 hash,
    attempt cfg key addr env {| nn_seqSend := tr; nn_net := (c1 :: c2 :: cs, st) |}
      = (""%string, Some (TransportError (append "peer denied envelope: " (rs_Reason r))), w1)
    /\ attempt cfg key addr env w1 = (hash, None, w2)
    /\ gs_fwd (as_gw (nn_net w2).2) = gs_fwd (as_gw st)
    /\ gs_world (as_gw (nn_net w2).2)
       = match gw_onDuplicate (ga_gw a) with
         | Some f => f (call (gw_onDeny (ga_gw a)) (rs_Reason r) (gs_world (as_gw st)))
         | None => call (gw_onDeny (ga_gw a)) (rs_Reason r) (gs_world (as_gw st))
         end.
Proof.
  intros Hv Hwf Hk Hd. cbv zeta. intros Hr Hdeny Hlt.
  set (req1 := attemptRequest cfg key env (NextSeq (env_RecipientRegion env) tr).1) in *.
  assert (real req1) as Hreal by done. destruct (freshKey (ga_gw a) c1 req1 (as_gw st)) eqn:Hf.
  2: { destruct (SendEnvelope_duplicate (ga_gw a) c1 req1 (as_gw st) Hk Hd Hf) as ((r' & Hr' & Hdup & _) & _).
       rewrite Hr in Hr'. injection Hr' as <-. by rewrite Hdeny in Hdup. }
  destruct (attempt_answer cfg key addr env tr c1 (c2 :: cs) st r Hv Hr) as (w1 & Hw1 & Htr & st1 & Hn1 & Hst1).
  rewrite Hdeny in Hw1. change (str_eqb DecisionDeny "DENY") with true in Hw1. cbn iota in Hw1.
  set (req2 := attemptRequest cfg key env (NextSeq (env_RecipientRegion env) (nn_seqSend w1)).1).
  assert (freshKey (ga_gw a) c2 req2 (as_gw st1) = false) as Hf2.
  { rewrite Hst1. by apply (answered_then_duplicate _ c1 c2 req1 req2). }
  destruct (SendEnvelope_duplicate (ga_gw a) c2 req2 (as_gw st1) Hk Hd Hf2) as ((r2 & Hr2 & Hdup & _) & _ & Hfwd & Hw).
  destruct (attempt_answer cfg key addr env (nn_seqSend w1) c2 cs st1 r2 Hv Hr2) as (w2 & Hw2 & _ & st2 & Hn2 & Hst2).
  rewrite Hdup in Hw2. exists w1, w2, (rs_AuditRootHash r2). split; [exact Hw1|]. split.
  { destruct w1 as [tr1 n1]. cbn in *. subst n1. exact Hw2. }
  rewrite Hn2. cbn [snd]. rewrite Hst2. fold req2. rewrite Hfwd, Hw, Hst1. fold req1.
  pose proof (SendEnvelope_fresh (ga_gw a) c1 req1 (as_gw st) Hk Hd Hf) as Hfresh. cbv zeta in Hfresh.
  destruct Hfresh as [(_ & Hrest & _)|(_ & (r' & Hr' & _ & Hreason & _) & _ & Hf1 & Hw1')].
  - exfalso. destruct (forwardAllowed _ _ _ _ _) as [[[ph f'] log']|].
    + destruct Hrest as ((r' & Hr' & Hallow & _) & _). rewrite Hr in Hr'. injection Hr' as <-. by rewrite Hdeny in Hallow.
    + destruct Hrest as [Hr' _]. by rewrite Hr in Hr'.
  - rewrite Hr in Hr'. injection Hr' as <-. rewrite <- Hreason in Hw1'. by rewrite Hf1, Hw1'.
Qed.
End Retry.

(** ** A peer of the demonstration network *)

Definition demo_peer_adapter (cfg : Config) : GatewayAdapter (list string) :=
  {| ga_gw := demo_gateway cfg; ga_verifyKey := None; ga_connectRes := None; ga_nodeCfg := cfg; ga_peers := ∅;
     ga_hasPolicy := true; ga_metrics := None |}.

Definition demo_peer_state (cfg : Config) : AdapterState unit (FwdState Z) (list string) :=
  {| as_gw := demo_gwstate cfg; as_seqRecv := NewTracker; as_peerCache := None; as_tokenStore := None;
     as_peerRegistry := None; as_seen := None; as_limiter := None |}.

(** A regional node that requires trust tier 3. *)
Definition strict_peer_cfg : Config :=
  let c := demo_cfg in let p := cfg_Policy c in
  {| cfg_Node := cfg_Node c; cfg_Profile := cfg_Profile c;
     cfg_Policy := {| pc_Outbound := pc_Outbound p; pc_Inbound := {| ip_MinTrustTier := 3 |}; pc_Audit := pc_Audit p;
       pc_AllowVia := pc_AllowVia p; pc_Discovery := pc_Discovery p; pc_Connect := pc_Connect p; pc_Rules := pc_Rules p |};
     cfg_Network := cfg_Network c; cfg_TLS := cfg_TLS c; cfg_API := cfg_API c; cfg_Storage := cfg_Storage c;
     cfg_SchemaRegistry := cfg_SchemaRegistry c; cfg_Apps := cfg_Apps c |}.

(** What a peer decides on an envelope given to its gateway, and on the same
    envelope forwarded to it. *)
Definition decided (cfg : Config) (env : Envelope) : option (string * string) :=
  match (SendEnvelope (demo_gateway cfg) (demo_call 0) {| sr_Envelope := env |} (demo_gwstate cfg)).1 with
  | Ok r => Some (rs_Decision r, rs_Reason r)
  | Err _ => None
  end.

Definition decided_forwarded (cfg : Config) (env : Envelope) : option (string * string) :=
  decided cfg (coreEnvelope (attempted demo_cfg "secret"%string env 1)).

Example demo_denied : decided_forwarded strict_peer_cfg (mkEnvelope "k" "RS" "RU" "messaging") = Some ("DENY", "TRUST_TIER_BELOW_MINIMUM")%string.
Proof. vm_compute. reflexivity. Qed.

Lemma denial_becomes_delivery_witness :
  exists w1 w2 hash,
    forwardEnvelope peerConnect (peerSend (demo_peer_adapter strict_peer_cfg) (fun _ => ""%string)) demo_cfg "secret"%string
      "ru:7777" (mkEnvelope "k" "RS" "RU" "messaging")
      {| nn_seqSend := NewTracker; nn_net := ([demo_call 0; demo_call Second], demo_peer_state strict_peer_cfg) |}
    = (""%string, Some (TransportError "peer denied envelope: TRUST_TIER_BELOW_MINIMUM"), w1)
    /\ forwardEnvelope peerConnect (peerSend (demo_peer_adapter strict_peer_cfg) (fun _ => ""%string)) demo_cfg "secret"%string
      "ru:7777" (mkEnvelope "k" "RS" "RU" "messaging") w1 = (hash, None, w2).
Proof.
  destruct (SendEnvelope (demo_gateway strict_peer_cfg) (demo_call 0)
    (attemptRequest (H0 := toy_ed25519) demo_cfg "secret"%string (mkEnvelope "k" "RS" "RU" "messaging") 1) (demo_gwstate strict_peer_cfg)).1
    as [r|e] eqn:Hr; [|vm_compute in Hr; discriminate Hr].
  assert (rs_Decision r = DecisionDeny /\ rs_Reason r = "TRUST_TIER_BELOW_MINIMUM"%string) as [Hd Hre].
  { clear -Hr. vm_compute in Hr. injection Hr as <-. split; reflexivity. }
  destruct (denial_becomes_delivery (H0 := toy_ed25519) (demo_peer_adapter strict_peer_cfg) (fun _ => ""%string) demo_cfg "secret"%string
    "ru:7777" (mkEnvelope "k" "RS" "RU" "messaging") NewTracker (demo_call 0) (demo_call Second) []
    (demo_peer_state strict_peer_cfg) r eq_refl (NewIndex_wf _) ltac:(discriminate) eq_refl Hr Hd
    ltac:(vm_compute; reflexivity)) as (w1 & w2 & hash & H1 & H2 & _).
  rewrite Hre in H1. exists w1, w2, hash. split; [exact H1|exact H2].
Defined.

(** The schema of an envelope does not reach the peer.  What a node sends
    for an envelope is, bit for bit and whatever the schema, what it would send for a
    message; so a peer that denies health data outside the strict profile accepts
    the same data when it is forwarded to it. *)
Theorem forwarding_drops_schema :
  (forall `{Ed25519} cfg key env seq schema,
     attempted cfg key (with_schema_type schema env) seq = attempted cfg key env seq)
  /\ let health := mkEnvelope "k" "RS" "RU" "hl7fhir" in
     option_map fst (decided demo_cfg health) = Some DecisionDeny
     /\ option_map fst (decided_forwarded demo_cfg health) = Some DecisionAllow.
Proof. split; [done|]. vm_compute. done. Qed.
