(* ===== verification/HttpStores.v ===== *)
(** * The runtime stores of the HTTP server (package [internal/server], first part of [http.go])

    Peers, schema adapters and applications registered while the node runs. *)

From S2P Require Import Prelude Config.

Record RuntimePeers := { rp_peers : list PeerConfig }.

Definition NewRuntimePeers : RuntimePeers := {| rp_peers := [] |}.

Definition RuntimePeers_Add (p : PeerConfig) (rp : RuntimePeers) : RuntimePeers :=
  {| rp_peers := rp_peers rp ++ [p] |}.

Definition RuntimePeers_All (rp : RuntimePeers) : list PeerConfig := rp_peers rp.

Record CustomAdapterEntry := {
  ca_SchemaType : string; ca_SchemaVersion : string; ca_Description : string;
  ca_AllowTiers : option (list string); ca_RequireProfile : string; ca_Contact : string; ca_RegisteredAt : Z }.

Record RuntimeAdapters := { rad_adapters : gmap string CustomAdapterEntry }.

Definition NewRuntimeAdapters : RuntimeAdapters := {| rad_adapters := ∅ |}.

Definition RuntimeAdapters_Register (a : CustomAdapterEntry) (ra : RuntimeAdapters) : RuntimeAdapters :=
  {| rad_adapters := <[ca_SchemaType a := a]> (rad_adapters ra) |}.

Definition RuntimeAdapters_Delete (schemaType : string) (ra : RuntimeAdapters) : bool * RuntimeAdapters :=
  (bool_decide (is_Some (rad_adapters ra !! schemaType)), {| rad_adapters := delete schemaType (rad_adapters ra) |}).

(** [visit] is the order in which Go visits the map. *)
Definition RuntimeAdapters_All (visit : gmap string CustomAdapterEntry -> list (string * CustomAdapterEntry))
    (ra : RuntimeAdapters) : list CustomAdapterEntry := (visit (rad_adapters ra)).*2.

Record runtimeApp := { rn_AppID : string; rn_WebhookURL : string; rn_APIKey : string; rn_LastSeen : Z }.

Record RuntimeApps := { ra_apps : gmap string runtimeApp }.

Definition NewRuntimeApps : RuntimeApps := {| ra_apps := ∅ |}.

Definition RuntimeApps_Register (app : runtimeApp) (ra : RuntimeApps) : RuntimeApps :=
  {| ra_apps := <[rn_AppID app := app]> (ra_apps ra) |}.

Definition RuntimeApps_Delete (appID : string) (ra : RuntimeApps) : bool * RuntimeApps :=
  (bool_decide (is_Some (ra_apps ra !! appID)), {| ra_apps := delete appID (ra_apps ra) |}).

Definition RuntimeApps_All (visit : gmap string runtimeApp -> list (string * runtimeApp)) (ra : RuntimeApps)
  : list runtimeApp := (visit (ra_apps ra)).*2.
