(* ===== verification/HttpAuth.v ===== *)
(** * Authentication of HTTP requests (package [internal/server], [checkAuth])

    A request and its headers, the JWT library as an interface with its
    documented laws, and the check itself. *)

From S2P Require Import Prelude GoStrings GoCrypto Json.

(** ** Requests

    [hr_Header] is [Header.Get], [hr_Query] is [URL.Query().Get]; the path is the
    list of its unescaped segments; the body is read to its end. *)
Record HttpRequest := {
  hr_Method : string;
  hr_Path : list string;
  hr_Header : string -> string;
  hr_Query : string -> string;
  hr_Body : string }.

(** ** The JWT library (github.com/golang-jwt/jwt/v5)

    [jwt_Parse keyFunc now token]: the library calls [keyFunc], which here only
    looks at whether the signing method is an HMAC, and gives the token with its
    claims, or an error.  [jwt_SignedString claims key] signs with HS256.
    [jwt_verifies key token]: the HMAC of the token verifies under the key. *)
Record JwtToken := { jt_Valid : bool; jt_Claims : option (list (string * json)) }.

(** The expiry among the claims: the last [exp] that is a number. *)
Definition claim (n : string) (claims : list (string * json)) : option json :=
  snd ∘ snd <$> list_find (fun kv => kv.1 = n) claims.

Class Jwt := {
  jwt_Parse : (bool -> option string) -> Z -> string -> option JwtToken;
  jwt_SignedString : list (string * json) -> string -> option string;
  jwt_verifies : string -> string -> bool;
  (** A valid token was verified with the key the key function gave for HMAC. *)
  jwt_sound : forall kf now s t, jwt_Parse kf now s = Some t -> jt_Valid t = true -> kf false = None ->
    exists key, kf true = Some key /\ jwt_verifies key s = true;
  (** Parsing gives back what was signed, until it expires ([exp] is in seconds)
      and unless it is not yet valid. *)
  jwt_parse_signed : forall kf now claims key s exp,
    jwt_SignedString claims key = Some s -> kf true = Some key -> claim "exp" claims = Some (JInt exp) ->
    claim "nbf" claims = None -> NoDup claims.*1 -> now < exp * Second -> jwt_Parse kf now s = Some {| jt_Valid := true; jt_Claims := Some claims |} }.

(** ** [checkAuth] *)

Definition bearer : string := "Bearer ".

(** [strings.TrimPrefix] *)
Definition TrimPrefix (s pre : string) : string :=
  if HasPrefix s pre then String.substring (String.length pre) (String.length s - String.length pre) s else s.

Definition jwtKey (jwtSecret : string) (isHMAC : bool) : option string := if isHMAC then Some jwtSecret else None.

(** The scope of the claims: a string, or else the zero value. *)
Definition scopeOf (claims : list (string * json)) : string :=
  match claim "scope" claims with Some (JStr s) => s | _ => "" end.

Definition scopeAllows (requiredScope scope : string) : bool :=
  if str_eqb requiredScope "operator" then str_eqb scope "operator"
  else str_eqb scope "read" || str_eqb scope "operator".

Definition checkAuth `{Jwt} (now : Z) (apiKey jwtSecret requiredScope : string) (r : HttpRequest) : bool :=
  if str_eqb apiKey "" && str_eqb jwtSecret "" then true else
  let key := hr_Header r "X-MRMI-Key" in
  if negb (str_eqb key "") then str_eqb apiKey "" || str_eqb key apiKey else
  if negb (str_eqb jwtSecret "") then
    let authHeader := hr_Header r "Authorization" in
    if HasPrefix authHeader bearer then
      match jwt_Parse (jwtKey jwtSecret) now (TrimPrefix authHeader bearer) with
      | None => false
      | Some tok =>
          if negb (jt_Valid tok) then false else
          match jt_Claims tok with
          | None => false
          | Some claims => scopeAllows requiredScope (scopeOf claims)
          end
      end
    else false
  else false.

(** ** Who is let in *)

(** The request presents the API key. *)
Definition presentsKey (apiKey : string) (r : HttpRequest) : Prop :=
  hr_Header r "X-MRMI-Key" = apiKey /\ apiKey <> ""%string.

(** The request presents a token that verifies under the secret, and no key. *)
Definition presentsToken `{Jwt} (now : Z) (jwtSecret requiredScope : string) (r : HttpRequest) : Prop :=
  exists s claims, hr_Header r "Authorization" = append bearer s
    /\ jwt_verifies jwtSecret s = true
    /\ jwt_Parse (jwtKey jwtSecret) now s = Some {| jt_Valid := true; jt_Claims := Some claims |}
    /\ scopeAllows requiredScope (scopeOf claims) = true.

Lemma substring_append p t : String.substring (String.length p) (String.length (append p t) - String.length p) (append p t) = t.
Proof.
  induction p as [|a p IH]; str_simpl.
  - rewrite Nat.sub_0_r. induction t as [|b t IHt]; cbn; [done|]. by rewrite IHt.
  - exact IH.
Qed.

Lemma TrimPrefix_append p t : TrimPrefix (append p t) p = t.
Proof. unfold TrimPrefix. rewrite prefix_append. apply substring_append. Qed.

(** On a node with an API key, a request is let in when it presents the key, or
    no key at all and a token of sufficient scope that verifies. *)
Lemma checkAuth_spec `{Jwt} now apiKey jwtSecret scope r :
  apiKey <> ""%string ->
  checkAuth now apiKey jwtSecret scope r = true <->
    presentsKey apiKey r
    \/ (hr_Header r "X-MRMI-Key" = ""%string /\ jwtSecret <> ""%string /\ presentsToken now jwtSecret scope r).
Proof.
  intros Hk. unfold checkAuth, presentsKey. rewrite (proj2 (str_eqb_neq apiKey "") Hk). cbn [andb orb]. cbv zeta.
  destruct (str_eqb (hr_Header r "X-MRMI-Key") "") eqn:Ek; cbn [negb]; go_bool; [|naive_solver].
  destruct (str_eqb jwtSecret "") eqn:Ej; cbn [negb]; go_bool.
  { split; [done|]. intros [[? ?]|(_ & ? & _)]; congruence. }
  split.
  - destruct (HasPrefix (hr_Header r "Authorization") bearer) eqn:Ep; [|done].
    apply prefix_split in Ep as [t Ht]. rewrite Ht, TrimPrefix_append.
    destruct (jwt_Parse _ now t) as [tok|] eqn:Et; [|done]. destruct (jt_Valid tok) eqn:Ev; cbn [negb]; [|done].
    destruct (jt_Claims tok) as [claims|] eqn:Ec; [|done]. intros Hs. right. split; [done|]. split; [done|].
    destruct (jwt_sound _ _ _ _ Et Ev eq_refl) as (key & [= <-] & Hv). exists t, claims. split_and!; try done.
    rewrite Et. destruct tok. cbn in *. by subst.
  - intros [[He Hne]|(_ & _ & t & claims & Ht & _ & Hp & Hs)]; [congruence|].
    rewrite Ht, prefix_append, TrimPrefix_append, Hp. cbn. exact Hs.
Qed.

(** On a node that only has a JWT secret any value of the key header opens
    every guarded endpoint, for reading and for operating. *)
Lemma any_key_opens `{Jwt} now jwtSecret scope r :
  hr_Header r "X-MRMI-Key" <> ""%string -> checkAuth now "" jwtSecret scope r = true.
Proof.
  intros Hk. unfold checkAuth. cbv zeta. rewrite (proj2 (str_eqb_neq _ _) Hk), str_eqb_refl. by destruct (str_eqb jwtSecret "").
Qed.
