(* ===== verification/ConfigJson.v ===== *)
(** * A configuration in JSON (the body of [PUT /api/v1/config])

    How [encoding/json] decodes a [config.Config]: the structs of [config.go] have
    no tags, so a member is named by its field, up to case; a duration is a number
    of nanoseconds; what the text leaves out keeps its zero value. *)

From S2P Require Import Prelude GoStrings GoCrypto Utf8 Json JsonFields Config.

(** Slices whose nil and empty values the program does not tell apart. *)
Definition as_slice {A} (elem : json -> A -> option A) (zero : A) (v : json) (old : list A) : option (list A) :=
  match v with
  | JArr l => as_elems (fun v => elem v zero) l
  | JNull => Some []
  | _ => None
  end.

Definition as_list : json -> list string -> option (list string) := as_slice as_string "".

(** A map keeps its other entries; each member decodes into a zero value. *)
Fixpoint as_map_members {A} (elem : json -> A -> option A) (zero : A) (ms : list (string * json)) (old : gmap string A)
  : option (gmap string A) :=
  match ms with
  | [] => Some old
  | (k, v) :: ms' => match elem v zero with Some x => as_map_members elem zero ms' (<[k := x]> old) | None => None end
  end.

Definition as_map {A} (elem : json -> A -> option A) (zero : A) (v : json) (old : gmap string A) : option (gmap string A) :=
  match v with
  | JObj ms => as_map_members elem zero ms old
  | JNull => Some ∅
  | _ => None
  end.

Section ConfigJSON.
Context `{UnicodeTables}.

(** A struct with one field. *)
Definition as_one {A} (n : string) (read : json -> A -> option A) (v : json) (old : A) : option A :=
  ms ← members v; collect [n] n read ms old.

Definition zero_cutoff : CutoffWindow :=
  {| cw_Open := ""; cw_Close := ""; cw_TZ := "" |}.

Definition cutoff_names : list string :=
  ["Open"; "Close"; "TZ"]%string.

Definition as_cutoff (v : json) (old : CutoffWindow) : option CutoffWindow :=
  ms ← members v;
  x0 ← collect cutoff_names "Open"%string as_string ms (cw_Open old);
  x1 ← collect cutoff_names "Close"%string as_string ms (cw_Close old);
  x2 ← collect cutoff_names "TZ"%string as_string ms (cw_TZ old);
  Some {| cw_Open := x0; cw_Close := x1; cw_TZ := x2 |}.

Definition zero_iso20022 : Iso20022AdapterConfig :=
  {| iso_DedupTTLH := 0; iso_SettlementFinality := false; iso_RetainLong := false; iso_CutoffWindows := ∅ |}.

Definition iso20022_names : list string :=
  ["DedupTTLH"; "SettlementFinality"; "RetainLong"; "CutoffWindows"]%string.

Definition as_iso20022 (v : json) (old : Iso20022AdapterConfig) : option Iso20022AdapterConfig :=
  ms ← members v;
  x0 ← collect iso20022_names "DedupTTLH"%string as_int64 ms (iso_DedupTTLH old);
  x1 ← collect iso20022_names "SettlementFinality"%string as_bool ms (iso_SettlementFinality old);
  x2 ← collect iso20022_names "RetainLong"%string as_bool ms (iso_RetainLong old);
  x3 ← collect iso20022_names "CutoffWindows"%string (as_map as_cutoff zero_cutoff) ms (iso_CutoffWindows old);
  Some {| iso_DedupTTLH := x0; iso_SettlementFinality := x1; iso_RetainLong := x2; iso_CutoffWindows := x3 |}.

Definition zero_adapter : AdapterConfig :=
  {| ad_Type := ""; ad_Version := ""; ad_Enabled := false; ad_Description := ""; ad_JurisdictionPolicy := "";
    ad_AllowTiers := []; ad_Contact := "" |}.

Definition adapter_names : list string :=
  ["Type"; "Version"; "Enabled"; "Description"; "JurisdictionPolicy"; "AllowTiers"; "Contact"]%string.

Definition as_adapter (v : json) (old : AdapterConfig) : option AdapterConfig :=
  ms ← members v;
  x0 ← collect adapter_names "Type"%string as_string ms (ad_Type old);
  x1 ← collect adapter_names "Version"%string as_string ms (ad_Version old);
  x2 ← collect adapter_names "Enabled"%string as_bool ms (ad_Enabled old);
  x3 ← collect adapter_names "Description"%string as_string ms (ad_Description old);
  x4 ← collect adapter_names "JurisdictionPolicy"%string as_string ms (ad_JurisdictionPolicy old);
  x5 ← collect adapter_names "AllowTiers"%string as_list ms (ad_AllowTiers old);
  x6 ← collect adapter_names "Contact"%string as_string ms (ad_Contact old);
  Some {| ad_Type := x0; ad_Version := x1; ad_Enabled := x2; ad_Description := x3; ad_JurisdictionPolicy := x4;
    ad_AllowTiers := x5; ad_Contact := x6 |}.

Definition zero_schema_registry : SchemaRegistryConfig :=
  {| sr_Adapters := []; sr_Iso20022 := zero_iso20022 |}.

Definition schema_registry_names : list string :=
  ["Adapters"; "Iso20022"]%string.

Definition as_schema_registry (v : json) (old : SchemaRegistryConfig) : option SchemaRegistryConfig :=
  ms ← members v;
  x0 ← collect schema_registry_names "Adapters"%string (as_slice as_adapter zero_adapter) ms (sr_Adapters old);
  x1 ← collect schema_registry_names "Iso20022"%string as_iso20022 ms (sr_Iso20022 old);
  Some {| sr_Adapters := x0; sr_Iso20022 := x1 |}.

Definition zero_storage : StorageConfig :=
  {| st_Backend := ""; st_Path := ""; st_RedisURL := ""; st_KeyPrefix := "" |}.

Definition storage_names : list string :=
  ["Backend"; "Path"; "RedisURL"; "KeyPrefix"]%string.

Definition as_storage (v : json) (old : StorageConfig) : option StorageConfig :=
  ms ← members v;
  x0 ← collect storage_names "Backend"%string as_string ms (st_Backend old);
  x1 ← collect storage_names "Path"%string as_string ms (st_Path old);
  x2 ← collect storage_names "RedisURL"%string as_string ms (st_RedisURL old);
  x3 ← collect storage_names "KeyPrefix"%string as_string ms (st_KeyPrefix old);
  Some {| st_Backend := x0; st_Path := x1; st_RedisURL := x2; st_KeyPrefix := x3 |}.

Definition zero_api : APIConfig :=
  {| api_APIKey := ""; api_JWTSecret := "" |}.

Definition api_names : list string :=
  ["APIKey"; "JWTSecret"]%string.

Definition as_api (v : json) (old : APIConfig) : option APIConfig :=
  ms ← members v;
  x0 ← collect api_names "APIKey"%string as_string ms (api_APIKey old);
  x1 ← collect api_names "JWTSecret"%string as_string ms (api_JWTSecret old);
  Some {| api_APIKey := x0; api_JWTSecret := x1 |}.

Definition zero_user : UserConfig :=
  {| uc_DisplayHint := ""; uc_Region := "" |}.

Definition user_names : list string :=
  ["DisplayHint"; "Region"]%string.

Definition as_user (v : json) (old : UserConfig) : option UserConfig :=
  ms ← members v;
  x0 ← collect user_names "DisplayHint"%string as_string ms (uc_DisplayHint old);
  x1 ← collect user_names "Region"%string as_string ms (uc_Region old);
  Some {| uc_DisplayHint := x0; uc_Region := x1 |}.

Definition zero_app : AppConfig :=
  {| ac_WebhookURL := ""; ac_WebhookSecret := ""; ac_WebhookTimeout := 0; ac_AutoAccept := ""; ac_Users := ∅ |}.

Definition app_names : list string :=
  ["WebhookURL"; "WebhookSecret"; "WebhookTimeout"; "AutoAccept"; "Users"]%string.

Definition as_app (v : json) (old : AppConfig) : option AppConfig :=
  ms ← members v;
  x0 ← collect app_names "WebhookURL"%string as_string ms (ac_WebhookURL old);
  x1 ← collect app_names "WebhookSecret"%string as_string ms (ac_WebhookSecret old);
  x2 ← collect app_names "WebhookTimeout"%string as_int64 ms (ac_WebhookTimeout old);
  x3 ← collect app_names "AutoAccept"%string as_string ms (ac_AutoAccept old);
  x4 ← collect app_names "Users"%string (as_map as_user zero_user) ms (ac_Users old);
  Some {| ac_WebhookURL := x0; ac_WebhookSecret := x1; ac_WebhookTimeout := x2; ac_AutoAccept := x3; ac_Users := x4
    |}.

Definition zero_tls : TLSConfig :=
  {| tls_Cert := ""; tls_Key := ""; tls_CA := ""; tls_Insecure := false |}.

Definition tls_names : list string :=
  ["Cert"; "Key"; "CA"; "Insecure"]%string.

Definition as_tls (v : json) (old : TLSConfig) : option TLSConfig :=
  ms ← members v;
  x0 ← collect tls_names "Cert"%string as_string ms (tls_Cert old);
  x1 ← collect tls_names "Key"%string as_string ms (tls_Key old);
  x2 ← collect tls_names "CA"%string as_string ms (tls_CA old);
  x3 ← collect tls_names "Insecure"%string as_bool ms (tls_Insecure old);
  Some {| tls_Cert := x0; tls_Key := x1; tls_CA := x2; tls_Insecure := x3 |}.

Definition zero_node : NodeConfig :=
  {| nc_NodeID := ""; nc_NodeScope := ""; nc_Region := ""; nc_Regions := []; nc_AllianceID := ""; nc_Disclaimer :=
    ""; nc_OperatorID := ""; nc_PolicyVersion := ""; nc_ApplicableLaw := ""; nc_SignedBy := ""; nc_DiscoveryTokenTTL
    := 0; nc_LogLevel := ""; nc_LogFormat := "" |}.

Definition node_names : list string :=
  ["NodeID"; "NodeScope"; "Region"; "Regions"; "AllianceID"; "Disclaimer"; "OperatorID"; "PolicyVersion";
    "ApplicableLaw"; "SignedBy"; "DiscoveryTokenTTL"; "LogLevel"; "LogFormat"]%string.

Definition as_node (v : json) (old : NodeConfig) : option NodeConfig :=
  ms ← members v;
  x0 ← collect node_names "NodeID"%string as_string ms (nc_NodeID old);
  x1 ← collect node_names "NodeScope"%string as_string ms (nc_NodeScope old);
  x2 ← collect node_names "Region"%string as_string ms (nc_Region old);
  x3 ← collect node_names "Regions"%string as_list ms (nc_Regions old);
  x4 ← collect node_names "AllianceID"%string as_string ms (nc_AllianceID old);
  x5 ← collect node_names "Disclaimer"%string as_string ms (nc_Disclaimer old);
  x6 ← collect node_names "OperatorID"%string as_string ms (nc_OperatorID old);
  x7 ← collect node_names "PolicyVersion"%string as_string ms (nc_PolicyVersion old);
  x8 ← collect node_names "ApplicableLaw"%string as_string ms (nc_ApplicableLaw old);
  x9 ← collect node_names "SignedBy"%string as_string ms (nc_SignedBy old);
  x10 ← collect node_names "DiscoveryTokenTTL"%string as_int64 ms (nc_DiscoveryTokenTTL old);
  x11 ← collect node_names "LogLevel"%string as_string ms (nc_LogLevel old);
  x12 ← collect node_names "LogFormat"%string as_string ms (nc_LogFormat old);
  Some {| nc_NodeID := x0; nc_NodeScope := x1; nc_Region := x2; nc_Regions := x3; nc_AllianceID := x4; nc_Disclaimer
    := x5; nc_OperatorID := x6; nc_PolicyVersion := x7; nc_ApplicableLaw := x8; nc_SignedBy := x9;
    nc_DiscoveryTokenTTL := x10; nc_LogLevel := x11; nc_LogFormat := x12 |}.

Definition zero_profile : ProfileConfig :=
  {| pf_Name := ""; pf_DedupTTL := 0; pf_TimingJitterMax := 0; pf_PaddingBucket := 0; pf_DummyTrafficRate := 0;
    pf_TransitCacheTTL := 0 |}.

Definition profile_names : list string :=
  ["Name"; "DedupTTL"; "TimingJitterMax"; "PaddingBucket"; "DummyTrafficRate"; "TransitCacheTTL"]%string.

Definition as_profile (v : json) (old : ProfileConfig) : option ProfileConfig :=
  ms ← members v;
  x0 ← collect profile_names "Name"%string as_string ms (pf_Name old);
  x1 ← collect profile_names "DedupTTL"%string as_int64 ms (pf_DedupTTL old);
  x2 ← collect profile_names "TimingJitterMax"%string as_int64 ms (pf_TimingJitterMax old);
  x3 ← collect profile_names "PaddingBucket"%string as_int64 ms (pf_PaddingBucket old);
  x4 ← collect profile_names "DummyTrafficRate"%string as_int64 ms (pf_DummyTrafficRate old);
  x5 ← collect profile_names "TransitCacheTTL"%string as_int64 ms (pf_TransitCacheTTL old);
  Some {| pf_Name := x0; pf_DedupTTL := x1; pf_TimingJitterMax := x2; pf_PaddingBucket := x3; pf_DummyTrafficRate :=
    x4; pf_TransitCacheTTL := x5 |}.

Definition zero_rule : JurisdictionIsolationRule :=
  {| jr_SchemaType := ""; jr_AllowTiers := []; jr_AllowJurisdictions := []; jr_RequireProfile := "" |}.

Definition rule_names : list string :=
  ["SchemaType"; "AllowTiers"; "AllowJurisdictions"; "RequireProfile"]%string.

Definition as_rule (v : json) (old : JurisdictionIsolationRule) : option JurisdictionIsolationRule :=
  ms ← members v;
  x0 ← collect rule_names "SchemaType"%string as_string ms (jr_SchemaType old);
  x1 ← collect rule_names "AllowTiers"%string as_list ms (jr_AllowTiers old);
  x2 ← collect rule_names "AllowJurisdictions"%string as_list ms (jr_AllowJurisdictions old);
  x3 ← collect rule_names "RequireProfile"%string as_string ms (jr_RequireProfile old);
  Some {| jr_SchemaType := x0; jr_AllowTiers := x1; jr_AllowJurisdictions := x2; jr_RequireProfile := x3 |}.

Definition zero_discovery : DiscoveryPolicy :=
  {| dp_AppIsolation := ""; dp_AllowedAppIDs := [] |}.

Definition discovery_names : list string :=
  ["AppIsolation"; "AllowedAppIDs"]%string.

Definition as_discovery (v : json) (old : DiscoveryPolicy) : option DiscoveryPolicy :=
  ms ← members v;
  x0 ← collect discovery_names "AppIsolation"%string as_string ms (dp_AppIsolation old);
  x1 ← collect discovery_names "AllowedAppIDs"%string as_list ms (dp_AllowedAppIDs old);
  Some {| dp_AppIsolation := x0; dp_AllowedAppIDs := x1 |}.

Definition zero_connect : ConnectPolicy :=
  {| cp_AutoAccept := ""; cp_TrustedNodes := [] |}.

Definition connect_names : list string :=
  ["AutoAccept"; "TrustedNodes"]%string.

Definition as_connect (v : json) (old : ConnectPolicy) : option ConnectPolicy :=
  ms ← members v;
  x0 ← collect connect_names "AutoAccept"%string as_string ms (cp_AutoAccept old);
  x1 ← collect connect_names "TrustedNodes"%string as_list ms (cp_TrustedNodes old);
  Some {| cp_AutoAccept := x0; cp_TrustedNodes := x1 |}.

Definition zero_outbound : OutboundPolicy :=
  {| op_AllowTo := []; op_DenyTo := []; op_StoreLocally := false |}.

Definition outbound_names : list string :=
  ["AllowTo"; "DenyTo"; "StoreLocally"]%string.

Definition as_outbound (v : json) (old : OutboundPolicy) : option OutboundPolicy :=
  ms ← members v;
  x0 ← collect outbound_names "AllowTo"%string as_list ms (op_AllowTo old);
  x1 ← collect outbound_names "DenyTo"%string as_list ms (op_DenyTo old);
  x2 ← collect outbound_names "StoreLocally"%string as_bool ms (op_StoreLocally old);
  Some {| op_AllowTo := x0; op_DenyTo := x1; op_StoreLocally := x2 |}.

Definition zero_inbound : InboundPolicy :=
  {| ip_MinTrustTier := 0 |}.

Definition inbound_names : list string :=
  ["MinTrustTier"]%string.

Definition as_inbound (v : json) (old : InboundPolicy) : option InboundPolicy :=
  ms ← members v;
  x0 ← collect inbound_names "MinTrustTier"%string as_uint32 ms (ip_MinTrustTier old);
  Some {| ip_MinTrustTier := x0 |}.

Definition zero_audit : AuditPolicy :=
  {| ap_LogAllDecisions := false; ap_LogBackend := ""; ap_ExportToOperator := false; ap_DNSTXTPublish := false;
    ap_DNSTXTInterval := 0; ap_HTTPSWellKnown := false; ap_RootHashGossip := false |}.

Definition audit_names : list string :=
  ["LogAllDecisions"; "LogBackend"; "ExportToOperator"; "DNSTXTPublish"; "DNSTXTInterval"; "HTTPSWellKnown";
    "RootHashGossip"]%string.

Definition as_audit (v : json) (old : AuditPolicy) : option AuditPolicy :=
  ms ← members v;
  x0 ← collect audit_names "LogAllDecisions"%string as_bool ms (ap_LogAllDecisions old);
  x1 ← collect audit_names "LogBackend"%string as_string ms (ap_LogBackend old);
  x2 ← collect audit_names "ExportToOperator"%string as_bool ms (ap_ExportToOperator old);
  x3 ← collect audit_names "DNSTXTPublish"%string as_bool ms (ap_DNSTXTPublish old);
  x4 ← collect audit_names "DNSTXTInterval"%string as_int64 ms (ap_DNSTXTInterval old);
  x5 ← collect audit_names "HTTPSWellKnown"%string as_bool ms (ap_HTTPSWellKnown old);
  x6 ← collect audit_names "RootHashGossip"%string as_bool ms (ap_RootHashGossip old);
  Some {| ap_LogAllDecisions := x0; ap_LogBackend := x1; ap_ExportToOperator := x2; ap_DNSTXTPublish := x3;
    ap_DNSTXTInterval := x4; ap_HTTPSWellKnown := x5; ap_RootHashGossip := x6 |}.

Definition zero_policy : PolicyConfig :=
  {| pc_Outbound := zero_outbound; pc_Inbound := zero_inbound; pc_Audit := zero_audit; pc_AllowVia := [];
    pc_Discovery := zero_discovery; pc_Connect := zero_connect; pc_Rules := [] |}.

Definition policy_names : list string :=
  ["Outbound"; "Inbound"; "Audit"; "Routing"; "Discovery"; "Connect"; "JurisdictionIsolation"]%string.

Definition as_policy (v : json) (old : PolicyConfig) : option PolicyConfig :=
  ms ← members v;
  x0 ← collect policy_names "Outbound"%string as_outbound ms (pc_Outbound old);
  x1 ← collect policy_names "Inbound"%string as_inbound ms (pc_Inbound old);
  x2 ← collect policy_names "Audit"%string as_audit ms (pc_Audit old);
  x3 ← collect policy_names "Routing"%string (as_one "AllowVia"%string as_list) ms (pc_AllowVia old);
  x4 ← collect policy_names "Discovery"%string as_discovery ms (pc_Discovery old);
  x5 ← collect policy_names "Connect"%string as_connect ms (pc_Connect old);
  x6 ← collect policy_names "JurisdictionIsolation"%string (as_one "Rules"%string (as_slice as_rule zero_rule)) ms (pc_Rules old);
  Some {| pc_Outbound := x0; pc_Inbound := x1; pc_Audit := x2; pc_AllowVia := x3; pc_Discovery := x4; pc_Connect :=
    x5; pc_Rules := x6 |}.

Definition zero_peer : PeerConfig :=
  {| peer_Region := ""; peer_Addr := ""; peer_NodeScope := ""; peer_Regions := [] |}.

Definition peer_names : list string :=
  ["Region"; "Addr"; "NodeScope"; "Regions"]%string.

Definition as_peer (v : json) (old : PeerConfig) : option PeerConfig :=
  ms ← members v;
  x0 ← collect peer_names "Region"%string as_string ms (peer_Region old);
  x1 ← collect peer_names "Addr"%string as_string ms (peer_Addr old);
  x2 ← collect peer_names "NodeScope"%string as_string ms (peer_NodeScope old);
  x3 ← collect peer_names "Regions"%string as_list ms (peer_Regions old);
  Some {| peer_Region := x0; peer_Addr := x1; peer_NodeScope := x2; peer_Regions := x3 |}.

Definition zero_network : NetworkConfig :=
  {| net_GRPCListenAddr := ""; net_HTTPListenAddr := ""; net_MetricsAddr := ""; net_ShutdownTimeout := 0; net_Peers
    := ∅; net_BootstrapNodes := []; net_PeerGossipInterval := 0 |}.

Definition network_names : list string :=
  ["GRPCListenAddr"; "HTTPListenAddr"; "MetricsAddr"; "ShutdownTimeout"; "Peers"; "BootstrapNodes";
    "PeerGossipInterval"]%string.

Definition as_network (v : json) (old : NetworkConfig) : option NetworkConfig :=
  ms ← members v;
  x0 ← collect network_names "GRPCListenAddr"%string as_string ms (net_GRPCListenAddr old);
  x1 ← collect network_names "HTTPListenAddr"%string as_string ms (net_HTTPListenAddr old);
  x2 ← collect network_names "MetricsAddr"%string as_string ms (net_MetricsAddr old);
  x3 ← collect network_names "ShutdownTimeout"%string as_int64 ms (net_ShutdownTimeout old);
  x4 ← collect network_names "Peers"%string (as_map as_peer zero_peer) ms (net_Peers old);
  x5 ← collect network_names "BootstrapNodes"%string as_list ms (net_BootstrapNodes old);
  x6 ← collect network_names "PeerGossipInterval"%string as_int64 ms (net_PeerGossipInterval old);
  Some {| net_GRPCListenAddr := x0; net_HTTPListenAddr := x1; net_MetricsAddr := x2; net_ShutdownTimeout := x3;
    net_Peers := x4; net_BootstrapNodes := x5; net_PeerGossipInterval := x6 |}.

Definition zero_config : Config :=
  {| cfg_Node := zero_node; cfg_Profile := zero_profile; cfg_Policy := zero_policy; cfg_Network := zero_network;
    cfg_TLS := zero_tls; cfg_API := zero_api; cfg_Storage := zero_storage; cfg_SchemaRegistry :=
    zero_schema_registry; cfg_Apps := ∅ |}.

Definition config_names : list string :=
  ["Node"; "Profile"; "Policy"; "Network"; "TLS"; "API"; "Storage"; "SchemaRegistry"; "Apps"]%string.

Definition as_config (v : json) (old : Config) : option Config :=
  ms ← members v;
  x0 ← collect config_names "Node"%string as_node ms (cfg_Node old);
  x1 ← collect config_names "Profile"%string as_profile ms (cfg_Profile old);
  x2 ← collect config_names "Policy"%string as_policy ms (cfg_Policy old);
  x3 ← collect config_names "Network"%string as_network ms (cfg_Network old);
  x4 ← collect config_names "TLS"%string as_tls ms (cfg_TLS old);
  x5 ← collect config_names "API"%string as_api ms (cfg_API old);
  x6 ← collect config_names "Storage"%string as_storage ms (cfg_Storage old);
  x7 ← collect config_names "SchemaRegistry"%string as_schema_registry ms (cfg_SchemaRegistry old);
  x8 ← collect config_names "Apps"%string (as_map as_app zero_app) ms (cfg_Apps old);
  Some {| cfg_Node := x0; cfg_Profile := x1; cfg_Policy := x2; cfg_Network := x3; cfg_TLS := x4; cfg_API := x5;
    cfg_Storage := x6; cfg_SchemaRegistry := x7; cfg_Apps := x8 |}.

(** The first value of the body, decoded into [config.Config{}]. *)
Definition decodeConfig (body : string) : option Config :=
  v ← decodeFirst body; as_config v zero_config.
End ConfigJSON.
