(* ===== verification/Http.v ===== *)
(** * The HTTP server (package [internal/server], [http.go])

    The management API of a node: requests, routing, and one definition per
    handler.  The server acts on the objects it shares with the gateway (audit log,
    dead-letter queue, revocation list, policy engine, inbox) and on its own runtime
    stores; a handler takes the request and the state to the reply and the state
    after it. *)

From Stdlib Require Import SpecFloat.
From stdpp Require Import sorting.
From S2P Require Import Prelude GoStrings GoCrypto Utf8 Json JsonFields Config ConfigJson Schema Crl Store AuditLog Policy Core Transit Delivery Gateway Identity PeerDiscovery Registry Metrics Inbox Webhook Callbacks HttpStores HttpAuth.

(** ** Versions (package [internal/version]) *)

Definition App : string := "0.1.0".
Definition ADR : string := "0.9".

(** ** Replies *)

Inductive Body := NoBody | Text (s : string) | Json (v : json).

(** [Streaming id]: the response of an event stream, fed from subscription [id].
    [Static]: the embedded dashboard.  [Aborted]: the handler panicked, and
    [net/http] closed the connection. *)
Inductive Reply :=
| Response (status : Z) (body : Body)
| Redirect (status : Z) (location : string)
| Streaming (id : Z)
| Static
| Aborted.

Definition writeJSONError (msg : string) (code : Z) : Reply := Response code (Json (JObj [("error"%string, JStr msg)])).

Definition ok_json (v : json) : Reply := Response 200 (Json v).

(** [strconv.Atoi]: an optional sign and decimal digits, within 64 bits. *)
Definition Atoi (s : string) : option Z :=
  let l := codes s in
  let (neg, ds) := match l with 45 :: ds => (true, ds) | 43 :: ds => (false, ds) | _ => (false, l) end in
  if nonempty ds && forallb Json.is_digit ds then
    let n := if neg : bool then - digits_value ds else digits_value ds in
    if (- 2 ^ 63 <=? n) && (n <=? 2 ^ 63 - 1) then Some n else None
  else None.

(** An index in the path of a request. *)
Definition pathIndex (seg : string) : option Z :=
  match Atoi seg with Some i => if i <? 0 then None else Some i | None => None end.

(** The keys of a map in the order [encoding/json] writes them. *)
Definition sorted_members (m : gmap string json) : list (string * json) :=
  (fun k => (k, default JNull (m !! k))) <$> merge_sort (fun a b => Is_true (String.leb a b)) (map_to_list m).*1.

(** [int64(d.Seconds())] for a duration that is not negative. *)
Definition wholeSeconds (d : Z) : Z :=
  let f := SFadd 53 1024 (float64_of_int (Z.quot d Second))
             (SFdiv 53 1024 (float64_of_int (Z.rem d Second)) (float64_of_int 1000000000)) in
  int64_of_float (fun _ => 0) f.

(** ** Dependencies and state *)

(** What [NewHTTPServer] is given, besides the objects in the state: which of the
    shared objects there are, the signing key, the gateway, the callbacks.  A
    callback gives the text of its error, if any, and the engine after it. *)
Record Deps `{Ed25519} := {
  dp_cfg : Config;
  dp_startTime : Z;
  dp_Engine : bool;
  dp_Audit : bool;
  dp_PrivKey : option ed_PrivateKey;
  dp_Gateway : option (Gateway World);
  dp_CRL : bool;
  dp_Inbox : bool;
  dp_OnConfigReload : option (Engine -> option string * Engine);
  dp_OnConfigSave : option (Config -> Engine -> option string * Engine) }.

(** What one request reads from the outside: the clock when a token is checked and
    afterwards (the [i]-th reading), the gateway's environment, new identifiers, whether a token can be signed, and
    the orders in which Go visits the maps. *)
Record HttpEnv := {
  he_authClock : Z;
  he_clock : nat -> Z;
  he_call : CallEnv;
  he_uuid : nat -> string;
  he_peers : list (string * PeerConfig);
  he_apps : list (string * AppConfig);
  he_users : list (string * string * UserConfig);
  he_crl : gmap string CrlEntry -> list (string * CrlEntry);
  he_runtimeApps : gmap string runtimeApp -> list (string * runtimeApp);
  he_adapters : gmap string CustomAdapterEntry -> list (string * CustomAdapterEntry) }.

(** [hs_gw] holds what the gateway shares: [deps.Audit], [deps.CRL], the engine,
    and, in the forwarder and in the world, [deps.DLQ] and [deps.Inbox]. *)
Record HttpState (B X : Type) := {
  hs_gw : GwState B (FwdState X) World;
  hs_peers : option PeerCache;
  hs_registry : option Registry;
  hs_runtimePeers : option RuntimePeers;
  hs_apps : option RuntimeApps;
  hs_adapters : option RuntimeAdapters }.
Arguments Build_HttpState {B X}.
Arguments hs_gw {B X}.
Arguments hs_peers {B X}.
Arguments hs_registry {B X}.
Arguments hs_runtimePeers {B X}.
Arguments hs_apps {B X}.
Arguments hs_adapters {B X}.

(** ** Messages *)

(** [json.NewDecoder(r.Body).Decode(&req)] for a struct with these fields. *)
Definition bodyMembers (r : HttpRequest) : option (list (string * json)) :=
  match decodeFirst (hr_Body r) with Some v => members v | None => None end.

Definition entryJSON (e : Entry) : json := struct [
  ("seq"%string, JInt (ae_Seq e), false); ("timestamp"%string, JInt (ae_Timestamp e), false);
  ("decision"%string, JStr (ae_Decision e), false); ("reason"%string, JStr (ae_Reason e), empty_str (ae_Reason e));
  ("trust_tier"%string, JInt (ae_TrustTier e), false); ("sender_region"%string, JStr (ae_SenderRegion e), false);
  ("recipient_region"%string, JStr (ae_RecipientRegion e), false);
  ("policy_version"%string, JStr (ae_PolicyVersion e), false); ("profile"%string, JStr (ae_Profile e), false);
  ("applicable_law"%string, JStr (ae_ApplicableLaw e), false);
  ("dedup_ttl_hours"%string, JInt (ae_DedupTTLHours e), false); ("node_scope"%string, JStr (ae_NodeScope e), false);
  ("alliance_id"%string, JStr (ae_AllianceID e), false); ("node_region"%string, JStr (ae_NodeRegion e), false);
  ("schema_type"%string, JStr (ae_SchemaType e), empty_str (ae_SchemaType e));
  ("schema_version"%string, JStr (ae_SchemaVersion e), empty_str (ae_SchemaVersion e));
  ("retain_long"%string, JBool (ae_RetainLong e), negb (ae_RetainLong e));
  ("settlement_final"%string, JBool (ae_SettlementFinal e), negb (ae_SettlementFinal e));
  ("previous_hash"%string, JStr (ae_PreviousHash e), false); ("entry_hash"%string, JStr (ae_EntryHash e), false)].

Definition dlqDTO (errText : FwdError -> string) (i : nat) (e : DLQEntry) : json :=
  let lastErr := match dl_LastErr e with Some err => errText err | None => ""%string end in
  struct [
  ("index"%string, JInt (Z.of_nat i), false); ("peer_addr"%string, JStr (dl_PeerAddr e), false);
  ("attempts"%string, JInt (dl_Attempts e), false); ("last_error"%string, JStr lastErr, empty_str lastErr);
  ("first_seen_unix"%string, JInt (dl_FirstSeenUnix e), false);
  ("last_attempt_unix"%string, JInt (dl_LastAttemptUnix e), false);
  ("envelope_id"%string, JStr (env_IdempotencyKey (dl_Envelope e)), false);
  ("sender_region"%string, JStr (env_SenderRegion (dl_Envelope e)), false);
  ("recipient_region"%string, JStr (env_RecipientRegion (dl_Envelope e)), false);
  ("reason"%string, JStr (dl_Reason e), empty_str (dl_Reason e));
  ("next_open_unix"%string, JInt (dl_NextOpenUnix e), dl_NextOpenUnix e =? 0)].

Definition crlDTO (e : CrlEntry) : json := JObj [
  ("node_id"%string, JStr (ce_NodeID e)); ("reason"%string, JStr (ce_Reason e));
  ("sig_count"%string, JInt (Z.of_nat (length (ce_Signatures e))));
  ("is_effective"%string, JBool (2 <=? Z.of_nat (length (ce_Signatures e))));
  ("revoked_at_unix"%string, JInt (Unix (ce_RevokedAt e)))].

Definition eventJSON (e : Event) : json := struct [
  ("idempotency_key"%string, JStr (ib_IdempotencyKey e), false);
  ("sender_region"%string, JStr (ib_SenderRegion e), false);
  ("recipient_region"%string, JStr (ib_RecipientRegion e), false);
  ("trust_tier"%string, JInt (ib_TrustTier e), false);
  ("payload"%string, json_of_bytes (ib_Payload e), no_bytes (ib_Payload e));
  ("timestamp"%string, JInt (ib_Timestamp e), false)].

Definition discoveryJSON (d : DiscoveryResult) : json := JObj [
  ("node_id"%string, JStr (ds_NodeID d)); ("app_id"%string, JStr (ds_AppID d)); ("user_id"%string, JStr (ds_UserID d));
  ("display_hint"%string, JStr (ds_DisplayHint d)); ("region"%string, JStr (ds_Region d));
  ("opaque_token"%string, JStr (ds_OpaqueToken d)); ("token_expires"%string, JInt (ds_TokenExpires d))].

Definition connectJSON (c : ConnectResult) : json := struct [
  ("status"%string, JStr (cn_Status c), false);
  ("session_id"%string, JStr (cn_SessionID c), empty_str (cn_SessionID c));
  ("expires_at"%string, JInt (cn_ExpiresAt c), cn_ExpiresAt c =? 0)].

Definition peerDTO (nodeID : string) (p : PeerConfig) (source : string) : json := struct [
  ("node_id"%string, JStr nodeID, empty_str nodeID); ("addr"%string, JStr (peer_Addr p), false);
  ("node_scope"%string, JStr (peer_NodeScope p), empty_str (peer_NodeScope p));
  ("region"%string, JStr (peer_Region p), empty_str (peer_Region p)); ("source"%string, JStr source, false)].

Definition appInfo (appID webhookURL : string) (lastSeen : Z) : json := JObj [
  ("app_id"%string, JStr appID); ("webhook_url"%string, JStr webhookURL); ("last_seen"%string, JInt lastSeen)].

Definition json_strings (l : list string) : json := JArr (JStr <$> l).

(** A slice of structs appended to nil: without elements it is [null]. *)
Definition json_slice (l : list json) : json := match l with [] => JNull | _ => JArr l end.

Definition customJSON (a : CustomAdapterEntry) : json := JObj [
  ("schema_type"%string, JStr (ca_SchemaType a)); ("schema_version"%string, JStr (ca_SchemaVersion a));
  ("description"%string, JStr (ca_Description a));
  ("allow_tiers"%string, match ca_AllowTiers a with Some l => json_strings l | None => JNull end);
  ("require_profile"%string, JStr (ca_RequireProfile a)); ("contact"%string, JStr (ca_Contact a));
  ("registered_at"%string, JInt (ca_RegisteredAt a))].

Record adapterDTO := {
  ad_schema_type : string; ad_schema_version : string; ad_builtin : bool; ad_status : string;
  ad_description : string; ad_allow_tiers : option (list string); ad_allow_jurisdictions : list string;
  ad_require_profile : string; ad_hardcoded_constraints : bool; ad_contact : string }.

Definition adapterJSON (a : adapterDTO) : json := struct [
  ("schema_type"%string, JStr (ad_schema_type a), false); ("schema_version"%string, JStr (ad_schema_version a), false);
  ("builtin"%string, JBool (ad_builtin a), false); ("status"%string, JStr (ad_status a), false);
  ("description"%string, JStr (ad_description a), false);
  ("allow_tiers"%string, match ad_allow_tiers a with Some l => json_strings l | None => JNull end, false);
  ("allow_jurisdictions"%string, json_strings (ad_allow_jurisdictions a), false);
  ("require_profile"%string, JStr (ad_require_profile a), false);
  ("hardcoded_constraints"%string, JBool (ad_hardcoded_constraints a), false);
  ("contact"%string, JStr (ad_contact a), empty_str (ad_contact a))].

(** ** Handlers *)

Section Handlers.
Context `{UnicodeTables} `{Ed25519} `{Jwt} {B : Type} `{NodeStore B} {X : Type} `{CoreForwarder (FwdState X)}.
(** The messages of the errors an envelope was dead-lettered with, and of the
    decoder's errors. *)
Context (errText : FwdError -> string) (jsonErrText : string -> string).
Implicit Types (d : Deps) (c : HttpEnv) (r : HttpRequest) (st : HttpState B X).

Definition setGw (g : GwState B (FwdState X) World) st : HttpState B X :=
  {| hs_gw := g; hs_peers := hs_peers st; hs_registry := hs_registry st; hs_runtimePeers := hs_runtimePeers st;
     hs_apps := hs_apps st; hs_adapters := hs_adapters st |}.

Definition setCRL (crl : CrlStore) st : HttpState B X :=
  let g := hs_gw st in
  setGw {| gs_policy := gs_policy g; gs_crl := crl; gs_audit := gs_audit g; gs_dedup := gs_dedup g;
           gs_fwd := gs_fwd g; gs_world := gs_world g |} st.

Definition setEngine (e : Engine) st : HttpState B X :=
  let g := hs_gw st in
  setGw {| gs_policy := e; gs_crl := gs_crl g; gs_audit := gs_audit g; gs_dedup := gs_dedup g;
           gs_fwd := gs_fwd g; gs_world := gs_world g |} st.

Definition setWorld (w : World) st : HttpState B X :=
  let g := hs_gw st in
  setGw {| gs_policy := gs_policy g; gs_crl := gs_crl g; gs_audit := gs_audit g; gs_dedup := gs_dedup g;
           gs_fwd := gs_fwd g; gs_world := w |} st.

Definition setFwd (f : FwdState X) (g : GwState B (FwdState X) World) : GwState B (FwdState X) World :=
  {| gs_policy := gs_policy g; gs_crl := gs_crl g; gs_audit := gs_audit g; gs_dedup := gs_dedup g;
     gs_fwd := f; gs_world := gs_world g |}.

(** [deps.DLQ] *)
Definition dlqOf st : option DLQ := fs_dlq (gs_fwd (hs_gw st)).

(** [deps.DLQ.Remove(idx)] *)
Definition dlqRemove (i : Z) (g : GwState B (FwdState X) World) : GwState B (FwdState X) World :=
  let f := gs_fwd g in
  setFwd {| fs_dlq := Remove i <$> fs_dlq f; fs_transit := fs_transit f; fs_world := fs_world f |} g.

Definition auditOf st : Log B := gs_audit (hs_gw st).

(** *** Health and audit *)

Definition healthz st : Reply * HttpState B X := (Response 200 (Text "ok"), st).

Definition readyz d st : Reply * HttpState B X :=
  if negb (dp_Engine d) then (writeJSONError "policy engine not ready" 503, st)
  else (Response 200 (Text "ready"), st).

Definition auditSignPayload d (rootHash : string) (ts : Z) : list (string * json) := [
  ("adr_version"%string, JStr ADR); ("app_version"%string, JStr App);
  ("applicable_law"%string, JStr (nc_ApplicableLaw (cfg_Node (dp_cfg d))));
  ("node_id"%string, JStr (nc_NodeID (cfg_Node (dp_cfg d)))); ("root_hash"%string, JStr rootHash);
  ("timestamp"%string, JInt ts); ("version"%string, JInt 1)].

Definition wellKnownAudit d c st : Reply * HttpState B X :=
  if negb (ap_HTTPSWellKnown (pc_Audit (cfg_Policy (dp_cfg d)))) then (Response 404 (Text "404 page not found"), st) else
  let rootHash := if dp_Audit d then RootHash (auditOf st) else "sha256:BOOTSTRAP_PLACEHOLDER"%string in
  let payload := auditSignPayload d rootHash (Unix (he_clock c 0)) in
  let sig := match dp_PrivKey d with
             | Some k => append "ed25519:" (b64_encode (bytes_of (ed_Sign k (render (JObj payload)))))
             | None => ""%string
             end in
  (ok_json (JObj (payload ++ [("signature"%string, JStr sig)])), st).

Definition rootJSON (e : RootEntry) : json :=
  JObj [("root_hash"%string, JStr (re_RootHash e)); ("timestamp"%string, JInt (re_Timestamp e))].

Definition peersAudit st : Reply * HttpState B X :=
  match hs_peers st with
  | None => (Response 200 (Text "{}"), st)
  | Some pc => (ok_json (JObj (sorted_members (rootJSON <$> AllRoots pc))), st)
  end.

Definition getStatus d c st : Reply * HttpState B X :=
  let cfg := dp_cfg d in
  (ok_json (JObj [("adr_version"%string, JStr ADR); ("app_version"%string, JStr App);
     ("applicable_law"%string, JStr (nc_ApplicableLaw (cfg_Node cfg))); ("node_id"%string, JStr (nc_NodeID (cfg_Node cfg)));
     ("node_scope"%string, JStr (nc_NodeScope (cfg_Node cfg))); ("profile"%string, JStr (pf_Name (cfg_Profile cfg)));
     ("region"%string, JStr (nc_Region (cfg_Node cfg)));
     ("uptime_seconds"%string, JInt (wholeSeconds (he_clock c 0 - dp_startTime d)))]), st).

(** The parameter [n] of the request. *)
Definition latestCount r : Z :=
  let q := hr_Query r "n" in
  if str_eqb q "" then 20 else
  match Atoi q with Some v => if (0 <? v) && (v <=? 200) then v else 20 | None => 20 end.

Definition auditLatest d r st : Reply * HttpState B X :=
  if negb (dp_Audit d) then (writeJSONError "audit log not available" 503, st)
  else (ok_json (JArr (entryJSON <$> Recent (latestCount r) (auditOf st))), st).

(** *** Envelopes *)

Definition sendErrorText (e : SendError) : string := "idempotency_key is required".

Definition postFields : list string :=
  ["idempotency_key"; "sender_region"; "recipient_region"; "trust_tier"; "payload"; "sender_identity"]%string.

(** The envelope of a POST body; the clock is read after decoding. *)
Definition postedEnvelope (now : Z) r : option Envelope :=
  ms ← bodyMembers r;
  let get {A} n (read : json -> A -> option A) old := collect postFields n read ms old in
  key ← get "idempotency_key"%string as_string ""%string;
  sregion ← get "sender_region"%string as_string ""%string;
  rregion ← get "recipient_region"%string as_string ""%string;
  tier ← get "trust_tier"%string as_uint32 0;
  payload ← get "payload"%string as_bytes None;
  sender ← get "sender_identity"%string as_bytes None;
  Some {| env_IdempotencyKey := key; env_SenderNodeID := ""; env_SenderIdentity := sender;
          env_RecipientIdentity := None; env_SenderRegion := sregion; env_RecipientRegion := rregion;
          env_TrustTier := tier; env_SequenceNumber := 0; env_Payload := payload; env_PaddedTo := 0;
          env_Timestamp := UnixMilli now; env_Signature := None; env_IsDummy := false; env_SchemaType := "";
          env_SchemaVersion := ""; env_RoutingHint := "" |}.

Definition responseJSON (resp : SendResponse) : json := JObj [
  ("audit_root_hash"%string, JStr (rs_AuditRootHash resp)); ("decision"%string, JStr (rs_Decision resp));
  ("node_id"%string, JStr (rs_NodeID resp)); ("peer_audit_root_hash"%string, JStr (rs_PeerAuditRootHash resp));
  ("profile"%string, JStr (rs_Profile resp)); ("reason"%string, JStr (rs_Reason resp))].

Definition postEnvelope d c r st : Reply * HttpState B X :=
  match dp_Gateway d with
  | None => (writeJSONError "gateway not available" 503, st)
  | Some g =>
      match postedEnvelope (he_clock c 0) r with
      | None => (writeJSONError "invalid request body" 400, st)
      | Some env =>
          if str_eqb (env_IdempotencyKey env) "" then (writeJSONError "idempotency_key is required" 400, st) else
          match SendEnvelope g (he_call c) {| sr_Envelope := env |} (hs_gw st) with
          | (Ok resp, g') => (ok_json (responseJSON resp), setGw g' st)
          | (Err PanicMakeSlice, g') => (Aborted, setGw g' st)
          | (Err err, g') => (writeJSONError (sendErrorText err) 400, setGw g' st)
          end
      end
  end.

(** *** The dead-letter queue *)

Definition getDLQ st : Reply * HttpState B X :=
  match dlqOf st with
  | None => (Response 200 (Text "[]"), st)
  | Some q => (ok_json (JArr (imap (dlqDTO errText) (DLQEntries q))), st)
  end.

Definition deleteDLQ (index : string) st : Reply * HttpState B X :=
  match dlqOf st with
  | None => (writeJSONError "dlq not available" 503, st)
  | Some _ =>
      match pathIndex index with
      | None => (writeJSONError "invalid index" 400, st)
      | Some i => (Response 204 NoBody, setGw (dlqRemove i (hs_gw st)) st)
      end
  end.

(** The handler of [POST /api/v1/dlq/{index}/discard], behind [auth], does the same. *)
Definition discardDLQ (index : string) st : Reply * HttpState B X := deleteDLQ index st.

Definition replayDLQ d c (index : string) st : Reply * HttpState B X :=
  match dlqOf st, dp_Gateway d with
  | Some q, Some g =>
      match pathIndex index with
      | None => (writeJSONError "invalid index" 400, st)
      | Some i =>
          match DLQEntries q !! Z.to_nat i with
          | None => (writeJSONError "index out of range" 404, st)
          | Some entry =>
              match SendEnvelope g (he_call c) {| sr_Envelope := dl_Envelope entry |} (hs_gw st) with
              | (Ok resp, g') =>
                  (ok_json (JObj [("decision"%string, JStr (rs_Decision resp)); ("reason"%string, JStr (rs_Reason resp))]),
                   setGw (dlqRemove i g') st)
              | (Err PanicMakeSlice, g') => (Aborted, setGw g' st)
              | (Err err, g') => (writeJSONError (append "replay failed: " (sendErrorText err)) 500, setGw g' st)
              end
          end
      end
  | _, _ => (writeJSONError "dlq or gateway not available" 503, st)
  end.

(** *** Revocations *)

Definition getCRL d c st : Reply * HttpState B X :=
  if negb (dp_CRL d) then (Response 200 (Text "[]"), st)
  else (ok_json (JArr (crlDTO <$> Entries (he_crl c (crl_entries (gs_crl (hs_gw st)))))), st).

Definition effectiveJSON (nodeID : string) (crl : CrlStore) : json :=
  JObj [("is_effective"%string, JBool (IsRevoked crl nodeID)); ("node_id"%string, JStr nodeID)].

Definition postCRL d c r st : Reply * HttpState B X :=
  if negb (dp_CRL d) then (writeJSONError "crl store not available" 503, st) else
  match (ms ← bodyMembers r;
         let get n := collect ["node_id"; "reason"; "signature_b64"]%string n as_string ms ""%string in
         nodeID ← get "node_id"%string; reason ← get "reason"%string; sig ← get "signature_b64"%string;
         Some (nodeID, reason, sig)) with
  | None => (writeJSONError "invalid request body" 400, st)
  | Some (nodeID, reason, sigB64) =>
      if str_eqb nodeID "" || str_eqb sigB64 ""
      then (writeJSONError "node_id and signature_b64 are required" 400, st) else
      match b64_decode sigB64 with
      | None => (writeJSONError "invalid signature_b64 encoding" 400, st)
      | Some sig =>
          let crl := Revoke (he_clock c 0) nodeID reason sig (gs_crl (hs_gw st)) in
          (ok_json (effectiveJSON nodeID crl), setCRL crl st)
      end
  end.

Definition revokeNode d c (nodeID : string) r st : Reply * HttpState B X :=
  if negb (dp_CRL d) then (writeJSONError "crl store not available" 503, st) else
  match (ms ← bodyMembers r;
         let get n := collect ["reason"; "signature_b64"]%string n as_string ms ""%string in
         reason ← get "reason"%string; sig ← get "signature_b64"%string; Some (reason, sig)) with
  | None => (writeJSONError "reason and signature_b64 required" 400, st)
  | Some (reason, sigB64) =>
      if str_eqb sigB64 "" then (writeJSONError "reason and signature_b64 required" 400, st) else
      match b64_decode sigB64 with
      | None => (writeJSONError "invalid signature_b64" 400, st)
      | Some sig =>
          let crl := Revoke (he_clock c 0) nodeID reason sig (gs_crl (hs_gw st)) in
          (ok_json (effectiveJSON nodeID crl), setCRL crl st)
      end
  end.

(** *** The event stream *)

(** The request subscribes; its goroutine then writes what it receives until the
    client goes away, and unsubscribes. *)
Definition openStream d st : Reply * HttpState B X :=
  if negb (dp_Inbox d) then (writeJSONError "inbox not available" 503, st) else
  let (id, b) := Subscribe (wd_inbox (gs_world (hs_gw st))) in
  (Streaming id, setWorld (on_inbox (fun _ => b) (gs_world (hs_gw st))) st).

(** One turn of the loop: the text written, if an event was there. *)
Definition streamNext (id : Z) st : option string * HttpState B X :=
  match receive id (wd_inbox (gs_world (hs_gw st))) with
  | (None, _) => (None, st)
  | (Some ev, b) =>
      (Some (append "data: " (append (render (eventJSON ev)) (String (chr 10) (String (chr 10) "")))),
       setWorld (on_inbox (fun _ => b) (gs_world (hs_gw st))) st)
  end.

Definition closeStream (id : Z) st : HttpState B X :=
  setWorld (on_inbox (Unsubscribe id) (gs_world (hs_gw st))) st.

(** *** Peers *)

Definition registerPeer r st : Reply * HttpState B X :=
  match (ms ← bodyMembers r;
         let get n := collect ["node_id"; "addr"; "node_scope"; "region"]%string n as_string ms ""%string in
         _ ← get "node_id"%string; addr ← get "addr"%string; scope ← get "node_scope"%string;
         region ← get "region"%string; Some (addr, scope, region)) with
  | None => (writeJSONError "invalid request body" 400, st)
  | Some (addr, scope, region) =>
      if str_eqb addr "" then (writeJSONError "addr is required" 400, st) else
      let p := {| peer_Region := region; peer_Addr := addr; peer_NodeScope := scope; peer_Regions := [] |} in
      (ok_json (JObj [("addr"%string, JStr addr); ("registered"%string, JBool true)]),
       {| hs_gw := hs_gw st; hs_peers := hs_peers st; hs_registry := hs_registry st;
          hs_runtimePeers := RuntimePeers_Add p <$> hs_runtimePeers st; hs_apps := hs_apps st;
          hs_adapters := hs_adapters st |})
  end.

Definition listPeers c st : Reply * HttpState B X :=
  let runtime := match hs_runtimePeers st with Some rp => RuntimePeers_All rp | None => [] end in
  (ok_json (json_slice (((fun kp => peerDTO kp.1 kp.2 "config") <$> he_peers c)
                        ++ ((fun p => peerDTO "" p "runtime") <$> runtime))), st).

(** *** Configuration *)

Definition reloadConfig d st : Reply * HttpState B X :=
  match dp_OnConfigReload d with
  | None => (writeJSONError "config reload not available" 503, st)
  | Some reload =>
      match reload (gs_policy (hs_gw st)) with
      | (Some err, e) => (writeJSONError (append "reload failed: " err) 500, setEngine e st)
      | (None, e) => (ok_json (JObj [("reloaded"%string, JBool true)]), setEngine e st)
      end
  end.

Definition saveConfig d r st : Reply * HttpState B X :=
  match dp_OnConfigSave d with
  | None => (writeJSONError "config save not available" 503, st)
  | Some save =>
      match decodeConfig (hr_Body r) with
      | None => (writeJSONError (append "invalid config JSON: " (jsonErrText (hr_Body r))) 400, st)
      | Some incoming =>
          match save incoming (gs_policy (hs_gw st)) with
          | (Some err, e) => (writeJSONError (append "config save failed: " err) 400, setEngine e st)
          | (None, e) => (Response 204 NoBody, setEngine e st)
          end
      end
  end.

(** *** Discovery *)

Definition setRegistry (rg : Registry) st : HttpState B X :=
  {| hs_gw := hs_gw st; hs_peers := hs_peers st; hs_registry := Some rg; hs_runtimePeers := hs_runtimePeers st;
     hs_apps := hs_apps st; hs_adapters := hs_adapters st |}.

Definition discoverUsers c r st : Reply * HttpState B X :=
  match hs_registry st with
  | None => (Response 200 (Text "[]"), st)
  | Some rg =>
      let (results, rg') := Discover (he_clock c 0) (he_uuid c) (he_users c) (hr_Query r "q") (hr_Query r "type") rg in
      (ok_json (JArr (discoveryJSON <$> results)), setRegistry rg' st)
  end.

Definition connectUser c r st : Reply * HttpState B X :=
  match hs_registry st with
  | None => (writeJSONError "registry not available" 503, st)
  | Some rg =>
      match (ms ← bodyMembers r;
             let get n := collect ["opaque_token"; "requester_id"; "requester_region"]%string n as_string ms ""%string in
             tok ← get "opaque_token"%string; who ← get "requester_id"%string; region ← get "requester_region"%string;
             Some (tok, who, region)) with
      | None => (writeJSONError "opaque_token required" 400, st)
      | Some (tok, who, region) =>
          if str_eqb tok "" then (writeJSONError "opaque_token required" 400, st) else
          let (result, rg') := RegistryConnect (he_clock c 0) (he_clock c 1) (he_uuid c 0) tok who region rg in
          (ok_json (connectJSON result), setRegistry rg' st)
      end
  end.

(** *** Applications *)

Definition setApps (ra : RuntimeApps) st : HttpState B X :=
  {| hs_gw := hs_gw st; hs_peers := hs_peers st; hs_registry := hs_registry st; hs_runtimePeers := hs_runtimePeers st;
     hs_apps := Some ra; hs_adapters := hs_adapters st |}.

Definition listApps c st : Reply * HttpState B X :=
  let runtime := match hs_apps st with Some ra => RuntimeApps_All (he_runtimeApps c) ra | None => [] end in
  (ok_json (JArr (((fun a => appInfo a.1 (ac_WebhookURL a.2) 0) <$> he_apps c)
                  ++ ((fun a => appInfo (rn_AppID a) (rn_WebhookURL a) (rn_LastSeen a)) <$> runtime))), st).

Definition registerApp c r st : Reply * HttpState B X :=
  match hs_apps st with
  | None => (writeJSONError "app registry not available" 503, st)
  | Some ra =>
      match (ms ← bodyMembers r;
             let get n := collect ["app_id"; "webhook_url"; "webhook_secret"]%string n as_string ms ""%string in
             appID ← get "app_id"%string; url ← get "webhook_url"%string; _ ← get "webhook_secret"%string;
             Some (appID, url)) with
      | None => (writeJSONError "app_id required" 400, st)
      | Some (appID, url) =>
          if str_eqb appID "" then (writeJSONError "app_id required" 400, st) else
          let app := {| rn_AppID := appID; rn_WebhookURL := url; rn_APIKey := he_uuid c 0;
                        rn_LastSeen := Unix (he_clock c 0) |} in
          (Response 201 (Json (JObj [("api_key"%string, JStr (he_uuid c 0)); ("app_id"%string, JStr appID)])),
           setApps (RuntimeApps_Register app ra) st)
      end
  end.

Definition deleteApp (appID : string) st : Reply * HttpState B X :=
  match hs_apps st with
  | None => (writeJSONError "app registry not available" 503, st)
  | Some ra =>
      let (found, ra') := RuntimeApps_Delete appID ra in
      (if negb found then writeJSONError "app not found" 404 else Response 204 NoBody, setApps ra' st)
  end.
End Handlers.
