(* ===== verification/AuditFile.v ===== *)
(** * Audit logs as files (package [internal/audit], [WriteJSON] and [VerifyFile])

    The JSON text of a log, the decoder of its entries, and offline verification of
    the contents of a file. *)

From S2P Require Import Prelude GoStrings GoCrypto Utf8 Json JsonFields Config Schema Crl Store AuditLog Policy Core Transit Delivery Gateway Identity PeerDiscovery Registry Metrics Inbox Webhook Callbacks HttpStores HttpAuth Http.

(** What [WriteJSON] puts into the file. *)
Definition WriteJSON {B} (l : Log B) : string := encodeLine (JArr (entryJSON <$> log_entries l)).

Definition entryFields : list string :=
  ["seq"; "timestamp"; "decision"; "reason"; "trust_tier"; "sender_region"; "recipient_region"; "policy_version";
   "profile"; "applicable_law"; "dedup_ttl_hours"; "node_scope"; "alliance_id"; "node_region"; "schema_type";
   "schema_version"; "retain_long"; "settlement_final"; "previous_hash"; "entry_hash"]%string.

Section Decode.
Context `{UnicodeTables}.

(** An element of the array, decoded into a new [Entry]. *)
Definition as_entry (v : json) : option Entry :=
  ms ← members v;
  let get {A} n (read : json -> A -> option A) zero := collect entryFields n read ms zero in
  seqno ← get "seq"%string as_uint64 0;
  ts ← get "timestamp"%string as_int64 0;
  decision ← get "decision"%string as_string ""%string;
  reason ← get "reason"%string as_string ""%string;
  tier ← get "trust_tier"%string as_uint32 0;
  sregion ← get "sender_region"%string as_string ""%string;
  rregion ← get "recipient_region"%string as_string ""%string;
  version ← get "policy_version"%string as_string ""%string;
  profile ← get "profile"%string as_string ""%string;
  law ← get "applicable_law"%string as_string ""%string;
  ttl ← get "dedup_ttl_hours"%string as_uint64 0;
  scope ← get "node_scope"%string as_string ""%string;
  alliance ← get "alliance_id"%string as_string ""%string;
  region ← get "node_region"%string as_string ""%string;
  stype ← get "schema_type"%string as_string ""%string;
  sver ← get "schema_version"%string as_string ""%string;
  retain ← get "retain_long"%string as_bool false;
  final ← get "settlement_final"%string as_bool false;
  prev ← get "previous_hash"%string as_string ""%string;
  hash ← get "entry_hash"%string as_string ""%string;
  Some {| ae_Seq := seqno; ae_Timestamp := ts; ae_Decision := decision; ae_Reason := reason; ae_TrustTier := tier;
          ae_SenderRegion := sregion; ae_RecipientRegion := rregion; ae_PolicyVersion := version;
          ae_Profile := profile; ae_ApplicableLaw := law; ae_DedupTTLHours := ttl; ae_NodeScope := scope;
          ae_AllianceID := alliance; ae_NodeRegion := region; ae_SchemaType := stype; ae_SchemaVersion := sver;
          ae_RetainLong := retain; ae_SettlementFinal := final; ae_PreviousHash := prev; ae_EntryHash := hash |}.

(** [json.NewDecoder(f).Decode(&entries)]. *)
Definition decodeEntries (contents : string) : option (list Entry) :=
  v ← decodeFirst contents;
  match v with JArr l => as_elems as_entry l | JNull => Some [] | _ => None end.

(** [VerifyFile] on a file that could be opened. *)
Definition VerifyContents (contents : string) : outcome AuditError string := VerifyFile (decodeEntries contents).

Lemma as_entry_JSON e : entry_ok e -> as_entry (entryJSON e) = Some e.
Proof.
  intros [_ Hseq Httl Htier Hts]. unfold as_entry, entryJSON. cbv zeta.
  eapply bind_some; [reflexivity|]. repeat read_struct_field. by destruct e.
Qed.
End Decode.

(** ** A written log verifies *)

Lemma Forall_utf8_wf (e : Entry) : entry_ok e -> json_wf (entryJSON e).
Proof.
  intros [Hs Hseq Httl Htier Hts]. unfold in_u64, in_u32, in_i64 in *. repeat (apply Forall_cons in Hs as [? Hs]).
  apply struct_wf. repeat (constructor; [intros _; cbn [fst snd]; split; [by apply plain_utf8|cbn; first [done|lia]]|]).
  constructor.
Qed.

Lemma as_elems_fmap {A} (elem : json -> option A) (f : A -> json) l :
  Forall (fun x => elem (f x) = Some x) l -> as_elems elem (f <$> l) = Some l.
Proof. induction 1 as [|x l Hx Hl IH]; cbn; [done|]. by rewrite Hx, IH. Qed.

Section Files.
Context `{UnicodeTables} {B : Type}.

Lemma entries_wf es : Forall entry_ok es -> json_wf (JArr (entryJSON <$> es)).
Proof. intros Hes. apply foldr_wf, Forall_fmap. eapply Forall_impl; [exact Hes|]. apply Forall_utf8_wf. Qed.

Lemma decodeEntries_line es : Forall entry_ok es -> decodeEntries (encodeLine (JArr (entryJSON <$> es))) = Some es.
Proof.
  intros Hes. unfold decodeEntries. rewrite decodeFirst_line by by apply entries_wf. cbn [mbind option_bind].
  apply as_elems_fmap. eapply Forall_impl; [exact Hes|]. apply as_entry_JSON.
Qed.

(** C40: Offline verification of files.  The file [WriteJSON] writes for a verifying log
    whose strings are valid UTF-8 decodes to its entries and is accepted, with the root
    hash the node publishes.  A file accepted with that root holds the same hashed texts
    in the same order, as long as SHA-256 tells the texts of its entries and of the log's
    apart, and the same entries when these are well formed. *)
Theorem offline_verification (l : Log B) :
  Verify l = None ->
  (Forall entry_ok (log_entries l) ->
     decodeEntries (WriteJSON l) = Some (log_entries l) /\ VerifyContents (WriteJSON l) = Ok (RootHash l))
  /\ forall contents, VerifyContents contents = Ok (RootHash l) ->
       exists es, decodeEntries contents = Some es
         /\ (hashes_apart (hashPayload <$> es ++ log_entries l) = true ->
              (hashPayload <$> es) = (hashPayload <$> log_entries l)
              /\ (Forall entry_ok (es ++ log_entries l) -> es = log_entries l)).
Proof.
  rewrite Verify_None. intros [Hc Hr]. unfold VerifyContents, RootHash. rewrite Hr. split.
  - intros Hes. unfold WriteJSON. rewrite decodeEntries_line by done. split; [done|]. cbn.
    by rewrite (proj2 (verifyChain_chain (log_entries l) (tip (log_entries l))) (conj Hc eq_refl)).
  - intros contents Hv. destruct (decodeEntries contents) as [es|] eqn:Ed; [|done]. exists es. split; [done|].
    unfold VerifyFile in Hv. apply obind_Ok in Hv as (r & Hr' & [= Ht]). apply verifyChain_chain in Hr' as [Hce _].
    intros Ha. pose proof (chain_tip_inj _ _ Hce Hc Ht Ha) as Hp. split; [done|]. intros Hok. by apply same_payloads.
Qed.

(** The answers of [GET /api/v1/audit/latest] are no such files: they list the
    newest entry first, so that verification stops at the first entry of any two. *)
Theorem latest_answer_fails (l : Log B) e1 e2 es :
  Verify l = None -> Forall entry_ok (log_entries l) -> log_entries l = es ++ [e1; e2] -> hashEntry e1 <> zeroHash ->
  VerifyContents (encodeLine (JArr (entryJSON <$> reverse (log_entries l)))) = Err (PreviousHashMismatch 1).
Proof.
  rewrite Verify_None. intros [Hc _] Hok Hes Hz. unfold VerifyContents.
  rewrite decodeEntries_line by by apply Forall_reverse. rewrite Hes in Hc |- *.
  replace (es ++ [e1; e2]) with ((es ++ [e1]) ++ [e2]) in * by by rewrite <- app_assoc.
  apply chain_snoc_inv in Hc as (Hc & Hp & _). apply chain_snoc_inv in Hc as (_ & _ & Hh). rewrite tip_snoc in Hp.
  rewrite reverse_snoc. cbn. destruct (str_eqb (ae_PreviousHash e2) zeroHash) eqn:E; go_bool; [|done].
  destruct Hz. by rewrite <- E, Hp, Hh.
Qed.
End Files.

(** ** Witnesses *)

Lemma offline_verification_witness :
  VerifyContents (WriteJSON demo_log) = Ok (RootHash demo_log)
  /\ exists es, decodeEntries (WriteJSON demo_log) = Some es /\ es = log_entries demo_log.
Proof.
  destruct (offline_verification demo_log ltac:(vm_compute; reflexivity)) as [Hw Hr].
  destruct (Hw demo_log_ok) as [Hd Hv]. split; [exact Hv|]. destruct (Hr _ Hv) as (es & He & Ha). exists es. split; [exact He|].
  rewrite Hd in He. injection He as <-. refine (proj2 (Ha _) _); [vm_compute; reflexivity|].
  apply Forall_app. split; exact demo_log_ok.
Defined.

Lemma latest_answer_fails_witness :
  VerifyContents (encodeLine (JArr (entryJSON <$> reverse (log_entries demo_log)))) = Err (PreviousHashMismatch 1).
Proof.
  destruct (log_entries demo_log) as [|e1 [|e2 [|]]] eqn:E; try (vm_compute in E; discriminate E). rewrite <- E.
  apply (latest_answer_fails demo_log e1 e2 []); [vm_compute; reflexivity|exact demo_log_ok|exact E|].
  vm_compute in E. injection E as <- _. vm_compute. discriminate.
Defined.
