(* ===== verification/CliAudit.v ===== *)
(** * Operator commands on keys and audit logs (cmd/mrmi, [main.go])

    [mrmi keygen] and [mrmi audit verify]: a local file, a DNS record, or the signed
    answer of a node. *)

From S2P Require Import Prelude GoStrings GoCrypto Utf8 Json JsonFields Config Schema Crl Store AuditLog Delivery GoText GoFlag Identity Terminal Http AuditFile.

Section Commands.
Context `{UnicodeTables} `{PrintTable} `{KeyFormat}.
(** The outside, and the text of the decoder's errors. *)
Context (o : Outside) (jsonErrText : string -> string).
#[local] Open Scope cmd_scope.

(** ** [mrmi keygen]

    [rand] is what [rand.Reader] gives: a key, or the text of an error. *)
Definition keygenFlags : FlagSet := {["output" := FString ""]}%string.

Definition cmdKeygen (rand : outcome string ed_PrivateKey) (args : list string) : Cmd unit :=
  let* fs := parseArgs keygenFlags args in
  let output := stringFlag fs "output" in
  if str_eqb output "" then throw "--output is required" else
  let* priv := wrap_err "generate key: " (lift rand) in
  let* privBytes := wrap_err "marshal private key: " (lift (x509_MarshalPKCS8 priv)) in
  wrap_err "write private key: " (writeFile o output (pemEncode "PRIVATE KEY" privBytes) 0x180) ;;
  say (text ["Private key written to: "; output; newline; newline; "Public key:"; newline;
             pemPublic (ed_Public priv)]%string).

(** ** [mrmi audit verify --local] *)

Definition auditErrorText (contents : string) (e : AuditError) : string :=
  match e with
  | PreviousHashMismatch i => text ["entry "; itoa (Z.of_nat i); " previous hash mismatch"]%string
  | EntryHashMismatch i => text ["entry "; itoa (Z.of_nat i); " hash mismatch"]%string
  | LogUnreadable => text ["parse log file: "; jsonErrText contents]%string
  | EmptyRootMismatch => "empty log root mismatch"
  | RootMismatch => "root hash mismatch"
  end.

(** [audit.VerifyFile] *)
Definition verifyFile (path : string) : Cmd string :=
  let* contents := readFile o path in
  lift match VerifyContents contents with Ok r => Ok r | Err e => Err (auditErrorText contents e) end.

Definition failed (what why : string) : Cmd unit :=
  say (text ["FAIL  "; what; newline; "      "; why; newline]%string).

Definition verifyLocal (logPath : string) : Cmd unit :=
  if str_eqb logPath "" then throw "--log is required with --local" else
  let* r := try (verifyFile logPath) in
  match r with
  | Err e => failed logPath e ;; throw e
  | Ok rootHash => say (text ["PASS  "; logPath; newline; "      root: "; rootHash; newline]%string)
  end.

(** ** [mrmi audit verify --dns] *)

Definition parseTXTFields (txt : string) : gmap string string :=
  foldl (fun m part => match cut "=" part with Some (k, v) => <[k := v]> m | None => m end) ∅ (Fields txt).

(** The first record of version 1 that names a root. *)
Definition txtRoot (txt : string) : option (string * option string) :=
  if negb (HasPrefix txt "v=1 ") then None else
  match parseTXTFields txt !! "root"%string with
  | Some root => Some (root, parseTXTFields txt !! "ts"%string)
  | None => None
  end.

Fixpoint firstRoot (txts : list string) : option (string * option string) :=
  match txts with
  | [] => None
  | txt :: txts' => match txtRoot txt with Some r => Some r | None => firstRoot txts' end
  end.

Definition verifyDNS (nodeID : string) : Cmd unit :=
  if str_eqb nodeID "" then throw "--node is required with --dns" else
  let dnsName := text ["_mrmi-audit."; nodeID]%string in
  let* r := try (lookupTXT o dnsName) in
  match r with
  | Err e => failed dnsName (text ["DNS lookup error: "; e]%string) ;; throw e
  | Ok txts =>
      match firstRoot txts with
      | Some (root, ts) =>
          say (text ["PASS  "; dnsName; newline; "      root: "; root; newline]%string) ;;
          match ts with Some ts => say (text ["      ts:   "; ts; newline]%string) | None => ret () end
      | None => failed dnsName "no valid v=1 MRMI TXT record found" ;; throw (text ["no valid record at "; dnsName]%string)
      end
  end.

(** ** [mrmi audit verify --https] *)

Record auditWellKnown := {
  wk_ADRVersion : string; wk_AppVersion : string; wk_ApplicableLaw : string; wk_NodeID : string;
  wk_RootHash : string; wk_Timestamp : Z; wk_Version : Z; wk_Signature : string }.

Definition wellKnownFields : list string :=
  ["adr_version"; "app_version"; "applicable_law"; "node_id"; "root_hash"; "timestamp"; "version"; "signature"]%string.

Definition as_wellKnown (v : json) : option auditWellKnown :=
  ms ← members v;
  let get {A} n (read : json -> A -> option A) zero := collect wellKnownFields n read ms zero in
  adr ← get "adr_version"%string as_string ""%string;
  app ← get "app_version"%string as_string ""%string;
  law ← get "applicable_law"%string as_string ""%string;
  node ← get "node_id"%string as_string ""%string;
  root ← get "root_hash"%string as_string ""%string;
  ts ← get "timestamp"%string as_int64 0;
  ver ← get "version"%string as_int64 0;
  sig ← get "signature"%string as_string ""%string;
  Some {| wk_ADRVersion := adr; wk_AppVersion := app; wk_ApplicableLaw := law; wk_NodeID := node; wk_RootHash := root;
          wk_Timestamp := ts; wk_Version := ver; wk_Signature := sig |}.

(** The text under the signature. *)
Definition canonical (wk : auditWellKnown) : string := render (JObj [
  ("adr_version"%string, JStr (wk_ADRVersion wk)); ("app_version"%string, JStr (wk_AppVersion wk));
  ("applicable_law"%string, JStr (wk_ApplicableLaw wk)); ("node_id"%string, JStr (wk_NodeID wk));
  ("root_hash"%string, JStr (wk_RootHash wk)); ("timestamp"%string, JInt (wk_Timestamp wk));
  ("version"%string, JInt (wk_Version wk))]).

(** The offset [base64] reports is left open. *)
Context (b64ErrText : string -> string).

Definition signaturePrefix : string := "ed25519:".

Definition readPubkey (pubkeyPath : string) : Cmd string :=
  let* pemData := wrap_err "read pubkey: " (readFile o pubkeyPath) in
  match pem_Decode pemData with
  | None => throw "no PEM block in pubkey file"
  | Some der =>
      let* pub := wrap_err "parse pubkey: " (lift (x509_ParsePKIXPublicKey der)) in
      match pub with None => throw "key is not Ed25519" | Some pub => ret pub end
  end.

Definition checkHTTPSSig (wk : auditWellKnown) (pubkeyPath : string) : Cmd unit :=
  let* pub := readPubkey pubkeyPath in
  if negb (HasPrefix (wk_Signature wk) signaturePrefix)
  then throw (text ["unexpected signature format "; Quote (wk_Signature wk)]%string) else
  let sig := HttpAuth.TrimPrefix (wk_Signature wk) signaturePrefix in
  match b64_decode sig with
  | None => throw (text ["decode signature: "; b64ErrText sig]%string)
  | Some sigBytes => if negb (ed_Verify pub (canonical wk) sigBytes) then throw "signature verification failed" else ret ()
  end.

Definition showWellKnown (rawURL : string) (wk : auditWellKnown) : string :=
  text ["PASS  "; rawURL; newline; "      node:  "; wk_NodeID wk; newline; "      root:  "; wk_RootHash wk; newline;
        "      law:   "; wk_ApplicableLaw wk; newline]%string.

(** [c.Get(rawURL)]: building the request and sending it. *)
Definition httpGet (rawURL : string) : Cmd ClientResponse :=
  let* req := newRequest o "GET" rawURL "" in doRequest o req.

Definition StatusOK : Z := 200.

Definition verifyHTTPS (rawURL pubkeyPath : string) : Cmd unit :=
  if str_eqb rawURL "" then throw "--url is required with --https" else
  let* r := try (httpGet rawURL) in
  match r with
  | Err e => failed rawURL (text ["HTTP error: "; e]%string) ;; throw e
  | Ok resp =>
      let* body := readAll resp in
      if negb (resp.1 =? StatusOK)
      then failed rawURL (text ["HTTP "; itoa resp.1]%string) ;; throw (text ["HTTP "; itoa resp.1]%string) else
      match unmarshal body ≫= as_wellKnown with
      | None => failed rawURL (text ["parse error: "; jsonErrText body]%string) ;; throw (jsonErrText body)
      | Some wk =>
          say (showWellKnown rawURL wk) ;;
          if str_eqb pubkeyPath "" then ret () else
          let* s := try (checkHTTPSSig wk pubkeyPath) in
          match s with
          | Err e => say (text ["SIG   FAIL  "; e; newline]%string) ;; throw e
          | Ok _ => say (text ["SIG   PASS"; newline]%string)
          end
      end
  end.

(** ** Dispatch *)

Definition usageAuditVerify : string := concat_with newline [
  "Usage:"; "  mrmi audit verify --local --log <path>"; "  mrmi audit verify --dns --node <node_id>";
  "  mrmi audit verify --https --url <url> [--pubkey <path>]"; ""]%string.

Definition auditVerifyFlags : FlagSet := {[
  "local" := FBool false; "log" := FString ""; "dns" := FBool false; "node" := FString "";
  "https" := FBool false; "url" := FString ""; "pubkey" := FString ""]}%string.

Definition cmdAuditVerify (args : list string) : Cmd unit :=
  let* fs := parseArgs auditVerifyFlags args in
  if boolFlag fs "local" then verifyLocal (stringFlag fs "log")
  else if boolFlag fs "dns" then verifyDNS (stringFlag fs "node")
  else if boolFlag fs "https" then verifyHTTPS (stringFlag fs "url") (stringFlag fs "pubkey")
  else warn usageAuditVerify ;; throw "one of --local, --dns, or --https is required".
End Commands.

(** ** What [keygen] leaves behind *)

(** Substrings do not reach over a byte they do not contain. *)
Lemma prefix_over n p c s : c ∉ list_ascii_of_string n -> String.prefix n (append p (String c s)) = String.prefix n p.
Proof.
  revert p. induction n as [|a n IH]; intros [|b p] Hc; [done..| |]; str_simpl; cbn in Hc; rewrite not_elem_of_cons in Hc.
  - destruct (ascii_dec a c) as [->|]; [naive_solver|done].
  - destruct (ascii_dec a b); [apply IH; naive_solver|done].
Qed.

Lemma contains_over n p c s :
  n <> ""%string -> c ∉ list_ascii_of_string n ->
  StringsContains (append p (String c s)) n = StringsContains p n || StringsContains s n.
Proof.
  intros Hne Hc. unfold StringsContains. induction p as [|b p IH].
  - rewrite append_nil_l. cbn [Substring_at]. pose proof (prefix_over n "" c s Hc) as Hp. rewrite append_nil_l in Hp.
    rewrite Hp. by destruct n.
  - rewrite append_cons. cbn [Substring_at]. rewrite <- append_cons, prefix_over by done. by rewrite IH, orb_assoc.
Qed.

Section Keygen.
Context `{PrintTable} `{KeyFormat}.
Context (o : Outside).

(** The files of [mrmi keygen].  The private key goes to the file that was named, whose
    mode is owner-only where the command creates it; a file that was there keeps
    the mode it had.  The standard output, kept as a file, is the public key that
    [mrmi audit verify --pubkey] reads. *)
Theorem keygen_files k der path t :
  x509_MarshalPKCS8 k = Ok der -> o_writeError o path = None -> path <> ""%string ->
  tm_out t = ""%string -> StringsContains path "-----BEGIN" = false -> String.length (ed_Public k) = 32%nat ->
  exists t', cmdKeygen o (Ok k) ["--output"; path]%string t = (Ok (), t')
    /\ tm_files t' !! path = Some {|
         fl_mode := match tm_files t !! path with Some f => fl_mode f | None => Z.land 0x180 (Z.lnot (o_umask o)) end;
         fl_data := pemEncode "PRIVATE KEY" der |}
    /\ exists der', pem_Decode (tm_out t') = Some der' /\ x509_ParsePKIXPublicKey der' = Ok (Some (ed_Public k)).
Proof.
  intros Hder Hw Hp Hout Hb Hlen. unfold cmdKeygen, bind at 1, parseArgs.
  assert (parseFlags keygenFlags ["--output"; path]%string = Ok (<["output"%string := FString path]> keygenFlags, [])) as -> by done.
  unfold ret. cbv zeta. assert (stringFlag (<["output"%string := FString path]> keygenFlags) "output" = path) as ->.
  { unfold stringFlag. by rewrite lookup_insert_eq. }
  rewrite (proj2 (str_eqb_neq _ _) Hp). unfold bind, wrap_err, lift. rewrite Hder. unfold writeFile. rewrite Hw.
  eexists. split; [reflexivity|]. unfold say. cbn [snd tm_files tm_out]. split; [by rewrite lookup_insert_eq|].
  exists (pkixPublic (ed_Public k)). split; [|by apply x509_parse_pkix]. rewrite Hout, append_nil_l.
  set (pre := append "Private key written to:" (String " " (append path (String (chr 10) (String (chr 10) "Public key:"))))).
  assert (StringsContains pre "-----BEGIN" = false) as Hpre.
  { assert (forall c, c ∈ [" "%char; chr 10] -> c ∉ list_ascii_of_string "-----BEGIN") as Hc.
    { intros c. rewrite !elem_of_cons. intros [->|[->|[]%not_elem_of_nil]]; vm_compute; set_solver. }
    unfold pre. rewrite contains_over by (try done; apply Hc; set_solver). change (StringsContains "Private key written to:" _) with false.
    rewrite contains_over by (try done; apply Hc; set_solver). by rewrite Hb. }
  rewrite <- (pem_decode_public pre (ed_Public k) Hpre). f_equal. unfold pre, text. cbn [foldr].
  rewrite !append_empty_str. unfold newline.
  repeat first [rewrite <- append_assoc_str | rewrite append_cons | rewrite append_nil_l]. reflexivity.
Qed.
End Keygen.

(** ** What a verdict rests on *)

Section Verdicts.
Context `{UnicodeTables} `{PrintTable} `{KeyFormat}.
Context (o : Outside) (jsonErrText b64ErrText : string -> string).

(** A file holds an Ed25519 public key. *)
Definition holdsKey (files : gmap string File) (path pub : string) : Prop :=
  exists f der, files !! path = Some f /\ pem_Decode (fl_data f) = Some der
    /\ x509_ParsePKIXPublicKey der = Ok (Some pub).

(** The members of the document, and the text a node signs: the object of all members
    but the signature. *)
Definition documentMembers (wk : auditWellKnown) : list (string * json) := [
  ("adr_version", JStr (wk_ADRVersion wk)); ("app_version", JStr (wk_AppVersion wk));
  ("applicable_law", JStr (wk_ApplicableLaw wk)); ("node_id", JStr (wk_NodeID wk)); ("root_hash", JStr (wk_RootHash wk));
  ("timestamp", JInt (wk_Timestamp wk)); ("version", JInt (wk_Version wk)); ("signature", JStr (wk_Signature wk))]%string.

Definition signedText (wk : auditWellKnown) : string :=
  render (JObj (base.filter (fun m => m.1 <> "signature"%string) (documentMembers wk))).

(** The member [signature] is a valid signature of the others under [pub]. *)
Definition signedBy (pub : string) (wk : auditWellKnown) : Prop :=
  exists sig raw, wk_Signature wk = append "ed25519:" sig /\ b64_decode sig = Some raw
    /\ ed_Verify pub (signedText wk) raw = true.

Lemma canonical_signedText wk : canonical wk = signedText wk.
Proof. reflexivity. Qed.

Lemma readPubkey_spec path t :
  (exists pub, holdsKey (tm_files t) path pub /\ readPubkey o path t = (Ok pub, t))
  \/ ((forall pub, ~ holdsKey (tm_files t) path pub) /\ exists e, readPubkey o path t = (Err e, t)).
Proof.
  unfold readPubkey, bind, wrap_err, readFile, lift, throw, ret, holdsKey.
  assert (forall e : string, (forall pub, ~ holdsKey (tm_files t) path pub) ->
    (exists pub, holdsKey (tm_files t) path pub /\ (Err e : outcome string string, t) = (Ok pub, t))
    \/ (forall pub, ~ holdsKey (tm_files t) path pub) /\ exists e', (Err e : outcome string string, t) = (Err e', t)) as Hno.
  { intros e Hn. right. eauto. }
  unfold holdsKey in *.
  destruct (tm_files t !! path) as [f|] eqn:Ef; [|apply Hno; intros pub (? & ? & ? & _); congruence].
  destruct (pem_Decode (fl_data f)) as [der|] eqn:Ed; [|apply Hno; intros pub (? & ? & ? & ? & _); congruence].
  destruct (x509_ParsePKIXPublicKey der) as [[pub|]|e] eqn:Ep; [left; by eauto 10|..];
    apply Hno; intros pub (? & ? & ? & ? & ?); congruence.
Qed.

Lemma checkHTTPSSig_spec wk path t :
  (exists pub, holdsKey (tm_files t) path pub /\ signedBy pub wk /\ checkHTTPSSig o b64ErrText wk path t = (Ok (), t))
  \/ ((forall pub, holdsKey (tm_files t) path pub -> ~ signedBy pub wk)
      /\ exists e, checkHTTPSSig o b64ErrText wk path t = (Err e, t)).
Proof.
  unfold checkHTTPSSig, bind. destruct (readPubkey_spec path t) as [(pub & Hk & ->)|[Hn (e & ->)]];
    [|right; split; [by intros pub Hp; destruct (Hn pub Hp)|eauto]].
  assert (forall pub', holdsKey (tm_files t) path pub' -> pub' = pub) as Hu.
  { destruct Hk as (f & der & Hf & Hd & Hx). intros pub' (f' & der' & Hf' & Hd' & Hx'). congruence. }
  unfold signedBy. change (canonical wk) with (signedText wk). change "ed25519:"%string with signaturePrefix.
  destruct (HasPrefix (wk_Signature wk) signaturePrefix) eqn:Ep; cbn [negb].
  - destruct (prefix_split _ _ Ep) as [sig Hsig]. rewrite Hsig, HttpAuth.TrimPrefix_append.
    assert (forall sig', append signaturePrefix sig = append signaturePrefix sig' -> sig' = sig) as Hs
      by (intros sig' Heq; symmetry; by eapply append_inj_l).
    destruct (b64_decode sig) as [raw|] eqn:Eb; [|right; split; [|unfold throw; eauto]].
    + destruct (ed_Verify pub (signedText wk) raw) eqn:Ev; cbn [negb]; [left; exists pub; eauto 10|].
      right. split; [|unfold throw; eauto]. intros pub' Hp (sig' & raw' & Heq & Hd & Hv). apply Hs in Heq as ->.
      rewrite (Hu _ Hp) in Hv. congruence.
    + intros pub' _ (sig' & raw' & Heq & Hd & _). apply Hs in Heq as ->. congruence.
  - right. split; [|unfold throw; eauto]. intros pub' _ (sig' & raw' & Heq & _).
    rewrite Heq in Ep. by rewrite prefix_append in Ep.
Qed.

(** The terminal after a request and more output. *)
Definition after (t : Term) (out : string) (reqs : list ClientRequest) : Term :=
  {| tm_out := append (tm_out t) out; tm_err := tm_err t; tm_files := tm_files t; tm_sent := tm_sent t ++ reqs |}.

Definition getRequest (url : string) : ClientRequest := {| cq_Method := "GET"; cq_URL := url; cq_Header := []; cq_Body := "" |}.

Lemma httpGet_run url t :
  httpGet o url t = match o_parseURL o url with
                    | Some e => (Err e, t)
                    | None => (o_http o (getRequest url), after t "" [getRequest url])
                    end.
Proof.
  unfold httpGet, newRequest, bind. destruct (o_parseURL o url); [done|]. unfold ret, doRequest, after.
  by rewrite append_empty_str.
Qed.

(** The node at [url] answers 200 with a document that is signed under the Ed25519
    public key in the file. *)
Definition vouched (url path : string) (t : Term) (wk : auditWellKnown) : Prop :=
  o_parseURL o url = None
  /\ exists body pub, o_http o (getRequest url) = Ok (StatusOK, Ok body) /\ unmarshal body ≫= as_wellKnown = Some wk
       /\ holdsKey (tm_files t) path pub /\ signedBy pub wk.

(** Every way to fail leaves the files alone. *)
Lemma verifyHTTPS_fails url path t :
  url <> ""%string -> path <> ""%string -> ~ (exists wk, vouched url path t wk) ->
  exists e t', verifyHTTPS o jsonErrText b64ErrText url path t = (Err e, t') /\ tm_files t' = tm_files t.
Proof.
  intros Hu Hp Hno. unfold verifyHTTPS. rewrite (proj2 (str_eqb_neq _ _) Hu). unfold bind at 1, try at 1. rewrite httpGet_run.
  destruct (o_parseURL o url) as [e|] eqn:Eu; [by do 2 eexists|].
  destruct (o_http o (getRequest url)) as [[status [body|e]]|e] eqn:Eh; [|by do 2 eexists..].
  cbn [readAll wrap_err lift bind fst snd]. unfold bind at 1. cbn [readAll wrap_err lift fst snd].
  destruct (status =? StatusOK) eqn:Es; cbn [negb]; [|by do 2 eexists]. apply Z.eqb_eq in Es as ->.
  destruct (unmarshal body ≫= as_wellKnown) as [wk|] eqn:Ew; [|by do 2 eexists].
  rewrite (proj2 (str_eqb_neq _ _) Hp). unfold bind at 1, say at 1. unfold bind at 1, try at 1.
  match goal with |- context [checkHTTPSSig o b64ErrText wk path ?t1] =>
    destruct (checkHTTPSSig_spec wk path t1) as [(pub & Hk & Hs & _)|[_ (e & ->)]] end; [|by do 2 eexists].
  destruct Hno. exists wk. split; [done|]. by exists body, pub.
Qed.

Lemma verifyHTTPS_passes url path t wk :
  url <> ""%string -> path <> ""%string -> vouched url path t wk ->
  verifyHTTPS o jsonErrText b64ErrText url path t
  = (Ok (), after t (append (showWellKnown url wk) (text ["SIG   PASS"; newline]%string)) [getRequest url]).
Proof.
  intros Hu Hp (Eu & body & pub & Eh & Ew & Hk & Hs).
  unfold verifyHTTPS. rewrite (proj2 (str_eqb_neq _ _) Hu). unfold bind at 1, try at 1. rewrite httpGet_run, Eu, Eh.
  cbn [readAll wrap_err lift bind fst snd]. unfold bind at 1. cbn [readAll wrap_err lift fst snd].
  rewrite Z.eqb_refl, Ew, (proj2 (str_eqb_neq _ _) Hp). cbn [negb]. unfold bind at 1, say at 1. unfold bind at 1, try at 1.
  match goal with |- context [checkHTTPSSig o b64ErrText wk path ?t1] =>
    destruct (checkHTTPSSig_spec wk path t1) as [(pub' & _ & _ & ->)|[Hn _]] end; [|by destruct (Hn pub)].
  unfold after. cbn [tm_out tm_err tm_files tm_sent]. by rewrite append_empty_str, (append_assoc_str (tm_out t)).
Qed.

(** C33: The verdict of [mrmi audit verify --https] with a public key.  Where the node
    answers 200 with a document whose signature, over all its other members, verifies
    under the Ed25519 key in the file, the command succeeds and shows the document;
    in every other case it ends with an error.  Either way it changes no file. *)
Theorem https_verdict_sound url path t :
  url <> ""%string -> path <> ""%string ->
  (forall wk, vouched url path t wk ->
     verifyHTTPS o jsonErrText b64ErrText url path t
     = (Ok (), after t (append (showWellKnown url wk) (text ["SIG   PASS"; newline]%string)) [getRequest url]))
  /\ (~ (exists wk, vouched url path t wk) ->
      exists e t', verifyHTTPS o jsonErrText b64ErrText url path t = (Err e, t') /\ tm_files t' = tm_files t).
Proof.
  intros Hu Hp. split; [|by apply verifyHTTPS_fails]. intros wk. by apply verifyHTTPS_passes.
Qed.

(** A DNS record is only looked at: [mrmi audit verify --dns] passes exactly when
    some record names a root, which it shows. *)
Lemma verifyDNS_run nodeID t :
  nodeID <> ""%string ->
  let dnsName := text ["_mrmi-audit."; nodeID]%string in
  (exists t', verifyDNS o nodeID t = (Ok (), t'))
  <-> exists txts root ts, o_lookupTXT o dnsName = Ok txts /\ firstRoot txts = Some (root, ts)
      /\ verifyDNS o nodeID t
         = (Ok (), after t (append (text ["PASS  "; dnsName; newline; "      root: "; root; newline]%string)
             (match ts with Some ts => text ["      ts:   "; ts; newline]%string | None => ""%string end)) []).
Proof.
  intros Hn dnsName. split; [|naive_solver]. intros [t' Hv]. rewrite Hv. revert Hv. unfold verifyDNS.
  rewrite (proj2 (str_eqb_neq _ _) Hn). fold dnsName. cbv zeta. unfold bind at 1, try, lookupTXT, lift.
  destruct (o_lookupTXT o dnsName) as [txts|e] eqn:Ho; [|done].
  destruct (firstRoot txts) as [[root ts]|] eqn:Er; [|done]. intros Hv. exists txts, root, ts. split_and!; [done..|].
  rewrite <- Hv. unfold bind, say, ret, after. destruct ts as [ts|]; cbn [tm_out tm_err tm_files tm_sent].
  - by rewrite app_nil_r, (append_assoc_str (tm_out t)).
  - by rewrite app_nil_r, append_empty_str.
Qed.
End Verdicts.
