(* ===== verification/CliNode.v ===== *)
(** * Operator commands on a running node (cmd/mrmi, [node.go] and [token.go])

    [mrmi node status], [peers], [dlq] and [apps] ask the management API and print
    its answer as a table; [mrmi token issue] asks for a token. *)

From S2P Require Import Prelude GoStrings GoCrypto Utf8 Json JsonFields Delivery GoText GoFlag Identity Terminal Http CliAudit.

(** ** Texts *)

Definition trimNewline (b : string) : string :=
  string_of_list_ascii (rev ((fix trim l := match l with
    | a :: l' => if (byteZ a =? 10) || (byteZ a =? 13) then trim l' else l
    | [] => []
    end) (rev (list_ascii_of_string b)))).

Definition formatUptime (seconds : Z) : string :=
  let d := mul_duration seconds Second in
  let h := intUnits d Hour in
  let m := Z.rem (intUnits d Minute) 60 in
  let s := Z.rem (intUnits d Second) 60 in
  if 0 <? h then text [itoa h; "h"; itoa m; "m"; itoa s; "s"]%string
  else if 0 <? m then text [itoa m; "m"; itoa s; "s"]%string
  else text [itoa s; "s"]%string.

(** A line of a table for the tabwriter. *)
Definition row (cells : list string) : string := append (concat_with tab cells) newline.

Definition table (rows : list (list string)) : string := tabwrite (text (row <$> rows)).

Section Decode.
Context `{UnicodeTables}.

(** ** The answers of the API, as the command decodes them *)

Definition as_error (v : json) : option string :=
  ms ← members v; collect ["error"%string] "error"%string as_string ms ""%string.

Record StatusAnswer := {
  sa_NodeID : string; sa_Region : string; sa_NodeScope : string; sa_Profile : string; sa_ApplicableLaw : string;
  sa_AppVersion : string; sa_ADRVersion : string; sa_UptimeSecs : Z }.

Definition statusFields : list string :=
  ["node_id"; "region"; "node_scope"; "profile"; "applicable_law"; "app_version"; "adr_version"; "uptime_seconds"]%string.

Definition as_status (v : json) : option StatusAnswer :=
  ms ← members v;
  let get {A} n (read : json -> A -> option A) zero := collect statusFields n read ms zero in
  node ← get "node_id"%string as_string ""%string;
  region ← get "region"%string as_string ""%string;
  scope ← get "node_scope"%string as_string ""%string;
  profile ← get "profile"%string as_string ""%string;
  law ← get "applicable_law"%string as_string ""%string;
  app ← get "app_version"%string as_string ""%string;
  adr ← get "adr_version"%string as_string ""%string;
  up ← get "uptime_seconds"%string as_int64 0;
  Some {| sa_NodeID := node; sa_Region := region; sa_NodeScope := scope; sa_Profile := profile;
          sa_ApplicableLaw := law; sa_AppVersion := app; sa_ADRVersion := adr; sa_UptimeSecs := up |}.

Definition peerFields : list string := ["node_id"; "addr"; "node_scope"; "region"; "source"]%string.

(** The cells of a peer: node, address, scope, region, source. *)
Definition as_peerRow (v : json) : option (list string) :=
  ms ← members v;
  let get n := collect peerFields n as_string ms ""%string in
  node ← get "node_id"%string; addr ← get "addr"%string; scope ← get "node_scope"%string;
  region ← get "region"%string; source ← get "source"%string;
  Some [node; addr; scope; region; source].

Record DeadLetter := {
  de_Index : Z; de_PeerAddr : string; de_Attempts : Z; de_LastError : string; de_FirstSeenUnix : Z;
  de_EnvelopeID : string; de_SenderRegion : string; de_RecipientRegion : string }.

Definition deadLetterFields : list string :=
  ["index"; "peer_addr"; "attempts"; "last_error"; "first_seen_unix"; "envelope_id"; "sender_region";
   "recipient_region"]%string.

Definition as_deadLetter (v : json) : option DeadLetter :=
  ms ← members v;
  let get {A} n (read : json -> A -> option A) zero := collect deadLetterFields n read ms zero in
  index ← get "index"%string as_int64 0;
  addr ← get "peer_addr"%string as_string ""%string;
  attempts ← get "attempts"%string as_int64 0;
  last ← get "last_error"%string as_string ""%string;
  first ← get "first_seen_unix"%string as_int64 0;
  id ← get "envelope_id"%string as_string ""%string;
  sregion ← get "sender_region"%string as_string ""%string;
  rregion ← get "recipient_region"%string as_string ""%string;
  Some {| de_Index := index; de_PeerAddr := addr; de_Attempts := attempts; de_LastError := last;
          de_FirstSeenUnix := first; de_EnvelopeID := id; de_SenderRegion := sregion; de_RecipientRegion := rregion |}.

Definition as_appRow (v : json) : option (list string) :=
  ms ← members v;
  let get n := collect ["app_id"; "webhook_url"]%string n as_string ms ""%string in
  app ← get "app_id"%string; url ← get "webhook_url"%string;
  Some [app; url].

(** A slice of such values. *)
Definition as_slice {A} (elem : json -> option A) (v : json) : option (list A) :=
  match v with JArr l => as_elems elem l | JNull => Some [] | _ => None end.

Definition statusRows (s : StatusAnswer) : list (list string) := [
  ["node_id:"; sa_NodeID s]; ["region:"; sa_Region s]; ["node_scope:"; sa_NodeScope s]; ["profile:"; sa_Profile s];
  ["applicable_law:"; sa_ApplicableLaw s]; ["app_version:"; sa_AppVersion s]; ["adr_version:"; sa_ADRVersion s];
  ["uptime:"; formatUptime (sa_UptimeSecs s)]]%string.

Definition deadLetterRow (e : DeadLetter) : list string :=
  let firstSeen := if 0 <? de_FirstSeenUnix e then FormatRFC3339 (de_FirstSeenUnix e) else "-"%string in
  [itoa (de_Index e); de_EnvelopeID e; de_PeerAddr e; itoa (de_Attempts e); firstSeen; de_LastError e].
End Decode.

(** ** Commands *)

Record nodeOpts := { no_url : string; no_token : string; no_apiKey : string }.

Section Commands.
Context `{UnicodeTables} `{PrintTable}.
Context (o : Outside) (jsonErrText : string -> string).
#[local] Open Scope cmd_scope.

Definition nodeFlags : FlagSet := {["url" := FString ""; "token" := FString ""; "api-key" := FString ""]}%string.

Definition parseNodeFlags (args : list string) : Cmd nodeOpts :=
  let* fs := parseArgs nodeFlags args in
  if str_eqb (stringFlag fs "url") "" then throw "--url is required" else
  ret {| no_url := stringFlag fs "url"; no_token := stringFlag fs "token"; no_apiKey := stringFlag fs "api-key" |}.

(** The error of an answer that is not 200. *)
Definition statusError (status : Z) (body : string) : string :=
  match unmarshal body ≫= as_error with
  | Some e => if negb (str_eqb e "") then text ["HTTP "; itoa status; ": "; e]%string
              else text ["HTTP "; itoa status; ": "; trimNewline body]%string
  | None => text ["HTTP "; itoa status; ": "; trimNewline body]%string
  end.

(** [resp] read to its end, 200 or an error. *)
Definition okBody (resp : ClientResponse) : Cmd string :=
  let* body := readAll resp in
  if negb (resp.1 =? StatusOK) then throw (statusError resp.1 body) else ret body.

Definition withCredentials (opts : nodeOpts) (req : ClientRequest) : ClientRequest :=
  let req := if negb (str_eqb (no_token opts) "")
             then withHeader "Authorization" (append "Bearer " (no_token opts)) req else req in
  if negb (str_eqb (no_apiKey opts) "") then withHeader "X-MRMI-Key" (no_apiKey opts) req else req.

Definition apiGet (opts : nodeOpts) (path : string) : Cmd string :=
  let* req := wrap_err "build request: " (newRequest o "GET" (append (no_url opts) path) "") in
  let* resp := wrap_err (text ["GET "; path; ": "]%string) (doRequest o (withCredentials opts req)) in
  okBody resp.

(** An answer of the API, decoded and shown. *)
Definition showAnswer {A} (opts : nodeOpts) (path : string) (decode : json -> option A) (show : A -> list (list string))
  : Cmd unit :=
  let* body := apiGet opts path in
  match unmarshal body ≫= decode with
  | None => throw (append "parse response: " (jsonErrText body))
  | Some a => say (table (show a))
  end.

Definition nodeStatus (opts : nodeOpts) : Cmd unit := showAnswer opts "/api/v1/status" as_status statusRows.

Definition nodePeers (opts : nodeOpts) : Cmd unit :=
  showAnswer opts "/api/v1/peers" (as_slice as_peerRow)
    (fun peers => ["NODE_ID"; "ADDR"; "SCOPE"; "REGION"; "SOURCE"]%string :: peers).

Definition nodeDLQ (opts : nodeOpts) : Cmd unit :=
  showAnswer opts "/api/v1/dlq" (as_slice as_deadLetter)
    (fun entries => ["INDEX"; "ENVELOPE_ID"; "PEER_ADDR"; "ATTEMPTS"; "FIRST_SEEN"; "LAST_ERR"]%string :: (deadLetterRow <$> entries)).

Definition nodeApps (opts : nodeOpts) : Cmd unit :=
  showAnswer opts "/api/v1/apps" (as_slice as_appRow) (fun apps => ["APP_ID"; "WEBHOOK_URL"]%string :: apps).

Definition usageNode : string := concat_with newline [
  "Usage:"; "  mrmi node status --url <http-addr> [--token <jwt>] [--api-key <key>]";
  "  mrmi node peers  --url <http-addr> [--token <jwt>] [--api-key <key>]";
  "  mrmi node dlq    --url <http-addr> [--token <jwt>] [--api-key <key>]";
  "  mrmi node apps   --url <http-addr> [--token <jwt>] [--api-key <key>]"; ""]%string.

Definition cmdNodeStatus (args : list string) : Cmd unit := let* opts := parseNodeFlags args in nodeStatus opts.
Definition cmdNodePeers (args : list string) : Cmd unit := let* opts := parseNodeFlags args in nodePeers opts.
Definition cmdNodeDLQ (args : list string) : Cmd unit := let* opts := parseNodeFlags args in nodeDLQ opts.
Definition cmdNodeApps (args : list string) : Cmd unit := let* opts := parseNodeFlags args in nodeApps opts.

Definition cmdNode (args : list string) : Cmd unit :=
  match args with
  | [] => warn usageNode ;; throw "subcommand required: status | peers | dlq | apps"
  | sub :: args' =>
      if str_eqb sub "status" then cmdNodeStatus args'
      else if str_eqb sub "peers" then cmdNodePeers args'
      else if str_eqb sub "dlq" then cmdNodeDLQ args'
      else if str_eqb sub "apps" then cmdNodeApps args'
      else warn usageNode ;; throw (append "unknown subcommand: " sub)
  end.

(** ** [mrmi token issue] *)

Definition tokenFlags : FlagSet := {[
  "url" := FString ""; "api-key" := FString ""; "scope" := FString "read"; "ttl" := FDuration Hour]}%string.

(** [int(ttl.Minutes())], an hour where that is not positive. *)
Definition ttlMinutes (ttl : Z) : Z := let m := intUnits ttl Minute in if m <=? 0 then 60 else m.

Definition tokenRequestBody (scope : string) (minutes : Z) : json :=
  JObj [("scope"%string, JStr scope); ("ttl_minutes"%string, JInt minutes)].

Definition as_token (v : json) : option (string * string * Z) :=
  ms ← members v;
  let get {A} n (read : json -> A -> option A) zero := collect ["token"; "scope"; "expires_at"]%string n read ms zero in
  token ← get "token"%string as_string ""%string;
  scope ← get "scope"%string as_string ""%string;
  exp ← get "expires_at"%string as_int64 0;
  Some (token, scope, exp).

Definition showToken (r : string * string * Z) : string :=
  let '(token, scope, exp) := r in
  text ["Token:   "; token; newline; "Scope:   "; scope; newline; "Expires: "; FormatRFC3339 exp; newline]%string.

Definition tokenIssue (args : list string) : Cmd unit :=
  let* fs := parseArgs tokenFlags args in
  let rawURL := stringFlag fs "url" in
  let apiKey := stringFlag fs "api-key" in
  let scope := stringFlag fs "scope" in
  if str_eqb rawURL "" then throw "--url is required" else
  if str_eqb apiKey "" then throw "--api-key is required" else
  if negb (str_eqb scope "read") && negb (str_eqb scope "operator") then throw "--scope must be read or operator" else
  let reqBody := render (tokenRequestBody scope (ttlMinutes (durationFlag fs "ttl"))) in
  let* req := wrap_err "build request: " (newRequest o "POST" (append rawURL "/api/v1/token") reqBody) in
  let* resp := wrap_err "POST /api/v1/token: "
                 (doRequest o (withHeader "X-MRMI-Key" apiKey (withHeader "Content-Type" "application/json" req))) in
  let* body := okBody resp in
  match unmarshal body ≫= as_token with
  | None => throw (append "parse response: " (jsonErrText body))
  | Some r => say (showToken r)
  end.

Definition cmdTokenIssue (args : list string) : Cmd unit := tokenIssue args.

Definition usageToken : string := concat_with newline [
  "Usage:"; "  mrmi token issue --url <http-addr> --api-key <key> [--scope <read|operator>] [--ttl <duration>]"; ""]%string.

Definition cmdToken (args : list string) : Cmd unit :=
  match args with
  | sub :: args' => if str_eqb sub "issue" then cmdTokenIssue args' else warn usageToken ;; throw "subcommand required: issue"
  | [] => warn usageToken ;; throw "subcommand required: issue"
  end.
End Commands.

(** ** Tests *)

Example formatUptime_ex :
  formatUptime <$> [0; 59; 60; 3599; 3600; 90061] = ["0s"; "59s"; "1m0s"; "59m59s"; "1h0m0s"; "25h1m1s"]%string.
Proof. vm_compute. reflexivity. Qed.

Example ttlMinutes_ex :
  ttlMinutes <$> [24 * Hour; 30 * Second; 90 * Second; 48 * Hour; - Hour] = [1440; 60; 1; 2880; 60].
Proof. vm_compute. reflexivity. Qed.
