(* ===== verification/Cli.v ===== *)
(** * The programs (cmd/mrmi and cmd/mrmi-gateway)

    [main] of the operator's tool, from its arguments to its exit status, and [main]
    of the gateway, from its arguments to the configuration it runs with. *)

From S2P Require Import Prelude GoStrings GoCrypto Utf8 Json JsonFields Config Delivery GoText GoFlag Identity Terminal Http CliAudit CliNode.

(** ** [mrmi] *)

Section Mrmi.
Context `{UnicodeTables} `{PrintTable} `{KeyFormat}.
Context (o : Outside) (jsonErrText b64ErrText : string -> string).
#[local] Open Scope cmd_scope.

(** The dash of the first line is U+2014. *)
Definition usage : string := concat_with newline [
  text ["mrmi "; encode [0x2014]; " MRMI Gateway operator CLI"]; ""; "Usage:"; "  mrmi keygen --output <path>";
  "  mrmi audit verify --local --log <path>"; "  mrmi audit verify --dns --node <node_id>";
  "  mrmi audit verify --https --url <url> [--pubkey <path>]";
  "  mrmi node status  --url <http-addr> [--token <jwt>] [--api-key <key>]";
  "  mrmi node peers   --url <http-addr> [--token <jwt>] [--api-key <key>]";
  "  mrmi node dlq     --url <http-addr> [--token <jwt>] [--api-key <key>]";
  "  mrmi node apps    --url <http-addr> [--token <jwt>] [--api-key <key>]";
  "  mrmi token issue  --url <http-addr> --api-key <key> [--scope <read|operator>] [--ttl <duration>]";
  "  mrmi -version"; ""]%string.

(** The end of [main]: an error is printed and the status is 1. *)
Definition exit (m : Cmd unit) (t : Term) : Z * Term :=
  match m t with
  | (Ok _, t') => (0, t')
  | (Err e, t') => (1, (warn (append e newline) t').2)
  end.

Definition usageError (s : string) (t : Term) : Z * Term := (1, (warn s t).2).

(** [args] is [os.Args[1:]], [rand] what [rand.Reader] would give. *)
Definition main (rand : outcome string ed_PrivateKey) (args : list string) (t : Term) : Z * Term :=
  match args with
  | [] => usageError usage t
  | cmd :: rest =>
      if Contains ["-version"; "--version"; "version"]%string cmd
      then exit (say (text ["mrmi "; App; " (ADR "; ADR; ")"; newline]%string)) t
      else if str_eqb cmd "keygen" then exit (cmdKeygen o rand rest) t
      else if str_eqb cmd "audit" then
        match rest with
        | sub :: rest' => if str_eqb sub "verify" then exit (cmdAuditVerify o jsonErrText b64ErrText rest') t
                          else usageError usageAuditVerify t
        | [] => usageError usageAuditVerify t
        end
      else if str_eqb cmd "node" then
        match rest with [] => usageError usageNode t | _ => exit (cmdNode o jsonErrText rest) t end
      else if str_eqb cmd "token" then
        match rest with [] => usageError usageToken t | _ => exit (cmdToken o jsonErrText rest) t end
      else usageError usage t
  end.
End Mrmi.

(** ** [mrmi-gateway] *)

Definition with_http_addr (addr : string) (c : Config) : Config :=
  let n := cfg_Network c in
  {| cfg_Node := cfg_Node c; cfg_Profile := cfg_Profile c; cfg_Policy := cfg_Policy c;
     cfg_Network := {|
       net_GRPCListenAddr := net_GRPCListenAddr n; net_HTTPListenAddr := addr; net_MetricsAddr := net_MetricsAddr n;
       net_ShutdownTimeout := net_ShutdownTimeout n; net_Peers := net_Peers n; net_BootstrapNodes := net_BootstrapNodes n;
       net_PeerGossipInterval := net_PeerGossipInterval n |};
     cfg_TLS := cfg_TLS c; cfg_API := cfg_API c; cfg_Storage := cfg_Storage c;
     cfg_SchemaRegistry := cfg_SchemaRegistry c; cfg_Apps := cfg_Apps c |}.

(** How [main] ends before or with [app.Run]. *)
Inductive GatewayStart :=
| FlagExit (code : Z)
| ShowVersion (line : string)
| LoadFailed (e : ConfigError)
| Runs (cfg : Config) (configPath : string).

Section Gateway.
Context `{UnicodeTables}.
Context (stat : string -> option bool) (open_file : string -> option string) (decode_toml : string -> option rawTOML).

Definition gatewayFlags : FlagSet := {["config" := FString ""; "http-addr" := FString ""; "version" := FBool false]}%string.

(** [flag.Parse] ends the program itself: with 0 for help, with 2 for an error. *)
Definition gatewayMain (args : list string) : GatewayStart :=
  match parseFlags gatewayFlags args with
  | Err ErrHelp => FlagExit 0
  | Err _ => FlagExit 2
  | Ok (fs, _) =>
      let configPath := stringFlag fs "config" in
      let httpAddr := stringFlag fs "http-addr" in
      if boolFlag fs "version" then ShowVersion (text ["mrmi-gateway "; App; " (ADR "; ADR; ")"; newline]%string) else
      match Load stat open_file decode_toml configPath with
      | Err e => LoadFailed e
      | Ok cfg => Runs (if negb (str_eqb httpAddr "") then with_http_addr httpAddr cfg else cfg) configPath
      end
  end.
End Gateway.

(** ** What the programs do and do not do *)

(** A command that leaves the standard error and the files alone and sends at most
    [n] requests, however it ends. *)
Definition silent {A} (n : nat) (m : Cmd A) : Prop :=
  forall t r t', m t = (r, t') ->
    tm_err t' = tm_err t /\ tm_files t' = tm_files t /\ (length (tm_sent t') <= n + length (tm_sent t))%nat.

Lemma silent_ret {A} n (a : A) : silent n (ret a).
Proof. intros t r t' [= <- <-]. split_and!; [done..|lia]. Qed.

Lemma silent_throw {A} n e : silent n (throw (A := A) e).
Proof. intros t r t' [= <- <-]. split_and!; [done..|lia]. Qed.

Lemma silent_lift {A} n (m : outcome string A) : silent n (lift m).
Proof. intros t r t' [= <- <-]. split_and!; [done..|lia]. Qed.

Lemma silent_say n s : silent n (say s).
Proof. intros t r t' [= <- <-]. split_and!; [done..|cbn; lia]. Qed.

Lemma silent_readFile o n path : silent n (readFile o path).
Proof. intros t r t' [= <- <-]. split_and!; [done..|lia]. Qed.

Lemma silent_doRequest o r : silent 1 (doRequest o r).
Proof. intros t r' t' [= <- <-]. split_and!; [done..|]. cbn. rewrite length_app. cbn. lia. Qed.

Lemma silent_try {A} n (m : Cmd A) : silent n m -> silent n (try m).
Proof. intros Hm t r t'. unfold try. destruct (m t) as [r0 t0] eqn:E. intros [= <- <-]. by eapply Hm. Qed.

Lemma silent_wrap {A} n p (m : Cmd A) : silent n m -> silent n (wrap_err p m).
Proof. intros Hm t r t'. unfold wrap_err. destruct (m t) as [[a|e] t0] eqn:E; intros [= <- <-]; by eapply Hm. Qed.

Lemma silent_bind {A B} n k (m : Cmd A) (f : A -> Cmd B) :
  silent n m -> (forall a, silent k (f a)) -> silent (n + k) (bind m f).
Proof.
  intros Hm Hf t r t'. unfold bind. destruct (m t) as [[a|e] t1] eqn:E; destruct (Hm _ _ _ E) as (He & Hfi & Hs).
  - intros Hk. destruct (Hf _ _ _ _ Hk) as (He' & Hfi' & Hs'). split_and!; [congruence..|lia].
  - intros [= <- <-]. split_and!; [done..|lia].
Qed.

Lemma silent_bind0 {A B} n (m : Cmd A) (f : A -> Cmd B) :
  silent 0 m -> (forall a, silent n (f a)) -> silent n (bind m f).
Proof. apply silent_bind. Qed.

Lemma silent_bind1 {A B} (m : Cmd A) (f : A -> Cmd B) :
  silent 1 m -> (forall a, silent 0 (f a)) -> silent 1 (bind m f).
Proof. apply (silent_bind 1 0). Qed.

Create HintDb silent.
#[export] Hint Resolve silent_ret silent_throw silent_lift silent_say silent_readFile silent_doRequest silent_try
  silent_wrap : silent.

(** Follows the structure of a command. *)
Ltac silence :=
  cbv zeta;
  first
  [ solve [auto 4 with silent]
  | match goal with
    | |- silent _ (match ?x with _ => _ end) => destruct x; silence
    | |- silent _ (wrap_err _ _) => apply silent_wrap; silence
    | |- silent _ (try _) => apply silent_try; silence
    | |- silent _ (bind _ _) => first [ apply silent_bind0; [silence|intros ?; silence] | apply silent_bind1; [silence|intros ?; silence] ]
    end ].

Section Discipline.
Context `{UnicodeTables} `{PrintTable} `{KeyFormat}.
Context (o : Outside) (jsonErrText b64ErrText : string -> string).

Lemma silent_parseArgs n fs args : silent n (parseArgs fs args).
Proof. unfold parseArgs. silence. Qed.

Lemma silent_newRequest n m url body : silent n (newRequest o m url body).
Proof. unfold newRequest. silence. Qed.

Lemma silent_readAll n r : silent n (readAll r).
Proof. unfold readAll. silence. Qed.

Lemma silent_okBody n r : silent n (okBody r).
Proof. unfold okBody. apply silent_bind0; [apply silent_readAll|intros ?; silence]. Qed.

Lemma silent_lookupTXT n name : silent n (lookupTXT o name).
Proof. apply silent_lift. Qed.

Lemma silent_failed n a b : silent n (failed a b).
Proof. apply silent_say. Qed.

#[local] Hint Resolve silent_parseArgs silent_newRequest silent_readAll silent_okBody silent_lookupTXT silent_failed : silent.

Lemma silent_readPubkey n path : silent n (readPubkey o path).
Proof. unfold readPubkey. silence. Qed.

Lemma silent_verifyFile n path : silent n (verifyFile o jsonErrText path).
Proof. unfold verifyFile. silence. Qed.

#[local] Hint Resolve silent_readPubkey silent_verifyFile : silent.

Lemma silent_checkHTTPSSig n wk path : silent n (checkHTTPSSig o b64ErrText wk path).
Proof. unfold checkHTTPSSig. silence. Qed.

Lemma silent_httpGet url : silent 1 (httpGet o url).
Proof. unfold httpGet. silence. Qed.

#[local] Hint Resolve silent_checkHTTPSSig silent_httpGet : silent.

Lemma silent_verifyLocal path : silent 1 (verifyLocal o jsonErrText path).
Proof. unfold verifyLocal. silence. Qed.

Lemma silent_verifyDNS node : silent 1 (verifyDNS o node).
Proof. unfold verifyDNS. silence. Qed.

Lemma silent_verifyHTTPS url path : silent 1 (verifyHTTPS o jsonErrText b64ErrText url path).
Proof. unfold verifyHTTPS. silence. Qed.

Lemma silent_apiGet opts path : silent 1 (apiGet o opts path).
Proof. unfold apiGet. silence. Qed.

#[local] Hint Resolve silent_verifyLocal silent_verifyDNS silent_verifyHTTPS silent_apiGet : silent.

Lemma silent_showAnswer {A} opts path (d : json -> option A) show :
  silent 1 (showAnswer o jsonErrText opts path d show).
Proof. unfold showAnswer. silence. Qed.

Lemma silent_parseNodeFlags n args : silent n (parseNodeFlags args).
Proof. unfold parseNodeFlags. silence. Qed.

#[local] Hint Resolve silent_showAnswer silent_parseNodeFlags : silent.

Lemma silent_tokenIssue args : silent 1 (tokenIssue o jsonErrText args).
Proof. unfold tokenIssue. silence. Qed.

(** A command that writes to the standard error only when it fails; with [writes]
    it may write one file. *)
Definition behaves (writes : bool) (m : Cmd unit) : Prop :=
  forall t r t', m t = (r, t') ->
    match r with Ok _ => tm_err t' = tm_err t | Err _ => exists w, tm_err t' = append (tm_err t) w end
    /\ (if writes then exists p, forall q, q <> p -> tm_files t' !! q = tm_files t !! q else tm_files t' = tm_files t)
    /\ (length (tm_sent t') <= 1 + length (tm_sent t))%nat.

Lemma silent_behaves n m : (n <= 1)%nat -> silent n m -> behaves false m.
Proof.
  intros Hn Hm t r t' Hr. destruct (Hm _ _ _ Hr) as (He & Hf & Hs). split_and!; [|done|lia].
  destruct r; [done|]. exists ""%string. by rewrite append_empty_str.
Qed.

Lemma warn_behaves u e : behaves false (warn u ;; throw e)%cmd.
Proof. intros t r t' [= <- <-]. split_and!; [by eexists|done|cbn; lia]. Qed.

Lemma behaves_bind {A} (m : Cmd A) k : silent 0 m -> (forall a, behaves false (k a)) -> behaves false (bind m k).
Proof.
  intros Hm Hk t r t'. unfold bind. destruct (m t) as [[a|e] t1] eqn:E; destruct (Hm _ _ _ E) as (He & Hf & Hs).
  - intros Hr. destruct (Hk a _ _ _ Hr) as (He' & Hf' & Hs'). rewrite He in He'. rewrite Hf in Hf'. split_and!; [done|done|lia].
  - intros [= <- <-]. split_and!; [|done|lia]. exists ""%string. by rewrite append_empty_str.
Qed.

Lemma cmdAuditVerify_behaves args : behaves false (cmdAuditVerify o jsonErrText b64ErrText args).
Proof.
  unfold cmdAuditVerify. apply behaves_bind; [apply silent_parseArgs|]. intros fs.
  destruct (boolFlag fs "local"); [|destruct (boolFlag fs "dns"); [|destruct (boolFlag fs "https"); [|apply warn_behaves]]];
    apply (silent_behaves 1); auto with silent.
Qed.

Lemma cmdNode_behaves args : behaves false (cmdNode o jsonErrText args).
Proof.
  destruct args as [|sub args]; [apply warn_behaves|]. cbn [cmdNode].
  destruct (str_eqb sub "status"); [|destruct (str_eqb sub "peers"); [|destruct (str_eqb sub "dlq");
    [|destruct (str_eqb sub "apps"); [|apply warn_behaves]]]];
    apply (silent_behaves 1); [done| |done| |done| |done|];
    (apply silent_bind0; [apply silent_parseNodeFlags|intros; apply silent_showAnswer]).
Qed.

Lemma cmdToken_behaves args : behaves false (cmdToken o jsonErrText args).
Proof.
  destruct args as [|sub args]; [apply warn_behaves|]. cbn [cmdToken]. destruct (str_eqb sub "issue"); [|apply warn_behaves].
  apply (silent_behaves 1); [done|apply silent_tokenIssue].
Qed.

Lemma cmdKeygen_behaves rand args : behaves true (cmdKeygen o rand args).
Proof.
  intros t r t'. unfold cmdKeygen, bind at 1. destruct (parseArgs _ _ t) as [[fs|e] t1] eqn:E;
    destruct (silent_parseArgs 0 _ _ _ _ _ E) as (He & Hf & Hs); rewrite <- He, <- Hf; clear E He Hf.
  2: { intros [= <- <-]. split_and!; [exists ""%string; by rewrite append_empty_str|by exists ""%string|lia]. }
  assert (forall e : string, (Err e, t1) = (r, t') -> match r with Ok _ => tm_err t' = tm_err t1 | Err _ => exists w, tm_err t' = append (tm_err t1) w end
    /\ (exists p, forall q, q <> p -> tm_files t' !! q = tm_files t1 !! q) /\ (length (tm_sent t') <= 1 + length (tm_sent t))%nat) as Herr.
  { intros e [= <- <-]. split_and!; [exists ""%string; by rewrite append_empty_str|by exists ""%string|lia]. }
  cbv zeta. destruct (str_eqb _ "") eqn:Eo; [apply Herr|]. unfold bind, wrap_err, lift.
  destruct rand as [k|e]; [|apply Herr]. destruct (x509_MarshalPKCS8 k) as [der|e]; [|apply Herr].
  unfold writeFile. destruct (o_writeError o _) as [e|]; [apply Herr|]. intros [= <- <-]. split_and!; [done| |cbn; lia].
  exists (stringFlag fs "output"). intros q Hq. cbn. by rewrite lookup_insert_ne.
Qed.

Lemma exit_spec b m t code t' :
  behaves b m -> exit m t = (code, t') ->
  ((code = 0 /\ tm_err t' = tm_err t) \/ (code = 1 /\ exists w, w <> ""%string /\ tm_err t' = append (tm_err t) w))
  /\ (if b then exists p, forall q, q <> p -> tm_files t' !! q = tm_files t !! q else tm_files t' = tm_files t)
  /\ (length (tm_sent t') <= 1 + length (tm_sent t))%nat.
Proof.
  intros Hm. unfold exit. destruct (m t) as [[a|e] t1] eqn:E; destruct (Hm _ _ _ E) as (He & Hf & Hs); intros [= <- <-].
  - split; [by left|done].
  - split; [right|done]. split; [done|]. destruct He as [w Hw]. exists (append w (append e newline)). split.
    + destruct w; [|done]. by destruct e.
    + unfold warn. cbn [snd tm_err]. by rewrite Hw, (append_assoc_str (tm_err t)).
Qed.

(** What a run of the operator's tool does.  [mrmi] exits with 0 or 1; with 0 it has
    written nothing to the standard error, with 1 it has said why.  It sends at most
    one request.  No command but [keygen] writes a file, and that one at most one. *)
Theorem mrmi_discipline rand args t code t' :
  main o jsonErrText b64ErrText rand args t = (code, t') ->
  ((code = 0 /\ tm_err t' = tm_err t) \/ (code = 1 /\ exists w, w <> ""%string /\ tm_err t' = append (tm_err t) w))
  /\ (exists p, forall q, q <> p -> tm_files t' !! q = tm_files t !! q)
  /\ (head args <> Some "keygen"%string -> tm_files t' = tm_files t)
  /\ (length (tm_sent t') <= 1 + length (tm_sent t))%nat.
Proof.
  assert (forall m, behaves false m -> exit m t = (code, t') ->
    ((code = 0 /\ tm_err t' = tm_err t) \/ (code = 1 /\ exists w, w <> ""%string /\ tm_err t' = append (tm_err t) w))
    /\ (exists p, forall q, q <> p -> tm_files t' !! q = tm_files t !! q)
    /\ (head args <> Some "keygen"%string -> tm_files t' = tm_files t)
    /\ (length (tm_sent t') <= 1 + length (tm_sent t))%nat) as Hexit.
  { intros m Hm He. destruct (exit_spec _ _ _ _ _ Hm He) as (Hcode & Hf & Hsent). split_and!; [done| |done|done].
    exists ""%string. by rewrite Hf. }
  assert (forall u, u <> ""%string -> usageError u t = (code, t') ->
    ((code = 0 /\ tm_err t' = tm_err t) \/ (code = 1 /\ exists w, w <> ""%string /\ tm_err t' = append (tm_err t) w))
    /\ (exists p, forall q, q <> p -> tm_files t' !! q = tm_files t !! q)
    /\ (head args <> Some "keygen"%string -> tm_files t' = tm_files t)
    /\ (length (tm_sent t') <= 1 + length (tm_sent t))%nat) as Husage.
  { intros u Hu [= <- <-]. split_and!; [right; split; [done|by exists u]|by exists ""%string|done|cbn; lia]. }
  unfold main. destruct args as [|cmd rest]; [by apply Husage|].
  destruct (Contains _ cmd); [apply Hexit, (silent_behaves 0), silent_say; lia|].
  destruct (str_eqb cmd "keygen") eqn:Ek.
  { apply str_eqb_eq in Ek as ->. intros He. destruct (exit_spec true _ _ _ _ (cmdKeygen_behaves rand rest) He) as (Hcode & Hf & Hsent).
    split_and!; [done..| |done]. intros Hne. by destruct Hne. }
  destruct (str_eqb cmd "audit").
  { destruct rest as [|sub rest]; [by apply Husage|]. destruct (str_eqb sub "verify"); [|by apply Husage].
    apply Hexit, cmdAuditVerify_behaves. }
  destruct (str_eqb cmd "node"); [destruct rest; [by apply Husage|apply Hexit, cmdNode_behaves]|].
  destruct (str_eqb cmd "token"); [destruct rest; [by apply Husage|apply Hexit, cmdToken_behaves]|].
  by apply Husage.
Qed.
End Discipline.

(** ** The configuration the gateway runs with *)

Lemma override_valid addr c : ValidConfig c -> ValidConfig (with_http_addr addr c) <-> blank addr = false.
Proof.
  intros [Hreq]. split.
  - intros [Hr _]. rewrite !Forall_cons in Hr. tauto.
  - intros Hb. split; try done. cbn. rewrite !Forall_cons in *. tauto.
Qed.

(** The configuration a gateway starts with is the one [Load] gives for the file,
    which is valid, with the HTTP address of the flag, where there is one.  The result is
    valid unless that address is blank. *)
Theorem gateway_start `{UnicodeTables} stat open_file decode_toml args cfg path :
  gatewayMain stat open_file decode_toml args = Runs cfg path ->
  exists cfg0 addr, Load stat open_file decode_toml path = Ok cfg0 /\ ValidConfig cfg0
    /\ cfg = (if str_eqb addr "" then cfg0 else with_http_addr addr cfg0)
    /\ (ValidConfig cfg <-> addr = ""%string \/ blank addr = false).
Proof.
  unfold gatewayMain. destruct (parseFlags _ _) as [[fs rest]|[]]; try done. cbv zeta.
  destruct (boolFlag fs "version"); [done|]. destruct (Load _ _ _ _) as [cfg0|e] eqn:El; [|done]. intros [= <- <-].
  exists cfg0, (stringFlag fs "http-addr"). pose proof (Load_Ok_valid _ _ _ _ _ El) as Hv.
  split_and!; [done|done|by destruct (str_eqb _ "")|]. destruct (str_eqb _ "") eqn:E; cbn [negb]; go_bool.
  - split; [by left|done].
  - rewrite override_valid by done. tauto.
Qed.
