(* ===== verification/HttpAdmin.v ===== *)
(** * The operator's endpoints (package [internal/server], end of [http.go])

    Schema adapters, tokens and the description of the configuration. *)

From S2P Require Import Prelude GoStrings GoCrypto Utf8 Json JsonFields Config Schema Crl Store AuditLog Policy Core Transit Delivery Gateway Identity PeerDiscovery Registry Metrics Inbox Webhook Callbacks HttpStores HttpAuth Http.

(** ** Schema adapters *)

Definition tomlRule (cfg : Config) (schemaType : string) : option JurisdictionIsolationRule :=
  snd <$> list_find (fun r => jr_SchemaType r = schemaType) (pc_Rules (cfg_Policy cfg)).

Definition ruleTiers (dflt : list string) (r : option JurisdictionIsolationRule) : list string :=
  match r with Some r => if nonempty (jr_AllowTiers r) then jr_AllowTiers r else dflt | None => dflt end.

Definition ruleJurisdictions (r : option JurisdictionIsolationRule) : list string :=
  match r with Some r => jr_AllowJurisdictions r | None => [] end.

Definition ruleProfile (r : option JurisdictionIsolationRule) : string :=
  match r with Some r => jr_RequireProfile r | None => "" end.

Definition builtinAdapter (schemaType description : string) (tiers : list string)
    (r : option JurisdictionIsolationRule) (profile : string) (hardcoded : bool) : adapterDTO := {|
  ad_schema_type := schemaType; ad_schema_version := "1.0.0"; ad_builtin := true; ad_status := "enabled";
  ad_description := description; ad_allow_tiers := Some tiers; ad_allow_jurisdictions := ruleJurisdictions r;
  ad_require_profile := profile; ad_hardcoded_constraints := hardcoded; ad_contact := "" |}.

Definition builtinAdapters (cfg : Config) : list adapterDTO :=
  let ruMessaging := tomlRule cfg "messaging" in
  let ruIso20022 := tomlRule cfg "iso20022" in
  let ruEdifact := tomlRule cfg "edifact" in
  [builtinAdapter "messaging" "Default cross-border messaging — backward-compatible with v0.8 envelopes."
     (ruleTiers [] ruMessaging) ruMessaging (ruleProfile ruMessaging) false;
   builtinAdapter "iso20022" "ISO 20022 financial messages (ADR-016): 72h dedup, retain_long, settlement finality."
     (ruleTiers [] ruIso20022) ruIso20022 (ruleProfile ruIso20022) false;
   builtinAdapter "hl7fhir" "HL7 FHIR R4 health data — hardcoded regional+strict constraints (ADR-015)."
     ["regional"%string] (tomlRule cfg "hl7fhir") "strict" true;
   builtinAdapter "edifact" "UN/EDIFACT logistics and supply-chain — regional+alliance by default (ADR-015)."
     (ruleTiers ["regional"; "alliance"]%string ruEdifact) ruEdifact
     (if str_eqb (ruleProfile ruEdifact) "" then "balanced" else ruleProfile ruEdifact) false].

Definition customAdapter (a : CustomAdapterEntry) : adapterDTO := {|
  ad_schema_type := ca_SchemaType a; ad_schema_version := ca_SchemaVersion a; ad_builtin := false;
  ad_status := "enabled"; ad_description := ca_Description a; ad_allow_tiers := ca_AllowTiers a;
  ad_allow_jurisdictions := []; ad_require_profile := ca_RequireProfile a; ad_hardcoded_constraints := false;
  ad_contact := ca_Contact a |}.

Definition custom : string := "custom:".

(** ** The configuration's schema *)

Definition str_type : json := JObj [("type"%string, JStr "string")].
Definition enum_type (l : list string) : json := JObj [("enum"%string, json_strings l); ("type"%string, JStr "string")].
Definition strings_type : json := JObj [("items"%string, str_type); ("type"%string, JStr "array")].
Definition object_type (props : list (string * json)) : json :=
  JObj [("properties"%string, JObj props); ("type"%string, JStr "object")].

(** Keys in the order of the encoder. *)
Definition configSchema : json := JObj [
  ("$schema"%string, JStr "https://json-schema.org/draft/2020-12/schema");
  ("properties"%string, JObj [
    ("Node"%string, JObj [
      ("properties"%string, JObj [
        ("ApplicableLaw"%string, str_type);
        ("DiscoveryTokenTTL"%string, JObj [("description"%string, JStr "e.g. 5m0s"); ("type"%string, JStr "string")]);
        ("NodeID"%string, str_type); ("NodeScope"%string, enum_type ["regional"; "alliance"; "global"]%string);
        ("OperatorID"%string, str_type); ("PolicyVersion"%string, str_type); ("Region"%string, str_type)]);
      ("required"%string, json_strings ["NodeID"; "NodeScope"; "OperatorID"; "PolicyVersion"; "ApplicableLaw"]%string);
      ("type"%string, JStr "object")]);
    ("Policy"%string, object_type [
      ("Connect"%string, object_type [
        ("AutoAccept"%string, enum_type ["MANUAL"; "AUTO_WHITELIST"; "AUTO_MUTUAL"; "AUTO_ALL"]%string);
        ("TrustedNodes"%string, strings_type)]);
      ("Discovery"%string, object_type [
        ("AllowedAppIDs"%string, strings_type);
        ("AppIsolation"%string, enum_type ["SAME_APP_ONLY"; "WHITELIST"; "OPEN"]%string)]);
      ("Inbound"%string, object_type [
        ("MinTrustTier"%string, JObj [("maximum"%string, JInt 3); ("minimum"%string, JInt 0); ("type"%string, JStr "integer")])]);
      ("Outbound"%string, object_type [
        ("AllowTo"%string, strings_type); ("DenyTo"%string, strings_type);
        ("StoreLocally"%string, JObj [("type"%string, JStr "boolean")])])]);
    ("Storage"%string, object_type [
      ("Backend"%string, enum_type [""; "bbolt"; "redis"]%string); ("KeyPrefix"%string, str_type);
      ("Path"%string, str_type); ("RedisURL"%string, str_type)])]);
  ("title"%string, JStr "MRMI Gateway Node Configuration");
  ("type"%string, JStr "object")].

(** ** Handlers *)

Section Admin.
Context `{UnicodeTables} `{Ed25519} `{Jwt} {B : Type} {X : Type}.
Implicit Types (d : Deps) (c : HttpEnv) (r : HttpRequest) (st : HttpState B X).

Definition setAdapters (ra : RuntimeAdapters) st : HttpState B X :=
  {| hs_gw := hs_gw st; hs_peers := hs_peers st; hs_registry := hs_registry st; hs_runtimePeers := hs_runtimePeers st;
     hs_apps := hs_apps st; hs_adapters := Some ra |}.

Definition listAdapters d c st : Reply * HttpState B X :=
  let runtime := match hs_adapters st with Some ra => RuntimeAdapters_All (he_adapters c) ra | None => [] end in
  (ok_json (JArr (adapterJSON <$> builtinAdapters (dp_cfg d) ++ (customAdapter <$> runtime))), st).

Definition adapterFields : list string :=
  ["schema_type"; "schema_version"; "description"; "allow_tiers"; "require_profile"; "contact"; "registered_at"]%string.

Definition postedAdapter r : option CustomAdapterEntry :=
  ms ← bodyMembers r;
  let get {A} n (read : json -> A -> option A) old := collect adapterFields n read ms old in
  stype ← get "schema_type"%string as_string ""%string;
  sver ← get "schema_version"%string as_string ""%string;
  desc ← get "description"%string as_string ""%string;
  tiers ← get "allow_tiers"%string as_strings None;
  profile ← get "require_profile"%string as_string ""%string;
  contact ← get "contact"%string as_string ""%string;
  at_ ← get "registered_at"%string as_int64 0;
  Some {| ca_SchemaType := stype; ca_SchemaVersion := sver; ca_Description := desc; ca_AllowTiers := tiers;
          ca_RequireProfile := profile; ca_Contact := contact; ca_RegisteredAt := at_ |}.

(** The entry as it is stored: its version defaulted and its time stamped. *)
Definition stampAdapter (now : Z) (a : CustomAdapterEntry) : CustomAdapterEntry := {|
  ca_SchemaType := ca_SchemaType a;
  ca_SchemaVersion := if str_eqb (ca_SchemaVersion a) "" then "1.0.0" else ca_SchemaVersion a;
  ca_Description := ca_Description a; ca_AllowTiers := ca_AllowTiers a; ca_RequireProfile := ca_RequireProfile a;
  ca_Contact := ca_Contact a; ca_RegisteredAt := Unix now |}.

Definition registerAdapter c r st : Reply * HttpState B X :=
  match hs_adapters st with
  | None => (writeJSONError "schema adapter registry not available" 503, st)
  | Some ra =>
      match postedAdapter r with
      | None => (writeJSONError "invalid request body" 400, st)
      | Some req =>
          if negb (HasPrefix (ca_SchemaType req) custom)
          then (writeJSONError "schema_type must start with 'custom:'" 400, st) else
          let a := stampAdapter (he_clock c 0) req in
          (Response 201 (Json (customJSON a)), setAdapters (RuntimeAdapters_Register a ra) st)
      end
  end.

Definition deleteAdapter (schemaType : string) st : Reply * HttpState B X :=
  match hs_adapters st with
  | None => (writeJSONError "schema adapter registry not available" 503, st)
  | Some ra =>
      if negb (HasPrefix schemaType custom) then (writeJSONError "built-in adapters cannot be removed" 403, st) else
      let (found, ra') := RuntimeAdapters_Delete schemaType ra in
      (if negb found then writeJSONError "adapter not found" 404 else Response 204 NoBody, setAdapters ra' st)
  end.

(** *** Tokens *)

Definition tokenScope (scope : string) : string :=
  if negb (str_eqb scope "read") && negb (str_eqb scope "operator") then "read" else scope.

Definition tokenMinutes (ttl : Z) : Z := if (ttl <=? 0) || (1440 <? ttl) then 60 else ttl.

Definition postedToken r : option (string * Z) :=
  ms ← bodyMembers r;
  scope ← collect ["scope"; "ttl_minutes"]%string "scope"%string as_string ms ""%string;
  ttl ← collect ["scope"; "ttl_minutes"]%string "ttl_minutes"%string as_int64 ms 0;
  Some (scope, ttl).

Definition tokenClaims (scope : string) (expires issued : Z) (jti : string) : list (string * json) :=
  [("scope"%string, JStr scope); ("exp"%string, JInt (Unix expires)); ("iat"%string, JInt (Unix issued));
   ("jti"%string, JStr jti)].

Definition issueToken d c r st : Reply * HttpState B X :=
  let api := cfg_API (dp_cfg d) in
  if negb (checkAuth (he_authClock c) (api_APIKey api) "" "read" r) then (writeJSONError "unauthorized" 401, st) else
  if str_eqb (api_JWTSecret api) "" then (writeJSONError "JWT not configured on this node" 503, st) else
  match postedToken r with
  | None => (writeJSONError "invalid request body" 400, st)
  | Some (scope, ttl) =>
      let expiresAt := he_clock c 0 + mul_duration (tokenMinutes ttl) Minute in
      match jwt_SignedString (tokenClaims (tokenScope scope) expiresAt (he_clock c 1) (he_uuid c 0)) (api_JWTSecret api) with
      | None => (writeJSONError "token signing failed" 500, st)
      | Some signed =>
          (ok_json (JObj [("expires_at"%string, JInt (Unix expiresAt)); ("scope"%string, JStr (tokenScope scope));
                          ("token"%string, JStr signed)]), st)
      end
  end.

(** The handler of [GET /api/v1/config/schema]. *)
Definition getConfigSchema (st : HttpState B X) : Reply * HttpState B X := (ok_json configSchema, st).
End Admin.
