(* ===== verification/HttpServer.v ===== *)
(** * Serving requests (package [internal/server], [NewHTTPServer])

    The routes, the authentication wrappers and the middleware around the handlers
    of [Http] and [HttpAdmin], and what holds of any sequence of requests. *)

From S2P Require Import Prelude GoStrings GoCrypto Utf8 Json JsonFields Config ConfigJson Schema Crl Store AuditLog Policy Core Dedup Transit Delivery Gateway Identity PeerDiscovery Registry Metrics Inbox Webhook Callbacks HttpStores HttpAuth Http HttpAdmin.

(** ** Routes *)

Inductive Endpoint :=
| EpUI | EpUIRedirect | EpHealthz | EpReadyz | EpWellKnown | EpPeersAudit | EpStatus | EpAuditLatest
| EpPostEnvelope | EpGetDLQ | EpDeleteDLQ (index : string) | EpReplayDLQ (index : string) | EpGetCRL | EpPostCRL | EpStream
| EpRegisterPeer | EpListPeers | EpDiscardDLQ (index : string) | EpReload | EpRevoke (nodeID : string)
| EpDiscover | EpConnect | EpConfigSchema | EpSaveConfig | EpListApps | EpRegisterApp | EpDeleteApp (appID : string)
| EpListAdapters | EpRegisterAdapter | EpDeleteAdapter (schemaType : string) | EpToken.

(** A segment of a pattern: itself, a wildcard, or the rest of the path. *)
Inductive Seg := Lit (s : string) | Wild | Rest.

(** The values of the wildcards.  The slash that ends a path is the segment ["/"],
    which a wildcard does not match. *)
Fixpoint matchPath (p : list Seg) (path : list string) : option (list string) :=
  match p, path with
  | [], [] => Some []
  | [Rest], _ :: _ => Some []
  | Lit s :: p', x :: path' => if str_eqb s x then matchPath p' path' else None
  | Wild :: p', x :: path' => if str_eqb x "/" then None else cons x <$> matchPath p' path'
  | _, _ => None
  end.

Record Route := { ro_method : option string; ro_pattern : list Seg; ro_endpoint : string -> Endpoint }.

Definition on (m : string) (p : list Seg) (e : Endpoint) : Route :=
  {| ro_method := Some m; ro_pattern := p; ro_endpoint := fun _ => e |}.
Definition anyMethod (p : list Seg) (e : Endpoint) : Route :=
  {| ro_method := None; ro_pattern := p; ro_endpoint := fun _ => e |}.
Definition withParam (m : string) (p : list Seg) (e : string -> Endpoint) : Route :=
  {| ro_method := Some m; ro_pattern := p; ro_endpoint := e |}.

(** [/api/v1/...] *)
Definition v1 (l : list string) : list Seg := Lit "api" :: Lit "v1" :: (Lit <$> l).

Definition routes : list Route := [
  on "GET" [Lit "ui"; Rest] EpUI; on "HEAD" [Lit "ui"; Rest] EpUI; on "GET" [Lit "ui"] EpUIRedirect;
  anyMethod [Lit "healthz"] EpHealthz; anyMethod [Lit "readyz"] EpReadyz;
  anyMethod [Lit ".well-known"; Lit "mrmi-audit"] EpWellKnown; anyMethod [Lit "peers"; Lit "audit"] EpPeersAudit;
  on "GET" (v1 ["status"]) EpStatus; on "GET" (v1 ["audit"; "latest"]) EpAuditLatest;
  on "POST" (v1 ["envelopes"]) EpPostEnvelope; on "GET" (v1 ["dlq"]) EpGetDLQ;
  withParam "DELETE" (v1 ["dlq"] ++ [Wild]) EpDeleteDLQ;
  withParam "POST" (v1 ["dlq"] ++ [Wild; Lit "replay"]) EpReplayDLQ;
  on "GET" (v1 ["crl"]) EpGetCRL; on "POST" (v1 ["crl"]) EpPostCRL; on "GET" (v1 ["stream"]) EpStream;
  on "POST" (v1 ["peers"; "register"]) EpRegisterPeer; on "GET" (v1 ["peers"]) EpListPeers;
  withParam "POST" (v1 ["dlq"] ++ [Wild; Lit "discard"]) EpDiscardDLQ;
  on "POST" (v1 ["config"; "reload"]) EpReload; withParam "POST" (v1 ["revoke"] ++ [Wild]) EpRevoke;
  on "GET" (v1 ["discover"]) EpDiscover; on "POST" (v1 ["connect"]) EpConnect;
  on "GET" (v1 ["config"; "schema"]) EpConfigSchema; on "PUT" (v1 ["config"]) EpSaveConfig;
  on "GET" (v1 ["apps"]) EpListApps; on "POST" (v1 ["apps"; "register"]) EpRegisterApp;
  withParam "DELETE" (v1 ["apps"] ++ [Wild]) EpDeleteApp;
  on "GET" (v1 ["schema"; "adapters"]) EpListAdapters; on "POST" (v1 ["schema"; "adapters"]) EpRegisterAdapter;
  withParam "DELETE" (v1 ["schema"; "adapters"] ++ [Wild]) EpDeleteAdapter; on "POST" (v1 ["token"]) EpToken]%string.

(** A pattern for GET also serves HEAD. *)
Definition methodMatches (want : option string) (method : string) : bool :=
  match want with
  | None => true
  | Some m => str_eqb m method || (str_eqb m "GET" && str_eqb method "HEAD")
  end.

Inductive Routed := Found (e : Endpoint) | MethodNotAllowed | PathNotFound.

Fixpoint routeIn (rs : list Route) (method : string) (path : list string) (seen : bool) : Routed :=
  match rs with
  | [] => if seen then MethodNotAllowed else PathNotFound
  | ro :: rs' =>
      match matchPath (ro_pattern ro) path with
      | None => routeIn rs' method path seen
      | Some params =>
          if methodMatches (ro_method ro) method then Found (ro_endpoint ro (default ""%string (head params)))
          else routeIn rs' method path true
      end
  end.

Definition route (method : string) (path : list string) : Routed := routeIn routes method path false.

(** The scope an endpoint's wrapper asks for. *)
Definition guardOf (e : Endpoint) : option string :=
  match e with
  | EpRegisterPeer | EpListPeers | EpDiscardDLQ _ | EpReload | EpRevoke _ | EpConfigSchema | EpListApps
  | EpListAdapters => Some "read"%string
  | EpSaveConfig | EpRegisterApp | EpDeleteApp _ | EpRegisterAdapter | EpDeleteAdapter _ => Some "operator"%string
  | _ => None
  end.

Section Serve.
Context `{UnicodeTables} `{Ed25519} `{Jwt} {B : Type} `{NodeStore B} {X : Type} `{CoreForwarder (FwdState X)}.
Context (errText : FwdError -> string) (jsonErrText : string -> string).
Implicit Types (d : Deps) (c : HttpEnv) (r : HttpRequest) (st : HttpState B X).

(** The handler of an endpoint, inside its wrapper. *)
Definition handle d c r (e : Endpoint) st : Reply * HttpState B X :=
  match e with
  | EpUI => (Static, st)
  | EpUIRedirect => (Redirect 301 "/ui/", st)
  | EpHealthz => healthz st
  | EpReadyz => readyz d st
  | EpWellKnown => wellKnownAudit d c st
  | EpPeersAudit => peersAudit st
  | EpStatus => getStatus d c st
  | EpAuditLatest => auditLatest d r st
  | EpPostEnvelope => postEnvelope d c r st
  | EpGetDLQ => getDLQ errText st
  | EpDeleteDLQ i => deleteDLQ i st
  | EpDiscardDLQ i => discardDLQ i st
  | EpReplayDLQ i => replayDLQ d c i st
  | EpGetCRL => getCRL d c st
  | EpPostCRL => postCRL d c r st
  | EpStream => openStream d st
  | EpRegisterPeer => registerPeer r st
  | EpListPeers => listPeers c st
  | EpReload => reloadConfig d st
  | EpRevoke n => revokeNode d c n r st
  | EpDiscover => discoverUsers c r st
  | EpConnect => connectUser c r st
  | EpConfigSchema => getConfigSchema st
  | EpSaveConfig => saveConfig jsonErrText d r st
  | EpListApps => listApps c st
  | EpRegisterApp => registerApp c r st
  | EpDeleteApp a => deleteApp a st
  | EpListAdapters => listAdapters d c st
  | EpRegisterAdapter => registerAdapter c r st
  | EpDeleteAdapter t => deleteAdapter t st
  | EpToken => issueToken d c r st
  end.

Definition isOptions r : bool := str_eqb (hr_Method r) "OPTIONS".

(** [checkAuth] with the configuration of the server. *)
Definition authorised d c (scope : string) r : bool :=
  checkAuth (he_authClock c) (api_APIKey (cfg_API (dp_cfg d))) (api_JWTSecret (cfg_API (dp_cfg d))) scope r.

(** The wrappers [auth] and [authOp]. *)
Definition auth d c r (scope : string) (h : HttpState B X -> Reply * HttpState B X) st : Reply * HttpState B X :=
  if isOptions r then (Response 204 NoBody, st) else
  if negb (authorised d c scope r) then (writeJSONError "unauthorized" 401, st)
  else h st.

(** The mux behind the CORS middleware. *)
Definition ServeHTTP d c r st : Reply * HttpState B X :=
  if isOptions r then (Response 204 NoBody, st) else
  match route (hr_Method r) (hr_Path r) with
  | PathNotFound => (Response 404 (Text "404 page not found"), st)
  | MethodNotAllowed => (Response 405 (Text "Method Not Allowed"), st)
  | Found e =>
      match guardOf e with
      | Some scope => auth d c r scope (handle d c r e) st
      | None => handle d c r e st
      end
  end.

(** A session: requests one after the other. *)
Definition serveAll d (rs : list (HttpEnv * HttpRequest)) st : HttpState B X :=
  foldl (fun st cr => (ServeHTTP d cr.1 cr.2 st).2) st rs.
End Serve.
