(* ===== verification/HttpSafety.v ===== *)
(** * What the management API preserves, and whom it obeys

    The state of a server under arbitrary requests: what stays well formed, what
    callers without credentials can and cannot change, and what the tokens it
    issues open. *)

From S2P Require Import Prelude GoStrings GoCrypto Utf8 Json JsonFields Config ConfigJson Schema Crl Store AuditLog Policy Core Dedup Transit Delivery Gateway Identity PeerDiscovery Registry Metrics Inbox Webhook Callbacks HttpStores HttpAuth Http HttpAdmin HttpServer.

(** Runs a handler through its early returns. *)
Ltac run_handler :=
  unfold readyz, wellKnownAudit, peersAudit, auditLatest, getDLQ, discardDLQ, deleteDLQ, getCRL, postCRL, openStream, getConfigSchema, registerPeer,
    reloadConfig, revokeNode, discoverUsers, connectUser, saveConfig, registerApp, deleteApp, registerAdapter,
    deleteAdapter, issueToken; cbv zeta;
  repeat match goal with
  | |- context [match ?x with _ => _ end] => destruct x; try done
  end.

Section Safety.
Context `{UnicodeTables} `{Ed25519} `{Jwt} {B : Type} `{NodeStore B} {X : Type} `{CoreForwarder (FwdState X)}.
Context (errText : FwdError -> string) (jsonErrText : string -> string).
Implicit Types (d : Deps) (c : HttpEnv) (r : HttpRequest) (st : HttpState B X).

#[local] Notation serve := (ServeHTTP errText jsonErrText).
#[local] Notation serveAll := (serveAll errText jsonErrText).

Lemma SendEnvelope_frame (g : Gateway World) k req (s : GwState B (FwdState X) World) :
  gs_policy (SendEnvelope g k req s).2 = gs_policy s /\ gs_crl (SendEnvelope g k req s).2 = gs_crl s.
Proof.
  unfold SendEnvelope. cbv zeta. destruct (str_eqb _ ""); [done|]. destruct (env_IsDummy _); [done|].
  destruct (dedupCheck _ _ _ _) as [[] idx]; [done|]. destruct (Evaluate _ _ _ _ _) as [res log].
  destruct (str_eqb _ DecisionAllow); [|done]. by destruct (forwardAllowed _ _ _ _ _) as [[[ph f'] log']|].
Qed.

(** ** Frames of the handlers *)

(** What only the guarded endpoints may change. *)
Definition administered st :=
  (gs_policy (hs_gw st), hs_runtimePeers st, hs_apps st, hs_adapters st, hs_peers st).

Lemma postEnvelope_frame d c r st : administered (postEnvelope d c r st).2 = administered st /\ gs_crl (hs_gw (postEnvelope d c r st).2) = gs_crl (hs_gw st).
Proof.
  unfold postEnvelope. destruct (dp_Gateway d) as [g|]; [|done]. destruct (postedEnvelope _ r) as [env|]; [|done].
  destruct (str_eqb _ ""); [done|].
  pose proof (SendEnvelope_frame g (he_call c) {| sr_Envelope := env |} (hs_gw st)) as [Hp Hc].
  destruct (SendEnvelope _ _ _ _) as [[resp|[]] g']; cbn in *; unfold administered; cbn; by rewrite Hp, Hc.
Qed.

Lemma replayDLQ_frame d c i st : administered (replayDLQ d c i st).2 = administered st /\ gs_crl (hs_gw (replayDLQ d c i st).2) = gs_crl (hs_gw st).
Proof.
  unfold replayDLQ. destruct (dlqOf st) as [q|]; [|done]. destruct (dp_Gateway d) as [g|]; [|done].
  destruct (pathIndex i) as [n|]; [|done]. destruct (_ !! _) as [entry|]; [|done].
  pose proof (SendEnvelope_frame g (he_call c) {| sr_Envelope := dl_Envelope entry |} (hs_gw st)) as [Hp Hc].
  destruct (SendEnvelope _ _ _ _) as [[resp|[]] g']; cbn in *; unfold administered; cbn; by rewrite Hp, Hc.
Qed.

Lemma open_endpoint_frame d c r e st :
  guardOf e = None -> administered (handle errText jsonErrText d c r e st).2 = administered st.
Proof.
  destruct e; intros Hg; try discriminate Hg; cbn [handle];
    first [done | apply postEnvelope_frame | apply replayDLQ_frame | by run_handler].
Qed.

Lemma ServeHTTP_cases d c r st :
  (serve d c r st).2 = st \/ exists e, route (hr_Method r) (hr_Path r) = Found e
    /\ (forall scope, guardOf e = Some scope -> authorised d c scope r = true)
    /\ serve d c r st = handle errText jsonErrText d c r e st.
Proof.
  unfold ServeHTTP, auth. destruct (isOptions r); [by left|]. destruct (route _ _) as [e| |]; [|by left..].
  destruct (guardOf e) as [scope|] eqn:Eg; [|right; exists e; split_and!; naive_solver].
  destruct (authorised d c scope r) eqn:Ea; [|by left]. right. exists e. split_and!; naive_solver.
Qed.

(** Invariants of the requests' effects hold after every session. *)
Lemma serveAll_ind (P : HttpState B X -> Prop) d rs st :
  (forall c r st, P st -> P (serve d c r st).2) -> P st -> P (serveAll d rs st).
Proof. intros Hs. revert st. induction rs as [|[c r] rs IH]; intros st Hst; [done|]. apply IH, (Hs c r st Hst). Qed.

(** ** Callers without credentials *)

(** The request carries neither the API key nor a token a guarded endpoint accepts. *)
Definition outsider d c r : Prop :=
  ~ presentsKey (api_APIKey (cfg_API (dp_cfg d))) r
  /\ ~ presentsToken (he_authClock c) (api_JWTSecret (cfg_API (dp_cfg d))) "read" r.

Lemma operator_reads scope : scopeAllows "operator" scope = true -> scopeAllows "read" scope = true.
Proof. unfold scopeAllows. str_compute. intros ->. by rewrite orb_true_r. Qed.

Lemma outsider_refused d c r scope :
  api_APIKey (cfg_API (dp_cfg d)) <> ""%string -> outsider d c r -> scope ∈ ["read"; "operator"]%string ->
  authorised d c scope r = false.
Proof.
  intros Hk [Hnk Hnt] Hs. apply not_true_is_false. unfold authorised. rewrite checkAuth_spec by done.
  intros [Hp|(_ & _ & s & claims & Ha & Hv & Hp & Hsc)]; [done|]. apply Hnt. exists s, claims. split_and!; try done.
  rewrite !elem_of_cons in Hs. destruct Hs as [->|[->|Hs%not_elem_of_nil]]; [done|by apply operator_reads|done].
Qed.

Lemma guardOf_scope e scope : guardOf e = Some scope -> scope ∈ ["read"; "operator"]%string.
Proof. rewrite !elem_of_cons. destruct e; cbn; intros [= <-]; auto. Qed.

(** C8: Nobody administers a node without credentials.  On a node with an API
    key, whatever requests arrive that carry neither the key nor a token that
    verifies under the node's secret and is valid for a guarded endpoint, in whatever
    number and order, the policy engine, the registered peers, applications and schema
    adapters and the root cache stay as they are; and each such request to a
    guarded endpoint is answered 401 and changes nothing at all. *)
Theorem outsiders_cannot_administer d rs st :
  api_APIKey (cfg_API (dp_cfg d)) <> ""%string -> Forall (fun cr => outsider d cr.1 cr.2) rs ->
  administered (serveAll d rs st) = administered st
  /\ forall c r e scope st', outsider d c r -> isOptions r = false ->
       route (hr_Method r) (hr_Path r) = Found e -> guardOf e = Some scope ->
       serve d c r st' = (writeJSONError "unauthorized" 401, st').
Proof.
  intros Hk Hrs. split.
  - revert st. induction Hrs as [|[c r] rs Hr _ IH]; intros st; [done|]. cbn [fst snd] in Hr.
    change (serveAll d ((c, r) :: rs) st) with (serveAll d rs (serve d c r st).2). rewrite IH.
    destruct (ServeHTTP_cases d c r st) as [->|(e & _ & Ha & ->)]; [done|].
    destruct (guardOf e) as [scope|] eqn:Eg; [|by apply open_endpoint_frame].
    specialize (Ha scope eq_refl). by rewrite (outsider_refused d c r scope Hk Hr (guardOf_scope _ _ Eg)) in Ha.
  - intros c r e scope st' Hr Ho Hrt Hg. unfold ServeHTTP, auth.
    by rewrite Ho, Hrt, Hg, (outsider_refused d c r scope Hk Hr (guardOf_scope _ _ Hg)).
Qed.

(** ** The types of the stores *)

(** Every entry is stored under its own name; custom adapters carry the custom
    prefix and a version, applications a name, peers an address, revocation
    records distinct signatures. *)
Record http_wf st : Prop := {
  hw_adapters : forall ra, hs_adapters st = Some ra ->
    map_Forall (fun k a => ca_SchemaType a = k /\ HasPrefix k custom = true /\ ca_SchemaVersion a <> ""%string)
      (rad_adapters ra);
  hw_apps : forall ra, hs_apps st = Some ra -> map_Forall (fun k a => rn_AppID a = k /\ k <> ""%string) (ra_apps ra);
  hw_peers : forall rp, hs_runtimePeers st = Some rp -> Forall (fun p => peer_Addr p <> ""%string) (rp_peers rp);
  hw_crl : crl_wf (gs_crl (hs_gw st)) }.

(** A request that leaves the guarded stores alone. *)
Lemma http_wf_frame st st' :
  hs_adapters st' = hs_adapters st -> hs_apps st' = hs_apps st -> hs_runtimePeers st' = hs_runtimePeers st ->
  crl_wf (gs_crl (hs_gw st')) -> http_wf st -> http_wf st'.
Proof. intros Ha Hp Hr Hc [Hw1 Hw2 Hw3 _]. split; [by rewrite Ha|by rewrite Hp|by rewrite Hr|done]. Qed.

Lemma CRL_wf d c r e st : http_wf st -> crl_wf (gs_crl (hs_gw (handle errText jsonErrText d c r e st).2)).
Proof.
  intros Hwf. pose proof (hw_crl st Hwf) as Hc. destruct e; cbn [handle];
    first [ done | by rewrite (proj2 (postEnvelope_frame d c r st)) | by rewrite (proj2 (replayDLQ_frame d c _ st))
          | run_handler; by apply Revoke_wf | by run_handler ].
Qed.

(** The guarded handlers that write a store. *)
Definition writes_store (e : Endpoint) : bool :=
  match e with
  | EpRegisterPeer | EpRegisterApp | EpDeleteApp _ | EpRegisterAdapter | EpDeleteAdapter _ => true
  | _ => false
  end.

Lemma stores_frame d c r e st :
  writes_store e = false ->
  let st' := (handle errText jsonErrText d c r e st).2 in
  hs_adapters st' = hs_adapters st /\ hs_apps st' = hs_apps st /\ hs_runtimePeers st' = hs_runtimePeers st.
Proof.
  intros He. destruct (guardOf e) eqn:Eg; [|pose proof (open_endpoint_frame d c r e st Eg) as Hf; unfold administered in Hf; naive_solver].
  destruct e; try discriminate He; try discriminate Eg; cbn [handle]; first [done | by run_handler].
Qed.

Lemma ServeHTTP_wf d c r st : http_wf st -> http_wf (serve d c r st).2.
Proof.
  intros Hwf.
  destruct (ServeHTTP_cases d c r st) as [->|(e & _ & _ & ->)]; [done|].
  pose proof (CRL_wf d c r e st Hwf) as Hc. destruct (writes_store e) eqn:Ew.
  2: { destruct (stores_frame d c r e st Ew) as (Ha & Hp & Hr). by apply (http_wf_frame st). }
  pose proof Hwf as [Hw1 Hw2 Hw3 Hw4]. destruct e; try discriminate Ew; cbn [handle] in *.
  - unfold registerPeer in *. cbv zeta in *. destruct (bodyMembers r ≫= _) as [[[addr scope] region]|]; [|done].
    destruct (str_eqb addr "") eqn:Ea; [done|]. go_bool. split; cbn; try done. intros rp Hrp.
    destruct (hs_runtimePeers st) as [rp0|]; [|done]. injection Hrp as <-. cbn. apply Forall_app.
    split; [by apply Hw3|repeat constructor; done].
  - unfold registerApp in *. destruct (hs_apps st) as [ra|] eqn:Er; [|done]. cbv zeta in *.
    destruct (bodyMembers r ≫= _) as [[appID url]|]; [|done].
    destruct (str_eqb appID "") eqn:Ea; [done|]. go_bool. split; cbn; try done.
    intros ra' [= <-]. apply map_Forall_insert_2; [done|]. by apply Hw2.
  - unfold deleteApp in *. destruct (hs_apps st) as [ra|] eqn:Er; [|done]. split; cbn; try done.
    intros ra' [= <-]. apply map_Forall_delete. by apply Hw2.
  - unfold registerAdapter in *. destruct (hs_adapters st) as [ra|] eqn:Er; [|done].
    destruct (postedAdapter r) as [a|]; [|done].
    destruct (HasPrefix (ca_SchemaType a) custom) eqn:Ea; cbn [negb] in *; [|done].
    split; cbn; try done. intros ra' [= <-]. apply map_Forall_insert_2; [|by apply Hw1]. cbn. split_and!; try done.
    destruct (str_eqb _ "") eqn:Ev; [done|]. by go_bool.
  - unfold deleteAdapter in *. destruct (hs_adapters st) as [ra|] eqn:Er; [|done].
    destruct (HasPrefix _ custom); cbn [negb] in *; [|done]. split; cbn; try done.
    intros ra' [= <-]. apply map_Forall_delete. by apply Hw1.
Qed.
(** C27: The stores of the server keep their types.  After any session, with
    whatever bodies, methods, paths and credentials, every stored schema adapter is
    stored under its own name, has the prefix of custom adapters and a version, every
    application has a name, every registered peer an address, and no revocation
    record counts a signature twice. *)
Theorem serve_wf d rs st : http_wf st -> http_wf (serveAll d rs st).
Proof. intros Hwf. apply serveAll_ind; [|done]. intros c r st'. apply ServeHTTP_wf. Qed.
End Safety.
