(* ===== verification/HttpFlows.v ===== *)
(** * Requests and what they lead to

    Whole flows through the management API: tokens that are issued and used, audit
    roots that are signed and checked, revocations that reach the policy engine,
    dead letters that are replayed. *)

From S2P Require Import Prelude GoStrings GoCrypto Utf8 Json JsonFields Config ConfigJson Schema Crl Store AuditLog Policy Core Dedup Transit Delivery Gateway Identity PeerDiscovery Registry Metrics Inbox Webhook Callbacks HttpStores HttpAuth Http HttpAdmin HttpServer HttpSafety.

(** A request with a JSON body. *)
Definition request (method : string) (path : list string) (headers : string -> string) (body : string) : HttpRequest :=
  {| hr_Method := method; hr_Path := path; hr_Header := headers; hr_Query := fun _ => ""%string; hr_Body := body |}.

Definition v1path (l : list string) : list string := ("api" :: "v1" :: l)%string.

(** The body of [POST /api/v1/crl]. *)
Definition crlBody (nodeID reason sig : string) : json := JObj [
  ("node_id"%string, JStr nodeID); ("reason"%string, JStr reason);
  ("signature_b64"%string, JStr (b64_encode (bytes_of sig)))].

Definition crlPost (headers : string -> string) (nodeID reason sig : string) : HttpRequest :=
  request "POST" (v1path ["crl"%string]) headers (render (crlBody nodeID reason sig)).

Lemma b64_encode_nonempty s : s <> ""%string -> b64_encode (bytes_of s) <> ""%string.
Proof. destruct s as [|a [|b [|c s]]]; [done|..]; intros _; unfold bytes_of; cbn; discriminate. Qed.

Section Flows.
Context `{UnicodeTables} `{Ed25519} `{Jwt} {B : Type} `{NodeStore B} {X : Type} `{CoreForwarder (FwdState X)}.
Context (errText : FwdError -> string) (jsonErrText : string -> string).
Implicit Types (d : Deps) (c : HttpEnv) (r : HttpRequest) (st : HttpState B X).

#[local] Notation serve := (ServeHTTP errText jsonErrText).
#[local] Notation serveAll := (serveAll errText jsonErrText).

(** ** Revocations *)

Lemma crlBody_wf nodeID reason sig : utf8 nodeID -> utf8 reason -> json_wf (crlBody nodeID reason sig).
Proof. intros Hn Hr. cbn. split_and!; try (by apply plain_utf8); try done. apply plain_utf8, b64_plain, bytes_of_range. Qed.

Lemma crlPost_serve d c headers nodeID reason sig st :
  dp_CRL d = true -> utf8 nodeID -> utf8 reason -> nodeID <> ""%string -> sig <> ""%string ->
  (serve d c (crlPost headers nodeID reason sig) st).2
  = setCRL (Revoke (he_clock c 0) nodeID reason sig (gs_crl (hs_gw st))) st.
Proof.
  intros Hd Hu Hr Hn Hs. unfold ServeHTTP. change (isOptions _) with false. cbv iota.
  change (route _ _) with (Found EpPostCRL). cbn [guardOf handle]. unfold postCRL. rewrite Hd. cbn [negb]. cbv zeta.
  unfold bodyMembers. cbn [hr_Body crlPost request]. rewrite decodeFirst_render by (by apply crlBody_wf).
  cbn [members crlBody].
  match goal with |- context [Some ?ms ≫= ?k] =>
    assert (Some ms ≫= k = Some (nodeID, reason, b64_encode (bytes_of sig))) as -> by reflexivity end.
  rewrite (proj2 (str_eqb_neq _ _) Hn), (proj2 (str_eqb_neq _ _) (b64_encode_nonempty _ Hs)). cbn [orb].
  by rewrite b64_decode_encode.
Qed.

(** C32: Anybody can revoke any node.  Two requests to [POST /api/v1/crl] without
    any credentials (whatever headers they carry), with any two different texts in place
    of signatures, make the policy engine of a node deny all envelopes of the node
    they name. *)
Theorem outsiders_can_revoke d c1 c2 headers node reason s1 s2 st now req log :
  dp_CRL d = true -> utf8 node -> utf8 reason -> node <> ""%string -> s1 <> ""%string -> s2 <> ""%string -> s1 <> s2 ->
  crl_wf (gs_crl (hs_gw st)) -> en_hasCRL (gs_policy (hs_gw st)) = true -> rq_SenderNodeID req = node ->
  let st' := serveAll d [(c1, crlPost headers node reason s1); (c2, crlPost headers node reason s2)] st in
  (Evaluate now (gs_policy (hs_gw st')) (gs_crl (hs_gw st')) req (log : Log B)).1
  = deny (en_cfg (gs_policy (hs_gw st))) "NODE_REVOKED".
Proof.
  intros Hd Hu Hr Hn Hs1 Hs2 Hne Hwf Hc <-. cbv zeta. unfold serveAll. cbn [foldl fst snd].
  rewrite !crlPost_serve by done. cbn [hs_gw setCRL setGw gs_crl gs_policy].
  apply revoked_sender_denied; [done|by apply Revoke_wf, Revoke_wf|].
  rewrite !Revoke_sigs, !decide_True by done.
  transitivity (size ({[s2]} ∪ {[s1]} : gset string)); [|apply subseteq_size; set_solver].
  rewrite size_union, !size_singleton by set_solver. lia.
Qed.

(** ** Tokens *)

Definition isTokenRequest r : Prop := hr_Method r = "POST"%string /\ hr_Path r = v1path ["token"%string].

Lemma serve_token d c r st : isTokenRequest r -> serve d c r st = issueToken d c r st.
Proof. intros [Hm Hp]. unfold ServeHTTP, isOptions. rewrite Hm, Hp. reflexivity. Qed.

(** What a token response shows. *)
Definition tokenReply (exp : Z) (scope signed : string) : Reply :=
  ok_json (JObj [("expires_at"%string, JInt exp); ("scope"%string, JStr scope); ("token"%string, JStr signed)]).

Lemma issueToken_ok d c r st reply st' :
  issueToken d c r st = (reply, st') ->
  st' = st /\ ((exists msg code, code <> 200 /\ reply = writeJSONError msg code)
  \/ exists scope ttl signed, postedToken r = Some (scope, ttl)
      /\ checkAuth (he_authClock c) (api_APIKey (cfg_API (dp_cfg d))) "" "read" r = true
      /\ api_JWTSecret (cfg_API (dp_cfg d)) <> ""%string
      /\ let expires := he_clock c 0 + mul_duration (tokenMinutes ttl) Minute in
         jwt_SignedString (tokenClaims (tokenScope scope) expires (he_clock c 1) (he_uuid c 0))
           (api_JWTSecret (cfg_API (dp_cfg d))) = Some signed
         /\ reply = tokenReply (Unix expires) (tokenScope scope) signed).
Proof.
  assert (forall msg code P, code <> 200 -> (writeJSONError msg code, st) = (reply, st') ->
    st' = st /\ ((exists msg code, code <> 200 /\ reply = writeJSONError msg code) \/ P)) as Herr.
  { intros msg code P Hc [= <- <-]. split; [done|]. left. by exists msg, code. }
  unfold issueToken. cbv zeta. destruct (checkAuth _ _ _ _ _) eqn:Ea; cbn [negb]; [|by apply Herr].
  destruct (str_eqb _ "") eqn:Ej; [by apply Herr|]. go_bool.
  destruct (postedToken r) as [[scope ttl]|]; [|by apply Herr].
  destruct (jwt_SignedString _ _) as [signed|] eqn:Es; [|by apply Herr]. intros [= <- <-].
  split; [done|]. right. eauto 10.
Qed.

Lemma tokenScope_cases scope : tokenScope scope ∈ ["read"; "operator"]%string.
Proof.
  unfold tokenScope. rewrite !elem_of_cons. destruct (str_eqb scope "read") eqn:Er; go_bool; [auto|].
  destruct (str_eqb scope "operator") eqn:Eo; go_bool; auto.
Qed.

Lemma tokenMinutes_bounds ttl : 1 <= tokenMinutes ttl <= 1440.
Proof. unfold tokenMinutes. destruct (_ || _) eqn:E; go_bool; lia. Qed.

(** A request whose only credential is a bearer token. *)
Definition bears (signed : string) r : Prop :=
  hr_Header r "X-MRMI-Key" = ""%string /\ hr_Header r "Authorization" = append bearer signed.

(** A signed token lets in until it expires, with its scope. *)
Lemma signed_token_opens d c' r' sc scope expires issued jti signed :
  scope ∈ ["read"; "operator"]%string -> api_JWTSecret (cfg_API (dp_cfg d)) <> ""%string ->
  jwt_SignedString (tokenClaims scope expires issued jti) (api_JWTSecret (cfg_API (dp_cfg d))) = Some signed ->
  bears signed r' -> he_authClock c' < Unix expires * Second ->
  authorised d c' sc r' = (if str_eqb sc "operator" then str_eqb scope "operator" else true).
Proof.
  intros Hscope Hj Hsig [Hk Ha] Hlt. unfold authorised, checkAuth. cbv zeta. rewrite Hk, Ha, prefix_append, TrimPrefix_append.
  rewrite (proj2 (str_eqb_neq _ _) Hj), str_eqb_refl, andb_false_r. cbn [negb].
  rewrite (jwt_parse_signed (jwtKey _) (he_authClock c') _ _ _ _ Hsig eq_refl eq_refl eq_refl); [|vm_compute; repeat constructor; set_solver|done].
  cbn [jt_Valid jt_Claims negb]. change (scopeOf _) with scope. unfold scopeAllows.
  destruct (str_eqb sc "operator"); [done|]. rewrite !elem_of_cons in Hscope.
  destruct Hscope as [->|[->|Hc%not_elem_of_nil]]; done.
Qed.

(** C29: A token opens what its scope names until it expires.  A successful
    [POST /api/v1/token] changes no state and presented the API key, where there is one;
    it hands out a token for the scope read or
    operator that expires within a minute and a day (up to the second it is rounded
    to).  A request that only bears the token, before it expires, is let in by the
    guarded endpoints of its scope, and by no others: a token for reading never
    passes an operator's endpoint. *)
Theorem issued_token_opens d c r st v st' :
  isTokenRequest r -> serve d c r st = (ok_json v, st') ->
  st' = st
  /\ (api_APIKey (cfg_API (dp_cfg d)) <> ""%string -> presentsKey (api_APIKey (cfg_API (dp_cfg d))) r)
  /\ exists exp scope signed,
    ok_json v = tokenReply exp scope signed
    /\ scope ∈ ["read"; "operator"]%string
    /\ he_clock c 0 + Minute - Second < exp * Second <= he_clock c 0 + 24 * Hour
    /\ forall c' r' sc, bears signed r' -> he_authClock c' < exp * Second ->
         authorised d c' sc r' = (if str_eqb sc "operator" then str_eqb scope "operator" else true).
Proof.
  intros Hr Hs. rewrite serve_token in Hs by done.
  apply issueToken_ok in Hs as (-> & [(msg & code & Hc & Hm)|(scope & ttl & signed & _ & Hkey & Hj & Hsig & Hrep)]);
    [by injection Hm as <- _|].
  split; [done|]. split.
  { intros Hk. rewrite checkAuth_spec in Hkey by done. by destruct Hkey as [?|(_ & ? & _)]. }
  set (expires := he_clock c 0 + _) in *. exists (Unix expires), (tokenScope scope), signed.
  split; [done|]. split; [apply tokenScope_cases|]. pose proof (tokenMinutes_bounds ttl) as Ht.
  assert (Minute = 60 * Second) as Hmin by done. assert (Second = 1000000000) as Hsec by done.
  assert (Hour = 60 * Minute) as Hh by done. split.
  - unfold expires, Unix. unfold mul_duration. rewrite wrap_i64_id by (unfold in_i64; lia).
    pose proof (Z.div_mod (he_clock c 0 + tokenMinutes ttl * Minute) Second ltac:(lia)).
    pose proof (Z.mod_pos_bound (he_clock c 0 + tokenMinutes ttl * Minute) Second ltac:(lia)). lia.
  - intros c' r' sc Hb Hlt. eapply signed_token_opens; [apply tokenScope_cases|done|exact Hsig|done|exact Hlt].
Qed.

(** A node with a JWT secret and no API key is open to everybody.  Any
    request with a non-empty [X-MRMI-Key] header passes the check for either scope,
    and [POST /api/v1/token] gives a caller without any credential a token for the
    scope operator. *)
Theorem keyless_node_is_open d c headers st :
  api_APIKey (cfg_API (dp_cfg d)) = ""%string -> api_JWTSecret (cfg_API (dp_cfg d)) <> ""%string ->
  (forall scope exp iat jti,
     is_Some (jwt_SignedString (tokenClaims scope exp iat jti) (api_JWTSecret (cfg_API (dp_cfg d))))) ->
  (forall r scope, hr_Header r "X-MRMI-Key" <> ""%string -> authorised d c scope r = true)
  /\ exists exp signed,
       serve d c (request "POST" (v1path ["token"%string]) headers (render (JObj [("scope"%string, JStr "operator")]))) st
       = (tokenReply exp "operator" signed, st).
Proof.
  intros Hk Hj Hsign. split.
  { intros r scope Hh. unfold authorised. rewrite Hk. by apply any_key_opens. }
  set (r := request _ _ _ _). rewrite serve_token by done. unfold issueToken. cbv zeta. rewrite Hk.
  unfold checkAuth. str_compute. cbn iota. rewrite (proj2 (str_eqb_neq _ _) Hj).
  assert (postedToken r = Some ("operator"%string, 0)) as ->.
  { unfold postedToken, bodyMembers, r. cbn [hr_Body request].
    rewrite decodeFirst_render by (cbn; split_and!; [by apply plain_utf8..|done]). reflexivity. }
  destruct (Hsign (tokenScope "operator") (he_clock c 0 + mul_duration (tokenMinutes 0) Minute) (he_clock c 1) (he_uuid c 0))
    as [signed ->]. by eexists _, signed.
Qed.

(** ** The audit endpoints *)

(** The published audit root can be verified.  The well-known endpoint
    answers with the root hash of the audit log at that moment; and removing the
    member [signature] from the answer gives the exact text the signature was made
    for, so that it verifies under the node's public key. *)
Theorem published_root_verifies d c st k :
  ap_HTTPSWellKnown (pc_Audit (cfg_Policy (dp_cfg d))) = true -> dp_Audit d = true -> dp_PrivKey d = Some k ->
  exists ms raw,
    serve d c (request "GET" [".well-known"; "mrmi-audit"]%string (fun _ => ""%string) "") st
      = (ok_json (JObj (ms ++ [("signature"%string, JStr (append "ed25519:" (b64_encode (bytes_of raw))))])), st)
    /\ claim "root_hash" ms = Some (JStr (RootHash (gs_audit (hs_gw st))))
    /\ claim "timestamp" ms = Some (JInt (Unix (he_clock c 0)))
    /\ ed_Verify (ed_Public k) (render (JObj ms)) raw = true.
Proof.
  intros Hw Ha Hk. unfold ServeHTTP. change (isOptions _) with false. cbv iota.
  change (route _ _) with (Found EpWellKnown). cbn [guardOf handle]. unfold wellKnownAudit. cbv zeta. rewrite Hw, Ha, Hk. cbn [negb].
  eexists _, _. split; [reflexivity|]. split; [reflexivity|]. split; [reflexivity|]. apply ed_verify_sign.
Qed.

(** The audit endpoint serves the newest entries.  On a node without a
    persistent store the answer to [GET /api/v1/audit/latest] is the newest entries of
    the log, newest first, as many as asked for, at least one and at most 200; a count
    that is missing, malformed or out of range means 20. *)
Theorem audit_latest_newest d c headers query st :
  dp_Audit d = true -> log_backend (gs_audit (hs_gw st)) = None ->
  exists n : nat,
    serve d c {| hr_Method := "GET"; hr_Path := v1path ["audit"; "latest"]%string; hr_Header := headers;
                 hr_Query := query; hr_Body := "" |} st
    = (ok_json (JArr (entryJSON <$> take n (reverse (log_entries (gs_audit (hs_gw st)))))), st)
    /\ (1 <= n <= 200)%nat
    /\ (Atoi (query "n"%string) = Some (Z.of_nat n) \/ n = 20%nat)
    /\ (forall v, Atoi (query "n"%string) = Some v -> 1 <= v <= 200 -> v = Z.of_nat n).
Proof.
  intros Ha Hb. set (r := Build_HttpRequest _ _ _ _ _).
  assert (1 <= latestCount r <= 200 /\ (Atoi (query "n"%string) = Some (latestCount r) \/ latestCount r = 20)
          /\ (forall v, Atoi (query "n"%string) = Some v -> 1 <= v <= 200 -> v = latestCount r)) as (Hn & Hc & Hall).
  { unfold latestCount. cbn [hr_Query r]. destruct (str_eqb _ "") eqn:Eq; go_bool.
    - split; [lia|]. split; [auto|]. rewrite Eq. discriminate.
    - destruct (Atoi _) as [v|]; [|split; [lia|]; split; [auto|done]].
      destruct (_ && _) eqn:E; go_bool; (split; [lia|]; split; [auto|]); intros v' [= <-]; lia. }
  exists (Z.to_nat (latestCount r)). rewrite Z2Nat.id by lia. split_and!; [|lia|lia| |done].
  - unfold ServeHTTP. change (isOptions _) with false. cbv iota. change (route _ _) with (Found EpAuditLatest).
    cbn [guardOf handle]. unfold auditLatest. rewrite Ha. cbn [negb]. unfold Recent, auditOf. by rewrite Hb, recentInMemory_take.
  - destruct Hc as [->|Hc]; [by left|right]. by rewrite Hc.
Qed.

(** ** Replay *)

Lemma Remove_lookup i q e :
  dlq_entries q !! Z.to_nat i = Some e -> 0 <= i ->
  dlq_entries (Remove i q) = take (Z.to_nat i) (dlq_entries q) ++ drop (S (Z.to_nat i)) (dlq_entries q).
Proof.
  intros He Hi. apply lookup_lt_Some in He. unfold Remove. rewrite (proj2 (Z.ltb_ge _ _)), (proj2 (Z.leb_gt _ _)) by lia.
  cbn. by replace (Z.to_nat (i + 1)) with (S (Z.to_nat i)) by lia.
Qed.

(** C31: A dead letter replayed within its deduplication window is lost.  If the
    gateway still remembers the idempotency key of the entry (as it does for every
    envelope it tried to forward, until the window ends), the replay forwards
    nothing, answers 200 with the decision DUPLICATE, and removes the entry from the
    queue; the transit cache does not hold the envelope either. *)
Theorem replay_in_window_loses d g c r index i q e st :
  isOptions r = false -> route (hr_Method r) (hr_Path r) = Found (EpReplayDLQ index) ->
  dp_Gateway d = Some g -> dlqOf st = Some q -> pathIndex index = Some i ->
  dlq_entries q !! Z.to_nat i = Some e -> real {| sr_Envelope := dl_Envelope e |} ->
  freshKey g (he_call c) {| sr_Envelope := dl_Envelope e |} (hs_gw st) = false ->
  let '(reply, st') := serve d c r st in
  reply = ok_json (JObj [("decision"%string, JStr DecisionDuplicate);
                         ("reason"%string, JStr "idempotency_key already processed")])
  /\ dlqOf st' = Some {| dlq_entries := take (Z.to_nat i) (dlq_entries q) ++ drop (S (Z.to_nat i)) (dlq_entries q) |}
  /\ fs_transit (gs_fwd (hs_gw st')) = fs_transit (gs_fwd (hs_gw st))
  /\ fs_world (gs_fwd (hs_gw st')) = fs_world (gs_fwd (hs_gw st)).
Proof.
  intros Ho Hr Hg Hq Hi He [Hk Hd] Hf. unfold ServeHTTP. rewrite Ho, Hr. cbn [guardOf handle]. unfold replayDLQ.
  rewrite Hq, Hg, Hi. unfold DLQEntries. rewrite He.
  assert (0 <= i) as Hi0 by (unfold pathIndex in Hi; destruct (Atoi index) as [z|]; [|done];
    destruct (z <? 0) eqn:Ez; [done|]; injection Hi as <-; by apply Z.ltb_ge).
  pose proof (Remove_lookup i q e He Hi0) as Hrm.
  unfold SendEnvelope. cbv zeta. unfold freshKey, normalised in Hf. cbn [sr_Envelope] in *.
  rewrite (proj2 (str_eqb_neq _ _) Hk). cbn [env_IsDummy with_schema_type]. rewrite Hd.
  destruct (dedupCheck _ _ _ _) as [[] idx]; [|done]. split; [done|]. split; [|done].
  unfold dlqOf in *. cbn. rewrite Hq. cbn. f_equal. destruct (Remove i q). cbn in Hrm. by rewrite Hrm.
Qed.
End Flows.
