(* ===== verification/CliServer.v ===== *)
(** * The operator's tool against a node

    The commands of [mrmi] composed with the server they talk to: what the tool shows
    is what the node holds, the signature it checks is the one the node makes, and
    the token it prints opens what it says. *)

From Stdlib Require Import SpecFloat.
From S2P Require Import Prelude GoStrings GoCrypto Utf8 Json JsonFields Config ConfigJson Schema Crl Store AuditLog Policy Core Dedup Transit Delivery GoText GoFlag Gateway Background Identity Terminal PeerDiscovery Registry Metrics Inbox Webhook Callbacks HttpStores HttpAuth Http AuditFile CliAudit CliNode Cli HttpAdmin HttpServer HttpSafety HttpFlows.

(** ** The transport *)

(** The path of a URL. *)
Definition joinPath (segs : list string) : string := text ((fun s => append "/" s) <$> segs).

(** [Header.Get] on the headers of a request. *)
Definition headerGet `{UnicodeTables} (hs : list (string * string)) (n : string) : string :=
  match list_find (fun kv => EqualFold kv.1 n = true) hs with Some (_, kv) => kv.2 | None => ""%string end.

Definition delivered `{UnicodeTables} (r : ClientRequest) (segs : list string) : HttpRequest :=
  {| hr_Method := cq_Method r; hr_Path := segs; hr_Header := headerGet (cq_Header r); hr_Query := fun _ => ""%string;
     hr_Body := cq_Body r |}.

(** What the client sees of a response; [other] stands for the replies that are not
    read as one text. *)
Definition clientView (other : Reply -> outcome string ClientResponse) (r : Reply) : outcome string ClientResponse :=
  match r with
  | Response status NoBody => Ok (status, Ok ""%string)
  | Response status (Text s) => Ok (status, Ok s)
  | Response status (Json v) => Ok (status, Ok (encodeLine v))
  | _ => other r
  end.

(** A header value that arrives as it was set: visible ASCII, blanks inside. *)
Definition sendable (v : string) : bool :=
  forallb (fun a => (32 <=? byteZ a) && (byteZ a <? 127)) (list_ascii_of_string v) && str_eqb (TrimSpace v) v.

(** The paths the tool asks for. *)
Definition cliPaths : list (list string) :=
  [[".well-known"; "mrmi-audit"]; v1path ["status"]; v1path ["peers"]; v1path ["dlq"]; v1path ["apps"]; v1path ["token"]]%string.

Section Composition.
Context `{UnicodeTables} `{PrintTable} `{KeyFormat} `{Jwt} {B : Type} `{NodeStore B} {X : Type} `{CoreForwarder (FwdState X)}.
Context (errText : FwdError -> string) (jsonErrText b64ErrText : string -> string).
Context (o : Outside) (other : Reply -> outcome string ClientResponse).
Implicit Types (d : Deps) (c : HttpEnv) (st : HttpState B X).

#[local] Notation serve := (ServeHTTP errText jsonErrText).

(** The node in state [st] answers at [base]. *)
Definition answersAt d c st (base : string) : Prop :=
  base <> ""%string /\ forall method segs hs body, segs ∈ cliPaths -> forallb (fun h => sendable h.2) hs = true ->
    o_parseURL o (append base (joinPath segs)) = None
    /\ let r := {| cq_Method := method; cq_URL := append base (joinPath segs); cq_Header := hs; cq_Body := body |} in
       o_http o r = clientView other (serve d c (delivered r segs) st).1.

Lemma append_nonempty (a b : string) : a <> ""%string -> append a b <> ""%string.
Proof. by destruct a. Qed.

(** ** The published audit root *)

Definition publishedRoot d c st (k : ed_PrivateKey) : auditWellKnown :=
  let ts := Unix (he_clock c 0) in
  let root := RootHash (gs_audit (hs_gw st)) in {|
  wk_ADRVersion := ADR; wk_AppVersion := App; wk_ApplicableLaw := nc_ApplicableLaw (cfg_Node (dp_cfg d));
  wk_NodeID := nc_NodeID (cfg_Node (dp_cfg d)); wk_RootHash := root; wk_Timestamp := ts; wk_Version := 1;
  wk_Signature := append "ed25519:" (b64_encode (bytes_of (ed_Sign k (render (JObj (auditSignPayload d root ts)))))) |}.

Definition wellKnownJSON (wk : auditWellKnown) : json := JObj [
  ("adr_version"%string, JStr (wk_ADRVersion wk)); ("app_version"%string, JStr (wk_AppVersion wk));
  ("applicable_law"%string, JStr (wk_ApplicableLaw wk)); ("node_id"%string, JStr (wk_NodeID wk));
  ("root_hash"%string, JStr (wk_RootHash wk)); ("timestamp"%string, JInt (wk_Timestamp wk));
  ("version"%string, JInt (wk_Version wk)); ("signature"%string, JStr (wk_Signature wk))].

Lemma as_wellKnown_JSON wk :
  in_i64 (wk_Timestamp wk) -> in_i64 (wk_Version wk) -> as_wellKnown (wellKnownJSON wk) = Some wk.
Proof.
  intros Ht Hv. unfold as_wellKnown. cbv zeta. eapply bind_some; [reflexivity|].
  repeat plain_members.
  repeat read_struct_field. by destruct wk.
Qed.

Lemma wellKnownJSON_wf wk :
  utf8 (wk_ADRVersion wk) -> utf8 (wk_AppVersion wk) -> utf8 (wk_ApplicableLaw wk) -> utf8 (wk_NodeID wk) ->
  utf8 (wk_RootHash wk) -> in_i64 (wk_Timestamp wk) -> in_i64 (wk_Version wk) -> utf8 (wk_Signature wk) ->
  json_wf (wellKnownJSON wk).
Proof.
  unfold in_i64. intros. cbn [json_wf wellKnownJSON foldr fst snd]. split_and!; try done; try lia; by apply plain_utf8.
Qed.

Lemma publishedRoot_signed d c st k : signedBy (ed_Public k) (publishedRoot d c st k).
Proof.
  unfold signedBy. eexists _, _. split; [reflexivity|]. split; [apply b64_decode_encode|]. apply ed_verify_sign.
Qed.

Lemma published_vouched d c st k base path t :
  answersAt d c st base ->
  ap_HTTPSWellKnown (pc_Audit (cfg_Policy (dp_cfg d))) = true -> dp_Audit d = true -> dp_PrivKey d = Some k ->
  utf8 (nc_ApplicableLaw (cfg_Node (dp_cfg d))) -> utf8 (nc_NodeID (cfg_Node (dp_cfg d))) ->
  plain (RootHash (gs_audit (hs_gw st))) = true -> in_i64 (Unix (he_clock c 0)) ->
  holdsKey (tm_files t) path (ed_Public k) ->
  vouched o (append base "/.well-known/mrmi-audit") path t (publishedRoot d c st k).
Proof.
  intros [Hb Hans] Hw Ha Hk Hlaw Hnode Hroot Hts Hkey. set (url := append base "/.well-known/mrmi-audit").
  destruct (Hans "GET"%string [".well-known"; "mrmi-audit"]%string [] ""%string) as [Hurl Hhttp]; [by left|done|].
  change (append base (joinPath [".well-known"; "mrmi-audit"]%string)) with url in *. cbv zeta in Hhttp.
  set (wk := publishedRoot d c st k).
  assert (json_wf (wellKnownJSON wk)) as Hwf.
  { apply wellKnownJSON_wf; try done; try (by apply plain_utf8). cbn [wk publishedRoot wk_Signature].
    apply plain_utf8. rewrite plain_append, b64_plain by apply bytes_of_range. done. }
  split; [exact Hurl|]. exists (encodeLine (wellKnownJSON wk)), (ed_Public k). split_and!.
  - unfold getRequest. rewrite Hhttp. unfold ServeHTTP. change (isOptions _) with false. cbv iota.
    change (route _ _) with (Found EpWellKnown). cbn [guardOf handle]. unfold wellKnownAudit. cbv zeta.
    by rewrite Hw, Ha, Hk.
  - rewrite unmarshal_line by done. cbn [mbind option_bind]. by rewrite as_wellKnown_JSON by (done || (unfold in_i64; cbn; lia)).
  - exact Hkey.
  - apply publishedRoot_signed.
Qed.

(** The tool confirms the root a node publishes.  Where the node publishes its root
    and signs it with the key whose public half is in the operator's file, [mrmi audit
    verify --https --pubkey] passes and shows the node, its law and the root hash of
    its audit log. *)
Theorem cli_confirms_published_root d c st k base path t :
  answersAt d c st base -> path <> ""%string ->
  ap_HTTPSWellKnown (pc_Audit (cfg_Policy (dp_cfg d))) = true -> dp_Audit d = true -> dp_PrivKey d = Some k ->
  utf8 (nc_ApplicableLaw (cfg_Node (dp_cfg d))) -> utf8 (nc_NodeID (cfg_Node (dp_cfg d))) ->
  plain (RootHash (gs_audit (hs_gw st))) = true -> in_i64 (Unix (he_clock c 0)) ->
  holdsKey (tm_files t) path (ed_Public k) ->
  let url := append base "/.well-known/mrmi-audit" in
  verifyHTTPS o jsonErrText b64ErrText url path t
  = (Ok (), after t (append (showWellKnown url (publishedRoot d c st k)) (text ["SIG   PASS"; newline]%string)) [getRequest url]).
Proof.
  intros Hans Hpath Hw Ha Hk Hlaw Hnode Hroot Hts Hkey url. apply verifyHTTPS_passes; [|done|by apply published_vouched].
  apply append_nonempty, Hans.
Qed.

(** ** Tables *)

Definition sentRequest (opts : nodeOpts) (path : string) : ClientRequest :=
  withCredentials opts {| cq_Method := "GET"; cq_URL := append (no_url opts) path; cq_Header := []; cq_Body := "" |}.

(** The credentials arrive as they were given. *)
Definition credentialsSendable (opts : nodeOpts) : Prop :=
  forallb (fun h => sendable h.2) (cq_Header (sentRequest opts "")) = true.

Lemma sentRequest_parts opts path :
  sentRequest opts path = {| cq_Method := "GET"; cq_URL := append (no_url opts) path;
                             cq_Header := cq_Header (sentRequest opts ""); cq_Body := "" |}.
Proof. unfold sentRequest, withCredentials. by destruct (str_eqb (no_token opts) ""), (str_eqb (no_apiKey opts) ""). Qed.

(** The request as the node gets it. *)
Definition askedOf (opts : nodeOpts) (segs : list string) : HttpRequest := delivered (sentRequest opts (joinPath segs)) segs.

Lemma apiGet_run d c st opts segs t :
  answersAt d c st (no_url opts) -> segs ∈ cliPaths -> credentialsSendable opts ->
  apiGet o opts (joinPath segs) t
  = bind (wrap_err (text ["GET "; joinPath segs; ": "]%string) (lift (clientView other (serve d c (askedOf opts segs) st).1)))
      okBody (after t "" [sentRequest opts (joinPath segs)]).
Proof.
  intros [_ Hans] Hin Hc. unfold apiGet, newRequest.
  destruct (Hans "GET"%string segs (cq_Header (sentRequest opts "")) ""%string Hin Hc) as [Hurl Hhttp].
  rewrite Hurl. unfold bind, wrap_err, ret. unfold doRequest, lift. fold (sentRequest opts (joinPath segs)).
  unfold askedOf. cbv zeta in Hhttp. rewrite <- sentRequest_parts in Hhttp. rewrite Hhttp. unfold after. by rewrite append_empty_str.
Qed.

Lemma okBody_run code body t :
  okBody (code, Ok body) t = if code =? StatusOK then (Ok body, t) else (Err (statusError code body), t).
Proof. unfold okBody, readAll, wrap_err, lift, bind. cbn [fst snd]. by destruct (code =? StatusOK). Qed.

Lemma statusError_json code msg :
  utf8 msg -> msg <> ""%string ->
  statusError code (encodeLine (JObj [("error"%string, JStr msg)])) = text ["HTTP "; itoa code; ": "; msg]%string.
Proof.
  intros Hu Hm. unfold statusError. rewrite unmarshal_line by (cbn; split_and!; [by apply plain_utf8|done|done]).
  change (Some (JObj [("error"%string, JStr msg)]) ≫= as_error) with (Some msg).
  cbv iota beta. by rewrite (proj2 (str_eqb_neq _ _) Hm).
Qed.

(** An answer of the server that decodes is shown. *)
Lemma showAnswer_ok {A} d c st opts segs (dec : json -> option A) show v a t :
  answersAt d c st (no_url opts) -> segs ∈ cliPaths -> credentialsSendable opts ->
  (serve d c (askedOf opts segs) st).1 = ok_json v -> json_wf v -> dec v = Some a ->
  showAnswer o jsonErrText opts (joinPath segs) dec show t
  = (Ok (), after t (table (show a)) [sentRequest opts (joinPath segs)]).
Proof.
  intros Hans Hin Hc Hs Hv Hd. unfold showAnswer. unfold bind at 1. rewrite (apiGet_run d c st), Hs by done.
  unfold bind at 1, wrap_err, lift. cbn [clientView ok_json]. rewrite okBody_run. change (200 =? StatusOK) with true. cbv iota.
  rewrite unmarshal_line by done. cbn [mbind option_bind]. rewrite Hd.
  unfold say, after. cbn [tm_out tm_err tm_files tm_sent]. by rewrite append_empty_str.
Qed.

(** An error of the server ends the command with its message. *)
Lemma showAnswer_err {A} d c st opts segs (dec : json -> option A) show msg code t :
  answersAt d c st (no_url opts) -> segs ∈ cliPaths -> credentialsSendable opts ->
  (serve d c (askedOf opts segs) st).1 = writeJSONError msg code -> code <> 200 -> utf8 msg -> msg <> ""%string ->
  showAnswer o jsonErrText opts (joinPath segs) dec show t
  = (Err (text ["HTTP "; itoa code; ": "; msg]%string), after t "" [sentRequest opts (joinPath segs)]).
Proof.
  intros Hans Hin Hc Hs Hcode Hu Hm. unfold showAnswer. unfold bind at 1. rewrite (apiGet_run d c st), Hs by done.
  unfold bind at 1, wrap_err, lift. cbn [clientView writeJSONError]. rewrite okBody_run.
  rewrite (proj2 (Z.eqb_neq code StatusOK)) by done. by rewrite statusError_json.
Qed.

(** A dead letter as the tool shows it. *)
Definition letterOf (i : nat) (e : DLQEntry) : DeadLetter := {|
  de_Index := Z.of_nat i; de_PeerAddr := dl_PeerAddr e; de_Attempts := dl_Attempts e;
  de_LastError := match dl_LastErr e with Some err => errText err | None => ""%string end;
  de_FirstSeenUnix := dl_FirstSeenUnix e; de_EnvelopeID := env_IdempotencyKey (dl_Envelope e);
  de_SenderRegion := env_SenderRegion (dl_Envelope e); de_RecipientRegion := env_RecipientRegion (dl_Envelope e) |}.

(** An entry as Go can hold it, with valid UTF-8 in its strings. *)
Record letter_ok (e : DLQEntry) : Prop := {
  lo_strings : Forall utf8 [dl_PeerAddr e; env_IdempotencyKey (dl_Envelope e); env_SenderRegion (dl_Envelope e);
    env_RecipientRegion (dl_Envelope e); dl_Reason e; match dl_LastErr e with Some err => errText err | None => ""%string end];
  lo_attempts : in_i64 (dl_Attempts e); lo_first : in_i64 (dl_FirstSeenUnix e);
  lo_last : in_i64 (dl_LastAttemptUnix e); lo_next : in_i64 (dl_NextOpenUnix e) }.

Lemma as_deadLetter_DTO i e :
  letter_ok e -> in_i64 (Z.of_nat i) -> as_deadLetter (dlqDTO errText i e) = Some (letterOf i e).
Proof.
  intros [_ Ha Hf Hl Hn] Hi. unfold as_deadLetter, dlqDTO. cbv zeta. eapply bind_some; [reflexivity|].
  repeat read_struct_field. reflexivity.
Qed.

Lemma dlqDTO_wf i e : letter_ok e -> in_i64 (Z.of_nat i) -> json_wf (dlqDTO errText i e).
Proof.
  intros [Hs Ha Hf Hl Hn] Hi. unfold in_i64 in *. repeat (apply Forall_cons in Hs as [? Hs]).
  apply struct_wf. repeat (constructor; [intros _; cbn [fst snd]; split; [by apply plain_utf8|cbn; first [done|lia]]|]).
  constructor.
Qed.

(** [mrmi node dlq] shows the dead-letter queue: one row per entry, in the order of
    the queue, numbered with the index that the endpoints for replaying and discarding
    expect, and with the error the entry was kept for; it changes nothing. *)
Theorem dlq_table_exact d c st q opts t :
  answersAt d c st (no_url opts) -> credentialsSendable opts -> dlqOf st = Some q ->
  Forall letter_ok (dlq_entries q) -> in_i64 (Z.of_nat (length (dlq_entries q))) ->
  nodeDLQ o jsonErrText opts t
  = (Ok (), after t (table (["INDEX"; "ENVELOPE_ID"; "PEER_ADDR"; "ATTEMPTS"; "FIRST_SEEN"; "LAST_ERR"]%string
                            :: imap (fun i e => deadLetterRow (letterOf i e)) (dlq_entries q)))
                    [sentRequest opts "/api/v1/dlq"])
  /\ (serve d c (askedOf opts (v1path ["dlq"%string])) st).2 = st.
Proof.
  intros Hans Hc Hq Hok Hlen.
  assert (serve d c (askedOf opts (v1path ["dlq"%string])) st
          = (ok_json (JArr (imap (dlqDTO errText) (dlq_entries q))), st)) as Hs.
  { unfold askedOf, ServeHTTP, isOptions. rewrite sentRequest_parts. cbn [delivered hr_Method hr_Path cq_Method].
    change (str_eqb "GET" "OPTIONS") with false. cbv iota. change (route _ _) with (Found EpGetDLQ). cbn [guardOf handle].
    unfold getDLQ. by rewrite Hq. }
  split; [|by rewrite Hs]. unfold nodeDLQ. change "/api/v1/dlq"%string with (joinPath (v1path ["dlq"%string])).
  assert (forall i e, dlq_entries q !! i = Some e -> letter_ok e /\ in_i64 (Z.of_nat i)) as Hall.
  { intros i e He. split; [by eapply Forall_lookup_1|]. apply lookup_lt_Some in He. unfold in_i64 in *. lia. }
  etransitivity; [apply (showAnswer_ok d c st _ _ _ _ (JArr (imap (dlqDTO errText) (dlq_entries q)))
    (imap letterOf (dlq_entries q)))|].
  - done.
  - unfold cliPaths. rewrite !elem_of_cons. tauto.
  - done.
  - by rewrite Hs.
  - cbn [json_wf]. apply foldr_wf, Forall_lookup. intros i v. rewrite list_lookup_imap. intros (e & He & ->)%fmap_Some_1.
    destruct (Hall i e He). by apply dlqDTO_wf.
  - cbn [as_slice]. clear Hs Hlen Hok Hq. revert Hall. generalize (dlq_entries q). intros es.
    assert (forall k, (forall i e, es !! i = Some e -> letter_ok e /\ in_i64 (Z.of_nat (k + i))) ->
      as_elems as_deadLetter (imap (fun i => dlqDTO errText (k + i)) es) = Some (imap (fun i => letterOf (k + i)) es)) as Hel.
    { induction es as [|e es IH]; intros k Hall; [done|]. cbn [imap as_elems]. destruct (Hall 0%nat e eq_refl).
      rewrite as_deadLetter_DTO by done. unfold compose.
      rewrite (imap_ext _ (fun i => dlqDTO errText (S k + i))) by (intros; by rewrite Nat.add_succ_r).
      rewrite (imap_ext (fun n => letterOf _) (fun i => letterOf (S k + i))) by (intros; by rewrite Nat.add_succ_r).
      rewrite IH; [done|]. intros i e' He. specialize (Hall (S i) e' He). by rewrite Nat.add_succ_r in Hall. }
    intros Hall. apply (Hel 0%nat). exact Hall.
  - cbv beta. by rewrite fmap_imap.
Qed.

(** *** Status, peers and applications *)

Definition shownStatus d c : StatusAnswer :=
  let cfg := dp_cfg d in {|
  sa_NodeID := nc_NodeID (cfg_Node cfg); sa_Region := nc_Region (cfg_Node cfg); sa_NodeScope := nc_NodeScope (cfg_Node cfg);
  sa_Profile := pf_Name (cfg_Profile cfg); sa_ApplicableLaw := nc_ApplicableLaw (cfg_Node cfg); sa_AppVersion := App;
  sa_ADRVersion := ADR; sa_UptimeSecs := wholeSeconds (he_clock c 0 - dp_startTime d) |}.

(** [mrmi node status] shows the identity of the node, whoever asks. *)
Theorem status_shown d c st opts t :
  answersAt d c st (no_url opts) -> credentialsSendable opts ->
  Forall utf8 [nc_NodeID (cfg_Node (dp_cfg d)); nc_Region (cfg_Node (dp_cfg d)); nc_NodeScope (cfg_Node (dp_cfg d));
    pf_Name (cfg_Profile (dp_cfg d)); nc_ApplicableLaw (cfg_Node (dp_cfg d))] ->
  in_i64 (wholeSeconds (he_clock c 0 - dp_startTime d)) ->
  nodeStatus o jsonErrText opts t
  = (Ok (), after t (table (statusRows (shownStatus d c))) [sentRequest opts "/api/v1/status"]).
Proof.
  intros Hans Hc Hs Hup. unfold nodeStatus. change "/api/v1/status"%string with (joinPath (v1path ["status"%string])).
  repeat (apply Forall_cons in Hs as [? Hs]). eapply (showAnswer_ok d c st).
  - done.
  - unfold cliPaths. rewrite !elem_of_cons. tauto.
  - done.
  - unfold askedOf, ServeHTTP, isOptions. rewrite sentRequest_parts. cbn [delivered hr_Method hr_Path cq_Method].
    change (str_eqb "GET" "OPTIONS") with false. cbv iota. change (route _ _) with (Found EpStatus). reflexivity.
  - unfold in_i64 in Hup. cbn [json_wf foldr fst snd]. split_and!; try done; try lia; by apply plain_utf8.
  - unfold as_status. cbv zeta. eapply bind_some; [reflexivity|]. repeat plain_members. repeat read_struct_field. reflexivity.
Qed.

(** A guarded endpoint refuses a caller without credentials, and the tool says so. *)
Theorem guarded_table_refused d c st opts t :
  answersAt d c st (no_url opts) -> credentialsSendable opts ->
  authorised d c "read" (askedOf opts (v1path ["peers"%string])) = false ->
  nodePeers o jsonErrText opts t
  = (Err "HTTP 401: unauthorized"%string, after t "" [sentRequest opts "/api/v1/peers"]).
Proof.
  intros Hans Hc Ha. unfold nodePeers. change "/api/v1/peers"%string with (joinPath (v1path ["peers"%string])).
  apply (showAnswer_err d c st _ _ _ _ "unauthorized" 401).
  - done.
  - unfold cliPaths. rewrite !elem_of_cons. tauto.
  - done.
  - unfold ServeHTTP, isOptions. assert (hr_Method (askedOf opts (v1path ["peers"%string])) = "GET"%string
      /\ hr_Path (askedOf opts (v1path ["peers"%string])) = v1path ["peers"%string]) as [Hm Hp].
    { unfold askedOf. by rewrite sentRequest_parts. }
    rewrite Hm, Hp. change (str_eqb "GET" "OPTIONS") with false. cbv iota. change (route _ _) with (Found EpListPeers).
    cbn [guardOf]. unfold auth, isOptions. rewrite Hm, Ha. reflexivity.
  - done.
  - by apply plain_utf8.
  - done.
Qed.

(** ** The record of the DNS publisher *)

(** [mrmi audit verify --dns] shows what the node publishes.  The line that the
    publisher writes is read back as the root hash and the moment it was written,
    where the names of the node and of its law have no blanks. *)
Theorem dns_record_shown p now root nodeID t :
  nodeID <> ""%string -> word root = true -> word (pb_nodeID p) = true -> word (pb_applicableLaw p) = true ->
  - 10 ^ 20 < Unix now < 10 ^ 20 ->
  o_lookupTXT o (text ["_mrmi-audit."; nodeID]%string) = Ok [txtRecord p now root] ->
  let dnsName := text ["_mrmi-audit."; nodeID]%string in
  verifyDNS o nodeID t
  = (Ok (), after t (append (text ["PASS  "; dnsName; newline; "      root: "; root; newline]%string)
                            (text ["      ts:   "; itoa (Unix now); newline]%string)) []).
Proof.
  intros Hn Hr Hnode Hlaw Hts Ho dnsName.
  assert (Fields (txtRecord p now root)
          = ["v=1"%string; append "ts=" (itoa (Unix now)); append "root=" root; append "node=" (pb_nodeID p);
             append "law=" (pb_applicableLaw p)]) as Hf.
  { unfold txtRecord.
    change (append "v=1 ts=") with (fun s => append "v=1" (String " " (append "ts=" s))). cbv beta.
    rewrite (fields_blank "v=1") by done. f_equal.
    change (append " root=") with (fun s => String " " (append "root=" s)). cbv beta.
    rewrite (append_assoc_str "ts="), fields_blank by (done || (rewrite word_append, itoa_word by done; done)). f_equal.
    change (append " node=") with (fun s => String " " (append "node=" s)). cbv beta.
    rewrite (append_assoc_str "root="), fields_blank by (done || (rewrite word_append, Hr; done)). f_equal.
    change (append " law=") with (fun s => String " " (append "law=" s)). cbv beta.
    rewrite (append_assoc_str "node="), fields_blank by (done || (rewrite word_append, Hnode; done)). f_equal.
    rewrite (append_assoc_str "law="), fields_blank by (done || (rewrite word_append, Hlaw; done)). done. }
  assert (firstRoot [txtRecord p now root] = Some (root, Some (itoa (Unix now)))) as Hfirst.
  { unfold firstRoot, txtRoot. change (HasPrefix (txtRecord p now root) "v=1 ") with true. cbn [negb].
    unfold parseTXTFields. rewrite Hf. cbn [foldl]. cbn [cut]. reflexivity. }
  unfold verifyDNS. rewrite (proj2 (str_eqb_neq _ _) Hn). fold dnsName. cbv zeta. unfold bind at 1, try, lookupTXT, lift.
  fold dnsName in Ho. rewrite Ho, Hfirst. unfold bind, say, after. cbn [tm_out tm_err tm_files tm_sent].
  by rewrite app_nil_r, (append_assoc_str (tm_out t)).
Qed.

(** ** Tokens *)

Definition tokenRequest (fs : FlagSet) : ClientRequest :=
  withHeader "X-MRMI-Key" (stringFlag fs "api-key") (withHeader "Content-Type" "application/json"
    {| cq_Method := "POST"; cq_URL := append (stringFlag fs "url") "/api/v1/token"; cq_Header := [];
       cq_Body := render (tokenRequestBody (stringFlag fs "scope") (ttlMinutes (durationFlag fs "ttl"))) |}).

Lemma int64_of_float_range f : in_i64 (int64_of_float (fun _ => 0) f).
Proof.
  unfold in_i64, int64_of_float. destruct f as [s| | |s m e]; try lia. cbv zeta.
  match goal with |- context [if ?b then _ else _] => destruct b eqn:E end; go_bool; lia.
Qed.

Lemma ttlMinutes_range ttl : 1 <= ttlMinutes ttl < 2 ^ 63.
Proof.
  unfold ttlMinutes. pose proof (int64_of_float_range
    (SFadd 53 1024 (float64_of_int (Z.quot ttl Minute)) (SFdiv 53 1024 (float64_of_int (Z.rem ttl Minute)) (float64_of_int Minute)))) as Hr.
  fold (intUnits ttl Minute) in Hr. unfold in_i64 in Hr. cbv zeta. destruct (intUnits ttl Minute <=? 0) eqn:E; go_bool; lia.
Qed.

(** The minutes a token asked for with [--ttl] lives. *)
Definition grantedMinutes (ttl : Z) : Z := if 1440 <? ttlMinutes ttl then 60 else ttlMinutes ttl.

Lemma postedToken_cli fs segs :
  utf8 (stringFlag fs "scope") ->
  postedToken (delivered (tokenRequest fs) segs) = Some (stringFlag fs "scope", ttlMinutes (durationFlag fs "ttl")).
Proof.
  intros Hu. pose proof (ttlMinutes_range (durationFlag fs "ttl")) as Ht.
  unfold postedToken, bodyMembers. cbn [delivered tokenRequest withHeader hr_Body cq_Body].
  rewrite decodeFirst_render by (cbn [json_wf tokenRequestBody foldr fst snd]; split_and!; try done; try lia; by apply plain_utf8).
  eapply bind_some; [reflexivity|]. repeat plain_members. repeat read_struct_field. reflexivity.
Qed.

Lemma as_token_reply exp scope signed :
  in_i64 exp ->
  as_token (JObj [("expires_at"%string, JInt exp); ("scope"%string, JStr scope); ("token"%string, JStr signed)])
  = Some (signed, scope, exp).
Proof.
  intros He. unfold as_token. cbv zeta. eapply bind_some; [reflexivity|]. repeat plain_members.
  repeat read_struct_field. reflexivity.
Qed.

(** The server keeps the minutes the tool asks for, where they are granted. *)
Lemma granted_duration ttl :
  mul_duration (tokenMinutes (ttlMinutes ttl)) Minute = grantedMinutes ttl * Minute /\ 1 <= grantedMinutes ttl <= 1440.
Proof.
  pose proof (ttlMinutes_range ttl) as Ht. unfold tokenMinutes, grantedMinutes. rewrite (proj2 (Z.leb_gt _ _)) by lia. cbn [orb].
  destruct (1440 <? _) eqn:E; go_bool; (split; [|lia]); unfold mul_duration; apply wrap_i64_id;
    unfold in_i64, Minute, Second, Millisecond; lia.
Qed.

Lemma granted_expiry now minutes :
  0 <= now -> in_i64 (now + 24 * Hour) -> 1 <= minutes <= 1440 -> in_i64 (Unix (now + minutes * Minute)).
Proof.
  intros Hpos Hclock Hm. unfold in_i64, Unix in *.
  assert (0 <= (now + minutes * Minute) / Second) by (apply Z.div_pos; unfold Minute, Second, Millisecond; lia).
  assert ((now + minutes * Minute) / Second < 2 ^ 63); [|lia].
  apply Z.div_lt_upper_bound; unfold Hour, Minute, Second, Millisecond in *; lia.
Qed.

(** What [mrmi token issue] gives its user.  When it succeeds it has sent one request
    and prints a token of the scope asked for and the moment it expires: the minutes
    of [--ttl] after the node's clock if these are between one and 1440, and otherwise
    one hour.  Until then the token alone opens the endpoints of its scope. *)
Theorem cli_token_lifetime d c st args fs rest t t' :
  answersAt d c st (stringFlag fs "url") -> parseFlags tokenFlags args = Ok (fs, rest) ->
  sendable (stringFlag fs "api-key") = true -> in_i64 (he_clock c 0 + 24 * Hour) -> 0 <= he_clock c 0 ->
  (forall claims key s, jwt_SignedString claims key = Some s -> plain s = true) ->
  tokenIssue o jsonErrText args t = (Ok (), t') ->
  exists exp signed,
    t' = after t (showToken (signed, stringFlag fs "scope", exp)) [tokenRequest fs]
    /\ exp = Unix (he_clock c 0 + grantedMinutes (durationFlag fs "ttl") * Minute)
    /\ forall c' r' sc, bears signed r' -> he_authClock c' < exp * Second ->
         authorised d c' sc r' = (if str_eqb sc "operator" then str_eqb (stringFlag fs "scope") "operator" else true).
Proof.
  intros [_ Hans] Hargs Hkey Hclock Hpos Hplain. unfold tokenIssue. unfold bind at 1, parseArgs. rewrite Hargs.
  unfold ret at 1. cbv zeta. destruct (str_eqb (stringFlag fs "url") "") eqn:Eu; [done|].
  destruct (str_eqb (stringFlag fs "api-key") "") eqn:Ek; [done|].
  destruct (_ && _) eqn:Es; [done|].
  assert (stringFlag fs "scope" ∈ ["read"; "operator"]%string) as Hscope.
  { rewrite !elem_of_cons. rewrite andb_false_iff, !negb_false_iff in Es. rewrite !str_eqb_eq in Es. tauto. }
  assert (utf8 (stringFlag fs "scope")) as Hu.
  { rewrite !elem_of_cons in Hscope. destruct Hscope as [->|[->|[]%not_elem_of_nil]]; by apply plain_utf8. }
  destruct (Hans "POST"%string (v1path ["token"%string]) (cq_Header (tokenRequest fs)) (cq_Body (tokenRequest fs))) as [Hurl Hhttp];
    [unfold cliPaths; rewrite !elem_of_cons; tauto|cbn [tokenRequest withHeader cq_Header forallb snd]; by rewrite Hkey|].
  change (joinPath (v1path ["token"%string])) with "/api/v1/token"%string in *. cbv zeta in Hhttp.
  change {| cq_Method := "POST"; cq_URL := append (stringFlag fs "url") "/api/v1/token"; cq_Header := cq_Header (tokenRequest fs);
            cq_Body := cq_Body (tokenRequest fs) |} with (tokenRequest fs) in Hhttp.
  unfold newRequest. rewrite Hurl. unfold bind at 1, wrap_err at 1, ret at 1. unfold bind at 1, wrap_err at 1, doRequest at 1.
  fold (tokenRequest fs). rewrite Hhttp.
  set (r := delivered (tokenRequest fs) (v1path ["token"%string])).
  rewrite (serve_token errText jsonErrText d c r st) by done.
  destruct (issueToken d c r st) as [reply st'] eqn:Ei. destruct (issueToken_ok d c r st reply st' Ei) as (-> & Hcase).
  cbn [fst]. destruct Hcase as [(msg & code & Hc & ->)|(scope & ttl & signed & Hp & _ & Hj & Hsig & ->)].
  { cbn [clientView writeJSONError]. unfold bind at 1. rewrite okBody_run, (proj2 (Z.eqb_neq code StatusOK)) by done. done. }
  unfold r in Hp. rewrite postedToken_cli in Hp by done. injection Hp as <- <-.
  assert (tokenScope (stringFlag fs "scope") = stringFlag fs "scope") as Hts by (unfold tokenScope; by rewrite Es).
  destruct (granted_duration (durationFlag fs "ttl")) as [Hg Hgr]. rewrite Hg, Hts in Hsig |- *.
  pose proof (granted_expiry _ _ Hpos Hclock Hgr) as Hexp.
  set (exp := Unix (he_clock c 0 + grantedMinutes (durationFlag fs "ttl") * Minute)) in *.
  cbn [clientView tokenReply ok_json]. unfold bind at 1. rewrite okBody_run. change (200 =? StatusOK) with true. cbv iota.
  rewrite unmarshal_line.
  2: { unfold in_i64 in Hexp. cbn [json_wf foldr fst snd]. split_and!; try done; try lia; try (by apply plain_utf8).
       apply plain_utf8. by eapply Hplain. }
  cbn [mbind option_bind]. rewrite as_token_reply by done. intros [= <-].
  exists exp, signed. split_and!; [done|done|]. intros c' r' sc Hb Hlt.
  by eapply signed_token_opens.
Qed.

(** [--ttl] is bounded silently: more than a day and less than a minute both mean an
    hour. *)
Theorem ttl_out_of_range : grantedMinutes <$> [48 * Hour; 24 * Hour; 30 * Second] = [60; 1440; 60].
Proof. vm_compute. reflexivity. Qed.

End Composition.
