(* ===== verification/HttpDemo.v ===== *)
(** * A server at work

    An instance of the JWT interface and a node with the management API; the
    properties of [HttpSafety] and [HttpFlows] at concrete requests. *)

From S2P Require Import Prelude GoStrings GoCrypto Utf8 Json JsonFields Config ConfigJson Schema Crl Store AuditLog Policy Core Dedup Transit Delivery Gateway Identity Adapter PeerDiscovery Registry Metrics Inbox Webhook Callbacks HttpStores HttpAuth Http HttpAdmin HttpServer HttpSafety HttpFlows.

(** ** Tokens for the claims the server signs *)

Definition ToyClaims : Type := string * Z * Z * string.

#[export] Instance ToyClaims_eq_dec : EqDecision ToyClaims := _.
#[export] Instance ToyClaims_countable : Countable ToyClaims := _.

Definition toy_claims (claims : list (string * json)) : option ToyClaims :=
  match claims with
  | [(n1, JStr scope); (n2, JInt exp); (n3, JInt iat); (n4, JStr jti)] =>
      if str_eqb n1 "scope" && (str_eqb n2 "exp" && (str_eqb n3 "iat" && str_eqb n4 "jti"))
      then Some (scope, exp, iat, jti) else None
  | _ => None
  end.

Definition of_toy (t : ToyClaims) : list (string * json) :=
  let '(scope, exp, iat, jti) := t in
  [("scope"%string, JStr scope); ("exp"%string, JInt exp); ("iat"%string, JInt iat); ("jti"%string, JStr jti)].

Lemma toy_claims_of claims t : toy_claims claims = Some t -> claims = of_toy t.
Proof.
  unfold toy_claims. repeat (case_match; try done). intros [= <-]. go_bool. destruct_and!. by subst.
Qed.

Fixpoint bits (p : positive) : string :=
  match p with xH => "" | xO p => String "0" (bits p) | xI p => String "1" (bits p) end.

Fixpoint unbits (s : string) : positive :=
  match s with
  | EmptyString => xH
  | String a s' => if Ascii.eqb a "1" then xI (unbits s') else xO (unbits s')
  end.

Lemma unbits_bits p : unbits (bits p) = p.
Proof. induction p as [p IH|p IH|]; cbn; [by rewrite IH|by rewrite IH|done]. Qed.

Definition toy_mac (key body : string) : string := hex_encode (Sum256 (append key body)).

Definition toy_body (s : string) : string := String.substring 64 (String.length s - 64) s.

Definition toy_verifies (key s : string) : bool := str_eqb s (append (toy_mac key (toy_body s)) (toy_body s)).

Definition toy_sign (claims : list (string * json)) (key : string) : option string :=
  (fun t : ToyClaims => let body := bits (countable.encode t) in append (toy_mac key body) body) <$> toy_claims claims.

Definition toy_parse (kf : bool -> option string) (now : Z) (s : string) : option JwtToken :=
  key ← kf true;
  if toy_verifies key s then
    t ← (countable.decode (unbits (toy_body s)) : option ToyClaims);
    if now <? t.1.1.2 * Second then Some {| jt_Valid := true; jt_Claims := Some (of_toy t) |} else None
  else None.

Lemma toy_body_sign key body : toy_body (append (toy_mac key body) body) = body.
Proof.
  unfold toy_body. assert (String.length (toy_mac key body) = 64%nat) as Hl by (unfold toy_mac; by rewrite length_hex_encode, length_Sum256).
  rewrite <- Hl. apply substring_append.
Qed.

#[export] Instance toy_jwt : Jwt.
Proof.
  refine {| jwt_Parse := toy_parse; jwt_SignedString := toy_sign; jwt_verifies := toy_verifies |}.
  - intros kf now s t. unfold toy_parse. destruct (kf true) as [key|] eqn:Ek; [|done]. cbn.
    destruct (toy_verifies key s) eqn:Ev; [|done]. intros _ _ _. by exists key.
  - intros kf now claims key s exp Hs Hk He _ _ Hnow. unfold toy_sign in Hs.
    destruct (toy_claims claims) as [t|] eqn:Et; [|done]. apply toy_claims_of in Et as ->. injection Hs as <-.
    unfold toy_parse. rewrite Hk. cbn [mbind option_bind]. unfold toy_verifies. rewrite toy_body_sign, str_eqb_refl, unbits_bits, decode_encode.
    cbn [mbind option_bind]. destruct t as [[[scope e] iat] jti]. cbn [fst snd of_toy] in *.
    assert (e = exp) as -> by (cbv in He; by injection He). by rewrite (proj2 (Z.ltb_lt _ _) Hnow).
Defined.

(** ** A node *)

Definition with_api (key secret : string) (c : Config) : Config :=
  {| cfg_Node := cfg_Node c; cfg_Profile := cfg_Profile c; cfg_Policy := cfg_Policy c; cfg_Network := cfg_Network c;
     cfg_TLS := cfg_TLS c; cfg_API := {| api_APIKey := key; api_JWTSecret := secret |}; cfg_Storage := cfg_Storage c;
     cfg_SchemaRegistry := cfg_SchemaRegistry c; cfg_Apps := cfg_Apps c |}.

Definition demo_deps (key secret : string) : Deps (H := toy_ed25519) :=
  let cfg := with_api key secret demo_cfg in
  {| dp_cfg := cfg; dp_startTime := 0; dp_Engine := true; dp_Audit := true; dp_PrivKey := Some "secret"%string;
     dp_Gateway := Some (wireCallbacks [] (NewGateway cfg true)); dp_CRL := true; dp_Inbox := true;
     dp_OnConfigReload := None; dp_OnConfigSave := None |}.

Definition demo_http_env (t : Z) : HttpEnv := {|
  he_authClock := t; he_clock := fun _ => t; he_call := demo_call t;
  he_uuid := fun i => append "id-" (itoa (Z.of_nat i)); he_peers := []; he_apps := []; he_users := [];
  he_crl := map_to_list; he_runtimeApps := map_to_list; he_adapters := map_to_list |}.

Definition demo_server : HttpState unit Z := {|
  hs_gw := demo_node_state demo_cfg; hs_peers := Some NewPeerCache; hs_registry := Some (NewRegistry demo_cfg);
  hs_runtimePeers := Some NewRuntimePeers; hs_apps := Some NewRuntimeApps; hs_adapters := Some NewRuntimeAdapters |}.

Definition no_headers : string -> string := fun _ => ""%string.
Definition with_key (k : string) : string -> string := fun n => if str_eqb n "X-MRMI-Key" then k else ""%string.

Definition demo_serve := ServeHTTP (H0 := toy_ed25519) (fun _ => ""%string) (fun _ => ""%string).
Definition demo_serveAll := serveAll (H0 := toy_ed25519) (fun _ => ""%string) (fun _ => ""%string).

(** A request to register a peer, with the given headers. *)
Definition peer_post (headers : string -> string) : HttpRequest :=
  request "POST" (v1path ["peers"; "register"]%string) headers (render (JObj [("addr"%string, JStr "ru:7777")])).

Definition status_of (r : Reply) : Z := match r with Response s _ => s | _ => 0 end.

(** With the key the peer is registered, without it or with another it is not. *)
Example demo_register :
  (fun h => let '(rep, st) := demo_serve (demo_deps "key" "s3cret") (demo_http_env 0) (peer_post h) demo_server in
            (status_of rep, length (default [] (rp_peers <$> hs_runtimePeers st))))
    <$> [with_key "key"; no_headers; with_key "guess"]
  = [(200, 1%nat); (401, 0%nat); (401, 0%nat)].
Proof. vm_compute. reflexivity. Qed.

Lemma demo_outsider t r : hr_Header r = no_headers -> outsider (demo_deps "key" "s3cret") (demo_http_env t) r.
Proof.
  intros Hh. split; unfold presentsKey, presentsToken; rewrite Hh; [by intros [? _]|].
  intros (s & claims & Ha & _). discriminate Ha.
Qed.

Lemma outsiders_cannot_administer_witness :
  administered (demo_serveAll (demo_deps "key" "s3cret") [(demo_http_env 0, peer_post no_headers)] demo_server)
  = administered demo_server.
Proof.
  refine (proj1 (outsiders_cannot_administer _ _ (demo_deps "key" "s3cret") _ demo_server _ _)).
  - discriminate.
  - apply Forall_cons; split; [by apply demo_outsider|apply Forall_nil_2].
Defined.

Lemma serve_wf_witness :
  http_wf (demo_serveAll (demo_deps "key" "s3cret") [(demo_http_env 0, peer_post (with_key "key"))] demo_server).
Proof.
  apply serve_wf. split.
  - intros ra [= <-]. apply map_Forall_empty.
  - intros ra [= <-]. apply map_Forall_empty.
  - intros rp [= <-]. constructor.
  - apply crl_wf_New.
Defined.

Lemma outsiders_can_revoke_witness :
  let st' := demo_serveAll (demo_deps "key" "s3cret")
    [(demo_http_env 0, crlPost no_headers "ru-node-01" "" "a"); (demo_http_env 0, crlPost no_headers "ru-node-01" "" "b")]
    demo_server in
  let req := {| rq_SenderNodeID := "ru-node-01"; rq_SenderRegion := "RU"; rq_RecipientRegion := "RS"; rq_TrustTier := 3;
                rq_SchemaType := "messaging"; rq_SchemaVersion := "" |} in
  (Evaluate 0 (gs_policy (hs_gw st')) (gs_crl (hs_gw st')) req (NewLog (B := unit))).1
  = deny (en_cfg (gs_policy (hs_gw demo_server))) "NODE_REVOKED".
Proof.
  intros st' req. subst st'. unfold demo_serveAll.
  apply outsiders_can_revoke; try discriminate; try reflexivity; try (by apply plain_utf8); apply crl_wf_New.
Defined.

(** The token request of a caller with the key. *)
Definition token_post (headers : string -> string) (scope : string) : HttpRequest :=
  request "POST" (v1path ["token"%string]) headers (render (JObj [("scope"%string, JStr scope); ("ttl_minutes"%string, JInt 5)])).

Definition demo_token (scope : string) : string :=
  default ""%string (toy_sign (tokenClaims scope (5 * Minute) 0 "id-0") "s3cret").

Definition demo_token_reply (scope : string) : json := JObj [("expires_at"%string, JInt 300); ("scope"%string, JStr scope); ("token"%string, JStr (demo_token scope))].

Lemma issued_token_opens_witness :
  demo_server = demo_server
  /\ presentsKey "key" (token_post (with_key "key") "read").
Proof.
  destruct (issued_token_opens (fun _ => ""%string) (fun _ => ""%string) (demo_deps "key" "s3cret") (demo_http_env 0)
    (token_post (with_key "key") "read") demo_server (demo_token_reply "read") demo_server) as (H1 & H2 & _).
  - split; reflexivity.
  - vm_compute. reflexivity.
  - split; [exact H1|]. apply H2. discriminate.
Defined.

(** A token for reading lists the peers and does not register applications. *)
Definition bearer_request (method : string) (path : list string) (token : string) : HttpRequest :=
  request method path (fun n => if str_eqb n "Authorization" then append bearer token else ""%string) "{}".

Example demo_token_scopes :
  (fun x : string * Z * (string * list string) =>
     let '(scope, t, (m, p)) := x in
     status_of (demo_serve (demo_deps "key" "s3cret") (demo_http_env t) (bearer_request m (v1path p) (demo_token scope)) demo_server).1)
  <$> [("read", 0, ("GET", ["peers"])); ("read", 0, ("POST", ["apps"; "register"]));
       ("operator", 0, ("POST", ["apps"; "register"])); ("operator", 301 * Second, ("GET", ["peers"]))]%string
  = [200; 401; 400; 401].
Proof. vm_compute. reflexivity. Qed.

Lemma keyless_node_is_open_witness :
  authorised (demo_deps "" "s3cret") (demo_http_env 0) "operator" (peer_post (with_key "guess")) = true.
Proof.
  refine (proj1 (keyless_node_is_open (fun _ => ""%string) (fun _ => ""%string) (demo_deps "" "s3cret") (demo_http_env 0)
    no_headers demo_server _ _ _) (peer_post (with_key "guess")) "operator"%string _);
    [reflexivity|discriminate|intros; by eexists|discriminate].
Defined.

Lemma published_root_verifies_witness :
  exists ms raw, ed_Verify (Ed25519 := toy_ed25519) "secret" (render (JObj ms)) raw = true
    /\ claim "root_hash" ms = Some (JStr (RootHash (gs_audit (hs_gw demo_server)))).
Proof.
  destruct (published_root_verifies (fun _ => ""%string) (fun _ => ""%string) (demo_deps "key" "s3cret") (demo_http_env 0)
    demo_server "secret"%string eq_refl eq_refl eq_refl) as (ms & raw & _ & Hroot & _ & Hv).
  exists ms, raw. split; [exact Hv|exact Hroot].
Defined.

Lemma audit_latest_newest_witness :
  exists n : nat, (1 <= n <= 200)%nat /\ (Atoi "999" = Some (Z.of_nat n) \/ n = 20%nat).
Proof.
  destruct (audit_latest_newest (fun _ => ""%string) (fun _ => ""%string) (demo_deps "key" "s3cret") (demo_http_env 0)
    no_headers (fun _ => "999"%string) demo_server eq_refl eq_refl) as (n & _ & Hn & Ha & _).
  exists n. split; [exact Hn|exact Ha].
Defined.

(** A network where nobody answers, and a node without a transit cache: an envelope
    that could not be delivered is in the dead-letter queue. *)
#[local] Instance down_forwarder : CoreForwarder (FwdState Z) :=
  delivery_forwarder (H := demo_runtime (fun _ => false)) utc_db demo_forwarder ltac:(by vm_compute).

Definition down_server : HttpState unit Z :=
  let g := demo_node_state demo_cfg in
  let g0 := setFwd {| fs_dlq := Some NewDLQ; fs_transit := None; fs_world := 0 |} g in
  setGw (SendEnvelope (wireCallbacks [] (NewGateway (with_api "key" "s3cret" demo_cfg) true)) (demo_call 0)
           (demo_req "k" "messaging") g0).2 demo_server.

Definition replay_post : HttpRequest := request "POST" (v1path ["dlq"; "0"; "replay"]%string) no_headers "".

(** It was accepted, dead-lettered, and is lost by the replay. *)
Example demo_replay :
  let '(rep, st) := ServeHTTP (H0 := toy_ed25519) (fun _ => ""%string) (fun _ => ""%string) (demo_deps "key" "s3cret")
                      (demo_http_env Hour) replay_post down_server in
  (Size <$> dlqOf down_server, Size <$> dlqOf st, rep)
  = (Some 1%nat, Some 0%nat, ok_json (JObj [("decision"%string, JStr "DUPLICATE");
       ("reason"%string, JStr "idempotency_key already processed")])).
Proof. vm_compute. reflexivity. Qed.

Lemma replay_in_window_loses_witness :
  exists e q,
    let '(reply, st') := ServeHTTP (H0 := toy_ed25519) (fun _ => ""%string) (fun _ => ""%string) (demo_deps "key" "s3cret")
                           (demo_http_env Hour) replay_post down_server in
    reply = ok_json (JObj [("decision"%string, JStr DecisionDuplicate);
                           ("reason"%string, JStr "idempotency_key already processed")])
    /\ dlqOf st' = Some {| dlq_entries := take 0 (dlq_entries q) ++ drop 1 (dlq_entries q) |}
    /\ fs_transit (gs_fwd (hs_gw st')) = fs_transit (gs_fwd (hs_gw down_server))
    /\ fs_world (gs_fwd (hs_gw st')) = fs_world (gs_fwd (hs_gw down_server))
    /\ dlq_entries q !! 0%nat = Some e.
Proof.
  destruct (dlqOf down_server) as [q|] eqn:Hq; [|vm_compute in Hq; discriminate Hq].
  destruct (dlq_entries q !! Z.to_nat 0) as [e|] eqn:He.
  2: { assert (Some q = dlqOf down_server) as Hq' by (by rewrite Hq). vm_compute in Hq'. injection Hq' as ->. vm_compute in He. discriminate He. }
  exists e, q.
  pose proof (replay_in_window_loses (fun _ => ""%string) (fun _ => ""%string) (demo_deps "key" "s3cret")
    (wireCallbacks [] (NewGateway (with_api "key" "s3cret" demo_cfg) true)) (demo_http_env Hour) replay_post "0" 0 q e
    down_server eq_refl eq_refl eq_refl Hq eq_refl He) as Hl.
  assert (Some q = dlqOf down_server) as Hq' by (by rewrite Hq). vm_compute in Hq'. injection Hq' as ->.
  vm_compute in He. injection He as <-.
  specialize (Hl ltac:(split; [discriminate|reflexivity]) ltac:(vm_compute; reflexivity)).
  destruct (ServeHTTP _ _ _ _ _ _) as [reply st']. destruct Hl as (H1 & H2 & H3 & H4).
  split; [exact H1|]. split; [exact H2|]. split; [exact H3|]. split; [exact H4|reflexivity].
Defined.
