(* ===== verification/CliDemo.v ===== *)
(** * The operator's tool at work

    An instance of the key formats, a node that answers at an address, and the
    properties of the command line at concrete arguments. *)

From S2P Require Import Prelude GoStrings GoCrypto Utf8 Json JsonFields Config ConfigJson Schema Crl Store AuditLog Policy Core Dedup Transit Delivery GoText GoFlag Gateway Background Identity Terminal Adapter PeerDiscovery Registry Metrics Inbox Webhook Callbacks HttpStores HttpAuth Http AuditFile CliAudit CliNode Cli HttpAdmin HttpServer HttpSafety HttpFlows CliServer HttpDemo.

(** ** Key files *)

Definition pemMarker : string := append "-----BEGIN PUBLIC KEY-----" newline.

(** What follows the first occurrence of a text. *)
Fixpoint afterMarker (m s : string) : option string :=
  if String.prefix m s then Some (HttpAuth.TrimPrefix s m)
  else match s with String _ s' => afterMarker m s' | EmptyString => None end.

Fixpoint untilDash (s : string) : string :=
  match s with
  | String a s' => if Ascii.eqb a "-" then ""%string else String a (untilDash s')
  | EmptyString => ""%string
  end.

Definition toy_pem (s : string) : option string := rest ← afterMarker pemMarker s; b64_decode (untilDash rest).

Definition derPrefix : string := pkixPublic "".

Definition toy_pkix (der : string) : outcome string (option string) :=
  if HasPrefix der derPrefix then Ok (Some (HttpAuth.TrimPrefix der derPrefix)) else Ok None.

Lemma b64_char_no_dash n : 0 <= n < 64 -> b64_char n <> "-"%char.
Proof.
  intros Hn. assert (negb (Ascii.eqb (b64_char n) "-") = true) as H.
  { revert n Hn. apply (forallb_below (fun n => negb (Ascii.eqb (b64_char n) "-")) 64). vm_compute. reflexivity. }
  apply negb_true_iff, Ascii.eqb_neq in H. done.
Qed.

Lemma b64_no_dash l : Forall (fun b => 0 <= b < 256) l -> Forall (fun a => a <> "-"%char) (list_ascii_of_string (b64_encode l)).
Proof.
  remember (length l) as n eqn:Hn. revert l Hn. induction n as [n IH] using lt_wf_ind. intros l -> Hl.
  destruct l as [|a [|b [|c l]]]; [constructor|..]; rewrite !Forall_cons in Hl; cbn [b64_encode list_ascii_of_string];
    repeat (apply Forall_cons; split; [first [done|apply b64_char_no_dash; Z.div_mod_to_equations; lia]|]); [constructor..|].
  apply (IH (length l)); [cbn; lia|done|tauto].
Qed.

(** Line ends do not matter to the decoder, and the text ends at a dash. *)
Lemma b64_lines_filter n s :
  base.filter (fun a => byteZ a <> 10 /\ byteZ a <> 13) (list_ascii_of_string (b64_lines n s))
  = base.filter (fun a => byteZ a <> 10 /\ byteZ a <> 13) (list_ascii_of_string s).
Proof.
  revert n. induction s as [|a s IH]; intros n; cbn [b64_lines].
  - by destruct (Nat.eqb n 64).
  - destruct n as [|n].
    + unfold newline. rewrite append_cons, append_nil_l. cbn [list_ascii_of_string].
      rewrite (filter_cons_False _ (chr 10)) by (rewrite byteZ_chr; lia).
      destruct (decide (byteZ a <> 10 /\ byteZ a <> 13)); [rewrite !filter_cons_True by done|rewrite !filter_cons_False by done]; by rewrite IH.
    + cbn [list_ascii_of_string].
      destruct (decide (byteZ a <> 10 /\ byteZ a <> 13)); [rewrite !filter_cons_True by done|rewrite !filter_cons_False by done]; by rewrite IH.
Qed.

Lemma untilDash_lines n s t :
  Forall (fun a => a <> "-"%char) (list_ascii_of_string s) ->
  untilDash (append (b64_lines n s) (String "-" t)) = b64_lines n s.
Proof.
  revert n. induction s as [|a s IH]; intros n Hs; cbn [b64_lines].
  - by destruct (Nat.eqb n 64).
  - cbn [list_ascii_of_string] in Hs. apply Forall_cons in Hs as [Ha Hs]. apply Ascii.eqb_neq in Ha.
    destruct n as [|n]; [unfold newline; rewrite append_cons, append_nil_l|]; rewrite !append_cons; cbn [untilDash];
      [change (Ascii.eqb (chr 10) "-") with false; cbv iota|]; rewrite Ha, IH by done; done.
Qed.

Lemma afterMarker_skip pre rest :
  StringsContains pre "-----BEGIN" = false ->
  afterMarker pemMarker (append pre (append newline (append pemMarker rest))) = Some rest.
Proof.
  assert (forall s, String.prefix pemMarker s = true -> String.prefix "-----BEGIN" s = true) as Hpre.
  { intros s Hs. destruct (prefix_split _ _ Hs) as [r ->]. unfold pemMarker.
    change "-----BEGIN PUBLIC KEY-----"%string with (append "-----BEGIN" " PUBLIC KEY-----"). rewrite <- !append_assoc_str.
    apply prefix_append. }
  assert (chr 10 ∉ list_ascii_of_string "-----BEGIN") as Hnl by (vm_compute; set_solver).
  induction pre as [|a pre IH]; intros Hc.
  - rewrite append_nil_l. unfold newline. rewrite append_cons, append_nil_l. cbn [afterMarker].
    change (String.prefix pemMarker (String (chr 10) (append pemMarker rest))) with false. cbv iota.
    destruct (append pemMarker rest) as [|b s] eqn:E; [done|]. rewrite <- E.
    assert (afterMarker pemMarker (append pemMarker rest) = if String.prefix pemMarker (append pemMarker rest)
      then Some (HttpAuth.TrimPrefix (append pemMarker rest) pemMarker)
      else match append pemMarker rest with String _ s' => afterMarker pemMarker s' | EmptyString => None end) as ->
      by (rewrite E; reflexivity).
    pose proof (prefix_append pemMarker rest) as Hp. unfold HasPrefix in Hp.
    by rewrite Hp, HttpAuth.TrimPrefix_append.
  - unfold StringsContains in *. cbn [Substring_at] in Hc. apply orb_false_iff in Hc as [Hp Hc]. rewrite append_cons.
    cbn [afterMarker]. destruct (String.prefix pemMarker _) eqn:E; [|by apply IH].
    apply Hpre in E. rewrite <- append_cons in E. unfold newline in E. rewrite (append_cons (chr 10)), append_nil_l in E.
    by rewrite prefix_over, Hp in E.
Qed.

#[export] Instance toy_keys : KeyFormat (H := toy_ed25519).
Proof.
  refine {| pem_Decode := toy_pem; x509_ParsePKIXPublicKey := toy_pkix;
            x509_MarshalPKCS8 := fun k => Ok (append "PKCS8" k) |}.
  - intros pre pub Hc. unfold toy_pem.
    assert (exists rest, pemPublic pub = append pemMarker (append (b64_lines 64 (b64_encode (bytes_of (pkixPublic pub)))) (String "-" rest))) as [rest ->].
    { unfold pemPublic, pemEncode, text. cbn [foldr]. eexists. unfold pemMarker. reflexivity. }
    rewrite afterMarker_skip by done. cbn [mbind option_bind]. rewrite untilDash_lines by apply b64_no_dash, bytes_of_range.
    unfold b64_decode. rewrite b64_lines_filter. apply b64_decode_encode.
  - intros pub _. unfold toy_pkix, derPrefix, pkixPublic. rewrite append_empty_str, prefix_append.
    by rewrite HttpAuth.TrimPrefix_append.
Defined.

(** ** A node behind an address *)

Definition demo_base : string := "http://node:8080".

Definition demo_env : HttpEnv := demo_http_env (90 * Second).

#[local] Notation demo_reply r st := (ServeHTTP (H0 := toy_ed25519) (fun _ => ""%string) (fun _ => ""%string)
  (demo_deps "key" "s3cret") demo_env r st).

Definition no_reply (r : Reply) : outcome string ClientResponse := Err "EOF"%string.

(** The path of the tool's requests that a URL names. *)
Definition dispatch (url : string) : option (list string) :=
  snd <$> list_find (fun segs => url = append demo_base (joinPath segs)) cliPaths.

Lemma dispatch_path segs : segs ∈ cliPaths -> dispatch (append demo_base (joinPath segs)) = Some segs.
Proof.
  assert (forallb (fun segs => bool_decide (dispatch (append demo_base (joinPath segs)) = Some segs)) cliPaths = true) as H
    by (vm_compute; reflexivity).
  intros Hin. rewrite forallb_forall in H. by apply list_elem_of_In, H, bool_decide_eq_true in Hin.
Qed.

(** The node in state [st] as the outside of a command; the DNS holds [txt]. *)
Definition demo_outside (txt : string) (st : HttpState unit Z) : Outside := {|
  o_parseURL := fun _ => None;
  o_http := fun r =>
    match dispatch (cq_URL r) with
    | Some segs => clientView no_reply (demo_reply (delivered r segs) st).1
    | None => Err "connection refused"%string
    end;
  o_lookupTXT := fun _ => Ok [txt];
  o_openError := fun path => append path ": no such file or directory";
  o_writeError := fun _ => None;
  o_umask := 0x12 |}.

Lemma demo_server_answers txt st :
  answersAt (H1 := toy_ed25519) (fun _ => ""%string) (fun _ => ""%string) (demo_outside txt st) no_reply
    (demo_deps "key" "s3cret") demo_env st demo_base.
Proof.
  split; [discriminate|]. intros method segs hs body Hin _. split; [reflexivity|]. cbv zeta. cbn [o_http demo_outside cq_URL].
  by rewrite dispatch_path.
Qed.

(** A terminal with the public key of the node in a file. *)
Definition demo_term : Term := {|
  tm_out := ""; tm_err := ""; tm_sent := [];
  tm_files := {["node.pub"%string := {| fl_mode := 0x1a4; fl_data := append newline (pemPublic "secret") |}]} |}.

Lemma demo_holdsKey : holdsKey (tm_files demo_term) "node.pub" (ed_Public (Ed25519 := toy_ed25519) "secret"%string).
Proof.
  eexists _, _. split; [reflexivity|]. split; [exact (pem_decode_public (KeyFormat := toy_keys) "" "secret" eq_refl)|].
  vm_compute. reflexivity.
Qed.

Lemma cli_confirms_published_root_witness :
  verifyHTTPS (demo_outside "" demo_server) (fun _ => ""%string) (fun _ => ""%string)
    (append demo_base "/.well-known/mrmi-audit") "node.pub" demo_term
  = (Ok (), after demo_term (append (showWellKnown (append demo_base "/.well-known/mrmi-audit")
       (publishedRoot (demo_deps "key" "s3cret") demo_env demo_server "secret"%string)) (text ["SIG   PASS"; newline]%string))
       [getRequest (append demo_base "/.well-known/mrmi-audit")]).
Proof.
  apply (cli_confirms_published_root (fun _ => ""%string) (fun _ => ""%string) (fun _ => ""%string) _ no_reply).
  - apply demo_server_answers.
  - discriminate.
  - reflexivity.
  - reflexivity.
  - reflexivity.
  - by apply plain_utf8.
  - by apply plain_utf8.
  - vm_compute. reflexivity.
  - vm_compute. split; congruence.
  - exact demo_holdsKey.
Defined.

(** The verdict is the one a computation gives, and it fails under another key. *)
Example demo_wrong_key :
  let t := {| tm_out := ""; tm_err := ""; tm_sent := [];
              tm_files := {["other.pub"%string := {| fl_mode := 0x1a4; fl_data := append newline (pemPublic "another") |}]} |} in
  (main (demo_outside "" demo_server) (fun _ => ""%string) (fun _ => ""%string) (Err ""%string)
    ["audit"; "verify"; "--https"; "--url=http://node:8080/.well-known/mrmi-audit"; "--pubkey"; "other.pub"]%string t).1 = 1
  /\ (main (demo_outside "" demo_server) (fun _ => ""%string) (fun _ => ""%string) (Err ""%string)
    ["audit"; "verify"; "--https"; "--url=http://node:8080/.well-known/mrmi-audit"; "--pubkey"; "node.pub"]%string demo_term).1 = 0.
Proof. vm_compute. done. Qed.

Lemma https_verdict_sound_witness :
  (exists t', verifyHTTPS (demo_outside "" demo_server) (fun _ => ""%string) (fun _ => ""%string)
     (append demo_base "/.well-known/mrmi-audit") "node.pub" demo_term = (Ok (), t'))
  /\ exists e t', verifyHTTPS (demo_outside "" demo_server) (fun _ => ""%string) (fun _ => ""%string)
     (append demo_base "/.well-known/mrmi-audit") "other.pub" demo_term = (Err e, t').
Proof.
  split.
  - eexists. refine (proj1 (https_verdict_sound (demo_outside "" demo_server) (fun _ => ""%string) (fun _ => ""%string)
      (append demo_base "/.well-known/mrmi-audit") "node.pub" demo_term ltac:(discriminate) ltac:(discriminate))
      (publishedRoot (demo_deps "key" "s3cret") demo_env demo_server "secret"%string) _).
    apply (published_vouched (fun _ => ""%string) (fun _ => ""%string) _ no_reply).
    + apply demo_server_answers.
    + reflexivity.
    + reflexivity.
    + reflexivity.
    + by apply plain_utf8.
    + by apply plain_utf8.
    + vm_compute. reflexivity.
    + vm_compute. split; congruence.
    + exact demo_holdsKey.
  - destruct (proj2 (https_verdict_sound (demo_outside "" demo_server) (fun _ => ""%string) (fun _ => ""%string)
      (append demo_base "/.well-known/mrmi-audit") "other.pub" demo_term ltac:(discriminate) ltac:(discriminate)))
      as (e & t' & He & _); [|by exists e, t'].
    intros (wk & _ & body & pub & _ & _ & (f & der & Hf & _) & _). vm_compute in Hf. discriminate Hf.
Defined.

(** ** Dead letters, tokens, keys *)

Lemma dlq_table_exact_witness :
  exists q e, dlqOf down_server = Some q /\ dlq_entries q = [e]
    /\ nodeDLQ (demo_outside "" down_server) (fun _ => ""%string) {| no_url := demo_base; no_token := ""; no_apiKey := "key" |} demo_term
       = (Ok (), after demo_term (table (["INDEX"; "ENVELOPE_ID"; "PEER_ADDR"; "ATTEMPTS"; "FIRST_SEEN"; "LAST_ERR"]%string
            :: [deadLetterRow (letterOf (fun _ => ""%string) 0 e)]))
            [sentRequest {| no_url := demo_base; no_token := ""; no_apiKey := "key" |} "/api/v1/dlq"]).
Proof.
  destruct (dlqOf down_server) as [[[|e [|]]]|] eqn:Hq; try (vm_compute in Hq; discriminate Hq).
  exists {| dlq_entries := [e] |}, e. split; [reflexivity|]. split; [reflexivity|].
  refine (proj1 (dlq_table_exact (fun _ => ""%string) (fun _ => ""%string) (demo_outside "" down_server) no_reply
    (demo_deps "key" "s3cret") demo_env down_server {| dlq_entries := [e] |} _ demo_term _ _ Hq _ _)).
  - apply demo_server_answers.
  - reflexivity.
  - constructor; [|constructor]. vm_compute in Hq. injection Hq as <-.
    split; [apply plain_utf8_all; vm_compute; reflexivity|vm_compute; split; congruence..].
  - vm_compute. split; congruence.
Defined.

Lemma toy_signed_plain claims key s : toy_sign claims key = Some s -> plain s = true.
Proof.
  unfold toy_sign. destruct (toy_claims claims) as [t|]; [|done]. intros [= <-]. rewrite plain_append.
  unfold toy_mac. rewrite hex_encode_plain. generalize (countable.encode t). intros p. cbn [andb].
  induction p as [p IH|p IH|]; cbn [bits plain]; [exact IH|exact IH|done].
Qed.

Definition token_args : list string :=
  ["--url"; demo_base; "--api-key"; "key"; "--scope"; "operator"; "--ttl"; "48h"]%string.

Definition token_flags : FlagSet := match parseFlags tokenFlags token_args with Ok (fs, _) => fs | Err _ => ∅ end.

(** Two days were asked for; the token lives for an hour. *)
Lemma cli_token_lifetime_witness :
  exists signed t', tokenIssue (demo_outside "" demo_server) (fun _ => ""%string) token_args demo_term = (Ok (), t')
    /\ t' = after demo_term (showToken (signed, "operator"%string, 90 + 3600)) [tokenRequest token_flags].
Proof.
  destruct (tokenIssue (demo_outside "" demo_server) (fun _ => ""%string) token_args demo_term) as [r t'] eqn:Et.
  assert (r = Ok ()) as -> by (change r with (r, t').1; rewrite <- Et; vm_compute; reflexivity).
  destruct (cli_token_lifetime (fun _ => ""%string) (fun _ => ""%string) (fun _ => ""%string) (demo_outside "" demo_server) no_reply
    (demo_deps "key" "s3cret") demo_env demo_server token_args token_flags [] demo_term t') as (exp & signed & Ht & He & _).
  - exact (demo_server_answers "" demo_server).
  - vm_compute. reflexivity.
  - vm_compute. reflexivity.
  - vm_compute. split; congruence.
  - vm_compute. congruence.
  - exact toy_signed_plain.
  - exact Et.
  - exists signed, t'. split; [reflexivity|]. rewrite Ht, He. vm_compute (Unix _). reflexivity.
Defined.

Lemma keygen_files_witness :
  exists t', cmdKeygen (demo_outside "" demo_server) (Ok "0123456789abcdef0123456789abcdef"%string)
    ["--output"; "node.key"]%string demo_term = (Ok (), t').
Proof.
  destruct (keygen_files (H0 := toy_ed25519) (demo_outside "" demo_server) "0123456789abcdef0123456789abcdef"%string
    "PKCS80123456789abcdef0123456789abcdef" "node.key" demo_term) as (t' & Ht & _);
    [reflexivity|reflexivity|discriminate|reflexivity|reflexivity|reflexivity|]. by exists t'.
Defined.

Definition demo_publisher : Publisher :=
  {| pb_nodeID := "rs-node-01"; pb_applicableLaw := "RS-GDPR"; pb_interval := Hour |}.

Lemma dns_record_shown_witness :
  (verifyDNS (demo_outside (txtRecord demo_publisher (90 * Second) "sha256:ab") demo_server) "rs-node-01" demo_term).1 = Ok ().
Proof.
  rewrite (dns_record_shown (demo_outside (txtRecord demo_publisher (90 * Second) "sha256:ab") demo_server)
    demo_publisher (90 * Second) "sha256:ab" "rs-node-01" demo_term);
    [reflexivity|discriminate|reflexivity|reflexivity|reflexivity|split; reflexivity|reflexivity].
Defined.

Lemma mrmi_discipline_witness :
  (main (demo_outside "" demo_server) (fun _ => ""%string) (fun _ => ""%string) (Err ""%string) ["node"; "status"]%string demo_term).1 = 1
  /\ tm_files (main (demo_outside "" demo_server) (fun _ => ""%string) (fun _ => ""%string) (Err ""%string)
       ["node"; "status"]%string demo_term).2 = tm_files demo_term.
Proof.
  destruct (main (demo_outside "" demo_server) (fun _ => ""%string) (fun _ => ""%string) (Err ""%string) ["node"; "status"]%string demo_term)
    as [code t'] eqn:E.
  split; [change code with (code, t').1; rewrite <- E; vm_compute; reflexivity|].
  apply mrmi_discipline in E as (_ & _ & Hf & _). apply Hf. discriminate.
Defined.

Lemma gateway_start_witness :
  exists cfg0, Load (fun _ => None) (fun _ => None) (fun _ => None) "" = Ok cfg0 /\ ValidConfig cfg0.
Proof.
  destruct (gateway_start (fun _ => None) (fun _ => None) (fun _ => None) ["-http-addr= "]%string
    (with_http_addr " " DefaultBalancedConfig) ""%string eq_refl) as (cfg0 & addr & Hl & Hv & _).
  exists cfg0. split; [exact Hl|exact Hv].
Defined.

(** That configuration is not valid: the policy engine refuses it, and the gateway
    does not start. *)
Example blank_address_invalid : ~ ValidConfig (with_http_addr " " DefaultBalancedConfig).
Proof. rewrite override_valid by (apply Validate_None; vm_compute; reflexivity). discriminate. Qed.
