(* ===== verification/App.v ===== *)
(** * A running node (package [internal/app], [app.go])

    The choices [Run] makes from the configuration, the callbacks it gives to the
    HTTP server, the watcher of the configuration file (package [internal/hotreload])
    and the bodies of the periodic goroutines; then the node as a whole, whose steps
    are requests, envelopes from peers and ticks of the goroutines. *)

From S2P Require Import Prelude GoStrings GoCrypto Utf8 Json JsonFields Config ConfigJson Schema Crl Store AuditLog Policy Core Dedup Transit Delivery Gateway Token Identity PeerDiscovery RateLimit Adapter Registry Metrics Inbox Webhook Callbacks HttpStores HttpAuth Http HttpAdmin HttpServer HttpSafety HttpFlows HttpDemo.

(** ** Choices *)

Inductive Backend := InMemory | Bbolt (dir : string) | Redis (url prefix : string).

Definition chooseStore (s : StorageConfig) : Backend :=
  if str_eqb (st_Backend s) "bbolt" then Bbolt (if str_eqb (st_Path s) "" then "/var/lib/mrmi" else st_Path s)
  else if str_eqb (st_Backend s) "redis" then
    Redis (st_RedisURL s) (if str_eqb (st_KeyPrefix s) "" then "mrmi:" else st_KeyPrefix s)
  else InMemory.

Definition shutdownTimeout (cfg : Config) : Z :=
  if 0 <? net_ShutdownTimeout (cfg_Network cfg) then net_ShutdownTimeout (cfg_Network cfg) else 5 * Second.

Definition gossipInterval (cfg : Config) : Z :=
  if net_PeerGossipInterval (cfg_Network cfg) <=? 0 then 120 * Second else net_PeerGossipInterval (cfg_Network cfg).

Definition transitCache (cfg : Config) : option Cache :=
  if 0 <? pf_TransitCacheTTL (cfg_Profile cfg) then Some (NewCache (pf_TransitCacheTTL (cfg_Profile cfg))) else None.

(** The addresses the discovery broadcaster is given. *)
Definition discoveryPeers (cfg : Config) : gmap string string := peer_Addr <$> net_Peers (cfg_Network cfg).

(** ** Configuration callbacks *)

Section Reload.
Context `{UnicodeTables} (stat : string -> option bool) (open_file : string -> option string).
Context (decode_toml : string -> option rawTOML).

Definition onReload (configPath : string) (e : Engine) : option ConfigError * Engine :=
  match Load stat open_file decode_toml configPath with
  | Err err => (Some err, e)
  | Ok newCfg => Reload newCfg e
  end.

Definition onConfigSave (newCfg : Config) (e : Engine) : option ConfigError * Engine :=
  match Validate newCfg with
  | Some err => (Some err, e)
  | None => Reload newCfg e
  end.

(** The watcher: the modification time it remembers, and the policy version the
    callback remembers. *)
Record WatchState := { wa_lastMod : Z; wa_lastVersion : string }.

(** The callback of [Watch]: whether it warned, and the engine. *)
Definition onChange (newCfg : Config) (ws : WatchState) (e : Engine) : bool * WatchState * Engine :=
  let warned := str_eqb (nc_PolicyVersion (cfg_Node newCfg)) (wa_lastVersion ws) in
  match Reload newCfg e with
  | (Some _, e') => (warned, ws, e')
  | (None, e') => (warned, {| wa_lastMod := wa_lastMod ws; wa_lastVersion := nc_PolicyVersion (cfg_Node newCfg) |}, e')
  end.

(** One tick of [Watch]; [mod_]: the modification time, if the file is there. *)
Definition watchTick (configPath : string) (mod_ : option Z) (ws : WatchState) (e : Engine) : WatchState * Engine :=
  match mod_ with
  | None => (ws, e)
  | Some m =>
      if wa_lastMod ws =? zeroTime then ({| wa_lastMod := m; wa_lastVersion := wa_lastVersion ws |}, e)
      else if m =? wa_lastMod ws then (ws, e) else
      let ws := {| wa_lastMod := m; wa_lastVersion := wa_lastVersion ws |} in
      match Load stat open_file decode_toml configPath with
      | Err _ => (ws, e)
      | Ok cfg => let '(_, ws', e') := onChange cfg ws e in (ws', e')
      end
  end.
End Reload.

(** ** Periodic work *)

(** The loop of [runTransitRetry]: [clk i] is the clock at the [i]-th append. *)
Fixpoint moveToDLQ (clk : nat -> Z) (es : list TransitEntry) (q : DLQ) : DLQ :=
  match es with
  | [] => q
  | e :: es' => moveToDLQ (fun i => clk (S i)) es' (DLQAppend (clk O) (mkDLQEntry (te_Env e) (te_PeerAddr e)) q)
  end.

Definition transitTick {X} (now : Z) (clk : nat -> Z) (order : list (string * TransitEntry)) (f : FwdState X) : FwdState X :=
  match fs_transit f with
  | None => f
  | Some tc =>
      let (es, tc') := Drain now order tc in
      {| fs_dlq := moveToDLQ clk es <$> fs_dlq f; fs_transit := Some tc'; fs_world := fs_world f |}
  end.

(** [runPurge] and [runTokenPurge] call [Purge] and [PurgeTokens]. *)
Definition purgeTick {B F W} (now : Z) (g : GwState B F W) : GwState B F W :=
  {| gs_policy := gs_policy g; gs_crl := gs_crl g; gs_audit := gs_audit g; gs_dedup := Purge now (gs_dedup g);
     gs_fwd := gs_fwd g; gs_world := gs_world g |}.

(** *** Peer gossip *)

(** Static peers are announced under their region. *)
Definition seedEntry (p : PeerConfig) : PeerEntry :=
  {| pe_NodeID := peer_Region p; pe_Addr := peer_Addr p; pe_NodeScope := peer_NodeScope p; pe_Region := peer_Region p;
     pe_LastSeen := Unix zeroTime |}.

Definition seedPeers (clk : nat -> Z) (visit : list (string * PeerConfig)) (r : PeerRegistry) : PeerRegistry :=
  announceAll clk (seedEntry <$> visit.*2) r.

Section Gossip.
Context {N : Type}.
(** Dialing a peer and [client.ExchangePeers]: the peers it answers, or nothing on an error. *)
Context (exchange : string -> PeerListRequest -> N -> option (list PeerEntry) * N).
Context (cfg : Config) (visit : gmap string PeerInfo -> list (string * PeerInfo)).

Definition dialAndExchange (clk : nat -> Z) (addr : string) (rn : PeerRegistry * N) : PeerRegistry * N :=
  let (r, n) := rn in
  let req := {| pl_SenderNodeID := nc_NodeID (cfg_Node cfg); pl_KnownPeers := peerEntry <$> Known (visit (pr_peers r)) |} in
  match exchange addr req n with
  | (None, n') => (r, n')
  | (Some peers, n') => (announceAll clk peers r, n')
  end.

Fixpoint exchangeAll (clk : nat -> nat -> Z) (addrs : list string) (rn : PeerRegistry * N) : PeerRegistry * N :=
  match addrs with
  | [] => rn
  | a :: addrs' => exchangeAll (fun i => clk (S i)) addrs' (dialAndExchange (clk O) a rn)
  end.

(** At startup the bootstrap nodes are dialed. *)
Definition bootstrap (clk : nat -> nat -> Z) (rn : PeerRegistry * N) : PeerRegistry * N :=
  exchangeAll clk (net_BootstrapNodes (cfg_Network cfg)) rn.

Definition staleAge (interval : Z) : Z := wrap_i64 (5 * interval).

(** One tick: stale peers are dropped, the others are dialed.  The exchanges run
    in goroutines; here, one after the other in the order of [Known]. *)
Definition gossipTick (now : Z) (clk : nat -> nat -> Z) (interval : Z) (rn : PeerRegistry * N) : PeerRegistry * N :=
  let r := EvictStale now (staleAge interval) rn.1 in
  exchangeAll clk (pi_Addr <$> Known (visit (pr_peers r))) (r, rn.2).

(** [runGossip]: the message every peer is sent. *)
Definition rootHashMessage {B} (now : Z) (log : Log B) : RootHashMessage :=
  {| rh_NodeID := nc_NodeID (cfg_Node cfg); rh_RootHash := RootHash log; rh_Timestamp := Unix now; rh_Signature := None |}.
End Gossip.

(** ** Gossip remembers everybody *)

(** Every peer is stored under its own id. *)
Definition registry_wf (r : PeerRegistry) : Prop := map_Forall (fun k p => pi_NodeID p = k) (pr_peers r).

(** [id] was announced at or after [now]. *)
Definition seenSince (now : Z) (id : string) (r : PeerRegistry) : Prop :=
  exists p, pr_peers r !! id = Some p /\ now <= pi_LastSeen p.

Lemma announceAll_wf clk ps r : registry_wf r -> registry_wf (announceAll clk ps r).
Proof. revert clk r. induction ps as [|p ps IH]; intros clk r Hr; [done|]. apply IH. by apply map_Forall_insert_2. Qed.

Lemma announceAll_keeps now clk ps r id :
  (forall i, now <= clk i) -> seenSince now id r -> seenSince now id (announceAll clk ps r).
Proof.
  intros Hclk. revert clk r Hclk. induction ps as [|p ps IH]; intros clk r Hclk Hs; [done|]. apply IH; [intros; apply Hclk|].
  destruct Hs as (q & Hq & Hle). unfold seenSince. cbn. destruct (decide (pe_NodeID p = id)) as [->|Hne].
  - rewrite lookup_insert_eq. eexists. split; [done|]. apply Hclk.
  - rewrite lookup_insert_ne by done. eauto.
Qed.

Lemma announceAll_refreshes now clk ps r id :
  (forall i, now <= clk i) -> id ∈ pe_NodeID <$> ps -> seenSince now id (announceAll clk ps r).
Proof.
  intros Hclk. revert clk r Hclk. induction ps as [|p ps IH]; intros clk r Hclk Hin; [by apply not_elem_of_nil in Hin|].
  cbn in Hin. apply elem_of_cons in Hin as [->|Hin]; [|apply IH; [intros; apply Hclk|done]].
  cbn [announceAll].
  apply announceAll_keeps; [intros; apply Hclk|]. unfold seenSince. cbn. rewrite lookup_insert_eq.
  eexists. split; [done|]. apply Hclk.
Qed.

(** What a visit of a well-formed registry tells the peer. *)
Lemma known_ids (visit : gmap string PeerInfo -> list (string * PeerInfo)) r id :
  (forall m, visit m ≡ₚ map_to_list m) -> registry_wf r -> is_Some (pr_peers r !! id) ->
  id ∈ pe_NodeID <$> (peerEntry <$> Known (visit (pr_peers r))).
Proof.
  intros Hv Hr [p Hp]. apply list_elem_of_fmap. exists (peerEntry p). split; [by rewrite <- (Hr _ _ Hp)|].
  apply list_elem_of_fmap. exists p. split; [done|]. apply list_elem_of_fmap. exists (id, p). split; [done|].
  rewrite Hv. by apply elem_of_map_to_list.
Qed.

Lemma mergePeers_refreshes now clk nodeID req r id :
  (forall i, now <= clk i) -> id ∈ pe_NodeID <$> pl_KnownPeers req -> seenSince now id (mergePeers clk nodeID req r).
Proof.
  intros Hclk Hin. unfold mergePeers. cbv zeta. destruct (_ && _); [|by apply announceAll_refreshes].
  apply announceAll_keeps; [intros; apply Hclk|]. by apply announceAll_refreshes.
Qed.

Lemma mergePeers_wf clk nodeID req r : registry_wf r -> registry_wf (mergePeers clk nodeID req r).
Proof. intros Hr. unfold mergePeers. cbv zeta. destruct (_ && _); auto using announceAll_wf. Qed.

Section Echo.
Context `{UnicodeTables} {B : Type} `{NodeStore B} {F W : Type} `{CoreForwarder F}.
Context (a : GatewayAdapter W) (clkB : nat -> Z) (visitA visitB : gmap string PeerInfo -> list (string * PeerInfo)).

(** The adapter of a live peer, as the other side of an exchange. *)
Definition livePeer (addr : string) (req : PeerListRequest) (st : AdapterState B F W)
  : option (list PeerEntry) * AdapterState B F W :=
  let (ps, st') := ExchangePeers a clkB visitB req st in (Some ps, st').

(** Gossip keeps dead peers alive.  One exchange with a live peer marks
    every peer the node knows as just seen, whether or not anybody has heard of it: the
    peer repeats what it was told, and the time a peer was really seen is sent but
    not read.  So as long as one exchange per stale age succeeds, no tick evicts
    any peer, dead or not. *)
Theorem gossip_keeps_dead_peers cfg clkA addr now now' interval r rB (st : AdapterState B F W) :
  (forall m, visitA m ≡ₚ map_to_list m) -> (forall m, visitB m ≡ₚ map_to_list m) ->
  (forall i, now <= clkA i) -> (forall i, now <= clkB i) ->
  registry_wf r -> as_peerRegistry st = Some rB -> registry_wf rB ->
  0 <= interval -> 5 * interval < 2 ^ 63 -> now' <= now + 5 * interval ->
  let r' := (dialAndExchange livePeer cfg visitA clkA addr (r, st)).1 in
  forall id, is_Some (pr_peers r !! id) -> is_Some (pr_peers (EvictStale now' (staleAge interval) r') !! id).
Proof.
  intros HvA HvB HcA HcB Hr Hst HrB Hi0 Hi Hnow. cbv zeta. intros id Hid.
  unfold dialAndExchange. cbn [fst]. set (req := Build_PeerListRequest _ _).
  assert (id ∈ pe_NodeID <$> pl_KnownPeers req) as Hreq by (by apply known_ids).
  unfold livePeer, ExchangePeers. rewrite Hst. cbn [fst snd].
  set (rB' := mergePeers clkB _ req rB).
  assert (seenSince now id rB') as (q & Hq & _) by (by apply mergePeers_refreshes).
  assert (seenSince now id (announceAll clkA (peerEntry <$> Known (visitB (pr_peers rB'))) r)) as (p & Hp & Hle).
  { apply announceAll_refreshes; [done|]. apply known_ids; [done|by apply mergePeers_wf|by eexists]. }
  exists p. unfold EvictStale. cbn [pr_peers]. apply map_lookup_filter_Some. split; [done|]. cbn [snd].
  unfold staleAge. rewrite (wrap_i64_id (5 * interval)) by (unfold in_i64; lia).
  rewrite wrap_i64_id by (unfold in_i64; lia). lia.
Qed.
End Echo.

(** ** The transit flush *)

Lemma moveToDLQ_envelopes clk es q :
  dl_Envelope <$> dlq_entries (moveToDLQ clk es q) = (dl_Envelope <$> dlq_entries q) ++ (te_Env <$> es).
Proof.
  revert clk q. induction es as [|e es IH]; intros clk q; cbn [moveToDLQ]; [by rewrite app_nil_r|].
  rewrite IH. unfold DLQAppend. cbn [dlq_entries]. by rewrite fmap_app, <- (assoc_L app).
Qed.

(** The envelopes a forwarder still holds. *)
Definition heldEnvelopes {X} (f : FwdState X) : list Envelope :=
  (match fs_transit f with Some c => te_Env <$> (map_to_list (tc_entries c)).*2 | None => [] end)
  ++ (match fs_dlq f with Some q => dl_Envelope <$> dlq_entries q | None => [] end).

(** C28: The flush of the transit cache moves envelopes and loses none.  A tick
    leaves the envelopes held in the cache and the dead-letter queue together as they
    were, none lost and none doubled; exactly the expired ones leave the cache, and they
    arrive at the end of the queue. *)
Theorem transit_tick_conserves {X} now clk order (f : FwdState X) c q :
  fs_transit f = Some c -> fs_dlq f = Some q -> visits order c ->
  let f' := transitTick now clk order f in
  heldEnvelopes f' ≡ₚ heldEnvelopes f
  /\ (exists moved, fs_dlq f' = Some moved
      /\ dl_Envelope <$> dlq_entries moved
         = (dl_Envelope <$> dlq_entries q) ++ (te_Env <$> (base.filter (expired now) order).*2))
  /\ (forall k e, (c' ← fs_transit f'; tc_entries c' !! k) = Some e <-> tc_entries c !! k = Some e /\ ~ expired now (k, e)).
Proof.
  intros Hc Hq Hv. cbv zeta. unfold transitTick. rewrite Hc, Hq. destruct (Drain now order c) as [es c'] eqn:Ed.
  assert (es = (base.filter (expired now) order).*2) as -> by (by injection Ed).
  assert (c' = (Drain now order c).2) as Hc' by (by rewrite Ed). split_and!.
  - unfold heldEnvelopes. rewrite Hc, Hq. cbn [fs_transit fs_dlq fmap option_fmap option_map].
    rewrite moveToDLQ_envelopes. rewrite (visits_drained now order c (map_to_list (tc_entries c')) Hv)
      by (rewrite Hc'; apply visits_self).
    rewrite <- (filter_app_complement (expired now) (map_to_list (tc_entries c))). rewrite !fmap_app. rewrite <- Hv. solve_Permutation.
  - eexists. split; [reflexivity|]. apply moveToDLQ_envelopes.
  - intros k e. cbn [fs_transit mbind option_bind]. rewrite Hc', Drain_lookup by done.
    destruct (tc_entries c !! k) as [e'|]; [case_decide|]; naive_solver.
Qed.
