(* ===== verification/Node.v ===== *)
(** * The node as a whole

    A node wired as [Run] wires it, under any sequence of requests, envelopes from
    peers and ticks: what its state keeps.  Then what becomes of configurations sent
    to it. *)

From S2P Require Import Prelude GoStrings GoCrypto Utf8 Json JsonFields Config ConfigJson Schema Crl Store AuditLog Policy Core Dedup Transit Delivery Gateway Session Token Identity Connect PeerDiscovery RateLimit Adapter Registry Metrics Inbox Webhook Callbacks HttpStores HttpAuth Http HttpAdmin HttpServer HttpSafety HttpFlows HttpDemo App.

Section Node.
Context `{UnicodeTables} `{Ed25519} `{Jwt} {B : Type} `{NodeStore B} {X : Type} `{CoreForwarder (FwdState X)}.
Context (errText : FwdError -> string) (jsonErrText : string -> string) (configErrText : ConfigError -> string).
Context (stat : string -> option bool) (open_file : string -> option string) (decode_toml : string -> option rawTOML).

(** A callback as the server sees it. *)
Definition withText (r : option ConfigError * Engine) : option string * Engine := (configErrText <$> r.1, r.2).

(** The dependencies [Run] gives to the server; the callbacks are there when the
    configuration came from a file. *)
Definition nodeDeps (cfg : Config) (configPath : string) (startTime : Z) (key : ed_PrivateKey)
    (visit : list (string * AppConfig)) (hasForwarder : bool) : Deps := {|
  dp_cfg := cfg; dp_startTime := startTime; dp_Engine := true; dp_Audit := true; dp_PrivKey := Some key;
  dp_Gateway := Some (wireCallbacks visit (NewGateway cfg hasForwarder)); dp_CRL := true; dp_Inbox := true;
  dp_OnConfigReload := if str_eqb configPath "" then None
    else Some (fun e => withText (onReload stat open_file decode_toml configPath e));
  dp_OnConfigSave := if str_eqb configPath "" then None else Some (fun c e => withText (onConfigSave c e)) |}.

(** The node: the server's state, which holds everything shared, and the watcher. *)
Record NodeState := { nd_http : HttpState B X; nd_watch : WatchState }.

Section Steps.
Context (cfg : Config) (configPath : string) (startTime : Z) (key : ed_PrivateKey).
Context (visit : list (string * AppConfig)) (hasForwarder : bool).

#[local] Notation d := (nodeDeps cfg configPath startTime key visit hasForwarder).

Inductive node_step : NodeState -> NodeState -> Prop :=
| node_request c r n :
    node_step n {| nd_http := (ServeHTTP errText jsonErrText d c r (nd_http n)).2; nd_watch := nd_watch n |}
| node_envelope c req n :
    node_step n {| nd_http := setGw (SendEnvelope (wireCallbacks visit (NewGateway cfg hasForwarder)) c req
                                       (hs_gw (nd_http n))).2 (nd_http n);
                   nd_watch := nd_watch n |}
| node_watch m n ws e :
    watchTick stat open_file decode_toml configPath m (nd_watch n) (gs_policy (hs_gw (nd_http n))) = (ws, e) ->
    node_step n {| nd_http := setEngine e (nd_http n); nd_watch := ws |}
| node_transit now clk order n :
    node_step n {| nd_http := setGw (setFwd (transitTick now clk order (gs_fwd (hs_gw (nd_http n)))) (hs_gw (nd_http n)))
                                (nd_http n);
                   nd_watch := nd_watch n |}
| node_purge now n :
    node_step n {| nd_http := setGw (purgeTick now (hs_gw (nd_http n))) (nd_http n); nd_watch := nd_watch n |}.

(** What every state of a running node satisfies. *)
Record node_inv (n : NodeState) : Prop := {
  ni_http : http_wf (nd_http n);
  ni_config : ValidConfig (en_cfg (gs_policy (hs_gw (nd_http n))));
  ni_audit : en_auditing (gs_policy (hs_gw (nd_http n))) = true;
  ni_crl : en_hasCRL (gs_policy (hs_gw (nd_http n))) = true }.

Definition engine_ok (e : Engine) : Prop := ValidConfig (en_cfg e) /\ en_auditing e = true /\ en_hasCRL e = true.

Lemma Reload_ok c e : engine_ok e -> engine_ok (Reload c e).2.
Proof. intros He. unfold Reload. destruct (Validate c) eqn:Ev; [done|]. apply Validate_None in Ev. by destruct He as (_ & ? & ?). Qed.

Lemma onReload_ok e : engine_ok e -> engine_ok (onReload stat open_file decode_toml configPath e).2.
Proof. intros He. unfold onReload. destruct (Load _ _ _ _); [by apply Reload_ok|done]. Qed.

Lemma onConfigSave_ok c e : engine_ok e -> engine_ok (onConfigSave c e).2.
Proof. intros He. unfold onConfigSave. destruct (Validate c); [done|]. by apply Reload_ok. Qed.

Lemma watchTick_ok m ws e : engine_ok e -> engine_ok (watchTick stat open_file decode_toml configPath m ws e).2.
Proof.
  intros He. unfold watchTick. destruct m as [m|]; [|done]. destruct (_ =? zeroTime); [done|]. destruct (_ =? _); [done|].
  destruct (Load _ _ _ _) as [c|]; [|done]. unfold onChange. pose proof (Reload_ok c e He) as Hr.
  by destruct (Reload c e) as [[]].
Qed.

Lemma ServeHTTP_engine c r st :
  engine_ok (gs_policy (hs_gw st)) -> engine_ok (gs_policy (hs_gw (ServeHTTP errText jsonErrText d c r st).2)).
Proof.
  intros He. destruct (ServeHTTP_cases errText jsonErrText d c r st) as [->|(e & _ & _ & ->)]; [done|].
  destruct (guardOf e) eqn:Eg; [|pose proof (open_endpoint_frame errText jsonErrText d c r e st Eg) as Hf;
    unfold administered in Hf; injection Hf as Hf _ _ _ _; by rewrite Hf].
  destruct e; try discriminate Eg; cbn [handle]; try (by run_handler).
  - unfold reloadConfig, nodeDeps. cbn [dp_OnConfigReload]. destruct (str_eqb configPath ""); [done|].
    unfold withText. pose proof (onReload_ok _ He) as Hr. by destruct (onReload _ _ _ _ _) as [[]].
  - unfold saveConfig, nodeDeps. cbn [dp_OnConfigSave]. destruct (str_eqb configPath ""); [done|].
    destruct (decodeConfig _) as [c'|]; [|done]. unfold withText. pose proof (onConfigSave_ok c' _ He) as Hr.
    by destruct (onConfigSave _ _) as [[]].
Qed.

Lemma node_inv_intro n : http_wf (nd_http n) -> engine_ok (gs_policy (hs_gw (nd_http n))) -> node_inv n.
Proof. intros Hw (Hc & Ha & Hr). by split. Qed.

Lemma node_step_inv n n' : node_step n n' -> node_inv n -> node_inv n'.
Proof.
  intros Hs [Hw Hc Ha Hr]. assert (engine_ok (gs_policy (hs_gw (nd_http n)))) as He by done.
  destruct Hs as [c r n|c req n|m n ws e Hwt|now clk order n|now n].
  - apply node_inv_intro; [by apply ServeHTTP_wf|by apply ServeHTTP_engine].
  - pose proof (SendEnvelope_frame (wireCallbacks visit (NewGateway cfg hasForwarder)) c req (hs_gw (nd_http n))) as [Hp Hcr].
    apply node_inv_intro; cbn; [|by rewrite Hp]. apply (http_wf_frame (nd_http n)); try done. cbn. rewrite Hcr. by destruct Hw.
  - pose proof (watchTick_ok m (nd_watch n) _ He) as Hk. rewrite Hwt in Hk.
    apply node_inv_intro; [|done]. apply (http_wf_frame (nd_http n)); try done. by destruct Hw.
  - apply node_inv_intro; [|done]. apply (http_wf_frame (nd_http n)); try done. by destruct Hw.
  - apply node_inv_intro; [|done]. apply (http_wf_frame (nd_http n)); try done. by destruct Hw.
Qed.

(** A running node stays well formed and never runs on an invalid
    configuration.  Along any run (HTTP requests with any body and credentials, envelopes
    from peers, edits of the configuration file, flushes and purges in any order) the
    policy engine's configuration is valid, the engine keeps auditing and consulting the
    revocation list, and the stores keep their types. *)
Theorem node_runs_valid n n' : node_inv n -> rtc node_step n n' -> node_inv n'.
Proof. intros Hi Hr. induction Hr as [n|n1 n2 n3 Hs _ IH]; [done|]. apply IH. by eapply node_step_inv. Qed.

(** Of the gateway a handler touches nothing the audit depends on, unless it sends
    an envelope: a relation that sending keeps, and that does not look at the rest, is
    kept by every request. *)
Lemma ServeHTTP_sends (R : relation (GwState B (FwdState X) World)) c r st :
  R (hs_gw st) (hs_gw st) ->
  (forall e, R (hs_gw st) (SendEnvelope (wireCallbacks visit (NewGateway cfg hasForwarder)) (he_call c)
                             {| sr_Envelope := e |} (hs_gw st)).2) ->
  (forall s1 s2, R (hs_gw st) s1 -> gs_audit s2 = gs_audit s1 -> gs_dedup s2 = gs_dedup s1 ->
     wd_metrics (gs_world s2) = wd_metrics (gs_world s1) -> R (hs_gw st) s2) ->
  R (hs_gw st) (hs_gw (ServeHTTP errText jsonErrText d c r st).2).
Proof.
  intros Hrefl Hsend Hrest. assert (forall s, gs_audit s = gs_audit (hs_gw st) -> gs_dedup s = gs_dedup (hs_gw st) ->
    wd_metrics (gs_world s) = wd_metrics (gs_world (hs_gw st)) -> R (hs_gw st) s) as Hsame by eauto.
  destruct (ServeHTTP_cases errText jsonErrText d c r st) as [->|(e & _ & _ & ->)]; [done|].
  destruct e; cbn [handle]; try (by apply Hsame); try (by run_handler; apply Hsame).
  - unfold postEnvelope. cbn [dp_Gateway nodeDeps]. destruct (postedEnvelope _ r) as [env|]; [|by apply Hsame].
    destruct (str_eqb _ ""); [by apply Hsame|]. specialize (Hsend env).
    by destruct (SendEnvelope _ _ _ _) as [[resp|[]] g'].
  - unfold replayDLQ. cbn [dp_Gateway nodeDeps]. destruct (dlqOf st) as [q|]; [|by apply Hsame].
    destruct (pathIndex _) as [i|]; [|by apply Hsame]. destruct (_ !! _) as [entry|]; [|by apply Hsame].
    specialize (Hsend (dl_Envelope entry)).
    destruct (SendEnvelope _ _ _ _) as [[resp|[]] g']; try done. by eapply Hrest; [exact Hsend|..].
Qed.

(** A handler appends to the audit log and counts what it appends. *)
Lemma ServeHTTP_counts c r st :
  en_auditing (gs_policy (hs_gw st)) = true ->
  counts_on (hs_gw st) (hs_gw (ServeHTTP errText jsonErrText d c r st).2).
Proof.
  intros Ha. apply ServeHTTP_sends.
  - split; [exists []; by rewrite app_nil_r|done].
  - intros e. by apply SendEnvelope_counts.
  - intros s1 s2 [Hl Hc] He _ Hw. unfold counts_on, counted, countD in *. by rewrite He, Hw.
Qed.

Lemma node_step_counts n n' : node_step n n' -> node_inv n -> counts_on (hs_gw (nd_http n)) (hs_gw (nd_http n')).
Proof.
  intros Hs [_ _ Ha _]. destruct Hs; cbn [nd_http]; [by apply ServeHTTP_counts|by apply SendEnvelope_counts|..];
    (split; [exists []; by rewrite app_nil_r|done]).
Qed.

Lemma counts_on_trans (s1 s2 s3 : GwState B (FwdState X) World) : counts_on s1 s2 -> counts_on s2 s3 -> counts_on s1 s3.
Proof.
  intros [[m1 H12] Hc1] [[m2 H23] Hc2]. split; [exists (m1 ++ m2); by rewrite H23, H12, (assoc_L app)|].
  intros Hlen Hc. apply Hc2; [done|]. apply Hc1; [|done]. rewrite H23, length_app in Hlen. lia.
Qed.

(** The metrics count the audit log.  Along any run of a node that starts
    with the counters in step (all zero and an empty log, for one), the three envelope
    counters are at every moment the numbers of ALLOW, DUPLICATE and DENY entries of the
    audit log, whatever arrives over HTTP and gRPC and whatever else happens, as long
    as the log has fewer than 2^63 entries; and the log only grows. *)
Theorem metrics_match_audit n n' :
  node_inv n -> rtc node_step n n' ->
  (exists more, log_entries (gs_audit (hs_gw (nd_http n'))) = log_entries (gs_audit (hs_gw (nd_http n))) ++ more)
  /\ (Z.of_nat (length (log_entries (gs_audit (hs_gw (nd_http n'))))) < 2 ^ 63 ->
      counted (hs_gw (nd_http n)) -> counted (hs_gw (nd_http n'))).
Proof.
  intros Hi Hr. change (counts_on (hs_gw (nd_http n)) (hs_gw (nd_http n'))).
  induction Hr as [n|n1 n2 n3 Hs _ IH]; [split; [exists []; by rewrite app_nil_r|done]|].
  eapply counts_on_trans; [by apply node_step_counts|]. apply IH. by eapply node_step_inv.
Qed.

(** ** Saving a configuration *)

(** The properties of a configuration that [GET /api/v1/config/schema] describes. *)
Definition described : list string :=
  match configSchema with
  | JObj ms => match claim "properties" ms with Some (JObj ps) => ps.*1 | _ => [] end
  | _ => []
  end.

Lemma collect_other {A} names k (read : json -> A -> option A) ms old :
  Forall (fun m => m.1 ∈ names /\ m.1 <> k) ms -> collect names k read ms old = Some old.
Proof.
  induction 1 as [|[n v] ms [Hin Hne] _ IH]; [done|]. cbn [fst] in Hin, Hne. cbn. unfold target. rewrite (proj2 (Contains_true _ _) Hin).
  rewrite bool_decide_eq_false_2 by (intros [= ->]; done). exact IH.
Qed.

Lemma described_profile ms cfg' :
  Forall (fun m => m.1 ∈ described) ms -> as_config (JObj ms) zero_config = Some cfg' -> cfg_Profile cfg' = zero_profile.
Proof.
  intros Hms. assert (collect config_names "Profile"%string as_profile ms (cfg_Profile zero_config) = Some zero_profile) as Hp.
  { apply collect_other. eapply Forall_impl; [exact Hms|]. intros [k v] Hk. cbn [fst] in *.
    change described with ["Node"; "Policy"; "Storage"]%string in Hk. rewrite !elem_of_cons in Hk.
    destruct Hk as [->|[->|[->|Hk%not_elem_of_nil]]]; [..|done]; (split; [|done]);
      apply (bool_decide_eq_true_1 _); vm_compute; reflexivity. }
  unfold as_config. intros (ms' & [= <-] & Hc)%bind_Some. apply bind_Some in Hc as (x0 & _ & Hc).
  apply bind_Some in Hc as (x1 & Hx1 & Hc). rewrite Hp in Hx1. injection Hx1 as <-.
  repeat apply bind_Some in Hc as (? & _ & Hc). by injection Hc as <-.
Qed.

(** No document that follows the published schema can be saved.  The schema
    of [GET /api/v1/config/schema] describes the members Node, Policy and Storage only,
    while a configuration must have a profile and listening addresses: every body of
    [PUT /api/v1/config] whose members are among those described is answered 400, and
    the node keeps its configuration. *)
Theorem schema_documents_rejected c r st ms :
  configPath <> ""%string -> isOptions r = false -> route (hr_Method r) (hr_Path r) = Found EpSaveConfig ->
  authorised d c "operator" r = true ->
  decodeFirst (hr_Body r) = Some (JObj ms) -> Forall (fun m => m.1 ∈ described) ms ->
  exists msg, ServeHTTP errText jsonErrText d c r st = (writeJSONError msg 400, setEngine (gs_policy (hs_gw st)) st).
Proof.
  intros Hp Ho Hr Ha Hb Hms. unfold ServeHTTP. rewrite Ho, Hr. cbn [guardOf]. unfold auth. rewrite Ho, Ha. cbn [negb handle].
  unfold saveConfig. cbn [dp_OnConfigSave nodeDeps]. rewrite (proj2 (str_eqb_neq _ _) Hp). unfold decodeConfig. rewrite Hb.
  cbn [mbind option_bind]. destruct (as_config (JObj ms) zero_config) as [cfg'|] eqn:Ec.
  2: { eexists. f_equal. by destruct st as [[] ? ? ? ? ?]. }
  pose proof (described_profile ms cfg' Hms Ec) as Hpf. unfold withText, onConfigSave.
  destruct (Validate cfg') as [err|] eqn:Ev; [by eexists|]. exfalso. apply Validate_None in Ev.
  pose proof (vc_ttl _ Ev) as Ht. rewrite Hpf in Ht. cbn in Ht. lia.
Qed.
End Steps.
End Node.

(** ** A running node *)

Definition no_text {A} : A -> string := fun _ => ""%string.

Definition demo_node : NodeState (B := unit) (X := Z) :=
  {| nd_http := demo_server; nd_watch := {| wa_lastMod := zeroTime; wa_lastVersion := "" |} |}.

(** No file to read: the node was configured from its file once. *)
Definition demo_step := node_step (H0 := toy_ed25519) (B := unit) (X := Z) no_text no_text no_text (fun _ => None) (fun _ => None)
  (fun _ => None) (with_api "key" "s3cret" demo_cfg) "node.toml" 0 "secret"%string [] true.

Lemma demo_server_wf : http_wf demo_server.
Proof.
  split.
  - intros ra [= <-]. apply map_Forall_empty.
  - intros ra [= <-]. apply map_Forall_empty.
  - intros rp [= <-]. constructor.
  - apply crl_wf_New.
Qed.

Lemma demo_node_inv : node_inv demo_node.
Proof. split; [apply demo_server_wf|apply Validate_None; vm_compute; reflexivity|reflexivity|reflexivity]. Qed.

(** A request that registers a peer, and an envelope from a peer. *)
Definition demo_node_later : NodeState := {|
  nd_http := setGw (SendEnvelope (wireCallbacks [] (NewGateway (with_api "key" "s3cret" demo_cfg) true)) (demo_call 0)
    (demo_req "k" "messaging") (hs_gw (nd_http demo_node))).2 (nd_http demo_node);
  nd_watch := nd_watch demo_node |}.

Lemma demo_run : rtc demo_step demo_node demo_node_later.
Proof. apply rtc_once. apply (node_envelope (H0 := toy_ed25519)). Qed.

Lemma node_runs_valid_witness : node_inv demo_node_later.
Proof. exact (node_runs_valid _ _ _ _ _ _ _ _ _ _ _ _ _ _ demo_node_inv demo_run). Defined.

Lemma metrics_match_audit_witness : counted (hs_gw (nd_http demo_node_later)).
Proof.
  refine (proj2 (metrics_match_audit _ _ _ _ _ _ _ _ _ _ _ _ _ _ demo_node_inv demo_run) _ _); [vm_compute; reflexivity|].
  split_and!; [reflexivity..|]. apply map_Forall_empty.
Defined.

Definition schema_body : json :=
  JObj [("Node"%string, JObj [("NodeID"%string, JStr "n")]); ("Storage"%string, JObj [("Backend"%string, JStr "bbolt")])].

Lemma schema_documents_rejected_witness :
  exists msg,
    ServeHTTP (H0 := toy_ed25519) no_text no_text
      (nodeDeps no_text (fun _ => None) (fun _ => None) (fun _ => None) (with_api "key" "s3cret" demo_cfg) "node.toml" 0
         "secret"%string [] true)
      (demo_http_env 0) (request "PUT" (v1path ["config"%string]) (with_key "key") (render schema_body)) demo_server
    = (writeJSONError msg 400, setEngine (gs_policy (hs_gw demo_server)) demo_server).
Proof.
  apply (schema_documents_rejected (H0 := toy_ed25519) no_text no_text no_text) with
    (ms := [("Node"%string, JObj [("NodeID"%string, JStr "n")]); ("Storage"%string, JObj [("Backend"%string, JStr "bbolt")])]).
  - discriminate.
  - reflexivity.
  - vm_compute. reflexivity.
  - vm_compute. reflexivity.
  - vm_compute. reflexivity.
  - apply Forall_cons. split; [left|]. apply Forall_cons. split; [right; right; left|]. apply Forall_nil_2.
Defined.

(** A node knows a peer that died long ago, and meets a live one. *)
Definition dead_peer : PeerInfo :=
  {| pi_NodeID := "dead"; pi_Addr := "dead:7777"; pi_NodeScope := "regional"; pi_Region := "XX"; pi_LastSeen := 0 |}.

Definition demo_registry : PeerRegistry := {| pr_peers := {[ "dead"%string := dead_peer ]} |}.

Definition demo_live : AdapterState unit (FwdState Z) (list string) :=
  {| as_gw := demo_gwstate demo_cfg; as_seqRecv := NewTracker; as_peerCache := None; as_tokenStore := None;
     as_peerRegistry := Some NewPeerRegistry; as_seen := None; as_limiter := None |}.

Definition demo_live_adapter : GatewayAdapter (list string) :=
  {| ga_gw := demo_gateway demo_cfg; ga_verifyKey := None; ga_connectRes := None; ga_nodeCfg := demo_cfg; ga_peers := ∅;
     ga_hasPolicy := true; ga_metrics := None |}.

Lemma gossip_keeps_dead_peers_witness :
  is_Some (pr_peers (EvictStale (1500 * Second) (staleAge (120 * Second))
    (dialAndExchange (livePeer demo_live_adapter (fun _ => 1000 * Second) map_to_list) demo_cfg map_to_list
       (fun _ => 1000 * Second) "live:7777" (demo_registry, demo_live)).1) !! "dead"%string).
Proof.
  apply (gossip_keeps_dead_peers demo_live_adapter (fun _ => 1000 * Second) map_to_list map_to_list demo_cfg
    (fun _ => 1000 * Second) "live:7777" (1000 * Second) (1500 * Second) (120 * Second) demo_registry NewPeerRegistry
    demo_live); try reflexivity.
  - unfold registry_wf, demo_registry. cbn [pr_peers]. rewrite map_Forall_singleton. reflexivity.
  - apply map_Forall_empty.
  - vm_compute. discriminate.
  - vm_compute. discriminate.
  - exists dead_peer. reflexivity.
Defined.

Lemma transit_tick_conserves_witness :
  heldEnvelopes (transitTick (100 * Second) (fun _ => 100 * Second) (map_to_list (tc_entries demo_cache))
    {| fs_dlq := Some NewDLQ; fs_transit := Some demo_cache; fs_world := 0 |})
  ≡ₚ [mkEnvelope "k" "RS" "RU" "messaging"].
Proof.
  refine (proj1 (transit_tick_conserves (100 * Second) (fun _ => 100 * Second) _
    {| fs_dlq := Some NewDLQ; fs_transit := Some demo_cache; fs_world := 0 |} demo_cache NewDLQ eq_refl eq_refl
    (visits_self _))).
Defined.
