(* ===== verification/Startup.v ===== *)
(** * Starting and stopping a node (package [internal/app], [Run] in [app.go], and
    package [internal/transport/grpc], [server.go])

    [Run] from its first line to the [select] that waits, and from there to its end: a
    computation that may fail, which starts goroutines and defers calls on its way.
    What it obtains from outside (a key, open stores, TLS material, a listening
    socket) is its environment. *)

From S2P Require Import Prelude GoStrings GoCrypto Utf8 Json JsonFields Config ConfigJson Schema Crl Store AuditLog Policy Core Dedup Transit Delivery Gateway Background Tls Session Token Identity Connect PeerDiscovery RateLimit Adapter AdapterDiscovery Registry Metrics Inbox Webhook Callbacks HttpStores HttpAuth Http HttpAdmin HttpServer HttpSafety HttpFlows HttpDemo App Node ConnPool.

(** ** Goroutines *)

Inductive Task :=
| TrustDecay
| DedupPurge
| PublishRoot (p : Publisher)
| WatchConfig (path : string)
| TransitRetry
| ServeMetrics (addr : string)
| DummyTraffic (interval : Z)
| RootHashGossip (interval : Z)
| TokenPurge
| DiscoveryPurge
| PeerGossip (interval : Z).

(** The intervals of the tickers.  The generator of dummy traffic returns before it
    makes its ticker where there is no interval. *)
Definition tickerOf (t : Task) : option Z :=
  match t with
  | TrustDecay => Some Hour
  | DedupPurge | TokenPurge | DiscoveryPurge => Some Minute
  | PublishRoot p => Some (pb_interval p)
  | WatchConfig _ => Some (500 * Millisecond)
  | TransitRetry => Some (5 * Second)
  | RootHashGossip i | PeerGossip i => Some i
  | DummyTraffic i => if i <=? 0 then None else Some i
  | ServeMetrics _ => None
  end.

(** [time.NewTicker] panics for an interval that is not positive; a panic in a
    goroutine ends the program. *)
Definition panics (t : Task) : bool := match tickerOf t with Some i => i <=? 0 | None => false end.

(** ** What ends [Run] before the node has started *)

Inductive StartError :=
| KeyNotGenerated
| BboltNotOpened (dir : string)
| RedisNotOpened (url prefix : string)
| ServerTLSFailed (e : TLSError)
| ClientTLSFailed (e : TLSError)
| EngineRefused (e : ConfigError)
| GrpcNotListening (addr : string).

(** What deferred calls close. *)
Inductive Resource := NodeStoreResource | ConnPoolResource | LimiterResource.

(** What [Run] has done so far: the goroutines it started, in order, and the calls it
    deferred, the last first. *)
Record StartLog := { sl_tasks : list Task; sl_deferred : list Resource }.

Definition Startup (A : Type) : Type := StartLog -> outcome StartError A * StartLog.

Definition begin {A} (a : A) : Startup A := fun l => (Ok a, l).
Definition stop {A} (e : StartError) : Startup A := fun l => (Err e, l).
Definition chain_start {A C} (m : Startup A) (k : A -> Startup C) : Startup C :=
  fun l => match m l with (Ok a, l') => k a l' | (Err e, l') => (Err e, l') end.
Definition go (ts : list Task) : Startup unit := fun l => (Ok (), {| sl_tasks := sl_tasks l ++ ts; sl_deferred := sl_deferred l |}).
Definition defer (r : Resource) : Startup unit := fun l => (Ok (), {| sl_tasks := sl_tasks l; sl_deferred := r :: sl_deferred l |}).

(** [x, err := ...; if err != nil { return e(err) }] *)
Definition attempt {A E} (o : outcome E A) (e : E -> StartError) : Startup A :=
  match o with Ok a => begin a | Err err => stop (e err) end.
Definition attempt_some {A} (o : option A) (e : StartError) : Startup A := match o with Some a => begin a | None => stop e end.

Declare Scope start_scope.
Delimit Scope start_scope with start.
Notation "'let*' x := m 'in' k" := (chain_start m (fun x => k))
  (at level 200, x name, m at level 100, k at level 200) : start_scope.
Notation "m ;; k" := (chain_start m (fun _ => k)) (at level 100, k at level 200, right associativity) : start_scope.

Lemma chain_Ok {A C} (m : Startup A) (k : A -> Startup C) l a l' : m l = (Ok a, l') -> chain_start m k l = k a l'.
Proof. unfold chain_start. by intros ->. Qed.

Lemma chain_Err {A C} (m : Startup A) (k : A -> Startup C) l e l' : m l = (Err e, l') -> chain_start m k l = (Err e, l').
Proof. unfold chain_start. by intros ->. Qed.

Definition when (b : bool) (m : Startup unit) : Startup unit := if b then m else begin ().

(** ** The gRPC server *)

(** [*Server]: its credentials and whether the JSON codec is forced on every call. *)
Record GrpcServer (S : Type) := { gr_creds : Credentials S; gr_jsonCodec : bool }.
Arguments Build_GrpcServer {S}.
Arguments gr_creds {S}.
Arguments gr_jsonCodec {S}.

(** [listens]: whether [net.Listen] succeeds at an address. *)
Definition NewServer {S} (listens : string -> bool) (listenAddr : string) (tlsCfg : option S) : outcome string (GrpcServer S) :=
  if listens listenAddr
  then Ok {| gr_creds := credentials tlsCfg; gr_jsonCodec := true |}
  else Err listenAddr.

(** What the two servers are told to do, in order. *)
Inductive StopCall := GrpcGracefulStop | GrpcStop | HttpShutdown.

(** How [Run] ends once the node has started. *)
Inductive RunError (E : Type) := DeadlineExceeded | ServerFailed (e : E).
Arguments DeadlineExceeded {E}.
Arguments ServerFailed {E} e.

(** [Server.Shutdown]; [inTime]: [GracefulStop] returns before the deadline. *)
Definition grpcShutdown {E} (inTime : bool) : option (RunError E) * list StopCall :=
  if inTime then (None, [GrpcGracefulStop]) else (Some DeadlineExceeded, [GrpcGracefulStop; GrpcStop]).

(** What the [select] receives: the context's end, or the end of a server with its
    error, which may be [http.ErrServerClosed]. *)
Inductive ExitError (E : Type) := ServerClosed | OtherError (e : E).
Arguments ServerClosed {E}.
Arguments OtherError {E} e.

Inductive Wakeup (E : Type) := ContextDone | ServerExited (err : option (ExitError E)).
Arguments ContextDone {E}.
Arguments ServerExited {E} err.

(** From the [select] to the end; [httpErr]: what [httpServer.Shutdown] answers. *)
Definition runEnd {E} (w : Wakeup E) (inTime : bool) (httpErr : option E) : option (RunError E) * list StopCall :=
  let (err, calls) := grpcShutdown inTime in
  match w with
  | ContextDone =>
      match err with
      | Some e => (Some e, calls)
      | None => (ServerFailed <$> httpErr, calls ++ [HttpShutdown])
      end
  | ServerExited exit =>
      (match exit with Some (OtherError e) => Some (ServerFailed e) | _ => None end, calls ++ [HttpShutdown])
  end.

(** ** The node *)

(** What the goroutines and handlers of a node share: the state of its server (with
    the gateway and the cache of root hashes) and of the watcher; the state of the
    gRPC adapter beyond the gateway; the generator of dummy traffic. *)
Record RunningNode (B X : Type) := {
  rn_node : NodeState (B := B) (X := X);
  rn_seqRecv : Tracker;
  rn_tokens : TokenStore;
  rn_peers : PeerRegistry;
  rn_seen : option Index;
  rn_limiter : Limiter;
  rn_generator : Generator }.
Arguments Build_RunningNode {B X}.
Arguments rn_node {B X}.
Arguments rn_seqRecv {B X}.
Arguments rn_tokens {B X}.
Arguments rn_peers {B X}.
Arguments rn_seen {B X}.
Arguments rn_limiter {B X}.
Arguments rn_generator {B X}.

Section Run.
Context `{UnicodeTables} `{Ed25519} `{Jwt} {B : Type} `{NodeStore B} {X : Type} `{CoreForwarder (FwdState X)}.
Context {Certificate CertPool : Type}.
Context (LoadX509KeyPair : string -> string -> option Certificate).
Context (ReadFile : string -> option string) (CertsFromPEM : string -> option CertPool).
Context (configErrText : ConfigError -> string).
Context (stat : string -> option bool) (open_file : string -> option string) (decode_toml : string -> option rawTOML).

(** What a start reads from the outside.  The transport's state [re_net] holds what
    the forwarding function works on, fresh counters and an empty pool included. *)
Record RunEnv := {
  re_rand : option ed_PrivateKey;
  re_openBbolt : string -> option B;
  re_openRedis : string -> string -> option B;
  re_listens : string -> bool;
  re_startTime : Z;
  re_net : X;
  re_apps : list (string * AppConfig);
  re_peers : list (string * PeerConfig);
  re_clock : nat -> Z }.

(** What [Run] has built when it waits. *)
Record Started := {
  sd_deps : Deps;
  sd_adapter : GatewayAdapter World;
  sd_server : GrpcServer (TLSSettings (Certificate := Certificate) (CertPool := CertPool));
  sd_state : RunningNode B X }.

#[local] Open Scope start_scope.

(** The store of the configured backend, which is closed when [Run] returns. *)
Definition openStore (env : RunEnv) (s : StorageConfig) : Startup (option B) :=
  match chooseStore s with
  | InMemory => begin None
  | Bbolt dir =>
      let* b := attempt_some (re_openBbolt env dir) (BboltNotOpened dir) in
      defer NodeStoreResource ;; begin (Some b)
  | Redis url prefix =>
      let* b := attempt_some (re_openRedis env url prefix) (RedisNotOpened url prefix) in
      defer NodeStoreResource ;; begin (Some b)
  end.

Definition hasPeers (cfg : Config) : bool := negb (Nat.eqb (size (net_Peers (cfg_Network cfg))) 0).

(** The goroutines started before the forwarder is made. *)
Definition earlyTasks (cfg : Config) (configPath : string) : list Task :=
  [TrustDecay; DedupPurge]
  ++ match publisherOf cfg with Some p => [PublishRoot p] | None => [] end
  ++ (if negb (str_eqb configPath "") then [WatchConfig configPath] else [])
  ++ match transitCache cfg with Some _ => [TransitRetry] | None => [] end
  ++ (if negb (str_eqb (net_MetricsAddr (cfg_Network cfg)) "") then [ServeMetrics (net_MetricsAddr (cfg_Network cfg))] else []).

Definition gossips (cfg : Config) : bool := ap_RootHashGossip (pc_Audit (cfg_Policy cfg)).

Definition lateTasks (cfg : Config) : list Task :=
  (if hasPeers cfg then [DummyTraffic (pf_DummyTrafficRate (cfg_Profile cfg))] else [])
  ++ (if gossips cfg && (0 <? ap_DNSTXTInterval (pc_Audit (cfg_Policy cfg))) && hasPeers cfg
      then [RootHashGossip (ap_DNSTXTInterval (pc_Audit (cfg_Policy cfg)))] else [])
  ++ [TokenPurge]
  ++ (if hasPeers cfg then [DiscoveryPurge] else [])
  ++ [PeerGossip (gossipInterval cfg)].

Definition newLog (store : option B) : Log B := match store with Some b => SetStore b NewLog | None => NewLog end.

(** The gateway with everything it calls, as it starts. *)
Definition startGateway (env : RunEnv) (cfg : Config) (store : option B) (engine : Engine)
  : GwState B (FwdState X) World := {|
  gs_policy := engine; gs_crl := New; gs_audit := newLog store; gs_dedup := NewIndex (pf_DedupTTL (cfg_Profile cfg));
  gs_fwd := {| fs_dlq := Some NewDLQ; fs_transit := transitCache cfg; fs_world := re_net env |};
  gs_world := {| wd_metrics := NewMetrics; wd_inbox := NewInbox; wd_webhooks := [] |} |}.

Definition startServer (env : RunEnv) (cfg : Config) (store : option B) (engine : Engine) : HttpState B X := {|
  hs_gw := startGateway env cfg store engine; hs_peers := if gossips cfg then Some NewPeerCache else None;
  hs_registry := Some (NewRegistry cfg); hs_runtimePeers := Some NewRuntimePeers; hs_apps := Some NewRuntimeApps;
  hs_adapters := Some NewRuntimeAdapters |}.

(** The gateway of the configuration, wired to the callbacks. *)
Definition wiredGateway (env : RunEnv) (cfg : Config) : Gateway World := wireCallbacks (re_apps env) (NewGateway cfg (hasPeers cfg)).

(** [NewAdapterWithDiscovery] with the dependencies [Run] gives it; no key to verify
    signatures with. *)
Definition startAdapter (env : RunEnv) (cfg : Config) (http : HttpState B X)
  : GatewayAdapter World * AdapterState B (FwdState X) World :=
  NewAdapterWithDiscovery (wiredGateway env cfg) (hs_gw http) None (hs_peers http) (Some NewTokenStore)
    (if hasPeers cfg then Some (discoveryPeers cfg, NewIndex (30 * Second)) else None) (Some (NewResolver cfg)) true
    (Some (seedPeers (re_clock env) (re_peers env) NewPeerRegistry)) (Some (NewLimiter (f64_int 10) 20))
    (Some (on_metrics IncRateLimitDeny)) cfg.

(** The parts put together. *)
Definition assemble (env : RunEnv) (cfg : Config) (configPath : string) (key : ed_PrivateKey) (store : option B)
    (engine : Engine) (server : GrpcServer (TLSSettings (Certificate := Certificate) (CertPool := CertPool))) : Started :=
  let http := startServer env cfg store engine in
  let (adapter, st) := startAdapter env cfg http in {|
  sd_deps := nodeDeps configErrText stat open_file decode_toml cfg configPath (re_startTime env) key (re_apps env) (hasPeers cfg);
  sd_adapter := adapter;
  sd_server := server;
  sd_state := {|
    rn_node := {| nd_http := http; nd_watch := {| wa_lastMod := zeroTime; wa_lastVersion := nc_PolicyVersion (cfg_Node cfg) |} |};
    rn_seqRecv := as_seqRecv st; rn_tokens := NewTokenStore;
    rn_peers := seedPeers (re_clock env) (re_peers env) NewPeerRegistry;
    rn_seen := as_seen st; rn_limiter := NewLimiter (f64_int 10) 20; rn_generator := NewGenerator cfg |} |}.

(** [Run] up to the point where both servers serve. *)
Definition startNode (env : RunEnv) (cfg : Config) (configPath : string) : Startup Started :=
  let* key := attempt_some (fst <$> GenerateKey (re_rand env)) KeyNotGenerated in
  let* store := openStore env (cfg_Storage cfg) in
  let* serverTLS := attempt (LoadServerTLS LoadX509KeyPair ReadFile CertsFromPEM (cfg_TLS cfg)) ServerTLSFailed in
  let* clientTLS := attempt (LoadClientTLS LoadX509KeyPair ReadFile CertsFromPEM (cfg_TLS cfg)) ClientTLSFailed in
  let* engine := attempt (NewEngine cfg true true) EngineRefused in
  go (earlyTasks cfg configPath) ;;
  when (hasPeers cfg) (defer ConnPoolResource) ;;
  go (lateTasks cfg) ;;
  defer LimiterResource ;;
  let* server := attempt (NewServer (re_listens env) (net_GRPCListenAddr (cfg_Network cfg)) serverTLS) GrpcNotListening in
  begin (assemble env cfg configPath key store engine server).

(** How a start ends: the outcome, the goroutines started and the deferred calls, in
    the order in which [Run] makes them when it returns. *)
Definition start (env : RunEnv) (cfg : Config) (configPath : string) : outcome StartError Started * StartLog :=
  startNode env cfg configPath {| sl_tasks := []; sl_deferred := [] |}.

(** ** What a start guarantees *)

(** The store the configuration asks for opens; [None] for the memory. *)
Definition storeOpens (env : RunEnv) (cfg : Config) : option (option B) :=
  match chooseStore (cfg_Storage cfg) with
  | InMemory => Some None
  | Bbolt dir => Some <$> re_openBbolt env dir
  | Redis url prefix => Some <$> re_openRedis env url prefix
  end.

Lemma openStore_spec env cfg l :
  match storeOpens env cfg with
  | Some store => openStore env (cfg_Storage cfg) l
      = (Ok store, {| sl_tasks := sl_tasks l;
                      sl_deferred := (match store with Some _ => [NodeStoreResource] | None => [] end) ++ sl_deferred l |})
  | None => exists e, openStore env (cfg_Storage cfg) l = (Err e, l)
  end.
Proof.
  unfold storeOpens, openStore. destruct (chooseStore _) as [|dir|url prefix]; [by destruct l|..].
  - destruct (re_openBbolt env dir); cbn; [done|by eexists].
  - destruct (re_openRedis env url prefix); cbn; [done|by eexists].
Qed.

(** What the deferred calls of a node that got as far as the servers close. *)
Definition deferredCalls (cfg : Config) (store : option B) : list Resource :=
  LimiterResource :: (if hasPeers cfg then [ConnPoolResource] else []) ++ (match store with Some _ => [NodeStoreResource] | None => [] end).

Definition allTasks (cfg : Config) (configPath : string) : list Task := earlyTasks cfg configPath ++ lateTasks cfg.

Definition nothingDone : StartLog := {| sl_tasks := []; sl_deferred := [] |}.

(** Nothing but a store has been opened. *)
Definition onlyStore (store : option B) : StartLog :=
  {| sl_tasks := []; sl_deferred := match store with Some _ => [NodeStoreResource] | None => [] end |}.

#[local] Notation serverTLSOf := (LoadServerTLS LoadX509KeyPair ReadFile CertsFromPEM).
#[local] Notation clientTLSOf := (LoadClientTLS LoadX509KeyPair ReadFile CertsFromPEM).

(** The ways a start can end, in the order of the code. *)
Lemma start_cases env cfg path :
  match fst <$> GenerateKey (re_rand env), storeOpens env cfg with
  | None, _ => start env cfg path = (Err KeyNotGenerated, nothingDone)
  | Some _, None => exists e, start env cfg path = (Err e, nothingDone)
  | Some key, Some store =>
      match serverTLSOf (cfg_TLS cfg), clientTLSOf (cfg_TLS cfg), Validate cfg with
      | Err e, _, _ => start env cfg path = (Err (ServerTLSFailed e), onlyStore store)
      | Ok _, Err e, _ => start env cfg path = (Err (ClientTLSFailed e), onlyStore store)
      | Ok _, Ok _, Some e => start env cfg path = (Err (EngineRefused e), onlyStore store)
      | Ok settings, Ok _, None =>
          (start env cfg path).2 = {| sl_tasks := allTasks cfg path; sl_deferred := deferredCalls cfg store |}
          /\ if re_listens env (net_GRPCListenAddr (cfg_Network cfg))
             then exists server, NewServer (re_listens env) (net_GRPCListenAddr (cfg_Network cfg)) settings = Ok server
               /\ (start env cfg path).1
                  = Ok (assemble env cfg path key store {| en_cfg := cfg; en_auditing := true; en_hasCRL := true |} server)
             else (start env cfg path).1 = Err (GrpcNotListening (net_GRPCListenAddr (cfg_Network cfg)))
      end
  end.
Proof.
  unfold start, startNode. destruct (fst <$> GenerateKey (re_rand env)) as [key|]; [|done].
  erewrite chain_Ok by done. pose proof (openStore_spec env cfg nothingDone) as Hs.
  destruct (storeOpens env cfg) as [store|]; [|destruct Hs as [e He]; exists e; by apply chain_Err].
  erewrite chain_Ok by exact Hs.
  destruct (serverTLSOf (cfg_TLS cfg)) as [settings|e]; [erewrite chain_Ok by done|by destruct store].
  destruct (clientTLSOf (cfg_TLS cfg)) as [?|e]; [erewrite chain_Ok by done|by destruct store].
  unfold NewEngine. destruct (Validate cfg) as [e|]; [by destruct store|]. erewrite chain_Ok by done.
  unfold NewServer, deferredCalls, allTasks, go, when, defer, chain_start, begin.
  destruct (hasPeers cfg), store, (re_listens env _); cbn; (split; [done|]); first [done|eexists; done].
Qed.

(** The successful start. *)
Lemma start_assembles env cfg path key store settings clientSettings server :
  fst <$> GenerateKey (re_rand env) = Some key -> storeOpens env cfg = Some store ->
  serverTLSOf (cfg_TLS cfg) = Ok settings -> clientTLSOf (cfg_TLS cfg) = Ok clientSettings -> Validate cfg = None ->
  NewServer (re_listens env) (net_GRPCListenAddr (cfg_Network cfg)) settings = Ok server ->
  (start env cfg path).1 = Ok (assemble env cfg path key store {| en_cfg := cfg; en_auditing := true; en_hasCRL := true |} server).
Proof.
  intros Hk Hs Ht Hc Hv Hn. pose proof (start_cases env cfg path) as Ho. rewrite Hk, Hs, Ht, Hc, Hv in Ho.
  destruct Ho as [_ Ho]. destruct (re_listens _ _) eqn:E.
  - destruct Ho as (server' & Hs' & ->). rewrite Hn in Hs'. by injection Hs' as ->.
  - unfold NewServer in Hn. by rewrite E in Hn.
Qed.

Definition is_Ok {E A} (o : outcome E A) : Prop := exists a, o = Ok a.

(** C22: When a node starts, and what it leaves open.  A node starts exactly when a key is
    generated, the configured store opens, the TLS material of both sides loads, the
    configuration is valid and the gRPC address can be listened on.  No goroutine is
    started for a configuration that is not valid; the store is closed at the end
    exactly when it was opened, however the start ends; and a node that has started
    runs all its goroutines and serves gRPC with the credentials its configuration
    asks for. *)
Theorem start_outcome env cfg path :
  let r := (start env cfg path).1 in
  let l := (start env cfg path).2 in
  (is_Ok r <-> is_Some (re_rand env) /\ is_Some (storeOpens env cfg) /\ is_Ok (serverTLSOf (cfg_TLS cfg))
               /\ is_Ok (clientTLSOf (cfg_TLS cfg)) /\ ValidConfig cfg
               /\ re_listens env (net_GRPCListenAddr (cfg_Network cfg)) = true)
  /\ (sl_tasks l <> [] -> ValidConfig cfg)
  /\ (NodeStoreResource ∈ sl_deferred l <-> is_Some (re_rand env) /\ exists b, storeOpens env cfg = Some (Some b))
  /\ (forall sd, r = Ok sd -> sl_tasks l = allTasks cfg path
        /\ exists settings, serverTLSOf (cfg_TLS cfg) = Ok settings
             /\ gr_creds (sd_server sd) = match settings with Some s => TLSCredentials s | None => InsecureCredentials end).
Proof.
  cbn zeta. pose proof (start_cases env cfg path) as Hs. unfold is_Ok.
  assert (fst <$> GenerateKey (re_rand env) = re_rand env) as Hk by (by destruct (re_rand env)). rewrite Hk in Hs.
  destruct (re_rand env) as [key|]; [|rewrite Hs; cbn; rewrite elem_of_nil; split_and!; naive_solver].
  destruct (storeOpens env cfg) as [store|];
    [|destruct Hs as [e Hs]; rewrite Hs; cbn; rewrite elem_of_nil; split_and!; naive_solver].
  assert (NodeStoreResource ∈ sl_deferred (onlyStore store)
    <-> is_Some (Some key) /\ exists b, Some store = Some (Some b)) as Honly.
  { destruct store; cbn; rewrite ?elem_of_cons, elem_of_nil; naive_solver. }
  destruct (serverTLSOf (cfg_TLS cfg)) as [settings|e]; [|rewrite Hs; cbn in Honly |- *; split_and!; naive_solver].
  destruct (clientTLSOf (cfg_TLS cfg)) as [cl|e]; [|rewrite Hs; cbn in Honly |- *; split_and!; naive_solver].
  pose proof (Validate_None cfg) as Hv. destruct (Validate cfg) as [e|] eqn:Ev.
  { assert (~ ValidConfig cfg) as Hn by (by intros ?%Hv). rewrite Hs. cbn in Honly |- *. split_and!; naive_solver. }
  destruct Hs as [Hl Hr]. rewrite Hl. assert (ValidConfig cfg) as Hc by (by apply Hv). cbn [sl_tasks sl_deferred].
  assert (NodeStoreResource ∈ deferredCalls cfg store <-> is_Some (Some key) /\ exists b, Some store = Some (Some b)) as Hd.
  { unfold deferredCalls. destruct store, (hasPeers cfg); cbn; rewrite ?elem_of_cons, elem_of_nil; naive_solver. }
  destruct (re_listens env _) eqn:Eli; [|rewrite Hr; split_and!; naive_solver].
  destruct Hr as (server & Hserver & Hr). rewrite Hr. split_and!; [naive_solver|done|done|].
  intros sd [= <-]. split; [done|]. exists settings. split; [done|]. unfold NewServer in Hserver. rewrite Eli in Hserver.
  by injection Hserver as <-.
Qed.

(** Of all the goroutines of a node the publisher of root hashes alone may panic on
    its ticker, and it does where the interval is negative: only an interval of zero is
    caught. *)
Theorem only_publisher_panics cfg path :
  Exists (fun t => panics t = true) (allTasks cfg path)
  <-> ap_DNSTXTPublish (pc_Audit (cfg_Policy cfg)) = true /\ ap_DNSTXTInterval (pc_Audit (cfg_Policy cfg)) < 0.
Proof.
  assert (Forall (fun t => panics t = false) (lateTasks cfg)) as Hlate.
  { unfold lateTasks. rewrite !Forall_app, !Forall_cons, Forall_nil. split_and!; try done.
    - destruct (hasPeers cfg); [|done]. rewrite Forall_cons. split; [|done]. unfold panics, tickerOf.
      by destruct (pf_DummyTrafficRate _ <=? 0) eqn:E.
    - destruct (0 <? ap_DNSTXTInterval _) eqn:E; [|by rewrite andb_false_r]. destruct (_ && _ && _); [|done].
      go_bool. rewrite Forall_cons. split; [|done]. unfold panics, tickerOf. by apply Z.leb_gt.
    - by destruct (hasPeers cfg); repeat constructor.
    - unfold panics, tickerOf, gossipInterval. by destruct (net_PeerGossipInterval _ <=? 0) eqn:E. }
  assert (forall ts, Forall (fun t => panics t = false) ts -> ~ Exists (fun t => panics t = true) ts) as Hq.
  { intros ts Hf [t [Ht Hp]]%Exists_exists. rewrite Forall_forall in Hf. by rewrite (Hf t Ht) in Hp. }
  unfold allTasks, earlyTasks. rewrite !Exists_app.
  trans (Exists (fun t => panics t = true) (match publisherOf cfg with Some p => [PublishRoot p] | None => [] end)).
  - split; [|tauto]. intros [[Hx|[Hx|[Hx|[Hx|Hx]]]]|Hx]; [exfalso|done|exfalso..]; revert Hx; apply Hq; try done;
      try (by case_match; repeat constructor); by repeat constructor.
  - unfold publisherOf. destruct (ap_DNSTXTPublish _); cbn [andb]; [|by rewrite Exists_nil; naive_solver].
    destruct (ap_DNSTXTInterval _ =? 0) eqn:E; go_bool; cbn [negb].
    + rewrite Exists_nil, E. split; [done|]. intros [_ ?]. lia.
    + rewrite Exists_cons, Exists_nil. unfold panics, tickerOf. cbn [pb_interval]. rewrite Z.leb_le.
      split; [intros [?|[]]; split; [done|lia]|intros [_ ?]; left; lia].
Qed.
End Run.

(** A node told to stop whose calls outlast the deadline returns without stopping its
    HTTP server; a node whose server failed stops both. *)
Lemma runEnd_stops {E} (w : Wakeup E) inTime httpErr :
  HttpShutdown ∈ (runEnd w inTime httpErr).2 <-> ~ (w = ContextDone /\ inTime = false).
Proof.
  destruct w as [|exit], inTime; cbn; rewrite ?elem_of_cons, ?elem_of_nil; try naive_solver.
Qed.

(** An interval of the file that exceeds 63 bits of nanoseconds is a negative one: the
    file loads, the configuration is valid, and the node's publisher panics. *)
Definition long_interval : rawTOML :=
  let r := rawProfile "balanced" in {|
  raw_Node := raw_Node r; raw_ProfileName := raw_ProfileName r; raw_ProfileOverride := raw_ProfileOverride r;
  raw_Policy := {|
    rp_AllowTo := None; rp_DenyTo := None; rp_StoreLocally := None; rp_MinTrustTier := None; rp_LogAllDecisions := None;
    rp_LogBackend := ""; rp_ExportOperator := None; rp_DNSPublish := Some true; rp_DNSIntervalS := 9223372037;
    rp_HTTPSWellKnown := None; rp_RootHashGossip := None; rp_AllowVia := None; rp_AppIsolation := "";
    rp_AllowedAppIDs := None; rp_AutoAccept := ""; rp_TrustedNodes := None; rp_Rules := [] |};
  raw_Network := raw_Network r; raw_Peers := raw_Peers r; raw_TLS := raw_TLS r; raw_API := raw_API r;
  raw_Storage := raw_Storage r; raw_Apps := raw_Apps r; raw_Adapters := raw_Adapters r; raw_Iso20022 := raw_Iso20022 r |}.

Example long_interval_panics :
  match Load (fun _ => Some false) (fun _ => Some ""%string) (fun _ => Some long_interval) "node.toml" with
  | Ok cfg => existsb panics (allTasks cfg "node.toml")
  | Err _ => false
  end = true.
Proof. vm_compute. reflexivity. Qed.
