(* ===== verification/Run.v ===== *)
(** * A node at work (package [internal/app])

    What happens to a started node: HTTP requests, remote calls through the codec and
    the table of methods, ticks of its goroutines and exchanges with peers, in any
    order; while a discovery request asks the peers, anything else may happen.  Every
    state a node reaches from its start is sound. *)

From S2P Require Import Prelude GoStrings GoCrypto Utf8 Json JsonFields Config ConfigJson Schema Crl Store AuditLog Policy Core Dedup Transit Delivery Gateway Background Tls Session Token Identity Connect PeerDiscovery Discovery RateLimit Adapter AdapterDiscovery Codec Service Messages GoText Cli Registry Metrics Exposition Inbox Webhook Callbacks HttpStores HttpAuth Http HttpAdmin HttpServer HttpSafety HttpFlows HttpDemo App Node ConnPool Startup.

(** ** The gateway appends to the log and keeps the index *)

Section GatewayKeeps.
Context `{UnicodeTables} {B : Type} `{NodeStore B} {F : Type} `{CoreForwarder F} {W : Type}.
Implicit Types (g : Gateway W) (st : GwState B F W).

Lemma appendAudit_steps now e cfg result rq (log : Log B) : rtc log_step log (appendAudit now e cfg result rq log).
Proof. unfold appendAudit. destruct (en_auditing e); [|done]. apply rtc_once. apply step_append. Qed.

Lemma forwardAllowed_steps g c env f log ph f' log' :
  forwardAllowed g c env f log = Some (ph, f', log') -> rtc log_step log log'.
Proof. intros [->|(_ & _ & ->)]%forwardAllowed_log; [done|]. apply rtc_once, step_finality. Qed.

(** Whatever a call does, the log makes steps of its own. *)
Lemma SendEnvelope_steps g c req st : rtc log_step (gs_audit st) (gs_audit (SendEnvelope g c req st).2).
Proof.
  unfold SendEnvelope. cbn zeta. destruct (str_eqb _ ""); [done|].
  destruct (env_IsDummy _); [apply rtc_once, step_append|].
  destruct (dedupCheck _ _ _ _) as [[] idx]; [apply rtc_once, step_append|].
  pose proof (Evaluate_log (ck_audit c) (gs_policy st) (gs_crl st)
    (policyRequest (with_schema_type (Normalize (env_SchemaType (sr_Envelope req))) (sr_Envelope req))) (gs_audit st)) as He.
  destruct (Evaluate _ _ _ _ _) as [res log]. cbn [fst snd] in He. subst log.
  destruct (str_eqb _ DecisionAllow); [|apply appendAudit_steps].
  destruct (forwardAllowed _ _ _ _ _) as [[[ph f'] log']|] eqn:Ef; [|apply appendAudit_steps].
  etrans; [apply appendAudit_steps|]. by eapply forwardAllowed_steps.
Qed.

Lemma SendEnvelope_index g c req st : index_wf (gs_dedup st) -> index_wf (gs_dedup (SendEnvelope g c req st).2).
Proof.
  intros Hi. unfold SendEnvelope. cbn zeta. destruct (str_eqb _ ""); [done|]. destruct (env_IsDummy _); [done|].
  set (env := with_schema_type _ _). assert (index_wf (dedupCheck g c env (gs_dedup st)).2) as Hd.
  { unfold dedupCheck. destruct (str_eqb _ _); by apply SeenOrAddWithTTL_wf. }
  destruct (dedupCheck _ _ _ _) as [[] idx]; [done|]. destruct (Evaluate _ _ _ _ _) as [res log].
  destruct (str_eqb _ DecisionAllow); [|done]. by destruct (forwardAllowed _ _ _ _ _) as [[[ph f'] log']|].
Qed.
End GatewayKeeps.

(** ** The node's view of its adapter *)

Section Views.
Context {B X : Type}.

Definition with_node (d : NodeState (B := B) (X := X)) (n : RunningNode B X) : RunningNode B X :=
  {| rn_node := d; rn_seqRecv := rn_seqRecv n; rn_tokens := rn_tokens n; rn_peers := rn_peers n; rn_seen := rn_seen n;
     rn_limiter := rn_limiter n; rn_generator := rn_generator n |}.

Definition with_server (s : HttpState B X) (n : RunningNode B X) : RunningNode B X :=
  with_node {| nd_http := s; nd_watch := nd_watch (rn_node n) |} n.

Definition with_peers_of (r : PeerRegistry) (n : RunningNode B X) : RunningNode B X :=
  {| rn_node := rn_node n; rn_seqRecv := rn_seqRecv n; rn_tokens := rn_tokens n; rn_peers := r; rn_seen := rn_seen n;
     rn_limiter := rn_limiter n; rn_generator := rn_generator n |}.

Definition gateway_of (n : RunningNode B X) : GwState B (FwdState X) World := hs_gw (nd_http (rn_node n)).

(** The adapter shares the gateway and the cache of root hashes with the server. *)
Definition adapterView (n : RunningNode B X) : AdapterState B (FwdState X) World := {|
  as_gw := gateway_of n; as_seqRecv := rn_seqRecv n; as_peerCache := hs_peers (nd_http (rn_node n));
  as_tokenStore := Some (rn_tokens n); as_peerRegistry := Some (rn_peers n); as_seen := rn_seen n;
  as_limiter := Some (rn_limiter n) |}.

Definition adapterPut (st : AdapterState B (FwdState X) World) (n : RunningNode B X) : RunningNode B X :=
  let h := nd_http (rn_node n) in {|
  rn_node := {| nd_http := {| hs_gw := as_gw st; hs_peers := as_peerCache st; hs_registry := hs_registry h;
                              hs_runtimePeers := hs_runtimePeers h; hs_apps := hs_apps h; hs_adapters := hs_adapters h |};
                nd_watch := nd_watch (rn_node n) |};
  rn_seqRecv := as_seqRecv st; rn_tokens := default (rn_tokens n) (as_tokenStore st);
  rn_peers := default (rn_peers n) (as_peerRegistry st); rn_seen := as_seen st;
  rn_limiter := default (rn_limiter n) (as_limiter st); rn_generator := rn_generator n |}.

(** A method of the adapter on the node. *)
Definition onAdapter {A} (f : AdapterState B (FwdState X) World -> A * AdapterState B (FwdState X) World)
    (n : RunningNode B X) : A * RunningNode B X := let (a, st) := f (adapterView n) in (a, adapterPut st n).
End Views.

(** What the callbacks given to the metrics registry read. *)
Definition nodeGauges {B X} (n : RunningNode B X) : Gauges := {|
  ga_dlq := Some (match fs_dlq (gs_fwd (gateway_of n)) with Some q => Size q | None => O end);
  ga_transit := Some (match fs_transit (gs_fwd (gateway_of n)) with Some c => CacheLen c | None => O end);
  ga_peersKnown := Some (size (pr_peers (rn_peers n))) |}.

(** ** The service *)

Inductive NodeError := SendStatus (e : StatusError) | DiscoveryStatus (e : DiscoveryError).

(** What a remote call reads from the outside. *)
Record RpcEnv := {
  rp_call : CallEnv; rp_discovery : DiscoveryEnv; rp_lookup : Z; rp_mutual : Z; rp_ack : Z; rp_uuid : string;
  rp_clock : nat -> Z; rp_visit : gmap string PeerInfo -> list (string * PeerInfo) }.

Section Service.
Context `{UnicodeTables} `{Ed25519} {B : Type} `{NodeStore B} {X : Type} `{CoreForwarder (FwdState X)}.
Implicit Types (n : RunningNode B X).

Definition failsWith {A E E' S} (wrap : E -> E') (r : outcome E A * S) : outcome E' A * S :=
  (match r.1 with Ok a => Ok a | Err e => Err (wrap e) end, r.2).

Definition succeeds {A E S} (r : A * S) : outcome E A * S := (Ok r.1, r.2).

(** The adapter as the service the node registers; [ask] is what the peers answer a
    forwarded discovery request, and what becomes of this node meanwhile. *)
Definition adapterService (a : GatewayAdapter World) (e : RpcEnv)
    (ask : string -> DRequest -> RunningNode B X -> option DResponse * RunningNode B X)
  : GatewayService (RunningNode B X) NodeError := {|
  svc_SendEnvelope := fun env n => failsWith SendStatus (onAdapter (AdapterSend a (rp_call e) env) n);
  svc_GetNodeInfo := fun n => (Ok (AdapterNodeInfo a), n);
  svc_ShareRootHash := fun m n => succeeds (onAdapter (ShareRootHash m) n);
  svc_BroadcastDiscovery := fun r n =>
    failsWith DiscoveryStatus (BroadcastDiscovery adapterView adapterPut ask a (rp_discovery e) r n);
  svc_Connect := fun r n => succeeds (onAdapter (Connect a (rp_lookup e) (rp_mutual e) (rp_ack e) (rp_uuid e) r) n);
  svc_ExchangePeers := fun r n => succeeds (onAdapter (ExchangePeers a (rp_clock e) (rp_visit e) r) n) |}.
End Service.

(** ** What may happen *)

Section Steps.
Context `{UnicodeTables} `{Ed25519} `{Jwt} {B : Type} `{NodeStore B} {X : Type} `{CoreForwarder (FwdState X)}.
Context {Certificate CertPool : Type}.
Context (LoadX509KeyPair : string -> string -> option Certificate).
Context (ReadFile : string -> option string) (CertsFromPEM : string -> option CertPool).
Context (errText : FwdError -> string) (jsonErrText : string -> string) (configErrText : ConfigError -> string).
Context (stat : string -> option bool) (open_file : string -> option string) (decode_toml : string -> option rawTOML).
Context (env : RunEnv (B := B) (X := X)) (cfg : Config) (configPath : string).

#[local] Notation StartedNode := (Started (B := B) (X := X) (Certificate := Certificate) (CertPool := CertPool)).
#[local] Notation Running := (RunningNode B X).

(** One thing happens to the node: a request, a remote call, a tick of a goroutine
    that was started, or an exchange with a peer.  While a remote call asks the peers,
    [during] may happen. *)
Inductive run_step (sd : StartedNode) (during : relation Running) : relation Running :=
| run_request c r n :
    run_step sd during n (with_server (ServeHTTP errText jsonErrText (sd_deps sd) c r (nd_http (rn_node n))).2 n)
| run_call e ask path text r n n' :
    (forall addr req m, during m (ask addr req m).2) ->
    serveCall (adapterService (sd_adapter sd) e ask) jsonCodec None path text n = Some (r, n') ->
    run_step sd during n n'
| run_watch m n ws e :
    WatchConfig configPath ∈ allTasks cfg configPath ->
    watchTick stat open_file decode_toml configPath m (nd_watch (rn_node n)) (gs_policy (gateway_of n)) = (ws, e) ->
    run_step sd during n (with_node {| nd_http := setEngine e (nd_http (rn_node n)); nd_watch := ws |} n)
| run_transit now clk order n :
    TransitRetry ∈ allTasks cfg configPath ->
    run_step sd during n (with_server (setGw (setFwd (transitTick now clk order (gs_fwd (gateway_of n))) (gateway_of n))
                                         (nd_http (rn_node n))) n)
| run_purge now n :
    run_step sd during n (with_server (setGw (purgeTick now (gateway_of n)) (nd_http (rn_node n))) n)
| run_purge_tokens now n :
    run_step sd during n (adapterPut (with_tokens (PurgeTokens now (rn_tokens n)) (adapterView n)) n)
| run_purge_seen now i n :
    rn_seen n = Some i -> run_step sd during n (adapterPut (with_seen (Purge now i) (adapterView n)) n)
| run_cleanup now n :
    run_step sd during n (adapterPut (with_limiter (cleanupTick now (rn_limiter n)) (adapterView n)) n)
| run_evict now n :
    run_step sd during n (with_peers_of (EvictStale now (staleAge (gossipInterval cfg)) (rn_peers n)) n)
| run_exchange (answers : string -> PeerListRequest -> option (list PeerEntry)) visit clk addr n :
    run_step sd during n
      (with_peers_of (dialAndExchange (fun a req (w : unit) => (answers a req, w)) cfg visit clk addr (rn_peers n, tt)).1 n)
| run_dummies clk calls n :
    generates (rn_generator n) (re_peers env).*2 = true -> length calls = length (re_peers env) ->
    run_step sd during n
      (let (envs, g) := dummyTick clk (re_peers env).*2 (rn_generator n) in
       let n' := with_server (setGw (sendDummies (ga_gw (sd_adapter sd)) (zip calls envs) (gateway_of n)) (nd_http (rn_node n))) n in
       {| rn_node := rn_node n'; rn_seqRecv := rn_seqRecv n'; rn_tokens := rn_tokens n'; rn_peers := rn_peers n';
          rn_seen := rn_seen n'; rn_limiter := rn_limiter n'; rn_generator := g |}).

(** Runs in which discovery requests wait for their peers inside each other, to a
    depth. *)
Fixpoint runs (sd : StartedNode) (depth : nat) : relation Running :=
  match depth with O => eq | S depth' => rtc (run_step sd (runs sd depth')) end.

(** ** Soundness *)

(** What every state of a running node satisfies: the invariant of the server and
    its configuration, a log that verifies and is numbered, counters that count it,
    and well-formed indexes and registries. *)
Record sound (n : Running) : Prop := {
  so_node : node_inv (rn_node n);
  so_log : log_inv (gs_audit (gateway_of n));
  so_counted : Z.of_nat (length (log_entries (gs_audit (gateway_of n)))) < 2 ^ 63 -> counted (gateway_of n);
  so_index : index_wf (gs_dedup (gateway_of n));
  so_seen : forall i, rn_seen n = Some i -> index_wf i;
  so_peers : registry_wf (rn_peers n) }.

(** Nothing soundness looks at has changed, in the part that a server and a gateway
    make up. *)
Definition same_node (n n' : Running) : Prop :=
  gs_policy (gateway_of n') = gs_policy (gateway_of n) /\ gs_crl (gateway_of n') = gs_crl (gateway_of n)
  /\ gs_audit (gateway_of n') = gs_audit (gateway_of n) /\ gs_dedup (gateway_of n') = gs_dedup (gateway_of n)
  /\ mr_allowTotal (wd_metrics (gs_world (gateway_of n'))) = mr_allowTotal (wd_metrics (gs_world (gateway_of n)))
  /\ mr_duplicateTotal (wd_metrics (gs_world (gateway_of n'))) = mr_duplicateTotal (wd_metrics (gs_world (gateway_of n)))
  /\ mr_denyByReason (wd_metrics (gs_world (gateway_of n'))) = mr_denyByReason (wd_metrics (gs_world (gateway_of n)))
  /\ hs_adapters (nd_http (rn_node n')) = hs_adapters (nd_http (rn_node n))
  /\ hs_apps (nd_http (rn_node n')) = hs_apps (nd_http (rn_node n))
  /\ hs_runtimePeers (nd_http (rn_node n')) = hs_runtimePeers (nd_http (rn_node n)).

Lemma sound_frame n n' :
  same_node n n' -> (forall i, rn_seen n' = Some i -> index_wf i) -> registry_wf (rn_peers n') -> sound n -> sound n'.
Proof.
  intros (Hp & Hc & Ha & Hd & M1 & M2 & M3 & Hs1 & Hs2 & Hs3) Hi Hr [[Hw Hcfg Hau Hcr] Hl Hcn Hx _ _]. split; unfold gateway_of in *; try done.
  - split; [|by rewrite Hp..]. apply (http_wf_frame (nd_http (rn_node n))); try done. rewrite Hc. by destruct Hw.
  - by rewrite Ha.
  - unfold counted, denyTotal, countD in *. by rewrite Ha, M1, M2, M3.
  - by rewrite Hd.
Qed.

(** The node takes a step of its own; its log and its counters go on, its index stays
    well formed. *)
Lemma sound_moves n n' :
  sound n -> node_inv (rn_node n') -> rtc log_step (gs_audit (gateway_of n)) (gs_audit (gateway_of n')) ->
  counts_on (gateway_of n) (gateway_of n') -> index_wf (gs_dedup (gateway_of n')) ->
  rn_seen n' = rn_seen n -> rn_peers n' = rn_peers n -> sound n'.
Proof.
  intros [Hn Hl Hc Hx Hs Hr] Hn' Hsteps [[more Hmore] Hcount] Hx' Hs' Hr'. split; [done| |..|done| |].
  - clear -Hsteps Hl. induction Hsteps as [l|l1 l2 l3 Hs _ IH]; [done|]. apply IH. by eapply log_step_inv.
  - intros Hlen. apply Hcount; [done|]. apply Hc. rewrite Hmore, length_app in Hlen. lia.
  - rewrite Hs'. exact Hs.
  - by rewrite Hr'.
Qed.

(** ** The steps keep it *)

(** What all methods of a service keep, a call keeps. *)
Lemma serveCall_keeps {S E} (P : S -> Prop) (svc : GatewayService S E) path text s r s' :
  (forall e s, P s -> P (svc_SendEnvelope svc e s).2) -> (forall s, P s -> P (svc_GetNodeInfo svc s).2) ->
  (forall m s, P s -> P (svc_ShareRootHash svc m s).2) -> (forall q s, P s -> P (svc_BroadcastDiscovery svc q s).2) ->
  (forall q s, P s -> P (svc_Connect svc q s).2) -> (forall q s, P s -> P (svc_ExchangePeers svc q s).2) ->
  serveCall svc jsonCodec None path text s = Some (r, s') -> P s -> P s'.
Proof.
  intros H1' H2' H3' H4' H5' H6' Hc Hs. unfold serveCall in Hc. apply bind_Some in Hc as ([name h] & Hf & Hc).
  apply fmap_Some in Hf as ([k m] & Hf & Hm). cbn [snd] in Hm. subst m.
  apply list_find_Some in Hf as (Hf & _ & _). apply list_elem_of_lookup_2 in Hf.
  assert (h (mc_decode jsonCodec name text) None s = (r, s')) as Hr by (by injection Hc).
  assert (P (h (mc_decode jsonCodec name text) None s).2) as Hp; [clear Hc Hr|by rewrite Hr in Hp].
  unfold gatewayMethods in Hf. rewrite !elem_of_cons in Hf.
  destruct Hf as [[= _ ->]|[[= _ ->]|[[= _ ->]|[[= _ ->]|[[= _ ->]|[[= _ ->]|Hf%elem_of_nil]]]]]]; try done;
    unfold sendEnvelopeHandler, getNodeInfoHandler, shareRootHashHandler, broadcastDiscoveryHandler, connectHandler,
      exchangePeersHandler, unaryHandler; destruct (mc_decode _ _ _) as [[]|]; cbn; auto.
Qed.

(** The handler of discovery requests keeps what its writes and the peers keep. *)
Lemma discovery_keeps (P : Running -> Prop) (ask : string -> DRequest -> Running -> option DResponse * Running) a d req n :
  P n -> (forall l n, P n -> P (adapterPut (with_limiter l (adapterView n)) n)) ->
  (forall l inc n, ga_metrics a = Some inc -> P n -> P (adapterPut (on_world inc (with_limiter l (adapterView n))) n)) ->
  (forall i n, P n -> index_wf i -> P (adapterPut (with_seen i (adapterView n)) n)) ->
  (forall t n, P n -> P (adapterPut (with_tokens t (adapterView n)) n)) ->
  (forall n i, P n -> rn_seen n = Some i -> index_wf i) ->
  (forall addr q n, P n -> P (ask addr q n).2) ->
  P (BroadcastDiscovery adapterView adapterPut ask a d req n).2.
Proof.
  intros Hn Hl Hinc Hi Ht Hwf Hask. unfold BroadcastDiscovery. cbn [adapterView as_tokenStore].
  destruct (limitDiscovery a (de_limit d) (dq_OriginNodeID req) (adapterView n)) as [ok st1] eqn:El.
  assert (P (adapterPut st1 n)) as P1.
  { unfold limitDiscovery in El. cbn [adapterView as_limiter] in El. destruct (Allow _ _ _) as [b l'].
    destruct b; [|destruct (ga_metrics a) eqn:Em]; injection El as <- <-; eauto. }
  cbv zeta. destruct (negb ok); [done|]. destruct (isolated _ _ _ _); [done|].
  assert (P (fanOut adapterView adapterPut ask d req (adapterPut st1 n)).2) as P2.
  { unfold fanOut. destruct (as_seen _) as [i|] eqn:Es; [|done]. unfold Broadcast. destruct (stale _ _); [done|].
    rewrite Es. cbn [default from_option].
    pose proof (SeenOrAddWithTTL_wf (de_dedup d) (dq_RequestID req) (dx_ttl i) i (Hwf _ _ P1 Es)) as Hi'.
    change (SeenOrAddWithTTL _ _ _ _) with (SeenOrAdd (de_dedup d) (dq_RequestID req) i) in Hi'.
    destruct (SeenOrAdd _ _ _) as [[] i']; cbn [snd] in Hi'; [by apply Hi|].
    destruct (dq_HopLimit req =? 0); [by apply Hi|]. apply askAll_keeps; [by apply Hi|]. auto. }
  destruct (fanOut _ _ _ _ _ _) as [[|r rs] n2]; [|done]. cbn [snd] in P2. cbn [adapterView as_tokenStore].
  destruct (searchUsers _ _ _ _ _ _ _) as [r ts']. by apply Ht.
Qed.

Section Assembled.
Context (key : ed_PrivateKey) (store : option B).
Context (server : GrpcServer (TLSSettings (Certificate := Certificate) (CertPool := CertPool))).

#[local] Notation engine := {| en_cfg := cfg; en_auditing := true; en_hasCRL := true |}.
#[local] Notation sd := (assemble configErrText stat open_file decode_toml env cfg configPath key store engine server).
#[local] Notation node_step := (node_step errText jsonErrText configErrText stat open_file decode_toml cfg configPath
  (re_startTime env) key (re_apps env) (hasPeers cfg)).

(** A step of the server and the gateway. *)
Lemma sound_node_step n d' :
  sound n -> node_step (rn_node n) d' ->
  rtc log_step (gs_audit (gateway_of n)) (gs_audit (hs_gw (nd_http d'))) -> index_wf (gs_dedup (hs_gw (nd_http d'))) ->
  sound (with_node d' n).
Proof.
  intros Hn Hs Hl Hi. apply (sound_moves n); try done; [by eapply node_step_inv, so_node|].
  eapply node_step_counts; [exact Hs|by apply so_node].
Qed.

Lemma sound_request c r n : sound n -> sound (with_server (ServeHTTP errText jsonErrText (sd_deps sd) c r (nd_http (rn_node n))).2 n).
Proof.
  intros Hn. apply sound_node_step; [done|apply node_request| |].
  - apply (ServeHTTP_sends errText jsonErrText configErrText stat open_file decode_toml cfg configPath (re_startTime env) key
      (re_apps env) (hasPeers cfg) (fun g1 g2 => rtc log_step (gs_audit g1) (gs_audit g2))); [done| |].
    + intros e. apply SendEnvelope_steps.
    + intros s1 s2 Hs Ha _ _. by rewrite Ha.
  - apply (ServeHTTP_sends errText jsonErrText configErrText stat open_file decode_toml cfg configPath (re_startTime env) key
      (re_apps env) (hasPeers cfg) (fun g1 g2 => index_wf (gs_dedup g1) -> index_wf (gs_dedup g2))); [done| | |].
    + intros e Hi. by apply SendEnvelope_index.
    + intros s1 s2 Hs _ Hd _ Hi. rewrite Hd. auto.
    + apply Hn.
Qed.

Lemma sound_send c req n :
  sound n -> sound (with_server (setGw (SendEnvelope (ga_gw (sd_adapter sd)) c req (gateway_of n)).2 (nd_http (rn_node n))) n).
Proof.
  intros Hn. apply sound_node_step; [done|apply node_envelope|apply SendEnvelope_steps|]. apply SendEnvelope_index, Hn.
Qed.

Ltac framed n := apply (sound_frame n); [split_and!; reflexivity| | |assumption].

Lemma sound_put_seq t n : sound n ->
  sound {| rn_node := rn_node n; rn_seqRecv := t; rn_tokens := rn_tokens n; rn_peers := rn_peers n; rn_seen := rn_seen n;
           rn_limiter := rn_limiter n; rn_generator := rn_generator n |}.
Proof. intros Hn. framed n; apply Hn. Qed.

Lemma sound_tokens t n : sound n -> sound (adapterPut (with_tokens t (adapterView n)) n).
Proof. intros Hn. framed n; apply Hn. Qed.

Lemma sound_limiter l n : sound n -> sound (adapterPut (with_limiter l (adapterView n)) n).
Proof. intros Hn. framed n; apply Hn. Qed.

Lemma sound_seen i n : sound n -> index_wf i -> sound (adapterPut (with_seen i (adapterView n)) n).
Proof. intros Hn Hi. framed n; [by intros j [= <-]|apply Hn]. Qed.

Lemma sound_peers r n : sound n -> registry_wf r -> sound (with_peers_of r n).
Proof. intros Hn Hr. framed n; [apply Hn|done]. Qed.

Lemma sound_limited l inc n :
  sound n -> ga_metrics (sd_adapter sd) = Some inc -> sound (adapterPut (on_world inc (with_limiter l (adapterView n))) n).
Proof. intros Hn [= <-]. framed n; apply Hn. Qed.

Lemma sound_exchanged e req n : sound n -> sound (onAdapter (ExchangePeers (sd_adapter sd) (rp_clock e) (rp_visit e) req) n).2.
Proof. intros Hn. framed n; [apply Hn|]. apply mergePeers_wf, Hn. Qed.

Lemma sound_connect now nowM nowA uuid req n :
  sound n -> sound (onAdapter (Connect (sd_adapter sd) now nowM nowA uuid req) n).2.
Proof.
  intros Hn. unfold onAdapter, Connect. cbn [adapterView as_tokenStore].
  destruct (connectLookup _ _ _) as [[app|ack] ts]; by apply sound_tokens.
Qed.

Lemma sound_sent e c n : sound n -> sound (onAdapter (AdapterSend (sd_adapter sd) c e) n).2.
Proof.
  intros Hn. unfold onAdapter, AdapterSend. cbn [adapterView as_gw ga_verifyKey sd_adapter assemble startAdapter NewAdapterWithDiscovery fst].
  pose proof (sound_send c {| sr_Envelope := coreEnvelope e |} _ (sound_put_seq (checkSequence e (rn_seqRecv n)) n Hn)) as Hs.
  cbn in Hs |- *. destruct (SendEnvelope _ _ _ _) as [res g]. cbn in Hs |- *. exact Hs.
Qed.

(** Whatever arrives over gRPC. *)
Lemma sound_call e ask path text r n n' :
  (forall addr q m, sound m -> sound (ask addr q m).2) ->
  serveCall (adapterService (sd_adapter sd) e ask) jsonCodec None path text n = Some (r, n') -> sound n -> sound n'.
Proof.
  intros Hask. apply serveCall_keeps; cbn [adapterService svc_SendEnvelope svc_GetNodeInfo svc_ShareRootHash
    svc_BroadcastDiscovery svc_Connect svc_ExchangePeers failsWith succeeds snd].
  - intros. by apply sound_sent.
  - done.
  - intros m s Hs. framed s; apply Hs.
  - intros q s Hs. apply discovery_keeps; [done|auto using sound_limiter|eauto using sound_limited|auto using sound_seen
      |auto using sound_tokens|intros; by eapply so_seen|done].
  - intros. by apply sound_connect.
  - intros. by apply sound_exchanged.
Qed.

Lemma sound_dummies calls n :
  sound n -> sound (with_server (setGw (sendDummies (ga_gw (sd_adapter sd)) calls (gateway_of n)) (nd_http (rn_node n))) n).
Proof.
  revert n. induction calls as [|[c e] calls IH]; intros n Hn; [by destruct n as [[[]]]|].
  exact (IH _ (sound_send c {| sr_Envelope := e |} n Hn)).
Qed.

Lemma run_step_sound (during : relation Running) n n' :
  (forall m m', during m m' -> sound m -> sound m') -> run_step sd during n n' -> sound n -> sound n'.
Proof.
  intros Hd Hs Hn. destruct Hs as [c r n|e ask path text r n n' Hask Hc|m n ws e _ Hw|now clk order n _|now n|now n
    |now i n Hi|now n|now n|answers visit clk addr n|clk calls n Hg Hl].
  - by apply sound_request.
  - eapply sound_call; [|exact Hc|done]. intros addr q m Hm. by eapply Hd.
  - apply sound_node_step; [done|by eapply node_watch|done|apply Hn].
  - apply sound_node_step; [done|apply node_transit|done|apply Hn].
  - apply sound_node_step; [done|apply node_purge|done|]. apply Purge_wf, Hn.
  - by apply sound_tokens.
  - apply sound_seen; [done|]. apply Purge_wf. by eapply so_seen.
  - by apply sound_limiter.
  - apply sound_peers; [done|]. intros k p [Hp _]%map_lookup_filter_Some. by apply (so_peers _ Hn).
  - apply sound_peers; [done|]. unfold dialAndExchange. destruct (answers _ _) as [ps|]; cbn [fst]; [|apply Hn].
    apply announceAll_wf, Hn.
  - destruct (dummyTick _ _ _) as [envs g]. cbn zeta. pose proof (sound_dummies (zip calls envs) n Hn) as Hs.
    revert Hs. set (n' := with_server _ n). intros Hs. framed n'; apply Hs.
Qed.

Lemma runs_sound depth n n' : runs sd depth n n' -> sound n -> sound n'.
Proof.
  revert n n'. induction depth as [|depth IH]; intros n n'; cbn [runs]; [by intros ->|].
  induction 1 as [n|n1 n2 n3 Hs _ IHs]; [done|]. intros Hn. apply IHs. eapply run_step_sound; [|exact Hs|done].
  intros m m' Hm. by apply IH.
Qed.

Lemma newLog_inv : log_inv (newLog store).
Proof. destruct store as [b|]; (split; [|by intros i e [=]]); cbn; [apply (SetStore_wf b NewLog)|]; apply NewLog_wf. Qed.

Lemma seedPeers_wf clk visit : registry_wf (seedPeers clk visit NewPeerRegistry).
Proof. apply announceAll_wf, map_Forall_empty. Qed.

(** A node starts sound. *)
Lemma assemble_sound : Validate cfg = None -> sound (sd_state sd).
Proof.
  intros Hv. apply Validate_None in Hv. split; cbn [sd_state assemble startAdapter NewAdapterWithDiscovery rn_node rn_seen rn_peers].
  - split; [|done..]. split; [| | |apply crl_wf_New].
    + intros ra [= <-]. apply map_Forall_empty.
    + intros ra [= <-]. apply map_Forall_empty.
    + intros rp [= <-]. constructor.
  - apply newLog_inv.
  - intros _. split_and!; [by destruct store..|]. apply map_Forall_empty.
  - apply NewIndex_wf.
  - intros i Hi. cbn in Hi. destruct (hasPeers cfg); [|done]. injection Hi as <-. apply NewIndex_wf.
  - apply seedPeers_wf.
Qed.
End Assembled.
End Steps.

(** ** From the start *)

(** The same envelope under another signature. *)
Definition resign (sig : bytes) (e : WireEnvelope) : WireEnvelope := {|
  we_IdempotencyKey := we_IdempotencyKey e; we_SenderNodeID := we_SenderNodeID e; we_SenderIdentity := we_SenderIdentity e;
  we_RecipientIdentity := we_RecipientIdentity e; we_SenderRegion := we_SenderRegion e;
  we_RecipientRegion := we_RecipientRegion e; we_TrustTier := we_TrustTier e; we_SequenceNumber := we_SequenceNumber e;
  we_Payload := we_Payload e; we_PaddedTo := we_PaddedTo e; we_Timestamp := we_Timestamp e; we_Signature := sig;
  we_IsDummy := we_IsDummy e; we_SchemaType := we_SchemaType e; we_SchemaVersion := we_SchemaVersion e;
  we_RoutingHint := we_RoutingHint e |}.

(** Two answers with the same decision for the same reason, or the same error. *)
Definition same_verdict {E} (r r' : outcome E SendEnvelopeResponse) : Prop :=
  match r, r' with
  | Ok a, Ok b => wr_Decision a = wr_Decision b /\ wr_Reason a = wr_Reason b
  | Err e, Err e' => e = e'
  | _, _ => False
  end.

Section Resign.
Context `{UnicodeTables}.

(** Whether an allowed envelope makes the gateway panic does not depend on its
    signature. *)
Lemma forwardAllowed_panics {B F W} `{NodeStore B} `{CoreForwarder F} (g : Gateway W) c e sig ty f (log : Log B) :
  forwardAllowed g c (with_schema_type ty (coreEnvelope (resign sig e))) f log = None
  <-> forwardAllowed g c (with_schema_type ty (coreEnvelope e)) f log = None.
Proof.
  unfold forwardAllowed. cbn zeta. destruct (gw_forwarder g); cbn [negb]; [|done]. destruct (applyJitter _ _); cbn [negb]; [|done].
  unfold applyPadding. cbn [env_Payload with_schema_type coreEnvelope resign we_Payload].
  destruct (_ || _); [by repeat case_match|]. destruct (padTo _ _); [|done]. by repeat case_match.
Qed.

(** The gateway's decision does not look at the signature. *)
Lemma SendEnvelope_resign {B F W} `{NodeStore B} `{CoreForwarder F} (g : Gateway W) c e sig (st : GwState B F W) :
  match (SendEnvelope g c {| sr_Envelope := coreEnvelope e |} st).1,
        (SendEnvelope g c {| sr_Envelope := coreEnvelope (resign sig e) |} st).1 with
  | Ok a, Ok b => rs_Decision a = rs_Decision b /\ rs_Reason a = rs_Reason b
  | Err x, Err y => x = y
  | _, _ => False
  end.
Proof.
  unfold SendEnvelope. cbn zeta. cbn [sr_Envelope].
  change (env_SchemaType (coreEnvelope (resign sig e))) with (env_SchemaType (coreEnvelope e)).
  set (ty := Normalize _). change (env_IdempotencyKey (coreEnvelope (resign sig e))) with (env_IdempotencyKey (coreEnvelope e)).
  change (env_IsDummy (with_schema_type ty (coreEnvelope (resign sig e)))) with (env_IsDummy (coreEnvelope e)).
  change (env_IsDummy (with_schema_type ty (coreEnvelope e))) with (env_IsDummy (coreEnvelope e)).
  destruct (str_eqb _ ""); [done|]. destruct (env_IsDummy _); [done|].
  change (dedupCheck g c (with_schema_type ty (coreEnvelope (resign sig e))) (gs_dedup st))
    with (dedupCheck g c (with_schema_type ty (coreEnvelope e)) (gs_dedup st)).
  destruct (dedupCheck _ _ _ _) as [[] idx]; [done|].
  change (policyRequest (with_schema_type ty (coreEnvelope (resign sig e)))) with (policyRequest (with_schema_type ty (coreEnvelope e))).
  destruct (Evaluate _ _ _ _ _) as [res log]. destruct (str_eqb _ DecisionAllow); [|done].
  pose proof (forwardAllowed_panics g c e sig ty (gs_fwd st) log) as Hp.
  destruct (forwardAllowed g c (with_schema_type ty (coreEnvelope e)) _ _) as [[[ph f'] log']|],
    (forwardAllowed g c (with_schema_type ty (coreEnvelope (resign sig e))) _ _) as [[[ph2 f2] log2]|]; cbn; try done; naive_solver.
Qed.

End Resign.

Section Started.
Context `{UnicodeTables} `{Ed25519} `{Jwt} {B : Type} `{NodeStore B} {X : Type} `{CoreForwarder (FwdState X)}.
Context {Certificate CertPool : Type}.
Context (LoadX509KeyPair : string -> string -> option Certificate).
Context (ReadFile : string -> option string) (CertsFromPEM : string -> option CertPool).
Context (errText : FwdError -> string) (jsonErrText : string -> string) (configErrText : ConfigError -> string).
Context (stat : string -> option bool) (open_file : string -> option string) (decode_toml : string -> option rawTOML).
Context (env : RunEnv (B := B) (X := X)) (cfg : Config) (configPath : string).

#[local] Notation startOf := (start LoadX509KeyPair ReadFile CertsFromPEM configErrText stat open_file decode_toml env cfg configPath).
#[local] Notation runsOf := (runs errText jsonErrText stat open_file decode_toml env cfg configPath).

(** A started node is the one [assemble] gives for a valid configuration. *)
Lemma start_Ok sd :
  startOf.1 = Ok sd -> Validate cfg = None /\ exists key store server,
    sd = assemble configErrText stat open_file decode_toml env cfg configPath key store
           {| en_cfg := cfg; en_auditing := true; en_hasCRL := true |} server.
Proof.
  intros Hs. pose proof (start_cases LoadX509KeyPair ReadFile CertsFromPEM configErrText stat open_file decode_toml env cfg
    configPath) as Ho. destruct (fst <$> _) as [key|]; [|by rewrite Ho in Hs].
  destruct (storeOpens _ _) as [store|]; [|destruct Ho as [e Ho]; by rewrite Ho in Hs].
  destruct (LoadServerTLS _ _ _ _) as [settings|]; [|by rewrite Ho in Hs].
  destruct (LoadClientTLS _ _ _ _); [|by rewrite Ho in Hs]. destruct (Validate cfg); [by rewrite Ho in Hs|].
  destruct Ho as [_ Ho]. destruct (re_listens _ _); [|by rewrite Hs in Ho]. destruct Ho as (server & _ & Ho).
  split; [done|]. exists key, store, server. rewrite Ho in Hs. by injection Hs as <-.
Qed.

(** C9: A node that starts stays sound.  Whatever arrives over HTTP and gRPC,
    whatever its goroutines and its peers do, in any order and with discovery requests
    waiting inside each other to any depth: the policy engine runs on a valid
    configuration, audits and consults the revocation list; the audit log verifies and
    is numbered from one; the envelope counters are the numbers of its entries (below
    2^63 of them); the stores of the server, the index of keys and the registry of
    peers are well formed. *)
Theorem node_stays_sound sd depth n :
  startOf.1 = Ok sd -> runsOf sd depth (sd_state sd) n ->
  let g := gateway_of n in
  (ValidConfig (en_cfg (gs_policy g)) /\ en_auditing (gs_policy g) = true /\ en_hasCRL (gs_policy g) = true)
  /\ (Verify (gs_audit g) = None
      /\ forall i e, log_entries (gs_audit g) !! i = Some e -> ae_Seq e = wrap_u64 (Z.of_nat i + 1))
  /\ (Z.of_nat (length (log_entries (gs_audit g))) < 2 ^ 63 -> counted g)
  /\ http_wf (nd_http (rn_node n)) /\ index_wf (gs_dedup g) /\ registry_wf (rn_peers n).
Proof.
  intros (Hv & key & store & server & ->)%start_Ok Hr.
  eapply runs_sound in Hr as [[Hw Hc Ha Hcr] [Hl Hseq] Hcount Hi _ Hp]; [|by apply assemble_sound].
  split_and!; try done. by apply Verify_None.
Qed.


(** From the command line to the running node.  A gateway that starts runs the
    configuration of its file, with the HTTP address of the flag where there is one, in
    its gateway, its policy engine and its server alike; that configuration is valid,
    and a blank address of the flag never starts a gateway. *)
Theorem gateway_process args sd :
  gatewayMain stat open_file decode_toml args = Runs cfg configPath -> startOf.1 = Ok sd ->
  exists cfg0 addr, Load stat open_file decode_toml configPath = Ok cfg0 /\ ValidConfig cfg0
    /\ cfg = (if str_eqb addr "" then cfg0 else with_http_addr addr cfg0) /\ (addr = ""%string \/ blank addr = false)
    /\ dp_cfg (sd_deps sd) = cfg /\ gw_cfg (ga_gw (sd_adapter sd)) = cfg
    /\ en_cfg (gs_policy (gateway_of (sd_state sd))) = cfg.
Proof.
  intros Hm (Hv & key & store & server & ->)%start_Ok.
  apply gateway_start in Hm as (cfg0 & addr & Hl & H0v & Hcfg & Hb). exists cfg0, addr. split_and!; try done.
  - by apply Hb, Validate_None.
  - cbn. unfold wiredGateway, wireCallbacks. cbv zeta. by destruct (nonempty (re_apps env)).
Qed.

(** C24: The metrics page tells the audit log.  Whatever a started node has been
    through, as long as its log has fewer than 2^63 entries, the text of [/metrics] has
    lines that give the numbers of ALLOW and of DUPLICATE entries of the audit log, and a
    line for every reason of denial, whose numbers add up to the number of DENY entries. *)
Theorem metrics_page_counts `{PrintTable} sd depth n visit :
  startOf.1 = Ok sd -> runsOf sd depth (sd_state sd) n ->
  let log := gs_audit (gateway_of n) in
  let metrics := wd_metrics (gs_world (gateway_of n)) in
  Z.of_nat (length (log_entries log)) < 2 ^ 63 -> visit ≡ₚ map_to_list (mr_denyByReason metrics) ->
  let page := split_at is_newline (metricsPage visit (nodeGauges n) metrics) in
  metricLine "mrmi_envelope_allow_total" (countD DecisionAllow log) ∈ page
  /\ metricLine "mrmi_envelope_duplicate_total" (countD DecisionDuplicate log) ∈ page
  /\ (forall rn, rn ∈ visit -> denyLine rn ∈ page) /\ sumZ visit.*2 = countD DecisionDeny log.
Proof.
  intros (Hv & key & store & server & ->)%start_Ok Hr log metrics Hlen Hvisit page.
  eapply runs_sound in Hr as [_ _ Hcount _ _ _]; [|by apply assemble_sound].
  destruct (Hcount Hlen) as (Ha & Hd & Hdeny & _). unfold page, log, metrics in *. rewrite metrics_page_lines.
  rewrite <- Ha, <- Hd, <- Hdeny. split_and!.
  - apply in_head, metricsLines_allow.
  - apply in_head, metricsLines_duplicate.
  - intros rn Hrn. by apply in_head, metricsLines_deny.
  - unfold denyTotal. apply sumZ_perm. by rewrite Hvisit.
Qed.

(** C23: A node checks no signatures.  A node has no setting for the key with which
    signatures would be verified, and [Run] gives its adapter none: every envelope that
    arrives is decided as the same envelope under any other signature would be, and no
    envelope is refused for its signature. *)
Theorem signatures_not_checked sd c e sig n :
  startOf.1 = Ok sd ->
  let send e := (onAdapter (AdapterSend (sd_adapter sd) c e) n).1 in
  same_verdict (send e) (send (resign sig e))
  /\ (send e = match (SendEnvelope (ga_gw (sd_adapter sd)) c {| sr_Envelope := coreEnvelope e |} (gateway_of n)).1 with
               | Ok r => Ok (wireResponse r)
               | Err ErrEmptyIdempotencyKey => Err (InvalidArgument ErrEmptyIdempotencyKey)
               | Err err => Err (Internal err)
               end).
Proof.
  intros (_ & key & store & server & ->)%start_Ok send.
  pose proof (SendEnvelope_resign (wiredGateway env cfg) c e sig (gateway_of n)) as Hr.
  unfold send, onAdapter, AdapterSend. cbn [adapterView as_gw ga_verifyKey ga_gw sd_adapter assemble startAdapter
    NewAdapterWithDiscovery fst]. unfold gateway_of in *.
  destruct (SendEnvelope _ c {| sr_Envelope := coreEnvelope e |} _) as [r1 s1],
    (SendEnvelope _ c {| sr_Envelope := coreEnvelope (resign sig e) |} _) as [r2 s2]. cbn [fst] in *.
  split; [|by destruct r1 as [|[]]]. clear jsonErrText. destruct r1 as [a|[]], r2 as [b|[]]; cbn; naive_solver.
Qed.
End Started.

(** ** A node with peers *)

Definition demo_run_cfg : Config := with_api "key" "s3cret" (with_peers Delivery.demo_peers demo_cfg).

Definition demo_env : RunEnv (H0 := toy_ed25519) (B := unit) (X := Z) := {|
  re_rand := Some "secret"%string; re_openBbolt := fun _ => None; re_openRedis := fun _ _ => None;
  re_listens := fun _ => true; re_startTime := 0; re_net := 0; re_apps := []; re_peers := map_to_list Delivery.demo_peers;
  re_clock := fun _ => 0 |}.

Definition no_pair : string -> string -> option unit := fun _ _ => None.
Definition no_file : string -> option string := fun _ => None.
Definition no_pool : string -> option unit := fun _ => None.

Definition demo_start (path : string) := start (H0 := toy_ed25519) no_pair no_file no_pool no_text (fun _ => None)
  (fun _ => None) (fun _ => None) demo_env demo_run_cfg path.

Definition demo_started : Started (H0 := toy_ed25519) (B := unit) (X := Z) (Certificate := unit) (CertPool := unit) :=
  assemble (H0 := toy_ed25519) no_text (fun _ => None) (fun _ => None) (fun _ => None) demo_env demo_run_cfg "node.toml"
    "secret"%string None {| en_cfg := demo_run_cfg; en_auditing := true; en_hasCRL := true |}
    {| gr_creds := InsecureCredentials; gr_jsonCodec := true |}.

Lemma demo_starts : (demo_start "node.toml").1 = Ok demo_started.
Proof.
  by apply (start_assembles (H0 := toy_ed25519)) with (settings := None) (clientSettings := None); try reflexivity; vm_compute.
Qed.

(** A client registers a peer, an hour passes, and the index is purged. *)
Definition demo_registered : RunningNode unit Z :=
  with_server (ServeHTTP (H0 := toy_ed25519) no_text no_text (sd_deps demo_started) (demo_http_env 0)
    (peer_post (with_key "key")) (nd_http (rn_node (sd_state demo_started)))).2 (sd_state demo_started).

Definition demo_purged : RunningNode unit Z :=
  with_server (setGw (purgeTick Hour (gateway_of demo_registered)) (nd_http (rn_node demo_registered))) demo_registered.

Definition demo_runs := runs (H0 := toy_ed25519) (B := unit) (X := Z) (Certificate := unit) (CertPool := unit) no_text no_text
  (fun _ => None) (fun _ => None) (fun _ => None) demo_env demo_run_cfg "node.toml" demo_started 1.

Lemma demo_runs_on : demo_runs (sd_state demo_started) demo_purged.
Proof. eapply rtc_l; [apply (run_request (H0 := toy_ed25519))|]. apply rtc_once, run_purge. Qed.

Lemma node_stays_sound_witness : Verify (gs_audit (gateway_of demo_purged)) = None /\ registry_wf (rn_peers demo_purged).
Proof.
  destruct (node_stays_sound (H0 := toy_ed25519) no_pair no_file no_pool no_text no_text no_text (fun _ => None) (fun _ => None)
    (fun _ => None) demo_env demo_run_cfg "node.toml" demo_started 1 demo_purged demo_starts demo_runs_on)
    as (_ & [Hv _] & _ & _ & _ & Hp). exact (conj Hv Hp).
Defined.

(** An envelope that nobody signed. *)
Definition demo_unsigned : WireEnvelope := toWire None (mkEnvelope "k" "RS" "RU" "messaging").

Lemma signatures_not_checked_witness :
  same_verdict (onAdapter (AdapterSend (H0 := toy_ed25519) (sd_adapter demo_started) (demo_call 0) demo_unsigned)
                  (sd_state demo_started)).1
               (onAdapter (AdapterSend (H0 := toy_ed25519) (sd_adapter demo_started) (demo_call 0)
                  (resign (Some "forged"%string) demo_unsigned)) (sd_state demo_started)).1.
Proof.
  exact (proj1 (signatures_not_checked (H0 := toy_ed25519) no_pair no_file no_pool no_text (fun _ => None) (fun _ => None)
    (fun _ => None) demo_env demo_run_cfg "node.toml" demo_started (demo_call 0) demo_unsigned (Some "forged"%string)
    (sd_state demo_started) demo_starts)).
Defined.

(** It is accepted, and a remote call with its text reaches the gateway. *)
Example unsigned_accepted :
  match (onAdapter (AdapterSend (H0 := toy_ed25519) (sd_adapter demo_started) (demo_call 0) demo_unsigned)
           (sd_state demo_started)).1 with
  | Ok r => wr_Decision r
  | Err _ => ""%string
  end = DecisionAllow.
Proof. vm_compute. reflexivity. Qed.

Lemma metrics_page_counts_witness :
  "mrmi_envelope_allow_total 0"%string
  ∈ split_at is_newline (metricsPage (H := ascii_prints) [] (nodeGauges demo_purged) (wd_metrics (gs_world (gateway_of demo_purged)))).
Proof.
  refine (proj1 (metrics_page_counts (H := _) (H0 := toy_ed25519) no_pair no_file no_pool no_text no_text no_text (fun _ => None)
    (fun _ => None) (fun _ => None) demo_env demo_run_cfg "node.toml" demo_started 1 demo_purged [] demo_starts demo_runs_on _ _)).
  - vm_compute. reflexivity.
  - vm_compute. reflexivity.
Defined.

Definition flag_cfg : Config := with_http_addr ":9090" DefaultBalancedConfig.

Lemma gateway_process_witness :
  exists cfg0 addr, Load (fun _ => None) (fun _ => None) (fun _ => None) "" = Ok cfg0 /\ ValidConfig cfg0
    /\ flag_cfg = (if str_eqb addr "" then cfg0 else with_http_addr addr cfg0).
Proof.
  destruct (gateway_process (H0 := toy_ed25519) no_pair no_file no_pool no_text (fun _ => None) (fun _ => None)
    (fun _ => None) demo_env flag_cfg "" ["-http-addr=:9090"]%string
    (assemble (H0 := toy_ed25519) no_text (fun _ => None) (fun _ => None) (fun _ => None) demo_env flag_cfg "" "secret"%string
       None {| en_cfg := flag_cfg; en_auditing := true; en_hasCRL := true |}
       {| gr_creds := InsecureCredentials; gr_jsonCodec := true |}))
    as (cfg0 & addr & Hl & Hv & Hc & _).
  - vm_compute. reflexivity.
  - by apply (start_assembles (H0 := toy_ed25519)) with (settings := None) (clientSettings := None); try reflexivity; vm_compute.
  - exists cfg0, addr. exact (conj Hl (conj Hv Hc)).
Defined.
