(* ===== verification/Corridor.v ===== *)
(** * Between nodes (packages [internal/app] and [internal/transport/grpc])

    A node that forwards its envelopes to running nodes over connections that fail.
    The forwarding function of [Forwarding] is the transport of the forwarder of
    [Delivery]; at the other end of a connection is a [RunningNode] of [Startup] with
    the service of [Run], reached through the JSON texts of [Messages].  What a
    connection does to a call is part of the environment: it cannot be made, or the
    request is lost, or its answer. *)

From S2P Require Import Prelude GoStrings GoCrypto Utf8 Json JsonFields Config Schema Crl Store AuditLog Policy Core Dedup Transit Delivery Gateway Background Session Token Identity Connect PeerDiscovery Discovery RateLimit Adapter AdapterDiscovery Codec Service Messages Forwarding Metrics Inbox Webhook Callbacks HttpStores HttpAuth Http HttpDemo App Node ConnPool Startup Run.

(** What becomes of a call. *)
Inductive Fate :=
| Unreachable (err : string)
| RequestLost (err : string)
| AnswerLost (err : string)
| Answered.

(** The nodes behind their addresses and what the next calls meet.  [co_given] records
    the answers the nodes gave, whether they arrived or not; no code reads it. *)
Record Corridor (B X : Type) := {
  co_peers : gmap string (GatewayAdapter World * RunningNode B X);
  co_calls : list (Fate * RpcEnv);
  co_given : list (string * outcome NodeError SendEnvelopeResponse) }.
Arguments Build_Corridor {B X}.
Arguments co_peers {B X}.
Arguments co_calls {B X}.
Arguments co_given {B X}.

(** The answers of the node at an address. *)
Definition answersAt (addr : string) (given : list (string * outcome NodeError SendEnvelopeResponse))
  : list (outcome NodeError SendEnvelopeResponse) := (base.filter (fun r => r.1 = addr) given).*2.

Lemma answersAt_snoc addr given r :
  answersAt addr (given ++ [r]) = answersAt addr given ++ (if decide (r.1 = addr) then [r.2] else []).
Proof. unfold answersAt. rewrite filter_app, fmap_app, filter_cons. by case_decide. Qed.

Section Links.
Context `{UnicodeTables} `{Ed25519} {B : Type} `{NodeStore B} {X : Type} `{CoreForwarder (FwdState X)}.
Context (ask : string -> DRequest -> RunningNode B X -> option DResponse * RunningNode B X).
Context (statusText : RpcError NodeError -> string).
Implicit Types (c : Corridor B X).

Definition with_calls (calls : list (Fate * RpcEnv)) c : Corridor B X :=
  {| co_peers := co_peers c; co_calls := calls; co_given := co_given c |}.

(** A connection to an address. *)
Definition linkConnect (addr : string) c : option string * Corridor B X :=
  match co_peers c !! addr, co_calls c with
  | Some _, (Unreachable err, _) :: calls => (Some err, with_calls calls c)
  | Some _, _ :: _ => (None, c)
  | _, _ => (Some "no such host"%string, c)
  end.

(** What the client makes of the answer to [SendEnvelope]. *)
Definition clientReads (r : option (outcome (RpcError NodeError) AnyResponse)) : string + SendEnvelopeResponse :=
  match r with
  | Some (Ok (SendEnvelopeRes res)) => inr res
  | Some (Ok _) | None => inl "cannot decode"%string
  | Some (Err e) => inl (statusText e)
  end.

(** [client.SendEnvelope] over a connection. *)
Definition linkSend (addr : string) (e : WireEnvelope) c : (string + SendEnvelopeResponse) * Corridor B X :=
  match co_peers c !! addr, co_calls c with
  | Some (a, n), (fate, env) :: calls =>
      let svc := adapterService a env ask in
      let (r, n') := remoteCall svc (SendEnvelopeReq e) n in
      let reached := {| co_peers := <[addr := (a, n')]> (co_peers c); co_calls := calls;
                        co_given := co_given c ++ [(addr, (svc_SendEnvelope svc (received e) n).1)] |} in
      match fate with
      | Unreachable err | RequestLost err => (inl err, with_calls calls c)
      | AnswerLost err => (inl err, reached)
      | Answered => (clientReads r, reached)
      end
  | _, _ => (inl "no such host"%string, c)
  end.

(** The world of a forwarder that sends over these links.  Waits and clocks are the
    environment's; [during] is what happens to the other nodes while it waits. *)
Context (cfg : Config) (key : ed_PrivateKey).
Context (waits : Z -> NodeNet (Corridor B X) -> bool) (during : Z -> Corridor B X -> Corridor B X).
Context (clock : NodeNet (Corridor B X) -> Z) (convert : float64 -> Z).
Context (visit_peers : gmap string PeerConfig -> NodeNet (Corridor B X) -> list (string * PeerConfig)).
Context (visit_entries : gmap string TransitEntry -> NodeNet (Corridor B X) -> list (string * TransitEntry)).
Context (visit_peers_all : forall m w, visit_peers m w ≡ₚ map_to_list m).
Context (visit_entries_all : forall m w, visit_entries m w ≡ₚ map_to_list m).

Definition on_net (f : Corridor B X -> Corridor B X) (w : NodeNet (Corridor B X)) : NodeNet (Corridor B X) :=
  {| nn_seqSend := nn_seqSend w; nn_net := f (nn_net w) |}.

Definition linkRuntime : Runtime (NodeNet (Corridor B X)) := {|
  rt_send := forwardEnvelope linkConnect linkSend cfg key;
  rt_wait := fun d w => (waits d w, on_net (during d) w);
  rt_now := clock;
  rt_convert := convert;
  rt_peers := visit_peers;
  rt_entries := visit_entries;
  rt_peers_visit := visit_peers_all;
  rt_entries_visit := visit_entries_all |}.

(** ** A call that reaches a node *)

(** The node after an envelope, and its answer. *)
Definition sentTo (a : GatewayAdapter World) (env : RpcEnv) (e : WireEnvelope) (n : RunningNode B X)
  : outcome NodeError SendEnvelopeResponse * RunningNode B X := svc_SendEnvelope (adapterService a env ask) (received e) n.

Lemma remoteCall_sent a env e n :
  envelope_ok e ->
  remoteCall (adapterService a env ask) (SendEnvelopeReq e) n
  = let r := sentTo a env e n in
    (heard (SendEnvelopeReq e) match r.1 with Ok res => Ok (SendEnvelopeRes res) | Err err => Err (ServiceError err) end, r.2).
Proof. intros He. by rewrite remoteCall_reaches. Qed.

(** The gateway of a node that verifies no signatures takes the call. *)
Lemma sentTo_gateway a env e n :
  ga_verifyKey a = None ->
  let r := SendEnvelope (ga_gw a) (rp_call env) {| sr_Envelope := coreEnvelope (received e) |} (gateway_of n) in
  (sentTo a env e n).1 = match r.1 with
                         | Ok res => Ok (wireResponse res)
                         | Err ErrEmptyIdempotencyKey => Err (SendStatus (InvalidArgument ErrEmptyIdempotencyKey))
                         | Err err => Err (SendStatus (Internal err))
                         end
  /\ gateway_of (sentTo a env e n).2 = r.2.
Proof.
  intros Hk. unfold sentTo. cbn [adapterService svc_SendEnvelope]. unfold failsWith, onAdapter, AdapterSend. cbn zeta.
  rewrite Hk. cbn [adapterView as_gw]. destruct (SendEnvelope _ _ _ _) as [[r|[]] g]; by cbn.
Qed.
End Links.

(** ** Processed at most once

    The envelope is known by its key; [deadline] is a time before which every call is
    made, and until which every node remembers the keys of these calls. *)

(** The node took the envelope for a new one. *)
Definition processed (r : outcome NodeError SendEnvelopeResponse) : Prop :=
  match r with
  | Ok res => wr_Decision res <> DecisionDuplicate
  | Err (SendStatus (InvalidArgument _)) => False
  | Err _ => True
  end.

#[export] Instance processed_dec r : Decision (processed r).
Proof. destruct r as [res|[[]|]]; cbn; apply _. Defined.

Section Once.
Context (key : string) (deadline : Z).

(** The answers of a node so far and its index agree: it has processed nothing, or one
    call, the first one if it had not seen the key, which its index remembers. *)
Definition once (unseen : Prop) (given : list (outcome NodeError SendEnvelopeResponse)) (idx : Index) : Prop :=
  index_wf idx
  /\ ((Forall (fun r => ~ processed r) given /\ (unseen -> given = [] /\ expiry idx key = None))
      \/ exists before r after exp, given = before ++ r :: after
           /\ Forall (fun r => ~ processed r) before /\ processed r /\ Forall (fun r => ~ processed r) after
           /\ (unseen -> before = []) /\ expiry idx key = Some exp /\ deadline <= exp).

(** A node processes what it is sent unless it remembers the key. *)
Lemma once_call unseen given now ttl idx r :
  once unseen given idx -> now < deadline -> deadline <= now + ttl ->
  (processed r <-> (SeenOrAddWithTTL now key ttl idx).1 = false) ->
  once unseen (given ++ [r]) (SeenOrAddWithTTL now key ttl idx).2.
Proof.
  intros [Hwf Ho] Hnow Hlate Hr. split; [by apply SeenOrAddWithTTL_wf|].
  pose proof (SeenOrAddWithTTL_expiry now key ttl idx key Hwf) as Hexp.
  pose proof (SeenOrAddWithTTL_dup now key ttl idx) as Hdup. rewrite decide_True in Hexp by done.
  destruct (SeenOrAddWithTTL now key ttl idx).1 eqn:Es.
  - assert (~ processed r) as Hn by (rewrite Hr; done). destruct (proj1 Hdup eq_refl) as (exp & Hx & _).
    destruct Ho as [[Hg Hu]|(before & r0 & after & exp0 & -> & Hb & Hr0 & Ha & Hu & He & Hle)].
    + left. split; [apply Forall_app; auto|]. intros [_ Hx']%Hu. congruence.
    + right. exists before, r0, (after ++ [r]), exp0. rewrite <- (assoc_L app). split_and!; try done.
      * apply Forall_app; auto.
      * by rewrite Hexp.
  - assert (processed r) as Hp by by rewrite Hr.
    destruct Ho as [[Hg Hu]|(before & r0 & after & exp0 & -> & Hb & Hr0 & Ha & Hu & He & Hle)].
    + right. exists given, r, [], (now + ttl). split_and!; try done. intros Hx%Hu. apply Hx.
    + exfalso. enough (false = true) by done. apply Hdup. exists exp0. split; [done|lia].
Qed.

(** At most one answer says that the envelope was processed; a node that had not seen
    the key processed the first call that reached it. *)
Definition processed_once (unseen : Prop) (given : list (outcome NodeError SendEnvelopeResponse)) : Prop :=
  (length (base.filter processed given) <= 1)%nat
  /\ (unseen -> given = [] \/ exists r after, given = r :: after /\ processed r /\ Forall (fun r => ~ processed r) after).

Lemma filter_none (l : list (outcome NodeError SendEnvelopeResponse)) :
  Forall (fun r => ~ processed r) l -> base.filter processed l = [].
Proof. induction 1 as [|r l Hr _ IH]; [done|]. by rewrite filter_cons_False. Qed.

Lemma once_processed unseen given idx : once unseen given idx -> processed_once unseen given.
Proof.
  intros [_ [[Hg Hu]|(before & r & after & exp & -> & Hb & Hr & Ha & Hu & _)]]; split.
  - rewrite filter_none by done. cbn. lia.
  - intros Hx. left. by apply Hu.
  - rewrite filter_app, filter_cons_True, !filter_none by done. cbn. lia.
  - intros Hx%Hu. subst before. right. eauto.
Qed.

(** What happens to the node in between leaves the key alone: nobody else sends an
    envelope with it, and no sweep with a clock past the deadline drops it. *)
Definition leaves_key (idx idx' : Index) : Prop :=
  (index_wf idx -> index_wf idx') /\ dx_ttl idx' = dx_ttl idx
  /\ (expiry idx key = None -> expiry idx' key = None)
  /\ (forall exp, deadline <= exp -> expiry idx key = Some exp -> expiry idx' key = Some exp).

Lemma once_leaves unseen given idx idx' : once unseen given idx -> leaves_key idx idx' -> once unseen given idx'.
Proof.
  intros [Hwf Ho] (Hw & _ & Hn & He). split; [auto|].
  destruct Ho as [[Hg Hu]|(before & r & after & exp & Hrest)]; [left; naive_solver|].
  right. exists before, r, after, exp. naive_solver.
Qed.

Lemma purge_ttl now idx : dx_ttl (Purge now idx) = dx_ttl idx.
Proof. unfold Purge. generalize (seq 0 numShards). intros l. revert idx. induction l as [|i l IH]; intros idx; cbn; [done|]. by rewrite IH. Qed.

(** The purge does, and so do envelopes with other keys. *)
Lemma leaves_purge now idx : index_wf idx -> now <= deadline -> leaves_key idx (Purge now idx).
Proof.
  intros Hwf Hnow. split_and!; [apply Purge_wf|apply purge_ttl| |].
  - rewrite Purge_expiry by done. by intros ->.
  - intros exp Hle He. rewrite Purge_expiry, He by done. cbn. by rewrite (proj2 (Z.ltb_ge _ _)) by lia.
Qed.

Lemma leaves_other {B F W} `{UnicodeTables} `{NodeStore B} `{CoreForwarder F} (g : Gateway W) c req (st : GwState B F W) :
  index_wf (gs_dedup st) -> env_IdempotencyKey (sr_Envelope req) <> key ->
  leaves_key (gs_dedup st) (gs_dedup (SendEnvelope g c req st).2).
Proof.
  intros Hwf Hk. rewrite SendEnvelope_dedup. destruct (_ || _); [by split_and!|]. rewrite dedupCheck_window.
  assert (forall ttl, expiry (SeenOrAddWithTTL (ck_dedup c) (env_IdempotencyKey (normalised req)) ttl (gs_dedup st)).2 key
                      = expiry (gs_dedup st) key) as He.
  { intros ttl. rewrite SeenOrAddWithTTL_expiry by done. destruct (SeenOrAddWithTTL _ _ _ _).1; [done|].
    by rewrite decide_False by (intros ->; by destruct Hk). }
  split_and!; [by intros; apply SeenOrAddWithTTL_wf|apply SeenOrAddWithTTL_ttl|by rewrite He|intros exp _; by rewrite He].
Qed.
End Once.

(** ** A network with one envelope under way *)

(** An envelope as Go can hold it, whose texts are UTF-8: what a node needs to put it
    on the wire. *)
Record wire_ready (cfg : Config) (env : Envelope) : Prop := {
  wy_key : utf8 (env_IdempotencyKey env);
  wy_node : utf8 (nc_NodeID (cfg_Node cfg));
  wy_sregion : utf8 (env_SenderRegion env);
  wy_rregion : utf8 (env_RecipientRegion env);
  wy_tier : in_u32 (env_TrustTier env);
  wy_padded : in_u32 (env_PaddedTo env);
  wy_ts : in_i64 (env_Timestamp env) }.

Lemma NextSeq_u64 sender t : in_u64 (NextSeq sender t).1.
Proof. unfold NextSeq, in_u64, wrap_u64. cbn. apply Z.mod_pos_bound. lia. Qed.

Lemma attempted_ok `{Ed25519} cfg sk env seq : wire_ready cfg env -> in_u64 seq -> envelope_ok (attempted cfg sk env seq).
Proof. intros [] Hseq. split; cbn; try done; by apply plain_utf8. Qed.

Section Network.
Context `{UnicodeTables} `{Ed25519} {B : Type} `{NodeStore B} {X : Type} `{CoreForwarder (FwdState X)}.
Context (ask : string -> DRequest -> RunningNode B X -> option DResponse * RunningNode B X).
Context (statusText : RpcError NodeError -> string).
Context (cfg : Config) (sk : ed_PrivateKey) (env : Envelope) (deadline : Z) (unseen : string -> Prop).
Context (key_given : env_IdempotencyKey env <> ""%string) (no_dummy : env_IsDummy env = false) (ready : wire_ready cfg env).
Implicit Types (c : Corridor B X) (n : RunningNode B X).

#[local] Notation key := (env_IdempotencyKey env).
#[local] Notation dedup_of n := (gs_dedup (gateway_of n)).

(** The calls to come at a node are made before the deadline, and remembered until it. *)
Definition timely (n : RunningNode B X) (calls : list (Fate * RpcEnv)) : Prop :=
  Forall (fun call => ck_dedup (rp_call call.2) < deadline <= ck_dedup (rp_call call.2) + dx_ttl (dedup_of n)) calls.

(** Every node behind an address has processed the envelope at most once. *)
Definition net_once c : Prop :=
  forall addr, match co_peers c !! addr with
  | Some (a, n) => ga_verifyKey a = None /\ timely n (co_calls c)
                   /\ once key deadline (unseen addr) (answersAt addr (co_given c)) (dedup_of n)
  | None => answersAt addr (co_given c) = []
  end.

(** The other nodes do what they like with other envelopes. *)
Definition quiet c c' : Prop :=
  co_calls c' = co_calls c /\ co_given c' = co_given c
  /\ forall addr, match co_peers c !! addr with
     | Some (a, n) => exists n', co_peers c' !! addr = Some (a, n') /\ leaves_key key deadline (dedup_of n) (dedup_of n')
     | None => co_peers c' !! addr = None
     end.

Lemma net_once_quiet c c' : net_once c -> quiet c c' -> net_once c'.
Proof.
  intros Hc (Hcalls & Hgiven & Hq) addr. specialize (Hc addr). specialize (Hq addr). rewrite Hgiven.
  destruct (co_peers c !! addr) as [[a n]|]; [|by rewrite Hq].
  destruct Hq as (n' & -> & Hl), Hc as (Hk & Ht & Ho). split_and!; [done| |by eapply once_leaves].
  unfold timely. destruct Hl as (_ & -> & _). by rewrite Hcalls.
Qed.

Lemma net_once_calls call calls c : co_calls c = call :: calls -> net_once c -> net_once (with_calls calls c).
Proof.
  intros Hs Hc addr. specialize (Hc addr). cbn. destruct (co_peers c !! addr) as [[a n]|]; [|done].
  destruct Hc as (Hk & Ht & Ho). unfold timely in Ht. rewrite Hs in Ht. apply Forall_cons in Ht as [_ Ht]. done.
Qed.

Lemma linkConnect_once addr c : net_once c -> net_once (linkConnect addr c).2.
Proof.
  intros Hc. unfold linkConnect. destruct (co_peers c !! addr); [|done].
  destruct (co_calls c) as [|[[] e] calls] eqn:Ec; try done. by eapply net_once_calls.
Qed.

(** A node that an attempt reaches processes it exactly when it does not remember it. *)
Lemma attempt_processed a e seq n :
  ga_verifyKey a = None ->
  let r := sentTo ask a e (attempted cfg sk env seq) n in
  let now := ck_dedup (rp_call e) in
  dedup_of r.2 = (SeenOrAddWithTTL now key (dx_ttl (dedup_of n)) (dedup_of n)).2
  /\ (processed r.1 <-> (SeenOrAddWithTTL now key (dx_ttl (dedup_of n)) (dedup_of n)).1 = false).
Proof.
  intros Hk. cbn zeta. set (w := attempted cfg sk env seq). set (req := {| sr_Envelope := coreEnvelope (received w) |}).
  destruct (sentTo_gateway ask a e w n Hk) as [Hr Hg]. fold req in Hr, Hg.
  assert (real req) as Hreal by done.
  assert (dedupCheck (ga_gw a) (rp_call e) (normalised req) (dedup_of n)
          = SeenOrAddWithTTL (ck_dedup (rp_call e)) key (dx_ttl (dedup_of n)) (dedup_of n)) as Hd by by rewrite dedupCheck_window.
  split.
  - rewrite Hg, SendEnvelope_dedup. change (env_IdempotencyKey (sr_Envelope req)) with key.
    rewrite (proj2 (str_eqb_neq _ _) key_given). change (env_IsDummy (sr_Envelope req)) with (env_IsDummy env).
    rewrite no_dummy. cbn [orb]. by rewrite Hd.
  - pose proof (SendEnvelope_accepted (ga_gw a) (rp_call e) req (gateway_of n) Hreal) as Ha.
    unfold freshKey in Ha. rewrite negb_true_iff, Hd in Ha. rewrite <- Ha, Hr. by destruct (SendEnvelope _ _ _ _).1 as [r|[]].
Qed.

Lemma linkSend_once addr seq c :
  in_u64 seq -> net_once c -> net_once (linkSend ask statusText addr (attempted cfg sk env seq) c).2.
Proof.
  intros Hseq Hc. unfold linkSend. pose proof (Hc addr) as Hat. destruct (co_peers c !! addr) as [[a n]|] eqn:Ep; [|done].
  destruct (co_calls c) as [|[fate e] calls] eqn:Ec; [done|]. cbn zeta. rewrite remoteCall_sent by by apply attempted_ok.
  cbn zeta. destruct Hat as (Hk & Ht & Ho). apply Forall_cons in Ht as [[Hnow Hlate] Ht].
  pose proof (attempt_processed a e seq n Hk) as [Hd Hp]. cbn [snd] in *.
  assert (net_once (with_calls calls c)) as Hlost by by eapply net_once_calls.
  set (r := sentTo ask a e (attempted cfg sk env seq) n) in *.
  assert (net_once {| co_peers := <[addr := (a, r.2)]> (co_peers c); co_calls := calls;
                      co_given := co_given c ++ [(addr, r.1)] |}) as Hreached.
  { intros addr'. cbn [co_peers co_calls co_given]. rewrite answersAt_snoc. cbn [fst snd]. case_decide as E.
    - subst addr'. rewrite lookup_insert_eq. split_and!; [done| |].
      + unfold timely. by rewrite Hd, SeenOrAddWithTTL_ttl.
      + rewrite Hd. by apply once_call.
    - rewrite lookup_insert_ne, app_nil_r by done. exact (Hlost addr'). }
  destruct fate; done.
Qed.

Lemma forwardEnvelope_once addr (w : NodeNet (Corridor B X)) :
  net_once (nn_net w) -> net_once (nn_net (forwardEnvelope linkConnect (linkSend ask statusText) cfg sk addr env w).2).
Proof.
  intros Hc. unfold forwardEnvelope. pose proof (NextSeq_u64 (env_RecipientRegion env) (nn_seqSend w)) as Hseq.
  destruct (NextSeq _ _) as [seq tr]. cbn [fst] in Hseq. cbn zeta. fold (attempted cfg sk env seq).
  pose proof (linkConnect_once addr _ Hc) as Hc'. destruct (linkConnect addr (nn_net w)) as [[err|] c']; [done|]. cbn [snd] in Hc'.
  pose proof (linkSend_once addr seq c' Hseq Hc') as Hs. by destruct (linkSend _ _ _ _ _) as [[err|resp] c''].
Qed.

(** What a success of the forwarding function means: the last answer given was the
    node's at that address, and it arrived. *)
Lemma forwardEnvelope_answered addr (w w' : NodeNet (Corridor B X)) hash :
  forwardEnvelope linkConnect (linkSend ask statusText) cfg sk addr env w = (hash, None, w') ->
  exists res, last (co_given (nn_net w')) = Some (addr, Ok res)
    /\ (response_ok (SendEnvelopeRes res) -> wr_Decision res <> "DENY"%string /\ hash = wr_AuditRootHash res).
Proof.
  unfold forwardEnvelope. pose proof (NextSeq_u64 (env_RecipientRegion env) (nn_seqSend w)) as Hseq.
  destruct (NextSeq _ _) as [seq tr]. cbn [fst] in Hseq. cbn zeta. fold (attempted cfg sk env seq).
  destruct (linkConnect addr (nn_net w)) as [[err|] c]; [done|]. unfold linkSend.
  destruct (co_peers c !! addr) as [[a n]|]; [|done]. destruct (co_calls c) as [|[fate e] calls]; [done|].
  cbn zeta. rewrite remoteCall_sent by by apply attempted_ok. cbn zeta.
  change (svc_SendEnvelope _ _ n) with (sentTo ask a e (attempted cfg sk env seq) n).
  destruct (sentTo _ _ _ _ _) as [[res|err] n']; cbn [fst snd]; [|by destruct fate].
  destruct fate; [done..|]. unfold clientReads.
  destruct (heard _ _) as [[[resp|info|ok|dr|ca|pl]|err]|] eqn:Eh; try done.
  intros Hf. exists res. split; [destruct (str_eqb _ _); [done|]; injection Hf as _ <-; cbn; by rewrite last_snoc|].
  intros Hok. rewrite heard_ok in Eh by done. injection Eh as <-. destruct (str_eqb _ _) eqn:Ed; [done|]. go_bool.
  by injection Hf as <- _.
Qed.

(** ** Forwarding over links that fail *)

Context (waits : Z -> NodeNet (Corridor B X) -> bool) (during : Z -> Corridor B X -> Corridor B X).
Context (clock : NodeNet (Corridor B X) -> Z) (convert : float64 -> Z).
Context (visit_peers : gmap string PeerConfig -> NodeNet (Corridor B X) -> list (string * PeerConfig)).
Context (visit_entries : gmap string TransitEntry -> NodeNet (Corridor B X) -> list (string * TransitEntry)).
Context (visit_peers_all : forall m w, visit_peers m w ≡ₚ map_to_list m).
Context (visit_entries_all : forall m w, visit_entries m w ≡ₚ map_to_list m).
Context (LoadLocation : string -> option Location) (f : Forwarder).

#[local] Notation runtime := (linkRuntime ask statusText cfg sk waits during clock convert visit_peers visit_entries
  visit_peers_all visit_entries_all).

Lemma Forward_once (st : FwdState (NodeNet (Corridor B X))) :
  (forall d c, quiet c (during d c)) -> net_once (nn_net (fs_world st)) ->
  net_once (nn_net (fs_world (Forward (H := runtime) LoadLocation f env st).2)).
Proof.
  intros Hq Hc. apply (@Forward_keeps LoadLocation _ runtime (fun w => net_once (nn_net w))); [| |done].
  - intros addr w. apply forwardEnvelope_once.
  - intros d w Hw. by eapply net_once_quiet; [exact Hw|apply Hq].
Qed.
End Network.

(** C13: Each peer processes a forwarded envelope at most once.  A forwarder tries its
    peers in turn and every peer again and again, over connections that cannot be made
    or lose a request or its answer, while the other nodes go on with their work.
    Whatever happens, no peer takes the envelope for a new one twice, as long as the
    calls are made within its deduplication window; a peer that had not seen the key
    processes the first call that reaches it.  When the forwarder reports a delivery,
    the last answer given is the one of a peer for the region, which did not deny the
    envelope, and the root hash is that peer's. *)
Theorem forwarded_once `{UnicodeTables} `{Ed25519} {B} `{NodeStore B} {X} `{CoreForwarder (FwdState X)}
    ask statusText cfg sk env deadline waits during clock convert visit_peers visit_entries visit_peers_all visit_entries_all
    LoadLocation f (st : FwdState (NodeNet (Corridor B X))) :
  env_IdempotencyKey env <> ""%string -> env_IsDummy env = false -> wire_ready cfg env ->
  1 <= rp_MaxAttempts (fw_retryPolicy f) ->
  (forall d c, quiet env deadline c (during d c)) ->
  let net := nn_net (fs_world st) in
  co_given net = [] ->
  (forall addr a n, co_peers net !! addr = Some (a, n) ->
     ga_verifyKey a = None /\ index_wf (gs_dedup (gateway_of n)) /\ timely deadline n (co_calls net)) ->
  let '(res, st') := Forward (H := linkRuntime ask statusText cfg sk waits during clock convert visit_peers visit_entries
                                visit_peers_all visit_entries_all) LoadLocation f env st in
  let given := co_given (nn_net (fs_world st')) in
  (forall addr a n, co_peers net !! addr = Some (a, n) ->
     processed_once (expiry (gs_dedup (gateway_of n)) (env_IdempotencyKey env) = None) (answersAt addr given))
  /\ forall hash, res = Ok hash ->
       exists p answer, last given = Some (peer_Addr p, Ok answer)
         /\ p ∈ PeersFor (pc_AllowVia (cfg_Policy (fw_cfg f))) (visit_peers (net_Peers (cfg_Network (fw_cfg f))) (fs_world st))
                  (env_RecipientRegion env)
         /\ (response_ok (SendEnvelopeRes answer) -> wr_Decision answer <> "DENY"%string /\ hash = wr_AuditRootHash answer).
Proof.
  intros Hk Hd Hr Hm Hq net Hg Hp. set (rt := linkRuntime _ _ _ _ _ _ _ _ _ _ _ _).
  set (unseen := fun addr => exists a n, co_peers net !! addr = Some (a, n)
                   /\ expiry (gs_dedup (gateway_of n)) (env_IdempotencyKey env) = None).
  assert (net_once env deadline unseen net) as Hstart.
  { intros addr. rewrite Hg. destruct (co_peers net !! addr) as [[a n]|] eqn:Ep; [|done].
    destruct (Hp _ _ _ Ep) as (Hv & Hwf & Ht). split_and!; [done..|]. split; [done|]. left. split; [done|].
    intros (a' & n' & Ep' & He). rewrite Ep in Ep'. by injection Ep' as <- <-. }
  pose proof (Forward_once ask statusText cfg sk env deadline unseen Hk Hd Hr waits during clock convert visit_peers visit_entries
    visit_peers_all visit_entries_all LoadLocation f st Hq Hstart) as Hend.
  destruct (Forward _ _ _ _) as [res st'] eqn:Ef. cbn [snd] in Hend. cbn zeta. split.
  - intros addr a n Ep. specialize (Hend addr). destruct (co_peers (nn_net (fs_world st')) !! addr) as [[a' n']|].
    + destruct Hend as (_ & _ & [Hl Hu]%once_processed). split; [done|]. intros He. apply Hu. by exists a, n.
    + rewrite Hend. split; [cbn; lia|]. intros _. by left.
  - intros hash ->. apply (@Forward_delivered LoadLocation _ rt) in Ef as (p & w0 & Hin & Hs); [|done].
    apply forwardEnvelope_answered in Hs as (answer & Hl & Ha); [|done..]. by exists p, answer.
Qed.

(** ** An envelope that arrives *)

(** Nobody forwards it further: an accepted envelope goes to the log, to the callbacks
    and back to the caller. *)
Lemma SendEnvelope_accepts `{UnicodeTables} {B F W} `{NodeStore B} `{CoreForwarder F} (g : Gateway W) c req (st : GwState B F W) :
  real req -> freshKey g c req st = true ->
  Permitted (en_cfg (gs_policy st)) (revokedSender (gs_policy st) (gs_crl st) (policyRequest (normalised req)))
    (policyRequest (normalised req)) ->
  gw_forwarder g = false ->
  let cfg := en_cfg (gs_policy st) in
  let log := appendAudit (ck_audit c) (gs_policy st) cfg (accept cfg "POLICY_ACCEPTED") (policyRequest (normalised req)) (gs_audit st) in
  let st' := (SendEnvelope g c req st).2 in
  (SendEnvelope g c req st).1
    = Ok {| rs_Decision := DecisionAllow; rs_Reason := "POLICY_ACCEPTED"; rs_Profile := pf_Name (cfg_Profile cfg);
            rs_NodeID := nc_NodeID (cfg_Node (gw_cfg g)); rs_AuditRootHash := RootHash log; rs_PeerAuditRootHash := "" |}
  /\ gs_audit st' = log
  /\ gs_world st' = call (gw_notifier g) (normalised req) (call (gw_onAllow g) (normalised req) (gs_world st)).
Proof.
  intros [Hk Hd] Hf Hp Hfw. cbn zeta. unfold freshKey in Hf. unfold SendEnvelope. cbn zeta. fold (normalised req).
  rewrite (proj2 (str_eqb_neq _ _)) by done. change (env_IsDummy (normalised req)) with (env_IsDummy (sr_Envelope req)). rewrite Hd.
  destruct (dedupCheck _ _ _ _) as [[] idx]; [done|].
  pose proof (Evaluate_Permitted (ck_audit c) (gs_policy st) (gs_crl st) (policyRequest (normalised req)) (gs_audit st) Hp) as He.
  pose proof (Evaluate_log (ck_audit c) (gs_policy st) (gs_crl st) (policyRequest (normalised req)) (gs_audit st)) as Hl.
  destruct (Evaluate _ _ _ _ _) as [res log]. cbn [fst snd] in *. subst res log.
  change (str_eqb (res_Decision (accept _ _)) DecisionAllow) with true. cbn iota.
  unfold forwardAllowed. cbn zeta. rewrite Hfw. by cbn.
Qed.

(** An accepted envelope leaves with the padding of the sender's profile: its gateway
    allows it, and it is not subject to a cutoff window. *)
Record departs `{UnicodeTables} {B F W} (g : Gateway W) (c : CallEnv) (req : SendRequest) (st : GwState B F W) (padded : Envelope) : Prop := {
  dt_real : real req;
  dt_fresh : freshKey g c req st = true;
  dt_permitted : Permitted (en_cfg (gs_policy st))
    (revokedSender (gs_policy st) (gs_crl st) (policyRequest (normalised req))) (policyRequest (normalised req));
  dt_forwards : gw_forwarder g = true;
  dt_jitter : applyJitter c (pf_TimingJitterMax (cfg_Profile (gw_cfg g))) = true;
  dt_padded : applyPadding (normalised req) (pf_PaddingBucket (cfg_Profile (gw_cfg g))) = Some padded;
  dt_schema : env_SchemaType (normalised req) <> Iso20022;
  dt_hint : env_RoutingHint (sr_Envelope req) = ""%string }.

Lemma applyPadding_payload env bucket padded :
  applyPadding env bucket = Some padded -> padded = env \/ exists p k, padded = with_padding p k env.
Proof.
  unfold applyPadding. destruct (_ || _); [intros [= <-]; by left|]. cbn zeta. destruct (padTo _ _); [|done].
  intros [= <-]. right. eauto.
Qed.

(** The sender's answer is what the forwarder reports. *)
Lemma SendEnvelope_departs `{UnicodeTables} {B F W} `{NodeStore B} `{CoreForwarder F} (g : Gateway W) c req (st : GwState B F W)
    padded hash f' :
  departs g c req st padded -> cf_forward padded (gs_fwd st) = (Ok hash, f') ->
  (exists r, (SendEnvelope g c req st).1 = Ok r /\ rs_Decision r = DecisionAllow /\ rs_PeerAuditRootHash r = hash)
  /\ gs_fwd (SendEnvelope g c req st).2 = f'.
Proof.
  intros [[Hk Hd] Hf Hp Hfw Hj Hpad Hs _] Hfwd. pose proof (SendEnvelope_fresh g c req st Hk Hd Hf) as Hfresh. cbn zeta in Hfresh.
  rewrite Evaluate_Permitted in Hfresh by done. destruct Hfresh as [(_ & Hrest & _)|(Hdeny & _)]; [|done].
  unfold forwardAllowed in Hrest. cbn zeta in Hrest. rewrite Hfw, Hj, Hpad, (proj2 (str_eqb_neq _ _) Hs) in Hrest.
  cbn [negb andb] in Hrest. rewrite Hfwd in Hrest. destruct Hrest as ((r & Hr & Hra & _ & Hph) & _ & Hf'). eauto.
Qed.

Section Arrives.
Context `{UnicodeTables} `{Ed25519} `{Jwt} {B : Type} `{NodeStore B} {X : Type} `{CoreForwarder (FwdState X)}.
Context (ask : string -> DRequest -> RunningNode B X -> option DResponse * RunningNode B X).
Context (statusText : RpcError NodeError -> string) (cfg : Config) (sk : ed_PrivateKey).
Implicit Types (w : NodeNet (Corridor B X)).

(** The transport, when the connection holds and the node accepts. *)
Lemma forwardEnvelope_arrives addr env w a n e calls res :
  wire_ready cfg env -> co_peers (nn_net w) !! addr = Some (a, n) -> co_calls (nn_net w) = (Answered, e) :: calls ->
  let next := NextSeq (env_RecipientRegion env) (nn_seqSend w) in
  (sentTo ask a e (attempted cfg sk env next.1) n).1 = Ok res ->
  response_ok (SendEnvelopeRes res) -> wr_Decision res <> "DENY"%string ->
  exists w', forwardEnvelope linkConnect (linkSend ask statusText) cfg sk addr env w = (wr_AuditRootHash res, None, w')
    /\ co_peers (nn_net w') = <[addr := (a, (sentTo ask a e (attempted cfg sk env next.1) n).2)]> (co_peers (nn_net w)).
Proof.
  intros Hready Hp Hc. cbn zeta. unfold forwardEnvelope. pose proof (NextSeq_u64 (env_RecipientRegion env) (nn_seqSend w)) as Hseq.
  destruct (NextSeq _ _) as [seq tr]. cbn [fst] in *. fold (attempted cfg sk env seq). intros Hs Hok Hd.
  assert (linkConnect addr (nn_net w) = (None, nn_net w)) as -> by (unfold linkConnect; by rewrite Hp, Hc).
  unfold linkSend. rewrite Hp, Hc. cbn zeta. rewrite remoteCall_sent by by apply attempted_ok. cbn zeta. rewrite Hs, heard_ok by done.
  unfold clientReads. rewrite (proj2 (str_eqb_neq _ _) Hd). by eexists.
Qed.

(** The node at the other end. *)
Context {Certificate CertPool : Type}.
Context (LoadX509KeyPair : string -> string -> option Certificate).
Context (ReadFile : string -> option string) (CertsFromPEM : string -> option CertPool).
Context (configErrText : ConfigError -> string).
Context (stat : string -> option bool) (open_file : string -> option string) (decode_toml : string -> option rawTOML).
Context (renv : RunEnv (B := B) (X := X)) (peerCfg : Config) (configPath : string).

#[local] Notation startOf := (start LoadX509KeyPair ReadFile CertsFromPEM configErrText stat open_file decode_toml renv peerCfg configPath).

(** What the policy of a node sees of an envelope that was forwarded to it: whatever it
    was at the sender, it is a message. *)
Definition forwardedRequest (env : Envelope) : Request := {|
  rq_SenderNodeID := nc_NodeID (cfg_Node cfg); rq_SenderRegion := env_SenderRegion env;
  rq_RecipientRegion := env_RecipientRegion env; rq_TrustTier := env_TrustTier env;
  rq_SchemaType := Messaging; rq_SchemaVersion := "" |}.

(** The event its subscribers are offered. *)
Definition forwardedEvent (env : Envelope) : Event := {|
  ib_IdempotencyKey := env_IdempotencyKey env; ib_SenderRegion := env_SenderRegion env;
  ib_RecipientRegion := env_RecipientRegion env; ib_TrustTier := env_TrustTier env;
  ib_Payload := nonempty_bytes (env_Payload env); ib_Timestamp := env_Timestamp env |}.

(** A started node without peers of its own takes a forwarded envelope it permits. *)
Lemma sentTo_accepts sd env seq e n :
  startOf.1 = Ok sd -> hasPeers peerCfg = false -> sound n ->
  env_IdempotencyKey env <> ""%string -> env_IsDummy env = false ->
  let engine := gs_policy (gateway_of n) in
  utf8 (pf_Name (cfg_Profile (en_cfg engine))) -> utf8 (nc_NodeID (cfg_Node peerCfg)) ->
  expiry (gs_dedup (gateway_of n)) (env_IdempotencyKey env) = None ->
  Permitted (en_cfg engine) (revokedSender engine (gs_crl (gateway_of n)) (forwardedRequest env)) (forwardedRequest env) ->
  let r := sentTo ask (sd_adapter sd) e (attempted cfg sk env seq) n in
  exists res entry, r.1 = Ok res /\ response_ok (SendEnvelopeRes res) /\ wr_Decision res = DecisionAllow
    /\ wr_AuditRootHash res = RootHash (gs_audit (gateway_of r.2))
    /\ log_entries (gs_audit (gateway_of r.2)) = log_entries (gs_audit (gateway_of n)) ++ [entry]
    /\ ae_Decision entry = DecisionAllow
    /\ wd_inbox (gs_world (gateway_of r.2)) = Publish (forwardedEvent env) (wd_inbox (gs_world (gateway_of n))).
Proof.
  intros (Hv & key & store & server & ->)%start_Ok Hpeers Hn Hk Hd engine Hprofile Hnode Hexp Hperm.
  set (a := sd_adapter _). cbn zeta.
  assert (ga_gw a = wiredGateway renv peerCfg) as Hgw by done.
  set (req := {| sr_Envelope := coreEnvelope (received (attempted cfg sk env seq)) |}).
  destruct (sentTo_gateway ask a e (attempted cfg sk env seq) n eq_refl) as [Hr Hg]. fold req in Hr, Hg.
  destruct (SendEnvelope_accepts (ga_gw a) (rp_call e) req (gateway_of n)) as (Hres & Haudit & Hworld).
  - done.
  - unfold freshKey. rewrite dedupCheck_window, negb_true_iff.
    destruct (SeenOrAddWithTTL _ _ _ _).1 eqn:Es; [|done]. apply SeenOrAddWithTTL_dup in Es as (exp & Hx & _).
    change (env_IdempotencyKey (normalised req)) with (env_IdempotencyKey env) in Hx. congruence.
  - exact Hperm.
  - rewrite Hgw. unfold wiredGateway, wireCallbacks. cbv zeta. destruct (nonempty _); exact Hpeers.
  - rewrite Hres in Hr. rewrite <- Hg in Haudit, Hworld.
    pose proof (so_node _ Hn) as [_ _ Hau _]. fold (gateway_of n) in Hau.
    unfold appendAudit in Haudit, Hr. rewrite Hau in Haudit, Hr. cbn [negb] in Haudit, Hr.
    eexists _, _. split_and!; [exact Hr| |done|by rewrite Haudit|by rewrite Haudit, Append_entries|done|].
    + assert (gw_cfg (ga_gw a) = peerCfg) as Hcfg
        by (rewrite Hgw; unfold wiredGateway, wireCallbacks; cbv zeta; by destruct (nonempty (re_apps renv))).
      cbn [response_ok wireResponse rs_NodeID]. rewrite Hcfg. repeat constructor; try done; try (by apply plain_utf8).
      apply plain_utf8, hashString_shaped.
    + rewrite Hworld, Hgw. unfold wiredGateway, wireCallbacks. cbv zeta. by destruct (nonempty (re_apps renv)).
Qed.

Lemma sentTo_sound sd env seq e n :
  startOf.1 = Ok sd -> sound n -> sound (sentTo ask (sd_adapter sd) e (attempted cfg sk env seq) n).2.
Proof. intros (Hv & key & store & server & ->)%start_Ok Hn. by apply (sound_sent (fun _ => ""%string) (fun _ => ""%string)). Qed.

(** ** From one gateway to another *)

Context (waits : Z -> NodeNet (Corridor B X) -> bool) (during : Z -> Corridor B X -> Corridor B X).
Context (clock : NodeNet (Corridor B X) -> Z) (convert : float64 -> Z).
Context (visit_peers : gmap string PeerConfig -> NodeNet (Corridor B X) -> list (string * PeerConfig)).
Context (visit_entries : gmap string TransitEntry -> NodeNet (Corridor B X) -> list (string * TransitEntry)).
Context (visit_peers_all : forall m w, visit_peers m w ≡ₚ map_to_list m).
Context (visit_entries_all : forall m w, visit_entries m w ≡ₚ map_to_list m).
Context (LoadLocation : string -> option Location) (f : Forwarder).
Context (attempts_pos : 1 <= rp_MaxAttempts (fw_retryPolicy f)).

Definition corridorForwarder : CoreForwarder (FwdState (NodeNet (Corridor B X))) :=
  delivery_forwarder (H := linkRuntime ask statusText cfg sk waits during clock convert visit_peers visit_entries
    visit_peers_all visit_entries_all) LoadLocation f attempts_pos.

#[local] Existing Instance corridorForwarder.

(** C18: An envelope goes through.  A gateway with a forwarder allows an envelope that is
    real traffic, new, permitted, not of type iso20022 and without a routing hint; it
    pads it, and the jitter ends before the context does.  The first peer for its region
    is a started node without peers of its own, which has not seen the key and permits
    the envelope as it arrives, as plain messaging; the connection holds, and the texts
    are UTF-8 and the numbers in range.  Then the sender's caller is answered ALLOW with
    the root of the peer's audit log as it is after the call; the peer's log has exactly
    one entry more, its ALLOW; the peer's subscribers are offered the padded payload; and
    the peer stays sound. *)
Theorem corridor_delivers {BA W} `{NodeStore BA} (g : Gateway W) c req
    (st : GwState BA (FwdState (NodeNet (Corridor B X))) W) padded p rest sd n e calls :
  departs g c req st padded -> wire_ready cfg padded ->
  let net := nn_net (fs_world (gs_fwd st)) in
  PeersFor (pc_AllowVia (cfg_Policy (fw_cfg f)))
    (visit_peers (net_Peers (cfg_Network (fw_cfg f))) (fs_world (gs_fwd st))) (env_RecipientRegion padded) = p :: rest ->
  co_peers net !! peer_Addr p = Some (sd_adapter sd, n) -> co_calls net = (Answered, e) :: calls ->
  startOf.1 = Ok sd -> hasPeers peerCfg = false -> sound n ->
  let engine := gs_policy (gateway_of n) in
  utf8 (pf_Name (cfg_Profile (en_cfg engine))) -> utf8 (nc_NodeID (cfg_Node peerCfg)) ->
  expiry (gs_dedup (gateway_of n)) (env_IdempotencyKey padded) = None ->
  Permitted (en_cfg engine) (revokedSender engine (gs_crl (gateway_of n)) (forwardedRequest padded)) (forwardedRequest padded) ->
  let '(res, st') := SendEnvelope g c req st in
  exists r n' entry, res = Ok r /\ rs_Decision r = DecisionAllow
    /\ co_peers (nn_net (fs_world (gs_fwd st'))) !! peer_Addr p = Some (sd_adapter sd, n')
    /\ rs_PeerAuditRootHash r = RootHash (gs_audit (gateway_of n'))
    /\ log_entries (gs_audit (gateway_of n')) = log_entries (gs_audit (gateway_of n)) ++ [entry]
    /\ ae_Decision entry = DecisionAllow
    /\ wd_inbox (gs_world (gateway_of n')) = Publish (forwardedEvent padded) (wd_inbox (gs_world (gateway_of n)))
    /\ sound n'.
Proof.
  intros Hout Hready net Hpeers Hat Hcalls Hstart Halone Hn engine Hprofile Hnode Hexp Hperm.
  assert (env_IdempotencyKey padded <> ""%string /\ env_IsDummy padded = false /\ env_SchemaType padded <> Iso20022
          /\ env_RoutingHint padded = ""%string) as (Hk & Hd & Hs & Hh).
  { destruct Hout as [[Hk Hd] _ _ _ _ Hpad Hs Hh]. by apply applyPadding_payload in Hpad as [->|(? & ? & ->)]. }
  set (next := NextSeq (env_RecipientRegion padded) (nn_seqSend (fs_world (gs_fwd st)))).
  destruct (sentTo_accepts sd padded next.1 e n Hstart Halone Hn Hk Hd Hprofile Hnode Hexp Hperm)
    as (res & entry & Hres & Hok & Hallow & Hroot & Hlog & Hentry & Hinbox).
  pose proof (sentTo_sound sd padded next.1 e n Hstart Hn) as Hsound.
  destruct (forwardEnvelope_arrives (peer_Addr p) padded (fs_world (gs_fwd st)) (sd_adapter sd) n e calls res) as (w' & Hsend & Hw');
    [done..|by rewrite Hallow|].
  fold next in Hw'. set (n' := (sentTo _ _ _ _ _).2) in *.
  pose proof (Forward_first (H := linkRuntime ask statusText cfg sk waits during clock convert visit_peers visit_entries
    visit_peers_all visit_entries_all) LoadLocation f padded (gs_fwd st) p rest _ w' attempts_pos Hs Hh Hpeers Hsend) as Hfwd.
  change (cf_forward padded (gs_fwd st) = (Ok (wr_AuditRootHash res), {| fs_dlq := fs_dlq (gs_fwd st);
    fs_transit := fs_transit (gs_fwd st); fs_world := w' |})) in Hfwd.
  destruct (SendEnvelope_departs g c req st padded _ _ Hout Hfwd) as ((r & Hr & Hra & Hph) & Hst).
  destruct (SendEnvelope g c req st) as [res0 st']. cbn [fst snd] in *. exists r, n', entry. rewrite Hst. cbn [fs_world].
  rewrite Hw', lookup_insert_eq, Hph, Hroot. done.
Qed.
End Arrives.

(** ** Two nodes and their peers *)

Lemma quiet_refl `{UnicodeTables} `{Ed25519} {B} `{NodeStore B} {X} env deadline (c : Corridor B X) : quiet env deadline c c.
Proof. split_and!; [done..|]. intros addr. destruct (co_peers c !! addr) as [[a n]|]; [|done]. exists n. split; [done|]. by split_and!. Qed.

(** A node without peers. *)
Definition demo_peer_started : Started (H0 := toy_ed25519) (B := unit) (X := Z) (Certificate := unit) (CertPool := unit) :=
  assemble (H0 := toy_ed25519) no_text (fun _ => None) (fun _ => None) (fun _ => None) demo_env demo_cfg ""
    "secret"%string None {| en_cfg := demo_cfg; en_auditing := true; en_hasCRL := true |}
    {| gr_creds := InsecureCredentials; gr_jsonCodec := true |}.

Lemma demo_peer_starts :
  (start (H0 := toy_ed25519) no_pair no_file no_pool no_text (fun _ => None) (fun _ => None) (fun _ => None) demo_env demo_cfg "").1
  = Ok demo_peer_started.
Proof.
  by apply (start_assembles (H0 := toy_ed25519)) with (settings := None) (clientSettings := None); try reflexivity; vm_compute.
Qed.

Definition demo_rpc (t : Z) : RpcEnv := {|
  rp_call := demo_call t;
  rp_discovery := {| de_limit := t; de_stale := t; de_dedup := t; de_issue := t; de_expires := t; de_rand := fun _ => None;
                     de_apps := []; de_users := []; de_peers := [] |};
  rp_lookup := t; rp_mutual := t; rp_ack := t; rp_uuid := ""; rp_clock := fun _ => t; rp_visit := fun _ => [] |}.

Definition no_peer_asked (addr : string) (q : DRequest) (n : RunningNode unit Z) : option DResponse * RunningNode unit Z := (None, n).

(** The demonstration network of [Delivery] with a node at each address. *)
Definition demo_corridor (fates : list Fate) : NodeNet (Corridor unit Z) := {|
  nn_seqSend := NewTracker;
  nn_net := {| co_peers := {[ "ru:7777" := (sd_adapter demo_peer_started, sd_state demo_peer_started);
                              "gl:7777" := (sd_adapter demo_peer_started, sd_state demo_peer_started) ]}%string;
               co_calls := imap (fun i f => (f, demo_rpc (Z.of_nat i * Second))) fates; co_given := [] |} |}.

Definition demo_fwd_state (fates : list Fate) : FwdState (NodeNet (Corridor unit Z)) :=
  {| fs_dlq := Some NewDLQ; fs_transit := None; fs_world := demo_corridor fates |}.

Definition demo_forward (fates : list Fate) (env : Envelope) :=
  Forward (H := linkRuntime (H0 := toy_ed25519) no_peer_asked (fun _ => ""%string) demo_cfg "secret"%string (fun _ _ => true) (fun _ c => c)
    (fun _ => 0) (fun _ => 0) (fun m _ => map_to_list m) (fun m _ => map_to_list m) (fun m _ => Permutation_refl _)
    (fun m _ => Permutation_refl _)) utc_db demo_forwarder env (demo_fwd_state fates).

(** How many times each node processed the envelope, and whether the forwarder reports
    a delivery. *)
Definition demo_processed (fates : list Fate) (env : Envelope) : bool * nat * nat :=
  let '(res, st) := demo_forward fates env in
  let count addr := length (base.filter processed (answersAt addr (co_given (nn_net (fs_world st))))) in
  (match res with Ok _ => true | Err _ => false end, count "ru:7777"%string, count "gl:7777"%string).

(** The answer of the first call is lost and the retry is a duplicate; when all ten
    answers of the first peer are lost, the envelope is processed by two nodes. *)
Example demo_processed_ex :
  let env := mkEnvelope "k" "RS" "RU" "messaging" in
  demo_processed [AnswerLost "reset"; RequestLost "reset"; Answered] env = (true, 1, 0)%nat
  /\ demo_processed (replicate 10 (AnswerLost "reset") ++ [Answered]) env = (true, 1, 1)%nat
  /\ demo_processed (replicate 30 (Unreachable "down")) env = (false, 0, 0)%nat.
Proof. vm_compute. done. Qed.

Lemma plain_ready `{UnicodeTables} cfg env :
  plain (env_IdempotencyKey env) && plain (nc_NodeID (cfg_Node cfg)) && plain (env_SenderRegion env)
  && plain (env_RecipientRegion env) = true ->
  in_u32 (env_TrustTier env) -> in_u32 (env_PaddedTo env) -> in_i64 (env_Timestamp env) -> wire_ready cfg env.
Proof. rewrite !andb_true_iff. intros [[[]]]. split; try done; by apply plain_utf8. Qed.

Lemma demo_corridor_peers fates addr a n :
  co_peers (nn_net (demo_corridor fates)) !! addr = Some (a, n) -> a = sd_adapter demo_peer_started /\ n = sd_state demo_peer_started.
Proof.
  cbn [demo_corridor nn_net co_peers].
  by intros [[_ [= <- <-]]|[_ [_ [= <- <-]]%lookup_singleton_Some]]%lookup_insert_Some.
Qed.

Definition demo_fates : list Fate := [AnswerLost "reset"; RequestLost "reset"; Answered].

Lemma forwarded_once_witness :
  let given := co_given (nn_net (fs_world (demo_forward demo_fates (mkEnvelope "k" "RS" "RU" "messaging")).2)) in
  (length (base.filter processed (answersAt "ru:7777" given)) <= 1)%nat.
Proof.
  pose proof (forwarded_once (H0 := toy_ed25519) no_peer_asked (fun _ => ""%string) demo_cfg "secret"%string
    (mkEnvelope "k" "RS" "RU" "messaging") Hour (fun _ _ => true) (fun _ c => c) (fun _ => 0) (fun _ => 0)
    (fun m _ => map_to_list m) (fun m _ => map_to_list m) (fun m _ => Permutation_refl _) (fun m _ => Permutation_refl _)
    utc_db demo_forwarder (demo_fwd_state demo_fates)) as Ho.
  fold (demo_forward demo_fates (mkEnvelope "k" "RS" "RU" "messaging")) in Ho.
  destruct (demo_forward _ _) as [res st']. cbv zeta in Ho |- *. cbn [snd].
  refine (proj1 (proj1 (Ho _ _ _ _ _ _ _) "ru:7777"%string (sd_adapter demo_peer_started) (sd_state demo_peer_started) _)).
  - discriminate.
  - reflexivity.
  - apply plain_ready; by vm_compute.
  - by vm_compute.
  - intros d c. apply quiet_refl.
  - reflexivity.
  - intros addr a n [-> ->]%demo_corridor_peers. split; [reflexivity|]. split; [apply NewIndex_wf|].
    repeat constructor; vm_compute; done.
  - reflexivity.
Defined.

(** A payload on its way from the demonstration gateway, padded to the bucket of its
    profile. *)
Definition demo_letter_env : Envelope := with_padding "hello" 0 (mkEnvelope "k" "RS" "RU" "messaging").

Definition demo_padded : Envelope :=
  default demo_letter_env (applyPadding demo_letter_env (pf_PaddingBucket (cfg_Profile demo_cfg))).

Definition demo_sender_state : GwState unit (FwdState (NodeNet (Corridor unit Z))) (list string) := {|
  gs_policy := {| en_cfg := demo_cfg; en_auditing := true; en_hasCRL := true |};
  gs_crl := New; gs_audit := NewLog; gs_dedup := NewIndex (pf_DedupTTL (cfg_Profile demo_cfg));
  gs_fwd := demo_fwd_state [Answered]; gs_world := [] |}.

Lemma demo_departs :
  departs (demo_gateway demo_cfg) (demo_call 0) {| sr_Envelope := demo_letter_env |} demo_sender_state demo_padded.
Proof.
  split; try (by vm_compute).
  - apply (Evaluate_allow_Permitted (B := unit) 0 _ _ _ NewLog). vm_compute. reflexivity.
Qed.

Lemma demo_peer_sound : sound (sd_state demo_peer_started).
Proof. apply (assemble_sound (H0 := toy_ed25519)). vm_compute. reflexivity. Qed.

Lemma demo_attempts : 1 <= rp_MaxAttempts (fw_retryPolicy demo_forwarder).
Proof. by vm_compute. Qed.

Lemma corridor_delivers_witness :
  let '(res, st') := SendEnvelope (H1 := corridorForwarder (H0 := toy_ed25519) no_peer_asked (fun _ => ""%string) demo_cfg "secret"%string
      (fun _ _ => true) (fun _ c => c) (fun _ => 0) (fun _ => 0) (fun m _ => map_to_list m) (fun m _ => map_to_list m)
      (fun m _ => Permutation_refl _) (fun m _ => Permutation_refl _) utc_db demo_forwarder demo_attempts)
    (demo_gateway demo_cfg) (demo_call 0) {| sr_Envelope := demo_letter_env |} demo_sender_state in
  exists r (n' : RunningNode unit Z), res = Ok r /\ rs_Decision r = DecisionAllow /\ rs_PeerAuditRootHash r = RootHash (gs_audit (gateway_of n'))
    /\ sound n'.
Proof.
  pose proof (corridor_delivers (H0 := toy_ed25519) no_peer_asked (fun _ => ""%string) demo_cfg "secret"%string
    no_pair no_file no_pool no_text (fun _ => None) (fun _ => None) (fun _ => None) demo_env demo_cfg ""%string
    (fun _ _ => true) (fun _ c => c) (fun _ => 0) (fun _ => 0) (fun m _ => map_to_list m) (fun m _ => map_to_list m)
    (fun m _ => Permutation_refl _) (fun m _ => Permutation_refl _) utc_db demo_forwarder demo_attempts
    (demo_gateway demo_cfg) (demo_call 0) {| sr_Envelope := demo_letter_env |} demo_sender_state demo_padded peer_ru [peer_gl]
    demo_peer_started (sd_state demo_peer_started) (demo_rpc 0) [] demo_departs) as Hc.
  destruct (SendEnvelope _ _ _ _) as [res st'].
  destruct Hc as (r & n' & entry & Hr & Ha & _ & Hroot & _ & _ & _ & Hs).
  - apply plain_ready; vm_compute; done.
  - vm_compute. reflexivity.
  - reflexivity.
  - reflexivity.
  - exact demo_peer_starts.
  - vm_compute. reflexivity.
  - exact demo_peer_sound.
  - apply plain_utf8. vm_compute. reflexivity.
  - apply plain_utf8. vm_compute. reflexivity.
  - vm_compute. reflexivity.
  - apply (Evaluate_allow_Permitted (B := unit) 0 _ _ _ NewLog). vm_compute. reflexivity.
  - exists r, n'. exact (conj Hr (conj Ha (conj Hroot Hs))).
Defined.
